(** * rk-bootinfo: the boot variable store of rk-misc-tools (bootinfo.c)

    A shallow embedding of [bootinfo.c] and of the one helper of [util.c] it
    calls.  Integers are [Z] with the wrap-around of the C type written out
    where the C code can wrap; bytes are [Z] in [0,256); buffers are lists of
    bytes indexed from [0]; multi-byte header fields are little-endian, the
    byte order of the RK356x/RK3588 targets.

    The operating system is modelled by explicit state passing: a [world]
    holds the bytes of the storage device, the file offset of the open device
    descriptor, the advisory lock this process holds on the lockfile, the
    soft read-only switch, the trace of device writes and a mark that is set
    when the program frees a block a second time; a [script] is the
    list of results the kernel gives to the successive fallible system calls
    (negative: the call fails; for [read]/[write] the number of bytes the
    kernel is willing to transfer).  When the script is exhausted every further
    call succeeds in full.  Memory allocation is assumed to succeed.  Once a
    block has been freed twice the behaviour of the C program is undefined:
    what the model returns from then on is what a run in which that call of
    [free] does nothing would return. *)

From Stdlib Require Import ZArith List Lia Bool.
Import ListNotations.
Open Scope Z_scope.

(** ** Byte buffers *)

Module Buf.

Definition zlen (l : list Z) : Z := Z.of_nat (length l).

Definition zeros (n : Z) : list Z := repeat 0 (Z.to_nat n).

(** [sub l off len]: the [len] bytes of [l] starting at offset [off]. *)
Definition sub (l : list Z) (off len : Z) : list Z :=
  firstn (Z.to_nat len) (skipn (Z.to_nat off) l).

Definition byte_at (l : list Z) (off : Z) : Z := nth (Z.to_nat off) l 0.

(** [memcpy dst off src]: [dst] with the bytes of [src] stored from offset
    [off] on. *)
Definition memcpy (dst : list Z) (off : Z) (src : list Z) : list Z :=
  firstn (Z.to_nat off) dst ++ src ++ skipn (Z.to_nat off + length src) dst.

(** The C string that starts at the head of [l]: the bytes before the first
    NUL. *)
Fixpoint strz (l : list Z) : list Z :=
  match l with
  | [] => []
  | b :: r => if b =? 0 then [] else b :: strz r
  end.

(** Little-endian encoding of an unsigned integer on [n] bytes. *)
Fixpoint le_bytes (n : nat) (v : Z) : list Z :=
  match n with
  | O => []
  | S k => v mod 256 :: le_bytes k (v / 256)
  end.

Fixpoint le_val (bs : list Z) : Z :=
  match bs with
  | [] => 0
  | b :: r => b + 256 * le_val r
  end.

(** The offsets [lo, lo + 1, ...] ([n] of them). *)
Fixpoint zrange (lo : Z) (n : nat) : list Z :=
  match n with
  | O => []
  | S k => lo :: zrange (lo + 1) k
  end.

End Buf.

Import Buf.

(** ** zlib's crc32 *)

Module Zlib.

(** One bit of the reflected CRC-32, polynomial 0xEDB88320: the step from
    which zlib builds its table. *)
Definition crc_shift (c : Z) : Z :=
  if Z.testbit c 0 then Z.lxor (Z.shiftr c 1) 0xEDB88320 else Z.shiftr c 1.

(** One [unsigned char] of input. *)
Definition crc_byte (c b : Z) : Z :=
  let c := Z.lxor c (Z.land b 0xFF) in
  crc_shift (crc_shift (crc_shift (crc_shift
    (crc_shift (crc_shift (crc_shift (crc_shift c))))))).

(** [crc32 crc buf]: zlib's [crc32(crc, buf, len)], pre- and post-inverted. *)
Definition crc32 (crc : Z) (buf : list Z) : Z :=
  Z.lxor (fold_left crc_byte buf (Z.lxor crc 0xFFFFFFFF)) 0xFFFFFFFF.

End Zlib.

Import Zlib.

(** ** The operating system *)

Inductive lockmode := Unlocked | LockSh | LockEx.

(** A [write] on the storage device: where, what, and the advisory lock the
    process held at that moment. *)
Record event := EvWrite { ev_off : Z; ev_data : list Z; ev_lock : lockmode }.

Record world := World {
  w_dev : Z -> Z;          (* the bytes of the storage device *)
  w_pos : Z;               (* file offset of the open device descriptor *)
  w_lock : lockmode;       (* flock held through the open lockfile descriptor *)
  w_ro : option bool;      (* sysfs "ro" attribute of the device, if present *)
  w_trace : list event;    (* device writes, newest first *)
  w_fault : bool           (* a block has been freed twice: from then on the
                              behaviour of the C program is undefined *)
}.

Definition script := list Z.

(** The kernel's answer to the next fallible call. *)
Definition GRANT : Z := 0x7FFFFFFF.

Definition respond (s : script) : Z * script :=
  match s with
  | [] => (GRANT, [])
  | r :: s' => (r, s')
  end.

Definition sys_lseek (off : Z) (w : world) : world :=
  World (w_dev w) off (w_lock w) (w_ro w) (w_trace w) (w_fault w).

(** [write] of the bytes [data] at the current offset. *)
Definition sys_write (data : list Z) (w : world) : world :=
  World (fun o => if (w_pos w <=? o) && (o <? w_pos w + zlen data)
                  then byte_at data (o - w_pos w) else w_dev w o)
        (w_pos w + zlen data) (w_lock w) (w_ro w)
        (EvWrite (w_pos w) data (w_lock w) :: w_trace w) (w_fault w).

(** [read] of [cnt] bytes at the current offset. *)
Definition sys_read (cnt : Z) (w : world) : list Z * world :=
  (map (w_dev w) (zrange (w_pos w) (Z.to_nat cnt)),
   World (w_dev w) (w_pos w + cnt) (w_lock w) (w_ro w) (w_trace w) (w_fault w)).

Definition sys_open_dev (w : world) : world :=
  World (w_dev w) 0 (w_lock w) (w_ro w) (w_trace w) (w_fault w).

Definition sys_flock (m : lockmode) (w : world) : world :=
  World (w_dev w) (w_pos w) m (w_ro w) (w_trace w) (w_fault w).

(** Closing the lockfile descriptor drops the lock. *)
Definition sys_close_lock (w : world) : world :=
  World (w_dev w) (w_pos w) Unlocked (w_ro w) (w_trace w) (w_fault w).

(** [free] of a block that has been freed already. *)
Definition sys_free_again (w : world) : world :=
  World (w_dev w) (w_pos w) (w_lock w) (w_ro w) (w_trace w) true.

(** util.c, set_bootdev_writeable_status, for a non-NULL [bootdev]: refuses a
    device name of less than 6 or more than 32 characters; otherwise flips
    the soft read-only switch when the sysfs attribute exists and differs
    from what is asked; returns whether it changed it. *)
Definition set_bootdev_writeable_status (bootdev : list Z)
           (make_writeable : bool) (w : world) : bool * world :=
  if (zlen (strz bootdev) <? 6) || (zlen (strz bootdev) >? 32) then (false, w)
  else
  match w_ro w with
  | None => (false, w)
  | Some ro =>
      let is_writeable := negb ro in
      if Bool.eqb make_writeable is_writeable then (false, w)
      else (true, World (w_dev w) (w_pos w) (w_lock w)
                        (Some (negb make_writeable)) (w_trace w) (w_fault w))
  end.


(** ** Build configuration and on-disk layout *)

(** The compile-time constants of bootinfo.c that a build may override. *)
Class config := Config {
  EXTENSION_SECTOR_COUNT : Z;
  BOOTINFO_STORAGE_OFFSET_A : Z;
  BOOTINFO_STORAGE_OFFSET_B : Z;
  BOOTINFO_STORAGE_DEVICE : list Z     (* the only entry of devinfo_devices *)
}.

Definition DEVICE_MAGIC : list Z := [66; 79; 79; 84; 73; 78; 70; 79].
Definition DEVICE_MAGIC_SIZE : Z := 8.
Definition DEVINFO_VERSION_CURRENT : Z := 4.
Definition MAX_EXTENSION_SECTORS : Z := 1023.
Definition DEVINFO_BLOCK_SIZE : Z := 512.
Definition FLAG_BOOT_IN_PROGRESS : Z := 1.
Definition BOOTINFO_O_RDONLY : Z := 1.
Definition BOOTINFO_O_FORCE_INIT : Z := 2.

(** struct device_info, packed: the byte offset of each field. *)
Definition OFF_MAGIC : Z := 0.
Definition OFF_VERSION : Z := 8.
Definition OFF_FLAGS : Z := 10.
Definition OFF_FAILED_BOOTS : Z := 11.
Definition OFF_CRCSUM : Z := 12.
Definition OFF_SERNUM : Z := 16.
Definition OFF_UNUSED : Z := 17.
Definition OFF_EXT_SECTORS : Z := 18.
Definition DEVINFO_HDR_SIZE : Z := 20.

Record device_info := DeviceInfo {
  magic : list Z;
  devinfo_version : Z;
  flags : Z;
  failed_boots : Z;
  crcsum : Z;
  sernum : Z;
  unused__ : Z;
  ext_sectors : Z
}.

(** The struct read through a [struct device_info *] that points at the first
    byte of [b]. *)
Definition info_of_bytes (b : list Z) : device_info :=
  DeviceInfo (sub b OFF_MAGIC DEVICE_MAGIC_SIZE)
             (le_val (sub b OFF_VERSION 2))
             (byte_at b OFF_FLAGS)
             (byte_at b OFF_FAILED_BOOTS)
             (le_val (sub b OFF_CRCSUM 4))
             (byte_at b OFF_SERNUM)
             (byte_at b OFF_UNUSED)
             (le_val (sub b OFF_EXT_SECTORS 2)).

(** A zero-filled struct, as calloc and memset leave it. *)
Definition info_zero : device_info :=
  DeviceInfo (zeros DEVICE_MAGIC_SIZE) 0 0 0 0 0 0 0.

Definition set_flags (d : device_info) (v : Z) : device_info :=
  DeviceInfo (magic d) (devinfo_version d) v (failed_boots d) (crcsum d)
             (sernum d) (unused__ d) (ext_sectors d).

Definition set_failed_boots (d : device_info) (v : Z) : device_info :=
  DeviceInfo (magic d) (devinfo_version d) (flags d) v (crcsum d)
             (sernum d) (unused__ d) (ext_sectors d).

(** A [char *] held in a variable node: it points either into one of the two
    slot buffers of the context, or at a NUL-terminated string that lives
    outside the context (the caller's argument of bootinfo_bootvar_set, or the
    copy made when variables are preserved). *)
Inductive cptr :=
| InInfobuf (slot : Z) (off : Z)
| Extern (s : list Z).

(** struct info_var; the [next] links are the order of the list. *)
Record info_var := InfoVar { name : cptr; value : cptr }.

Record devinfo_context := Ctx {
  fd : Z;
  lockfd : Z;
  readonly : bool;
  valid0 : bool;
  valid1 : bool;
  current : Z;
  curinfo : device_info;
  vars : list info_var;
  varsize : Z;
  infobuf0 : list Z;
  infobuf1 : list Z;
  devinfo_dev : list Z
}.

Definition infobuf (ctx : devinfo_context) (i : Z) : list Z :=
  if i =? 0 then infobuf0 ctx else infobuf1 ctx.

Definition set_infobuf (ctx : devinfo_context) (i : Z) (b : list Z)
  : devinfo_context :=
  if i =? 0
  then Ctx (fd ctx) (lockfd ctx) (readonly ctx) (valid0 ctx) (valid1 ctx)
           (current ctx) (curinfo ctx) (vars ctx) (varsize ctx) b (infobuf1 ctx)
           (devinfo_dev ctx)
  else Ctx (fd ctx) (lockfd ctx) (readonly ctx) (valid0 ctx) (valid1 ctx)
           (current ctx) (curinfo ctx) (vars ctx) (varsize ctx) (infobuf0 ctx) b
           (devinfo_dev ctx).

Definition set_valid (ctx : devinfo_context) (i : Z) : devinfo_context :=
  if i =? 0
  then Ctx (fd ctx) (lockfd ctx) (readonly ctx) true (valid1 ctx)
           (current ctx) (curinfo ctx) (vars ctx) (varsize ctx)
           (infobuf0 ctx) (infobuf1 ctx) (devinfo_dev ctx)
  else Ctx (fd ctx) (lockfd ctx) (readonly ctx) (valid0 ctx) true
           (current ctx) (curinfo ctx) (vars ctx) (varsize ctx)
           (infobuf0 ctx) (infobuf1 ctx) (devinfo_dev ctx).

Definition set_current (ctx : devinfo_context) (c : Z) (d : device_info)
  : devinfo_context :=
  Ctx (fd ctx) (lockfd ctx) (readonly ctx) (valid0 ctx) (valid1 ctx)
      c d (vars ctx) (varsize ctx) (infobuf0 ctx) (infobuf1 ctx) (devinfo_dev ctx).

Definition set_curinfo (ctx : devinfo_context) (d : device_info)
  : devinfo_context :=
  set_current ctx (current ctx) d.

Definition set_vars (ctx : devinfo_context) (l : list info_var) (sz : Z)
  : devinfo_context :=
  Ctx (fd ctx) (lockfd ctx) (readonly ctx) (valid0 ctx) (valid1 ctx)
      (current ctx) (curinfo ctx) l sz (infobuf0 ctx) (infobuf1 ctx) (devinfo_dev ctx).

Definition set_fds (ctx : devinfo_context) (f l : Z) : devinfo_context :=
  Ctx f l (readonly ctx) (valid0 ctx) (valid1 ctx)
      (current ctx) (curinfo ctx) (vars ctx) (varsize ctx)
      (infobuf0 ctx) (infobuf1 ctx) (devinfo_dev ctx).

(** [strcpy(ctx->devinfo_dev, dev)]. *)
Definition set_devinfo_dev (ctx : devinfo_context) (dev : list Z)
  : devinfo_context :=
  Ctx (fd ctx) (lockfd ctx) (readonly ctx) (valid0 ctx) (valid1 ctx)
      (current ctx) (curinfo ctx) (vars ctx) (varsize ctx)
      (infobuf0 ctx) (infobuf1 ctx) (strz dev).

Definition set_readonly (ctx : devinfo_context) (r : bool) : devinfo_context :=
  Ctx (fd ctx) (lockfd ctx) r (valid0 ctx) (valid1 ctx)
      (current ctx) (curinfo ctx) (vars ctx) (varsize ctx)
      (infobuf0 ctx) (infobuf1 ctx) (devinfo_dev ctx).

(** The bytes a [memcpy] of [n] bytes reads through a pointer. *)
Definition mem_read (ctx : devinfo_context) (p : cptr) (n : Z) : list Z :=
  match p with
  | InInfobuf i off => sub (infobuf ctx i) off n
  | Extern s => sub (s ++ [0]) 0 n
  end.

(** The C string a pointer denotes. *)
Definition cstr (ctx : devinfo_context) (p : cptr) : list Z :=
  match p with
  | InInfobuf i off => strz (skipn (Z.to_nat off) (infobuf ctx i))
  | Extern s => strz s
  end.

Definition strlen (ctx : devinfo_context) (p : cptr) : Z := zlen (cstr ctx p).

(** The (name, value) strings of the variable list, in list order. *)
Definition var_strings (ctx : devinfo_context) : list (list Z * list Z) :=
  map (fun v => (cstr ctx (name v), cstr ctx (value v))) (vars ctx).

(** ** bootinfo.c *)

Section Model.

Context {cfg : config}.

Definition EXTENSION_SIZE : Z := EXTENSION_SECTOR_COUNT * 512.

(** sizeof(ctx->infobuf[i]) *)
Definition INFOBUF_SIZE : Z := DEVINFO_BLOCK_SIZE + EXTENSION_SIZE.

Definition VARSPACE_SIZE : Z :=
  DEVINFO_BLOCK_SIZE + EXTENSION_SIZE - (DEVINFO_HDR_SIZE + 4).

Definition MAX_VALUE_SIZE : Z := VARSPACE_SIZE - 4.

Definition devinfo_offset (i : Z) : Z :=
  if i =? 0 then BOOTINFO_STORAGE_OFFSET_A else BOOTINFO_STORAGE_OFFSET_B.

Definition extension_offset (i : Z) : Z :=
  devinfo_offset i + DEVINFO_BLOCK_SIZE.

(** A context as calloc returns it. *)
Definition ctx_zero : devinfo_context :=
  Ctx 0 0 false false false 0 info_zero [] 0
      (zeros INFOBUF_SIZE) (zeros INFOBUF_SIZE) [].

(** The two scanning loops of parse_vars,
    [for (...; varbytes < remain && *p != 0; p++, varbytes++);]
    where [l] is the buffer from [p] on; the result is the final [varbytes]. *)
Fixpoint scan (l : list Z) (varbytes remain : Z) : Z :=
  match l with
  | [] => varbytes
  | b :: l' =>
      if (varbytes <? remain) && negb (b =? 0)
      then scan l' (varbytes + 1) remain
      else varbytes
  end.

(** The outer loop of parse_vars; [acc] is the list built so far, in reverse
    order of the [next] links. *)
Fixpoint parse_loop (fuel : nat) (buf : list Z) (cur cp remain vsz : Z)
         (acc : list info_var) : list info_var * Z :=
  match fuel with
  | O => (rev acc, vsz)
  | S fuel' =>
      if (remain >? 0) && negb (byte_at buf cp =? 0) then
        let varbytes := scan (skipn (Z.to_nat (cp + 1)) buf) 1 remain in
        if varbytes >=? remain then (rev acc, vsz)
        else
          let endp := cp + varbytes in
          let varbytes :=
            scan (skipn (Z.to_nat (endp + 1)) buf) (varbytes + 1) remain in
          if varbytes >=? remain then (rev acc, vsz)
          else
            let var := InfoVar (InInfobuf cur cp) (InInfobuf cur (endp + 1)) in
            let varbytes := varbytes + 1 in
            parse_loop fuel' buf cur (cp + varbytes) (remain - varbytes)
                       (vsz + varbytes) (var :: acc)
      else (rev acc, vsz)
  end.

Definition parse_vars (ctx : devinfo_context) : Z * devinfo_context :=
  if current ctx <? 0 then (-1, set_vars ctx [] (varsize ctx))
  else
    let remain := INFOBUF_SIZE - (DEVINFO_HDR_SIZE + 4) in
    let '(l, vsz) :=
      parse_loop (Z.to_nat remain) (infobuf ctx (current ctx)) (current ctx)
                 DEVINFO_HDR_SIZE remain 0 [] in
    (0, set_vars ctx l vsz).

(** The loop of pack_vars over the nodes from [l] on. *)
Fixpoint pack_loop (ctx : devinfo_context) (idx : Z) (l : list info_var)
         (cp remain : Z) : Z * devinfo_context :=
  match l with
  | [] =>
      if remain =? 0 then (-1, ctx)
      else (0, set_infobuf ctx idx (memcpy (infobuf ctx idx) cp [0]))
  | var :: l' =>
      if remain >? 0 then
        let nlen := strlen ctx (name var) + 1 in
        let vlen := strlen ctx (value var) + 1 in
        if nlen + vlen >? remain then (-1, ctx)
        else
          let ctx1 :=
            set_infobuf ctx idx
              (memcpy (infobuf ctx idx) cp (mem_read ctx (name var) nlen)) in
          let cp := cp + nlen in
          let remain := remain - nlen in
          let ctx2 :=
            set_infobuf ctx1 idx
              (memcpy (infobuf ctx1 idx) cp (mem_read ctx1 (value var) vlen)) in
          pack_loop ctx2 idx l' (cp + vlen) (remain - vlen)
      else (-1, ctx)
  end.

Definition pack_vars (ctx : devinfo_context) (idx : Z) : Z * devinfo_context :=
  if negb (idx =? 0) && negb (idx =? 1) then (-1, ctx)
  else
    match vars ctx with
    | [] => (0, ctx)
    | _ :: _ =>
        pack_loop ctx idx (vars ctx) DEVINFO_HDR_SIZE
                  (INFOBUF_SIZE - (DEVINFO_HDR_SIZE + 4 + 1))
    end.

(** [for (n = 0; n < size; n += cnt) { cnt = read(fd, &buf[base+n], size-n);
    if (cnt < 0) break; }]: the final [n] and the buffer. *)
Fixpoint read_loop (s : script) (w : world) (buf : list Z) (base n size : Z)
  : Z * list Z * script * world :=
  if n <? size then
    match s with
    | [] =>
        let '(data, w') := sys_read (size - n) w in
        (size, memcpy buf (base + n) data, [], w')
    | r :: s' =>
        if r <? 0 then (n, buf, s', w)
        else
          let cnt := Z.min r (size - n) in
          let '(data, w') := sys_read cnt w in
          read_loop s' w' (memcpy buf (base + n) data) base (n + cnt) size
    end
  else (n, buf, s, w).

(** [for (n = 0; n < size; n += cnt) { cnt = write(fd, buf+base+n, size-n);
    if (cnt < 0) <leave>; }]: the final [n], which is below [size] exactly
    when a write failed. *)
Fixpoint write_loop (s : script) (w : world) (buf : list Z) (base n size : Z)
  : Z * script * world :=
  if n <? size then
    match s with
    | [] => (size, [], sys_write (sub buf (base + n) (size - n)) w)
    | r :: s' =>
        if r <? 0 then (n, s', w)
        else
          let cnt := Z.min r (size - n) in
          write_loop s' (sys_write (sub buf (base + n) cnt) w) buf base
                     (n + cnt) size
    end
  else (n, s, w).

(** memcmp and strcmp report equality; this is the test [== 0]. *)
Fixpoint bytes_eqb (a b : list Z) : bool :=
  match a, b with
  | [], [] => true
  | x :: a', y :: b' => (x =? y) && bytes_eqb a' b'
  | _, _ => false
  end.

(** The body of the loop of find_bootinfo over the two storage offsets; every
    [continue] leaves [valid[i]] clear. *)
Definition load_slot (i : Z) (ctx : devinfo_context) (s : script) (w : world)
  : devinfo_context * script * world :=
  let '(r, s) := respond s in                                  (* lseek *)
  if r <? 0 then (ctx, s, w) else
  let w := sys_lseek (devinfo_offset i) w in
  let '(n, buf, s, w) :=
    read_loop s w (infobuf ctx i) 0 0 DEVINFO_BLOCK_SIZE in
  let ctx := set_infobuf ctx i buf in
  if n <? DEVINFO_BLOCK_SIZE then (ctx, s, w) else
  let dp := info_of_bytes (infobuf ctx i) in
  if negb (bytes_eqb (magic dp) DEVICE_MAGIC) then (ctx, s, w) else
  if devinfo_version dp >=? DEVINFO_VERSION_CURRENT then
    if negb (ext_sectors dp =? EXTENSION_SECTOR_COUNT) then (ctx, s, w) else
    let '(r, s) := respond s in                                (* lseek *)
    if r <? 0 then (ctx, s, w) else
    let w := sys_lseek (extension_offset i) w in
    let '(n, buf, s, w) :=
      read_loop s w (infobuf ctx i) DEVINFO_BLOCK_SIZE 0 EXTENSION_SIZE in
    let ctx := set_infobuf ctx i buf in
    if n <? EXTENSION_SIZE then (ctx, s, w) else
    let crcsum := le_val (sub (infobuf ctx i) (INFOBUF_SIZE - 4) 4) in
    if negb (crc32 0 (sub (infobuf ctx i) DEVINFO_BLOCK_SIZE
                          (EXTENSION_SIZE - 4)) =? crcsum)
    then (ctx, s, w)
    else (set_valid ctx i, s, w)
  else (ctx, s, w).

(** The choice of [ctx->current] at the end of find_bootinfo, when at least
    one slot is valid. *)
Definition choose_current (ctx : devinfo_context) : Z :=
  if valid0 ctx && negb (valid1 ctx) then 0
  else if negb (valid0 ctx) && valid1 ctx then 1
  else
    let dp1 := info_of_bytes (infobuf ctx 1) in
    let dp := info_of_bytes (infobuf ctx 0) in
    if (sernum dp =? 255) && (sernum dp1 =? 0) then 1
    else if (sernum dp1 =? 255) && (sernum dp =? 0) then 0
    else if sernum dp1 >? sernum dp then 1
    else 0.

(** find_bootinfo: the return value and [*ctxp].  Its argument [devinfo_dev]
    is the name find_storage_dev has found, BOOTINFO_STORAGE_DEVICE. *)
Definition find_bootinfo (rdonly : bool) (s : script) (w : world)
  : Z * option devinfo_context * script * world :=
  let ctx := set_readonly ctx_zero rdonly in
  let ctx := set_devinfo_dev ctx BOOTINFO_STORAGE_DEVICE in
  let '(dirfd, s) := respond s in          (* open("/run/rk-bootinfo") *)
  let '(mk, s) := if dirfd <? 0 then respond s else (0, s) in   (* mkdir *)
  if (dirfd <? 0) && (mk <? 0) then
    (* close(ctx->fd) closes descriptor 0 here, not the device *)
    let w := if negb rdonly
             then snd (set_bootdev_writeable_status (devinfo_dev ctx) false w) else w in
    (-1, None, s, w)
  else
  let '(_, s) := if dirfd <? 0 then respond s else (dirfd, s) in (* open *)
  let '(lkfd, s) := respond s in                                 (* openat *)
  if lkfd <? 0 then (-1, None, s, w) else
  let '(r, s) := respond s in                                    (* flock *)
  if r <? 0 then (-1, None, s, sys_close_lock w) else
  let w := sys_flock (if rdonly then LockSh else LockEx) w in
  let w := if negb rdonly
           then snd (set_bootdev_writeable_status (devinfo_dev ctx) true w) else w in
  let '(dfd, s) := respond s in                            (* open device *)
  if dfd <? 0 then
    let w := if negb rdonly
             then snd (set_bootdev_writeable_status (devinfo_dev ctx) false w) else w in
    (-1, None, s, sys_close_lock w)
  else
  let w := sys_open_dev w in
  let ctx := set_fds ctx dfd lkfd in
  let '(ctx, s, w) := load_slot 0 ctx s w in
  let '(ctx, s, w) := load_slot 1 ctx s w in
  if negb (valid0 ctx || valid1 ctx) then
    (-1, Some (set_current ctx (-1) info_zero), s, w)
  else
    let c := choose_current ctx in
    let ctx := set_current ctx c (info_of_bytes (infobuf ctx c)) in
    let '(r, ctx) := parse_vars ctx in
    if r <? 0 then
      let w := if negb (readonly ctx)
               then snd (set_bootdev_writeable_status (devinfo_dev ctx) false w) else w in
      (0, Some (set_readonly ctx true), s, w)
    else (0, Some ctx, s, w).

(** The slot bootinfo_update writes. *)
Definition dest_slot (ctx : devinfo_context) : Z :=
  if (current ctx <? 0) || (current ctx >? 1) then 0 else 1 - current ctx.

(** bootinfo_update, lines 459-465: the header sector of the destination
    buffer is cleared and the header fields are stored through [info]. *)
Definition fill_header (ci : device_info) (buf : list Z) : list Z :=
  let buf := memcpy buf 0 (zeros DEVINFO_BLOCK_SIZE) in             (* memset *)
  let buf := memcpy buf OFF_MAGIC DEVICE_MAGIC in
  let buf := memcpy buf OFF_VERSION (le_bytes 2 DEVINFO_VERSION_CURRENT) in
  let buf := memcpy buf OFF_FLAGS [flags ci] in
  let buf := memcpy buf OFF_FAILED_BOOTS [failed_boots ci] in
  let buf := memcpy buf OFF_SERNUM [(sernum ci + 1) mod 256] in
  memcpy buf OFF_EXT_SECTORS (le_bytes 2 EXTENSION_SECTOR_COUNT).

(** bootinfo_update, lines 468-469: the two checksums, the header's first. *)
Definition store_crcs (buf : list Z) : list Z :=
  let buf := memcpy buf OFF_CRCSUM
               (le_bytes 4 (crc32 0 (sub buf 0 DEVINFO_BLOCK_SIZE))) in
  memcpy buf (INFOBUF_SIZE - 4)
         (le_bytes 4 (crc32 0 (sub buf DEVINFO_BLOCK_SIZE
                                   (EXTENSION_SIZE - 4)))).

(** The header sector and then the extension sectors of [buf] written at the
    offsets of slot [i]: lines 471-484 of bootinfo_update, and one turn of the
    zero-filling loop of bootinfo_open (lines 628-645), where [false] stands
    for [return -1], respectively [break]. *)
Definition write_slot (i : Z) (buf : list Z) (s : script) (w : world)
  : bool * script * world :=
  let '(r, s) := respond s in                                       (* lseek *)
  if r <? 0 then (false, s, w) else
  let w := sys_lseek (devinfo_offset i) w in
  let '(n, s, w) := write_loop s w buf 0 0 DEVINFO_BLOCK_SIZE in
  if n <? DEVINFO_BLOCK_SIZE then (false, s, w) else
  let '(r, s) := respond s in                                       (* lseek *)
  if r <? 0 then (false, s, w) else
  let w := sys_lseek (extension_offset i) w in
  let '(n, s, w) := write_loop s w buf DEVINFO_BLOCK_SIZE 0 EXTENSION_SIZE in
  if n <? EXTENSION_SIZE then (false, s, w) else
  (true, s, w).

(** bootinfo_update, for a non-NULL context. *)
Definition bootinfo_update (ctx : devinfo_context) (s : script) (w : world)
  : Z * devinfo_context * script * world :=
  if readonly ctx then (-1, ctx, s, w) else
  let idx := dest_slot ctx in
  let ctx := set_infobuf ctx idx (fill_header (curinfo ctx) (infobuf ctx idx)) in
  let '(r, ctx) := pack_vars ctx idx in
  if r <? 0 then (-1, ctx, s, w) else
  let ctx := set_infobuf ctx idx (store_crcs (infobuf ctx idx)) in
  let '(ok, s, w) := write_slot idx (infobuf ctx idx) s w in
  if ok then (0, ctx, s, w) else (-1, ctx, s, w).

(** close_bootinfo, for a non-NULL context: the lock descriptor it hands
    back. *)
Definition close_bootinfo (ctx : devinfo_context) (keeplock : bool) (w : world)
  : Z * world :=
  let w := if negb (readonly ctx)
           then snd (set_bootdev_writeable_status (devinfo_dev ctx) false w)
           else w in
  (* close(ctx->fd) *)
  if keeplock then (lockfd ctx, w)
  else if lockfd ctx >=? 0 then (-1, sys_close_lock w)
  else (-1, w).

Definition bootinfo_close (ctx : devinfo_context) (w : world) : world :=
  snd (close_bootinfo ctx false w).

(** [*p], the byte a pointer points at. *)
Definition deref (ctx : devinfo_context) (p : cptr) : Z :=
  hd 0 (mem_read ctx p 1).

(** The loop of bootinfo_open that copies the variables whose name begins
    with an underscore; each copy owns its two strings. *)
Fixpoint preserve (ctx : devinfo_context) (l : list info_var)
  : list info_var :=
  match l with
  | [] => []
  | var :: l' =>
      if deref ctx (name var) =? 95 then
        InfoVar (Extern (cstr ctx (name var)))
                (Extern (cstr ctx (value var))) :: preserve ctx l'
      else preserve ctx l'
  end.

(** The [error_depart] exit of bootinfo_open.  [stale] says that [ctx] is
    not NULL there: it then still points at the context of find_bootinfo,
    which close_bootinfo has freed, and [free(ctx)] frees it again. *)
Definition error_depart (stale : bool) (lkfd : Z) (reset_bootdev : bool)
           (s : script) (w : world)
  : Z * option devinfo_context * script * world :=
  let w := if lkfd >=? 0 then sys_close_lock w else w in
  let w := if reset_bootdev
           then snd (set_bootdev_writeable_status BOOTINFO_STORAGE_DEVICE false w)
           else w in
  let w := if stale then sys_free_again w else w in
  (-1, None, s, w).

(** bootinfo_open, lines 589-664: the initialization code.  [octx] is the
    context find_bootinfo left, if any. *)
Definition reinitialize (octx : option devinfo_context) (s : script) (w : world)
  : Z * option devinfo_context * script * world :=
  let '(preserve_list, lkfd, w) :=
    match octx with
    | Some ctx =>
        let pl := preserve ctx (vars ctx) in
        let '(lkfd, w) := close_bootinfo ctx true w in
        (pl, lkfd, w)
    | None => ([], -1, w)
    end in
  let stale := match octx with Some _ => true | None => false end in
  let buf := zeros (DEVINFO_BLOCK_SIZE + EXTENSION_SIZE) in
  let '(reset_bootdev, w) :=
    set_bootdev_writeable_status BOOTINFO_STORAGE_DEVICE true w in
  let '(dfd, s) := respond s in                            (* open device *)
  if dfd <? 0 then error_depart stale lkfd reset_bootdev s w else
  let w := sys_open_dev w in
  let '(ok, s, w) := write_slot 0 buf s w in
  let '(ok, s, w) := if ok then write_slot 1 buf s w else (false, s, w) in
  if negb ok then error_depart stale lkfd reset_bootdev s w else
  let ctx :=
    set_vars (set_current (set_fds ctx_zero dfd lkfd) (-1) info_zero)
             preserve_list 0 in
  let '(r, ctx, s, w) := bootinfo_update ctx s w in
  (r, Some ctx, s, w).

(** bootinfo_open, for a non-NULL [ctxp]: the return value and [*ctxp]. *)
Definition bootinfo_open (oflags : Z) (s : script) (w : world)
  : Z * option devinfo_context * script * world :=
  if negb (Z.land oflags BOOTINFO_O_RDONLY =? 0)
     && negb (Z.land oflags BOOTINFO_O_FORCE_INIT =? 0)
  then (-1, None, s, w) else
  let '(r, s) := respond s in             (* find_storage_dev: access() *)
  if r <? 0 then (-1, None, s, w) else
  if negb (Z.land oflags BOOTINFO_O_RDONLY =? 0) then find_bootinfo true s w
  else
  let '(r, octx, s, w) := find_bootinfo false s w in
  match octx with
  | Some ctx =>
      if (r =? 0) && (Z.land oflags BOOTINFO_O_FORCE_INIT =? 0)
      then (0, Some ctx, s, w)
      else reinitialize octx s w
  | None => reinitialize octx s w
  end.

(** bootinfo_mark_successful, for a non-NULL context: the return value, the
    value stored through [failed_boot_count] (if stored) and the context. *)
Definition bootinfo_mark_successful (ctx : devinfo_context) (s : script)
           (w : world) : Z * option Z * devinfo_context * script * world :=
  if readonly ctx then (-1, None, ctx, s, w) else
  let ci := curinfo ctx in
  let ci := set_flags ci (Z.land (flags ci) (255 - FLAG_BOOT_IN_PROGRESS)) in
  let cnt := failed_boots ci in
  let ci := set_failed_boots ci 0 in
  let '(ret, ctx, s, w) := bootinfo_update (set_curinfo ctx ci) s w in
  (ret, Some cnt, ctx, s, w).

(** bootinfo_mark_in_progress, likewise. *)
Definition bootinfo_mark_in_progress (ctx : devinfo_context) (s : script)
           (w : world) : Z * option Z * devinfo_context * script * world :=
  if readonly ctx then (-1, None, ctx, s, w) else
  let ci := curinfo ctx in
  let ci :=
    if negb (Z.land (flags ci) FLAG_BOOT_IN_PROGRESS =? 0)
    then set_failed_boots ci ((failed_boots ci + 1) mod 256)
    else set_flags ci (Z.lor (flags ci) FLAG_BOOT_IN_PROGRESS) in
  let cnt := failed_boots ci in
  let '(ret, ctx, s, w) := bootinfo_update (set_curinfo ctx ci) s w in
  (ret, Some cnt, ctx, s, w).

Definition bootinfo_is_in_progress (ctx : devinfo_context) : Z :=
  if negb (Z.land (flags (curinfo ctx)) FLAG_BOOT_IN_PROGRESS =? 0)
  then 1 else 0.

Definition bootinfo_failed_boot_count (ctx : devinfo_context) : Z :=
  failed_boots (curinfo ctx).

(** bootinfo_bootvar_get through bootinfo_bootvar_iterate: the value pointer
    of the first node whose name compares equal, or [None] for ENOENT. *)
Fixpoint bootvar_lookup (ctx : devinfo_context) (l : list info_var)
         (nm : list Z) : option cptr :=
  match l with
  | [] => None
  | var :: l' =>
      if bytes_eqb nm (cstr ctx (name var)) then Some (value var)
      else bootvar_lookup ctx l' nm
  end.

Definition bootinfo_bootvar_get (ctx : devinfo_context) (nm : list Z)
  : option (list Z) :=
  option_map (cstr ctx) (bootvar_lookup ctx (vars ctx) nm).

(** <ctype.h> in the C locale. *)
Definition isalpha (c : Z) : bool :=
  ((65 <=? c) && (c <=? 90)) || ((97 <=? c) && (c <=? 122)).

Definition isalnum (c : Z) : bool :=
  isalpha c || ((48 <=? c) && (c <=? 57)).

Definition isprint (c : Z) : bool := (32 <=? c) && (c <=? 126).

Inductive errno := EINVAL | EROFS | ENOENT | ENAMETOOLONG | EMSGSIZE.

(** The search loop of bootinfo_bootvar_set and what follows it, on the nodes
    from [l] on: the new list, or [None] when the variable to delete is not
    there. *)
Fixpoint set_walk (ctx : devinfo_context) (l : list info_var) (nm : list Z)
         (val : option (list Z)) : option (list info_var) :=
  match l with
  | [] =>
      match val with
      | None => None
      | Some v => Some [InfoVar (Extern nm) (Extern v)]
      end
  | var :: l' =>
      if bytes_eqb (strz nm) (cstr ctx (name var)) then
        match val with
        | None => Some l'
        | Some v => Some (InfoVar (name var) (Extern v) :: l')
        end
      else option_map (cons var) (set_walk ctx l' nm val)
  end.

(** bootinfo_bootvar_set, for a non-NULL context and name; [val = None] is a
    NULL value pointer.  The return value, errno when it is set, and the
    context. *)
Definition bootinfo_bootvar_set (ctx : devinfo_context) (nm : list Z)
           (val : option (list Z)) : Z * option errno * devinfo_context :=
  if readonly ctx then (-1, Some EROFS, ctx) else
  let val :=
    match val with
    | Some v => if hd 0 (strz v) =? 0 then None else Some v
    | None => None
    end in
  let c0 := hd 0 (strz nm) in
  if negb (c0 =? 95) && negb (isalpha c0) then (-1, Some EINVAL, ctx) else
  if negb (forallb (fun c => (c =? 95) || isalnum c) (tl (strz nm)))
  then (-1, Some EINVAL, ctx) else
  if negb (match val with
           | Some v => forallb isprint (strz v)
           | None => true
           end)
  then (-1, Some EINVAL, ctx) else
  if zlen (strz nm) >=? DEVINFO_BLOCK_SIZE then (-1, Some ENAMETOOLONG, ctx)
  else
  if match val with
     | Some v =>
         let vallen := zlen (strz v) in
         let sz := zlen (strz nm) + vallen + 2 in
         (vallen >=? MAX_VALUE_SIZE) || (varsize ctx + sz >? MAX_VALUE_SIZE)
     | None => false
     end
  then (-1, Some EMSGSIZE, ctx) else
  match set_walk ctx (vars ctx) nm val with
  | None => (-1, Some ENOENT, ctx)
  | Some l => (0, None, set_vars ctx l (varsize ctx))
  end.

End Model.

(** ** Sample configurations, devices and inputs *)

(** The configuration of the source as it stands: 1023 extension sectors,
    slot A at offset 0 and slot B right after it. *)
Definition storage_dev : list Z :=
  [47; 100; 101; 118; 47; 109; 109; 99; 98; 108; 107; 48; 98; 111; 111; 116; 49].

Definition default_config : config :=
  Config 1023 0 (512 + 1023 * 512) storage_dev.

(** The smallest configuration the [#if] check of the source admits, with the
    offset the CMake build passes for slot A. *)
Definition small_config : config :=
  Config 1 0x80000 (0x80000 + 512 + 512) storage_dev.

(** What a configuration must satisfy: the range the source checks by
    [#error], and two slots that do not overlap. *)
Definition config_ok (cfg : config) : Prop :=
  1 <= EXTENSION_SECTOR_COUNT <= MAX_EXTENSION_SECTORS /\
  0 <= BOOTINFO_STORAGE_OFFSET_A /\ 0 <= BOOTINFO_STORAGE_OFFSET_B /\
  (BOOTINFO_STORAGE_OFFSET_A + INFOBUF_SIZE <= BOOTINFO_STORAGE_OFFSET_B \/
   BOOTINFO_STORAGE_OFFSET_B + INFOBUF_SIZE <= BOOTINFO_STORAGE_OFFSET_A).

(** A device full of zero bytes, no lock held, no sysfs switch. *)
Definition blank_world : world := World (fun _ => 0) 0 Unlocked None [] false.

(** ** Vocabulary of the statements *)

(** [w'] extends the trace of [w] by writes that all happened under the lock
    [m]. *)
Definition trace_ext (m : lockmode) (w w' : world) : Prop :=
  exists evs, w_trace w' = evs ++ w_trace w /\
              Forall (fun e => ev_lock e = m) evs.

(** The packed form of a list of (name, value) strings, without the byte that
    ends the list. *)
Fixpoint serialize (l : list (list Z * list Z)) : list Z :=
  match l with
  | [] => []
  | (n, v) :: r => n ++ [0] ++ v ++ [0] ++ serialize r
  end.

(** A pointer that stays clear of buffer [idx]. *)
Definition clear_of (idx : Z) (p : cptr) : Prop :=
  match p with
  | InInfobuf i _ => (i =? 0) <> (idx =? 0)
  | Extern _ => True
  end.

(** The string a pointer denotes ends with a NUL inside its buffer. *)
Definition terminated (ctx : devinfo_context) (p : cptr) : Prop :=
  match p with
  | InInfobuf i off => 0 <= off /\ In 0 (skipn (Z.to_nat off) (infobuf ctx i))
  | Extern _ => True
  end.

(** The nodes parse_loop makes point at NUL-terminated strings of the
    buffer it reads. *)
Definition parsed_ptr (buf : list Z) (cur : Z) (v : info_var) : Prop :=
  exists offn offv,
    name v = InInfobuf cur offn /\ value v = InInfobuf cur offv /\
    0 <= offn /\ 0 <= offv /\
    In 0 (skipn (Z.to_nat offn) buf) /\ In 0 (skipn (Z.to_nat offv) buf).

(** The name begins with an underscore. *)
Definition underscore (nv : list Z * list Z) : bool := hd 0 (fst nv) =? 95.

(** A C string: no NUL byte inside. *)
Definition nonul (s : list Z) : Prop := ~ In 0 s.

Section Vocabulary.

Context {cfg : config}.

(** The byte offsets of slot [i] on the device. *)
Definition in_slot (i o : Z) : Prop :=
  devinfo_offset i <= o < devinfo_offset i + INFOBUF_SIZE.

(** The bytes of slot [i] as they are on the device. *)
Definition dev_slot (w : world) (i : Z) : list Z :=
  map (w_dev w) (zrange (devinfo_offset i) (Z.to_nat INFOBUF_SIZE)).

(** The twenty bytes of struct device_info that bootinfo_update builds from
    the in-memory header [ci], before the header checksum is stored. *)
Definition header_bytes (ci : device_info) : list Z :=
  DEVICE_MAGIC ++ le_bytes 2 DEVINFO_VERSION_CURRENT
  ++ [flags ci; failed_boots ci] ++ [0; 0; 0; 0]
  ++ [(sernum ci + 1) mod 256; 0] ++ le_bytes 2 EXTENSION_SECTOR_COUNT.

(** What find_bootinfo requires of a slot image to set [valid[i]]. *)
Definition slot_valid (b : list Z) : bool :=
  bytes_eqb (magic (info_of_bytes b)) DEVICE_MAGIC
  && (devinfo_version (info_of_bytes b) >=? DEVINFO_VERSION_CURRENT)
  && (ext_sectors (info_of_bytes b) =? EXTENSION_SECTOR_COUNT)
  && (crc32 0 (sub b DEVINFO_BLOCK_SIZE (EXTENSION_SIZE - 4))
      =? le_val (sub b (INFOBUF_SIZE - 4) 4)).

(** A pointer of a variable node is sound when it points at a NUL-terminated
    string and not into the buffer that bootinfo_update rewrites: into the
    buffer of the current slot, or outside the context. *)
Definition ptr_ok (ctx : devinfo_context) (p : cptr) : Prop :=
  match p with
  | InInfobuf i off =>
      i = current ctx /\ (current ctx = 0 \/ current ctx = 1) /\ 0 <= off /\
      In 0 (skipn (Z.to_nat off) (infobuf ctx i))
  | Extern _ => True
  end.

(** The environment never fails a call: every result of the script is
    non-negative (short reads and writes are allowed). *)
Definition cooperative (s : script) : Prop := Forall (fun r => 0 <= r) s.

(** The invariant of a context: both slot buffers have their size, and the
    pointers of the variable list are sound. *)
Definition ctx_ok (ctx : devinfo_context) : Prop :=
  (zlen (infobuf ctx 0) = INFOBUF_SIZE /\ zlen (infobuf ctx 1) = INFOBUF_SIZE) /\
  Forall (fun v => ptr_ok ctx (name v) /\ ptr_ok ctx (value v)) (vars ctx).

(** The context find_bootinfo hands to bootinfo_open in a write-mode open
    that got past find_storage_dev, if it hands one. *)
Definition open_found (s : script) (w : world) : option devinfo_context :=
  snd (fst (fst (find_bootinfo false (snd (respond s)) w))).

(** The variables that were in memory when the initialization code ran. *)
Definition found_strings (s : script) (w : world) : list (list Z * list Z) :=
  match open_found s w with
  | Some c => var_strings c
  | None => []
  end.

(** The context the initialization code starts from. *)
Definition fresh_context (octx : option devinfo_context) (dfd : Z)
  : devinfo_context :=
  set_vars (set_current
              (set_fds ctx_zero dfd
                 (match octx with Some c => lockfd c | None => -1 end))
              (-1) info_zero)
           (match octx with Some c => preserve c (vars c) | None => [] end) 0.

(** The boot state the two mark operations act on. *)
Definition boot_state (ctx : devinfo_context) : Z * Z :=
  (bootinfo_is_in_progress ctx, bootinfo_failed_boot_count ctx).

(** [k] consecutive calls of bootinfo_mark_in_progress. *)
Fixpoint mark_in_progress_times (k : nat) (ctx : devinfo_context) (s : script)
         (w : world) : devinfo_context * script * world :=
  match k with
  | O => (ctx, s, w)
  | S k' =>
      let '(_, _, ctx1, s1, w1) := bootinfo_mark_in_progress ctx s w in
      mark_in_progress_times k' ctx1 s1 w1
  end.

End Vocabulary.

(** ** The invariant, as a check that runs *)

Section Checks.

Context {cfg : config}.

Definition ptr_okb (ctx : devinfo_context) (p : cptr) : bool :=
  match p with
  | InInfobuf i off =>
      (i =? current ctx) && ((current ctx =? 0) || (current ctx =? 1))
      && (0 <=? off)
      && existsb (Z.eqb 0) (skipn (Z.to_nat off) (infobuf ctx i))
  | Extern _ => true
  end.

Definition ctx_okb (ctx : devinfo_context) : bool :=
  (zlen (infobuf ctx 0) =? INFOBUF_SIZE) && (zlen (infobuf ctx 1) =? INFOBUF_SIZE)
  && forallb (fun v => ptr_okb ctx (name v) && ptr_okb ctx (value v)) (vars ctx).

End Checks.

(** ** Sample sessions

    A build with one extension sector and the offsets of CMakeLists.txt, on a
    device that starts out blank, in an environment that fails no call. *)

Definition ascii_x : Z := 120.
Definition ascii_y : Z := 121.

(** The context and the world a call of bootinfo_open or find_bootinfo
    leaves. *)
Definition ctx_of (r : Z * option devinfo_context * script * world)
  : devinfo_context :=
  match snd (fst (fst r)) with
  | Some c => c
  | None => @ctx_zero small_config
  end.

(** First session: a write-mode open initializes the store. *)
Abbreviation first_open := (@bootinfo_open small_config 0 [] blank_world).
Definition first_ctx : devinfo_context := ctx_of first_open.
Definition first_world : world := snd first_open.

(** [foo=bar] and [_k=1] are set, the store is updated and closed. *)
Definition first_set : devinfo_context :=
  snd (@bootinfo_bootvar_set small_config
         (snd (@bootinfo_bootvar_set small_config first_ctx
                 [102; 111; 111] (Some [98; 97; 114])))
         [95; 107] (Some [49])).
Abbreviation first_update := (@bootinfo_update small_config first_set [] first_world).
Definition closed_world : world :=
  bootinfo_close (snd (fst (fst first_update))) (snd first_update).

(** Second session: a write-mode open finds slot 0; two updates follow. *)
Abbreviation second_open := (@bootinfo_open small_config 0 [] closed_world).
Definition second_ctx : devinfo_context := ctx_of second_open.
Definition second_world : world := snd second_open.
Abbreviation second_update :=
  (@bootinfo_update small_config second_ctx [] second_world).
Definition updated_ctx : devinfo_context := snd (fst (fst second_update)).
Definition updated_world : world := snd second_update.
Abbreviation third_update :=
  (@bootinfo_update small_config updated_ctx [] updated_world).

(** A session that re-initializes the store of the first one. *)
Abbreviation force_open :=
  (@bootinfo_open small_config BOOTINFO_O_FORCE_INIT [] closed_world).

(** A write-mode open on the blank device in which flock fails: access,
    open of the directory and openat of the lockfile succeed. *)
Definition unlocked_script : script := [0; 3; 4; -1].
Abbreviation unlocked_open :=
  (@bootinfo_open small_config 0 unlocked_script blank_world).

(** Two sets in the first session, each within the limits on its own. *)
Abbreviation big_set_a :=
  (@bootinfo_bootvar_set small_config first_ctx [97] (Some (repeat ascii_x 600))).
Abbreviation big_set_b :=
  (@bootinfo_bootvar_set small_config (snd big_set_a) [98]
     (Some (repeat ascii_y 600))).

(** Two sets in the first session after which the list, with the byte that
    ends it, fills the variable area exactly. *)
Abbreviation full_set_a :=
  (@bootinfo_bootvar_set small_config first_ctx [97] (Some (repeat ascii_x 400))).
Abbreviation full_set_b :=
  (@bootinfo_bootvar_set small_config (snd full_set_a) [98]
     (Some (repeat ascii_y 593))).

(** What pack_vars makes of the destination buffer of the second session,
    and a context without variables whose buffer of that slot holds these
    bytes. *)
Definition packed_ctx : devinfo_context :=
  snd (@pack_vars small_config
         (set_infobuf second_ctx (dest_slot second_ctx)
            (@fill_header small_config (curinfo second_ctx)
               (infobuf second_ctx (dest_slot second_ctx))))
         (dest_slot second_ctx)).
Definition reader_ctx : devinfo_context :=
  set_current
    (set_infobuf (@ctx_zero small_config) (dest_slot second_ctx)
       (infobuf packed_ctx (dest_slot second_ctx)))
    (dest_slot second_ctx) info_zero.

(** The second session is closed after its update; a read-only load
    follows. *)
Abbreviation reclosed_world := (bootinfo_close updated_ctx updated_world).
Abbreviation third_find := (@find_bootinfo small_config true [] reclosed_world).

(** ** Tactics *)

(** Splits the conjunctions of the goal, and nothing else. *)
Ltac splits := repeat match goal with |- _ /\ _ => split end.

(** Case analysis on the integer comparisons of the goal. *)
Ltac zcases :=
  repeat match goal with
         | |- context [?a <=? ?b] => destruct (Z.leb_spec a b)
         | |- context [?a <? ?b] => destruct (Z.ltb_spec a b)
         end; cbn [andb orb negb].

(** ** The variable list as an association list *)

(** The value of the first pair whose name is [k]. *)
Fixpoint assoc_get (k : list Z) (l : list (list Z * list Z)) : option (list Z) :=
  match l with
  | [] => None
  | (k', v') :: r => if bytes_eqb k k' then Some v' else assoc_get k r
  end.

(** [v] stored under [k]: in place of the value of the first pair named [k],
    or in a new pair at the end. *)
Fixpoint assoc_set (k v : list Z) (l : list (list Z * list Z))
  : list (list Z * list Z) :=
  match l with
  | [] => [(k, v)]
  | (k', v') :: r =>
      if bytes_eqb k k' then (k', v) :: r else (k', v') :: assoc_set k v r
  end.

(** The list without the first pair named [k]. *)
Fixpoint assoc_del (k : list Z) (l : list (list Z * list Z))
  : list (list Z * list Z) :=
  match l with
  | [] => []
  | (k', v') :: r => if bytes_eqb k k' then r else (k', v') :: assoc_del k r
  end.

(** A name bootinfo_bootvar_set accepts: a letter or an underscore, then
    letters, digits and underscores. *)
Definition name_ok (nm : list Z) : Prop :=
  nm <> [] /\ ((hd 0 nm =? 95) || isalpha (hd 0 nm)) = true /\
  forallb (fun c => (c =? 95) || isalnum c) (tl nm) = true.

(** A variable as bootinfo_bootvar_set makes them: such a name, and a value
    of printable characters that is not empty. *)
Definition var_ok (nv : list Z * list Z) : Prop :=
  name_ok (fst nv) /\ snd nv <> [] /\ forallb isprint (snd nv) = true.

(** The value is a request to delete: NULL, or the empty string. *)
Definition deleting (val : option (list Z)) : Prop :=
  match val with
  | Some v => strz v = []
  | None => True
  end.

(** The device holds bytes. *)
Definition byte_world (w : world) : Prop := forall o, 0 <= w_dev w o < 256.

(** ** The rest of bootinfo.c, and its callers in rk-bootinfo.c *)

Section Callers.

Context {cfg : config}.

(** The serial-number byte of each slot of the device is a byte. *)
Definition byte_serials (w : world) : Prop :=
  forall i, 0 <= sernum (info_of_bytes (dev_slot w i)) < 256.

(** The variables fit: bootinfo_update can pack them. *)
Definition fits (ctx : devinfo_context) : Prop :=
  zlen (serialize (var_strings ctx)) + 2 <= VARSPACE_SIZE.

(** The state of the store a context was loaded from, or has initialized:
    the current slot is valid on the device and carries the serial number of
    the in-memory header, a uint8_t; or there is no current slot and slot 1
    of the device is not valid. *)
Definition in_step (ctx : devinfo_context) (w : world) : Prop :=
  0 <= sernum (curinfo ctx) < 256 /\
  (((current ctx = 0 \/ current ctx = 1) /\
    slot_valid (dev_slot w (current ctx)) = true /\
    sernum (info_of_bytes (dev_slot w (current ctx))) = sernum (curinfo ctx)) \/
   ((current ctx < 0 \/ current ctx > 1) /\ slot_valid (dev_slot w 1) = false)).

(** A context in working order for a write session on the device [w]. *)
Definition session_ok (ctx : devinfo_context) (w : world) : Prop :=
  readonly ctx = false /\ ctx_ok ctx /\
  Forall (fun v => cstr ctx (name v) <> []) (vars ctx) /\
  in_step ctx w /\ byte_serials w.

Definition bootinfo_devinfo_version (ctx : devinfo_context) : Z :=
  devinfo_version (curinfo ctx).

Definition bootinfo_extension_sectors (ctx : devinfo_context) : Z :=
  ext_sectors (curinfo ctx).

(** bootinfo_bootvar_iterate, for non-NULL arguments.  The node
    [*itercontext] points at is given by the list from that node on, [[]]
    for NULL; the result is the new [*itercontext] and [*name], [*value]
    ([None] for NULL). *)
Definition bootinfo_bootvar_iterate (ctx : devinfo_context)
           (iter : list info_var) : list info_var * option (cptr * cptr) :=
  let var := match iter with
             | [] => vars ctx
             | _ :: next => next
             end in
  (var, match var with
        | [] => None
        | v :: _ => Some (name v, value v)
        end).

(** The loop of bootinfo_bootvar_get and of show_bootvar over
    bootinfo_bootvar_iterate, from [*itercontext = iter] on: the (name,
    value) pointers it visits, in order, until [vname] is NULL. *)
Fixpoint iterate_all (fuel : nat) (ctx : devinfo_context) (iter : list info_var)
  : list (cptr * cptr) :=
  match fuel with
  | O => []
  | S fuel' =>
      let '(iter', nv) := bootinfo_bootvar_iterate ctx iter in
      match nv with
      | None => []
      | Some p => p :: iterate_all fuel' ctx iter'
      end
  end.

Definition MAX_BOOT_FAILURES : Z := 3.

(** rk-bootinfo.c, boot_devinfo_init: the exit status. *)
Definition boot_devinfo_init (force_init : bool) (s : script) (w : world)
  : Z * script * world :=
  let '(r, octx, s, w) :=
    bootinfo_open (if force_init then BOOTINFO_O_FORCE_INIT else 0) s w in
  if r <? 0 then (1, s, w) else
  match octx with
  | Some ctx => (0, s, bootinfo_close ctx w)
  | None => (0, s, w)
  end.

(** boot_successful: the exit status and the count it prints. *)
Definition boot_successful (s : script) (w : world)
  : Z * option Z * script * world :=
  let '(r, octx, s, w) := bootinfo_open 0 s w in
  if r <? 0 then (1, None, s, w) else
  match octx with
  | None => (1, None, s, w)          (* bootinfo_mark_successful(NULL) fails *)
  | Some ctx =>
      let '(r, cnt, ctx, s, w) := bootinfo_mark_successful ctx s w in
      if r <? 0 then (1, None, s, bootinfo_close ctx w)
      else (0, cnt, s, bootinfo_close ctx w)
  end.

(** boot_check_status: the exit status. *)
Definition boot_check_status (s : script) (w : world) : Z * script * world :=
  let '(r, octx, s, w) := bootinfo_open 0 s w in
  if r <? 0 then (1, s, w) else
  match octx with
  | None => (1, s, w)               (* bootinfo_mark_in_progress(NULL) fails *)
  | Some ctx =>
      let '(r, cnt, ctx, s, w) := bootinfo_mark_in_progress ctx s w in
      if r <? 0 then (1, s, bootinfo_close ctx w)
      else
        let failed_boots := match cnt with Some n => n | None => 0 end in
        if failed_boots >=? MAX_BOOT_FAILURES then
          let '(_, _, ctx, s, w) := bootinfo_mark_successful ctx s w in
          (77, s, bootinfo_close ctx w)
        else (0, s, bootinfo_close ctx w)
  end.

(** show_bootinfo: the exit status and the four numbers it prints (version,
    boot in progress, failed boots, extension sectors). *)
Definition show_bootinfo (s : script) (w : world)
  : Z * option (Z * Z * Z * Z) * script * world :=
  let '(r, octx, s, w) := bootinfo_open BOOTINFO_O_RDONLY s w in
  if r <? 0 then (1, None, s, w) else
  match octx with
  | None => (0, Some (-1, -1, -1, -1), s, w)   (* every getter fails on NULL *)
  | Some ctx =>
      (0, Some (bootinfo_devinfo_version ctx, bootinfo_is_in_progress ctx,
                bootinfo_failed_boot_count ctx, bootinfo_extension_sectors ctx),
       s, bootinfo_close ctx w)
  end.

(** The loop of bootinfo_bootvar_get over bootinfo_bootvar_iterate, from
    [iterctx = iter] on: the value pointer stored through [value], or [None]
    for ENOENT. *)
Fixpoint get_loop (fuel : nat) (ctx : devinfo_context) (iter : list info_var)
         (nm : list Z) : option cptr :=
  match fuel with
  | O => None
  | S fuel' =>
      let '(iter', nv) := bootinfo_bootvar_iterate ctx iter in
      match nv with
      | None => None
      | Some (vname, vval) =>
          if bytes_eqb nm (cstr ctx vname) then Some vval
          else get_loop fuel' ctx iter' nm
      end
  end.

(** The loop of show_bootvar over bootinfo_bootvar_iterate, from
    [iterctx = iter] on: whether a variable was found, and the lines printed
    (without their newline).  [nm = None] is a NULL name. *)
Fixpoint show_iter (fuel : nat) (ctx : devinfo_context) (nm : option (list Z))
         (omitname : bool) (iter : list info_var) : bool * list (list Z) :=
  match fuel with
  | O => (match nm with None => true | Some _ => false end, [])
  | S fuel' =>
      let '(iter', nv) := bootinfo_bootvar_iterate ctx iter in
      match nv with
      | None => (match nm with None => true | Some _ => false end, [])
      | Some (vname, vvalue) =>
          let line :=
            if omitname then cstr ctx vvalue
            else cstr ctx vname ++ [61] ++ cstr ctx vvalue in
          match nm with
          | None => (true, line :: snd (show_iter fuel' ctx nm omitname iter'))
          | Some n =>
              if bytes_eqb (strz n) (cstr ctx vname) then (true, [line])
              else show_iter fuel' ctx nm omitname iter'
          end
      end
  end.

(** The same loop by recursion on the variable list. *)
Fixpoint show_loop (ctx : devinfo_context) (nm : option (list Z))
         (omitname : bool) (l : list info_var) : bool * list (list Z) :=
  match l with
  | [] => (match nm with None => true | Some _ => false end, [])
  | var :: l' =>
      let line :=
        if omitname then cstr ctx (value var)
        else cstr ctx (name var) ++ [61] ++ cstr ctx (value var) in
      match nm with
      | None => (true, line :: snd (show_loop ctx nm omitname l'))
      | Some n =>
          if bytes_eqb (strz n) (cstr ctx (name var)) then (true, [line])
          else show_loop ctx nm omitname l'
      end
  end.

(** show_bootvar: the exit status and the lines printed.  The loop ends when
    the iterator has passed the last variable, or sooner. *)
Definition show_bootvar (nm : option (list Z)) (omitname : bool) (s : script)
           (w : world) : Z * list (list Z) * script * world :=
  let '(r, octx, s, w) := bootinfo_open BOOTINFO_O_RDONLY s w in
  if r <? 0 then (1, [], s, w) else
  match octx with
  | None => (match nm with None => 0 | Some _ => 1 end, [], s, w)
  | Some ctx =>
      let '(found, lines) :=
        show_iter (S (length (vars ctx))) ctx nm omitname [] in
      ((if found then 0 else 1), lines, s, bootinfo_close ctx w)
  end.

(** [strchr(s, c)] on a C string: the bytes before the first [c] and the
    bytes after it, or [None] when it has none. *)
Fixpoint strchr_split (l : list Z) (c : Z) : option (list Z * list Z) :=
  match l with
  | [] => None
  | b :: r =>
      if b =? c then Some ([], r)
      else match strchr_split r c with
           | Some (p, q) => Some (b :: p, q)
           | None => None
           end
  end.

(** set_bootvar, called without an input file: the exit status.  A NULL
    value with [name=value] in the name is split at the first [=]. *)
Definition set_bootvar (nm : list Z) (val : option (list Z)) (s : script)
           (w : world) : Z * script * world :=
  let args :=
    match val with
    | Some v => Some (strz nm, Some v)
    | None =>
        match strchr_split (strz nm) 61 with
        | None => Some (strz nm, None)
        | Some ([], _) => None                       (* invalid variable name *)
        | Some (n, v) => Some (n, Some v)
        end
    end in
  match args with
  | None => (1, s, w)
  | Some (nm, val) =>
      let '(r, octx, s, w) := bootinfo_open 0 s w in
      if r <? 0 then (1, s, w) else
      match octx with
      | None => (1, s, w)
      | Some ctx =>
          let '(r1, _, ctx) := bootinfo_bootvar_set ctx nm val in
          let '(r2, ctx, s, w) := bootinfo_update ctx s w in
          ((if (r1 <? 0) || (r2 <? 0) then 1 else 0), s, bootinfo_close ctx w)
      end
  end.

End Callers.

(** ** More sample sessions *)

(** The names and values used below: [foo], [baz], [_k], and [no], a name
    the store does not have. *)
Definition name_foo : list Z := [102; 111; 111].
Definition value_baz : list Z := [98; 97; 122].
Definition name_k : list Z := [95; 107].
Definition name_absent : list Z := [110; 111].

(** An environment in which read hands the header sector over in pieces of
    100, 200 and 212 bytes: the answers to open, openat, flock, open, lseek
    and three calls of read. *)
Definition chunked_script : script := [3; 4; 0; 5; 0; 100; 200; 300].

(** An environment in which the first write of bootinfo_update is cut short
    after 100 bytes and the next one fails: the answers to lseek and two
    calls of write. *)
Definition failing_script : script := [0; 100; -1].

(** [foo] is set to [baz], or deleted, in the second session. *)
Abbreviation second_set :=
  (@bootinfo_bootvar_set small_config second_ctx name_foo (Some value_baz)).
Abbreviation second_delete :=
  (@bootinfo_bootvar_set small_config second_ctx name_foo None).

(** A load of the device the first session left, with read in pieces and in
    write mode. *)
Abbreviation second_find := (@find_bootinfo small_config true [] closed_world).
Abbreviation chunked_find :=
  (@find_bootinfo small_config false chunked_script closed_world).

(** A read-only open of that device. *)
Abbreviation rdonly_open :=
  (@bootinfo_open small_config BOOTINFO_O_RDONLY [] closed_world).

(** An update of the second session that fails half way. *)
Abbreviation failed_update :=
  (@bootinfo_update small_config second_ctx failing_script second_world).

(** The commands of rk-bootinfo on that device. *)
Abbreviation sample_show_bootinfo := (@show_bootinfo small_config [] closed_world).
Abbreviation sample_show_bootvar :=
  (@show_bootvar small_config (Some name_foo) false [] closed_world).
Abbreviation sample_set_bootvar :=
  (@set_bootvar small_config name_foo (Some value_baz) [] closed_world).
Abbreviation sample_refused_set :=
  (@set_bootvar small_config [49] (Some value_baz) [] closed_world).
Abbreviation sample_check_status := (@boot_check_status small_config [] closed_world).
Abbreviation sample_successful := (@boot_successful small_config [] closed_world).
Abbreviation sample_force_init := (@boot_devinfo_init small_config true [] closed_world).
Abbreviation sample_init := (@boot_devinfo_init small_config false [] closed_world).


(** Loads of the device as these left it. *)
Abbreviation after_failed_find :=
  (@find_bootinfo small_config true [] (snd failed_update)).
Abbreviation after_set_show :=
  (@show_bootvar small_config (Some name_foo) false [] (snd sample_set_bootvar)).
Abbreviation after_refused_find :=
  (@find_bootinfo small_config true [] (snd sample_refused_set)).
Abbreviation after_check_find :=
  (@find_bootinfo small_config true [] (snd sample_check_status)).
Abbreviation after_successful_find :=
  (@find_bootinfo small_config true [] (snd sample_successful)).
Abbreviation after_force_find :=
  (@find_bootinfo small_config true [] (snd sample_force_init)).

(** A forced initialization of that device in which flock fails, and a load
    of the device as it leaves it. *)
Abbreviation unlocked_force_open :=
  (@bootinfo_open small_config BOOTINFO_O_FORCE_INIT unlocked_script closed_world).
Abbreviation after_unlocked_find :=
  (@find_bootinfo small_config true [] (snd unlocked_force_open)).

(** An environment in which the open of the device by the initialization
    code fails: the answers to access, to the calls of find_bootinfo (open,
    openat, flock, open, and lseek and read for the two sectors of slot 0
    and the first sector of slot 1), and to that open. *)
Definition failed_init_script : script :=
  [0; 3; 4; 0; 5; 0; 512; 0; 512; 0; 512; -1].
Abbreviation failed_force_open :=
  (@bootinfo_open small_config BOOTINFO_O_FORCE_INIT failed_init_script
     closed_world).

(** The device the first session left, with a sysfs switch that says
    read-only; a write-mode open of it, and a forced initialization. *)
Definition switch_world : world :=
  World (w_dev closed_world) 0 Unlocked (Some true) [] false.
Abbreviation switch_open := (@bootinfo_open small_config 0 [] switch_world).
Abbreviation switch_force_open :=
  (@bootinfo_open small_config BOOTINFO_O_FORCE_INIT [] switch_world).

(** ** Facts about byte buffers *)

Lemma zlen_nonneg (l : list Z) : 0 <= zlen l.
Proof. unfold zlen; lia. Qed.

Lemma zlen_app (a b : list Z) : zlen (a ++ b) = zlen a + zlen b.
Proof. unfold zlen; rewrite length_app; lia. Qed.

Lemma zlen_cons (x : Z) (l : list Z) : zlen (x :: l) = zlen l + 1.
Proof. unfold zlen; simpl length; lia. Qed.

Lemma zlen_zeros (n : Z) : 0 <= n -> zlen (zeros n) = n.
Proof. intros; unfold zlen, zeros; rewrite repeat_length; lia. Qed.

Lemma zlen_sub_le (l : list Z) (off len : Z) : 0 <= len -> zlen (sub l off len) <= len.
Proof.
  intros; unfold zlen, sub. rewrite length_firstn. lia.
Qed.

Lemma zlen_sub (l : list Z) (off len : Z) :
  0 <= off -> 0 <= len -> off + len <= zlen l -> zlen (sub l off len) = len.
Proof.
  unfold zlen, sub; intros. rewrite length_firstn, length_skipn. lia.
Qed.

Lemma zlen_memcpy (dst src : list Z) (off : Z) :
  0 <= off -> off + zlen src <= zlen dst -> zlen (memcpy dst off src) = zlen dst.
Proof.
  unfold zlen, memcpy; intros.
  rewrite !length_app, length_firstn, length_skipn. lia.
Qed.

Lemma memcpy_app_l (a b src : list Z) (off : Z) :
  0 <= off -> off + zlen src <= zlen a ->
  memcpy (a ++ b) off src = memcpy a off src ++ b.
Proof.
  unfold zlen, memcpy; intros.
  rewrite firstn_app, skipn_app, <- !app_assoc.
  replace (Z.to_nat off - length a)%nat with 0%nat by lia.
  replace (Z.to_nat off + length src - length a)%nat with 0%nat by lia.
  simpl. reflexivity.
Qed.

Lemma memcpy_app_r (a b src : list Z) (off : Z) :
  zlen a <= off ->
  memcpy (a ++ b) off src = a ++ memcpy b (off - zlen a) src.
Proof.
  unfold zlen, memcpy; intros.
  rewrite firstn_app, skipn_app, <- !app_assoc.
  rewrite firstn_all2 by lia. rewrite skipn_all2 by lia. simpl.
  replace (Z.to_nat (off - Z.of_nat (length a))) with (Z.to_nat off - length a)%nat by lia.
  replace (Z.to_nat off + length src - length a)%nat
    with (Z.to_nat off - length a + length src)%nat by lia.
  reflexivity.
Qed.

Lemma firstn_memcpy (dst src : list Z) (off : Z) (k : nat) :
  (k <= Z.to_nat off)%nat -> (Z.to_nat off <= length dst)%nat ->
  firstn k (memcpy dst off src) = firstn k dst.
Proof.
  unfold memcpy; intros.
  rewrite firstn_app, firstn_firstn, length_firstn.
  replace (Init.Nat.min k (Z.to_nat off)) with k by lia.
  replace (k - Init.Nat.min (Z.to_nat off) (length dst))%nat with 0%nat by lia.
  simpl. apply app_nil_r.
Qed.

Lemma skipn_memcpy (dst src : list Z) (off : Z) (k : nat) :
  (Z.to_nat off + length src <= k)%nat -> (Z.to_nat off <= length dst)%nat ->
  skipn k (memcpy dst off src) = skipn k dst.
Proof.
  unfold memcpy; intros.
  rewrite skipn_app, length_firstn.
  rewrite skipn_all2 by (rewrite length_firstn; lia). simpl.
  rewrite skipn_app. rewrite skipn_all2 by lia. simpl.
  rewrite skipn_skipn. f_equal. lia.
Qed.

Lemma sub_memcpy_same (dst src : list Z) (off : Z) :
  0 <= off -> off <= zlen dst ->
  sub (memcpy dst off src) off (zlen src) = src.
Proof.
  unfold zlen, sub, memcpy; intros.
  rewrite skipn_app, length_firstn.
  rewrite skipn_all2 by (rewrite length_firstn; lia). simpl.
  replace (Z.to_nat off - Init.Nat.min (Z.to_nat off) (length dst))%nat with 0%nat by lia.
  simpl. rewrite firstn_app.
  replace (Z.to_nat (Z.of_nat (length src)) - length src)%nat with 0%nat by lia.
  simpl. rewrite app_nil_r. apply firstn_all2. lia.
Qed.

Lemma sub_as_skipn (l : list Z) (a n : Z) :
  0 <= a -> 0 <= n -> sub l a n = skipn (Z.to_nat a) (firstn (Z.to_nat (a + n)) l).
Proof.
  unfold sub; intros. rewrite firstn_skipn_comm. do 2 f_equal. lia.
Qed.

Lemma sub_memcpy_before (dst src : list Z) (off a n : Z) :
  0 <= a -> 0 <= n -> a + n <= off -> off <= zlen dst ->
  sub (memcpy dst off src) a n = sub dst a n.
Proof.
  unfold zlen; intros. rewrite !sub_as_skipn by lia.
  rewrite firstn_memcpy by lia. reflexivity.
Qed.

Lemma sub_memcpy_after (dst src : list Z) (off a n : Z) :
  0 <= off -> off + zlen src <= a -> off <= zlen dst ->
  sub (memcpy dst off src) a n = sub dst a n.
Proof.
  unfold zlen, sub; intros. rewrite skipn_memcpy by lia. reflexivity.
Qed.

Lemma byte_at_sub1 (l : list Z) (off : Z) : byte_at l off = hd 0 (sub l off 1).
Proof.
  unfold byte_at, sub. generalize (Z.to_nat off) as k. intro k.
  revert l; induction k; intros; destruct l; simpl; auto.
Qed.

Lemma byte_at_app_l (a b : list Z) (i : Z) :
  0 <= i < zlen a -> byte_at (a ++ b) i = byte_at a i.
Proof. unfold zlen, byte_at; intros. apply app_nth1. lia. Qed.

Lemma byte_at_app_r (a b : list Z) (i : Z) :
  zlen a <= i -> byte_at (a ++ b) i = byte_at b (i - zlen a).
Proof.
  unfold zlen, byte_at; intros. rewrite app_nth2 by lia. f_equal. lia.
Qed.

Lemma byte_at_sub (l : list Z) (off len i : Z) :
  0 <= off -> 0 <= i < len -> byte_at (sub l off len) i = byte_at l (off + i).
Proof.
  unfold byte_at, sub; intros.
  rewrite nth_firstn.
  destruct (Nat.ltb_spec (Z.to_nat i) (Z.to_nat len)); [|lia].
  rewrite nth_skipn. f_equal. lia.
Qed.

Lemma sub_full (l : list Z) : sub l 0 (zlen l) = l.
Proof. unfold sub, zlen. simpl. apply firstn_all2. lia. Qed.

Lemma sub_app_l (a b : list Z) (off len : Z) :
  0 <= off -> 0 <= len -> off + len <= zlen a -> sub (a ++ b) off len = sub a off len.
Proof.
  unfold sub, zlen; intros. rewrite skipn_app, firstn_app, length_skipn.
  replace (Z.to_nat len - (length a - Z.to_nat off))%nat with 0%nat by lia.
  simpl. apply app_nil_r.
Qed.

Lemma sub_app_r (a b : list Z) (off len : Z) :
  zlen a <= off -> sub (a ++ b) off len = sub b (off - zlen a) len.
Proof.
  unfold sub, zlen; intros. rewrite skipn_app.
  rewrite skipn_all2 by lia. simpl. do 2 f_equal. lia.
Qed.

Lemma firstn_plus (n m : nat) (l : list Z) :
  firstn (n + m) l = firstn n l ++ firstn m (skipn n l).
Proof.
  revert l; induction n; intros l; simpl; auto.
  destruct l; simpl; [now rewrite firstn_nil | now rewrite IHn].
Qed.

Lemma sub_split (l : list Z) (off n m : Z) :
  0 <= off -> 0 <= n -> 0 <= m ->
  sub l off (n + m) = sub l off n ++ sub l (off + n) m.
Proof.
  unfold sub; intros.
  replace (Z.to_nat (n + m)) with (Z.to_nat n + Z.to_nat m)%nat by lia.
  rewrite firstn_plus. f_equal. rewrite skipn_skipn. do 2 f_equal. lia.
Qed.

Lemma le_val_bytes (n : nat) (v : Z) :
  0 <= v < 256 ^ Z.of_nat n -> le_val (le_bytes n v) = v.
Proof.
  revert v; induction n; intros v Hv.
  - simpl in *. lia.
  - cbn [le_bytes le_val]. rewrite IHn.
    + pose proof (Z.div_mod v 256). lia.
    + rewrite Nat2Z.inj_succ, Z.pow_succ_r in Hv by lia.
      split; [apply Z.div_pos; lia | apply Z.div_lt_upper_bound; lia].
Qed.

Lemma length_le_bytes (n : nat) (v : Z) : length (le_bytes n v) = n.
Proof. revert v; induction n; intros; simpl; auto. Qed.

Lemma length_zrange (lo : Z) (n : nat) : length (zrange lo n) = n.
Proof. revert lo; induction n; intros; simpl; auto. Qed.

Lemma nth_zrange (lo : Z) (n i : nat) :
  (i < n)%nat -> nth i (zrange lo n) 0 = lo + Z.of_nat i.
Proof.
  revert lo i; induction n; intros lo i Hi; [lia|].
  destruct i; simpl; [lia|]. rewrite IHn by lia. lia.
Qed.

(** A list is determined by its length and its bytes. *)
Lemma bytes_ext (a b : list Z) :
  length a = length b ->
  (forall i, 0 <= i < zlen a -> byte_at a i = byte_at b i) -> a = b.
Proof.
  intros Hl Hb. apply nth_ext with (d := 0) (d' := 0); auto.
  intros n Hn. specialize (Hb (Z.of_nat n)).
  unfold byte_at, zlen in Hb. rewrite Nat2Z.id in Hb. apply Hb. lia.
Qed.

(** ** Facts about the system calls *)

Lemma trace_ext_refl m w : trace_ext m w w.
Proof. exists []; split; [reflexivity | constructor]. Qed.

Lemma trace_ext_trans m w1 w2 w3 :
  trace_ext m w1 w2 -> trace_ext m w2 w3 -> trace_ext m w1 w3.
Proof.
  intros (e1 & H1 & F1) (e2 & H2 & F2). exists (e2 ++ e1). split.
  - rewrite H2, H1. now rewrite app_assoc.
  - apply Forall_app; auto.
Qed.

Lemma write_loop_spec (s : script) : forall (w : world) (buf : list Z) (base n size : Z),
  0 <= base -> 0 <= n -> base + size <= zlen buf ->
  forall n' s' w', write_loop s w buf base n size = (n', s', w') ->
  n <= n' /\ (n <= size -> n' <= size) /\
  w_pos w' = w_pos w + (n' - n) /\
  (forall o, w_dev w' o =
             if (w_pos w <=? o) && (o <? w_pos w + (n' - n))
             then byte_at buf (base + n + (o - w_pos w)) else w_dev w o) /\
  w_lock w' = w_lock w /\ w_ro w' = w_ro w /\ trace_ext (w_lock w) w w'.
Proof.
  induction s as [|r s IH]; intros w buf base n size Hb Hn Hsz n' s' w' H;
    simpl in H; destruct (n <? size) eqn:Hlt;
    [apply Z.ltb_lt in Hlt | apply Z.ltb_ge in Hlt
    |apply Z.ltb_lt in Hlt | apply Z.ltb_ge in Hlt].
  - injection H as <- <- <-.
    assert (Hl : zlen (sub buf (base + n) (size - n)) = size - n)
      by (apply zlen_sub; lia).
    unfold sys_write; simpl. rewrite Hl.
    splits; try lia; try reflexivity.
    + intros o. zcases; auto. rewrite byte_at_sub by lia. f_equal; lia.
    + exists [EvWrite (w_pos w) (sub buf (base + n) (size - n)) (w_lock w)].
      split; [reflexivity | repeat constructor].
  - injection H as <- <- <-.
    splits; try lia; try reflexivity; [|apply trace_ext_refl].
    intros o. zcases; auto. lia.
  - destruct (r <? 0) eqn:Hr.
    + injection H as <- <- <-.
      splits; try lia; try reflexivity; [|apply trace_ext_refl].
      intros o. zcases; auto. lia.
    + apply Z.ltb_ge in Hr.
      set (cnt := Z.min r (size - n)) in *.
      assert (Hc : 0 <= cnt <= size - n) by (unfold cnt; lia).
      assert (Hl : zlen (sub buf (base + n) cnt) = cnt) by (apply zlen_sub; lia).
      apply IH in H; try lia.
      destruct H as (H1 & H2 & H3 & H4 & H5 & H6 & H7).
      unfold sys_write in *; simpl in *. rewrite Hl in *.
      splits; try lia; auto.
      * intros o. rewrite H4. zcases; auto; try lia.
        -- f_equal; lia.
        -- rewrite byte_at_sub by lia. f_equal; lia.
      * eapply trace_ext_trans; [|exact H7].
        exists [EvWrite (w_pos w) (sub buf (base + n) cnt) (w_lock w)].
        split; [reflexivity | repeat constructor].
  - injection H as <- <- <-.
    splits; try lia; try reflexivity; [|apply trace_ext_refl].
    intros o. zcases; auto. lia.
Qed.

(** ** Writing a slot *)

Section WriteSlot.

Context {cfg : config}.
Hypothesis cfg_ok : config_ok cfg.

Lemma ext_size_pos : 512 <= EXTENSION_SIZE <= 1023 * 512.
Proof.
  destruct cfg_ok as (H & _). unfold EXTENSION_SIZE, MAX_EXTENSION_SECTORS in *. lia.
Qed.

Lemma infobuf_size_eq : INFOBUF_SIZE = 512 + EXTENSION_SIZE.
Proof. reflexivity. Qed.

Lemma respond_inv (s : script) r s' :
  respond s = (r, s') -> (s = [] /\ r = GRANT /\ s' = []) \/ s = r :: s'.
Proof. destruct s; simpl; intros H; injection H as <- <-; auto. Qed.

Lemma write_slot_spec (i : Z) (buf : list Z) (s : script) (w : world) ok s' w' :
  zlen buf = INFOBUF_SIZE ->
  write_slot i buf s w = (ok, s', w') ->
  (forall o, ~ in_slot i o -> w_dev w' o = w_dev w o) /\
  (ok = true -> forall o, in_slot i o -> w_dev w' o = byte_at buf (o - devinfo_offset i)) /\
  w_lock w' = w_lock w /\ w_ro w' = w_ro w /\ trace_ext (w_lock w) w w'.
Proof.
  intros Hlen H. pose proof ext_size_pos as HE. rewrite infobuf_size_eq in Hlen.
  unfold write_slot, in_slot, extension_offset, DEVINFO_BLOCK_SIZE in *.
  rewrite infobuf_size_eq.
  destruct (respond s) as [r1 s1].
  destruct (r1 <? 0).
  { injection H as <- <- <-. splits; auto; try discriminate. apply trace_ext_refl. }
  destruct (write_loop s1 (sys_lseek (devinfo_offset i) w) buf 0 0 512)
    as [[n1 s2] w1] eqn:W1.
  apply write_loop_spec in W1; try lia.
  destruct W1 as (A1 & A2 & A3 & A4 & A5 & A6 & A7).
  unfold sys_lseek in A3, A4, A5, A6, A7; cbn [w_pos w_dev w_lock w_ro w_trace] in A3, A4, A5, A6, A7.
  assert (F1 : forall o, ~ (devinfo_offset i <= o < devinfo_offset i + (512 + EXTENSION_SIZE)) ->
                         w_dev w1 o = w_dev w o).
  { intros o Ho. rewrite A4. zcases; auto. lia. }
  destruct (n1 <? 512) eqn:Hn1.
  { injection H as <- <- <-. splits; auto; try discriminate. }
  apply Z.ltb_ge in Hn1. assert (n1 = 512) by lia. subst n1.
  destruct (respond s2) as [r2 s3].
  destruct (r2 <? 0).
  { injection H as <- <- <-. splits; auto; try discriminate. }
  destruct (write_loop s3 (sys_lseek (devinfo_offset i + 512) w1) buf 512 0 EXTENSION_SIZE)
    as [[n2 s4] w2] eqn:W2.
  apply write_loop_spec in W2; try lia.
  destruct W2 as (B1 & B2 & B3 & B4 & B5 & B6 & B7).
  unfold sys_lseek in B3, B4, B5, B6, B7; cbn [w_pos w_dev w_lock w_ro w_trace] in B3, B4, B5, B6, B7.
  assert (T : trace_ext (w_lock w) w w2).
  { eapply trace_ext_trans; [exact A7|]. rewrite <- A5. exact B7. }
  assert (F2 : forall o, ~ (devinfo_offset i <= o < devinfo_offset i + (512 + EXTENSION_SIZE)) ->
                         w_dev w2 o = w_dev w o).
  { intros o Ho. rewrite B4. zcases; auto. lia. }
  destruct (n2 <? EXTENSION_SIZE) eqn:Hn2.
  { injection H as <- <- <-. splits; auto; try discriminate; congruence. }
  apply Z.ltb_ge in Hn2. assert (n2 = EXTENSION_SIZE) by lia. subst n2.
  injection H as <- <- <-. splits; auto; try congruence.
  intros _ o Ho. rewrite B4. zcases; try lia.
  - f_equal; lia.
  - rewrite A4. zcases; try lia. f_equal; lia.
Qed.

End WriteSlot.

(** ** Facts about C strings *)

Lemma strz_nonul (l : list Z) : nonul (strz l).
Proof.
  unfold nonul. induction l as [|b l IH]; simpl; auto.
  destruct (Z.eqb_spec b 0); simpl; auto. intros [H|H]; auto.
Qed.

Lemma strz_id (l : list Z) : nonul l -> strz l = l.
Proof.
  unfold nonul. induction l as [|b l IH]; simpl; auto. intros H.
  destruct (Z.eqb_spec b 0); [exfalso; apply H; auto|].
  f_equal. apply IH. tauto.
Qed.

Lemma strz_app_nul (a b : list Z) : nonul a -> strz (a ++ 0 :: b) = a.
Proof.
  unfold nonul. induction a as [|x a IH]; simpl; auto. intros H.
  destruct (Z.eqb_spec x 0); [exfalso; apply H; auto|].
  f_equal. apply IH. tauto.
Qed.

Lemma strz_split (l : list Z) : In 0 l -> exists r, l = strz l ++ 0 :: r.
Proof.
  induction l as [|b l IH]; simpl; [tauto|]. intros H.
  destruct (Z.eqb_spec b 0) as [->|Hb].
  - exists l. reflexivity.
  - destruct H as [H|H]; [congruence|].
    destruct (IH H) as [r Hr]. exists r. simpl. now rewrite <- Hr.
Qed.

Lemma read_string (l : list Z) :
  In 0 l -> sub l 0 (zlen (strz l) + 1) = strz l ++ [0].
Proof.
  intros H. destruct (strz_split l H) as [r Hr].
  rewrite Hr at 1. unfold sub, zlen. simpl skipn.
  replace (Z.to_nat (Z.of_nat (length (strz l)) + 1)) with (length (strz l) + 1)%nat by lia.
  rewrite firstn_app_2. reflexivity.
Qed.

Lemma bytes_eqb_eq (a b : list Z) : bytes_eqb a b = true <-> a = b.
Proof.
  revert b; induction a as [|x a IH]; destruct b as [|y b]; simpl; split;
    try congruence; auto.
  - intros H. apply andb_true_iff in H. destruct H as [H1 H2].
    apply Z.eqb_eq in H1. apply IH in H2. congruence.
  - intros H. injection H as -> ->. apply andb_true_iff. split.
    + apply Z.eqb_refl.
    + now apply IH.
Qed.

(** ** Facts about contexts *)

Lemma infobuf_set_same ctx i b : infobuf (set_infobuf ctx i b) i = b.
Proof. unfold infobuf, set_infobuf. destruct (i =? 0); reflexivity. Qed.

Lemma infobuf_set_other ctx i j b :
  (i =? 0) <> (j =? 0) -> infobuf (set_infobuf ctx i b) j = infobuf ctx j.
Proof.
  unfold infobuf, set_infobuf. destruct (i =? 0), (j =? 0); simpl; congruence.
Qed.

Lemma set_infobuf_twice ctx i b b' :
  set_infobuf (set_infobuf ctx i b) i b' = set_infobuf ctx i b'.
Proof. unfold set_infobuf. destruct (i =? 0); reflexivity. Qed.

Lemma set_infobuf_id ctx i : set_infobuf ctx i (infobuf ctx i) = ctx.
Proof. unfold set_infobuf, infobuf. destruct ctx, (i =? 0); reflexivity. Qed.

Lemma set_infobuf_fields ctx i b :
  fd (set_infobuf ctx i b) = fd ctx /\
  lockfd (set_infobuf ctx i b) = lockfd ctx /\
  readonly (set_infobuf ctx i b) = readonly ctx /\
  valid0 (set_infobuf ctx i b) = valid0 ctx /\
  valid1 (set_infobuf ctx i b) = valid1 ctx /\
  current (set_infobuf ctx i b) = current ctx /\
  curinfo (set_infobuf ctx i b) = curinfo ctx /\
  vars (set_infobuf ctx i b) = vars ctx /\
  varsize (set_infobuf ctx i b) = varsize ctx.
Proof. unfold set_infobuf. destruct (i =? 0); simpl; tauto. Qed.

Lemma cstr_set_infobuf ctx idx b p :
  clear_of idx p -> cstr (set_infobuf ctx idx b) p = cstr ctx p.
Proof.
  destruct p as [i off|s]; simpl; auto. intros H.
  rewrite infobuf_set_other; auto.
Qed.

Lemma mem_read_set_infobuf ctx idx b p n :
  clear_of idx p -> mem_read (set_infobuf ctx idx b) p n = mem_read ctx p n.
Proof.
  destruct p as [i off|s]; simpl; auto. intros H.
  rewrite infobuf_set_other; auto.
Qed.

Lemma mem_read_string ctx p :
  terminated ctx p -> mem_read ctx p (strlen ctx p + 1) = cstr ctx p ++ [0].
Proof.
  destruct p as [i off|s]; unfold strlen; simpl.
  - intros [Ho H]. unfold sub. rewrite <- (read_string _ H).
    unfold sub. simpl skipn. reflexivity.
  - intros _.
    assert (H : In 0 (s ++ [0])) by (apply in_or_app; right; simpl; auto).
    pose proof (read_string _ H) as R.
    assert (E : strz (s ++ [0]) = strz s).
    { clear. induction s as [|x s IH]; simpl; auto.
      destruct (x =? 0); auto. now rewrite IH. }
    rewrite E in R. exact R.
Qed.

Lemma terminated_set_infobuf ctx idx b p :
  clear_of idx p -> terminated ctx p -> terminated (set_infobuf ctx idx b) p.
Proof.
  destruct p as [i off|s]; simpl; auto. intros H.
  rewrite infobuf_set_other; auto.
Qed.

(** ** Facts about pack_vars *)

Lemma memcpy_adjacent (b a1 a2 : list Z) (cp : Z) :
  0 <= cp -> cp + zlen a1 + zlen a2 <= zlen b ->
  memcpy (memcpy b cp a1) (cp + zlen a1) a2 = memcpy b cp (a1 ++ a2).
Proof.
  unfold zlen, memcpy; intros.
  replace (Z.to_nat (cp + Z.of_nat (length a1))) with (Z.to_nat cp + length a1)%nat by lia.
  rewrite firstn_app, length_firstn.
  replace (Init.Nat.min (Z.to_nat cp) (length b)) with (Z.to_nat cp) by lia.
  rewrite firstn_all2 by (rewrite length_firstn; lia).
  replace (Z.to_nat cp + length a1 - Z.to_nat cp)%nat with (length a1) by lia.
  rewrite firstn_app, firstn_all, Nat.sub_diag. simpl firstn at 1. rewrite app_nil_r.
  rewrite <- !app_assoc. do 3 f_equal.
  rewrite skipn_app, length_firstn.
  rewrite skipn_all2 by (rewrite length_firstn; lia). simpl.
  rewrite skipn_app. rewrite skipn_all2 by lia. simpl.
  rewrite skipn_skipn, length_app. f_equal. lia.
Qed.

Lemma zlen_mem_read_le ctx p n : 0 <= n -> zlen (mem_read ctx p n) <= n.
Proof. destruct p; simpl; intros; apply zlen_sub_le; auto. Qed.

Lemma strlen_nonneg ctx p : 0 <= strlen ctx p.
Proof. unfold strlen. apply zlen_nonneg. Qed.

Lemma serialize_cons n v r :
  serialize ((n, v) :: r) = (n ++ [0]) ++ (v ++ [0]) ++ serialize r.
Proof. simpl. rewrite <- !app_assoc. reflexivity. Qed.

Lemma zlen_serialize_cons n v r :
  zlen (serialize ((n, v) :: r)) = zlen n + 1 + (zlen v + 1) + zlen (serialize r).
Proof. rewrite serialize_cons, !zlen_app. change (zlen [0]) with 1. lia. Qed.

Section Pack.

Context {cfg : config}.

(** What pack_loop leaves untouched, whatever the variable list holds. *)
Lemma pack_loop_frame (idx : Z) (l : list info_var) :
  forall ctx cp remain,
  0 <= cp -> 0 <= remain -> cp + remain <= zlen (infobuf ctx idx) ->
  exists b, snd (pack_loop ctx idx l cp remain) = set_infobuf ctx idx b /\
            zlen b = zlen (infobuf ctx idx) /\
            (forall k, (k <= Z.to_nat cp)%nat -> firstn k b = firstn k (infobuf ctx idx)) /\
            (forall k, (Z.to_nat (cp + remain) <= k)%nat ->
                       skipn k b = skipn k (infobuf ctx idx)).
Proof.
  induction l as [|var l IH]; intros ctx cp remain Hcp Hrem Hlen; simpl.
  - destruct (Z.eqb_spec remain 0); simpl.
    + exists (infobuf ctx idx). rewrite set_infobuf_id. auto.
    + exists (memcpy (infobuf ctx idx) cp [0]). split; [reflexivity|].
      unfold zlen in *. split; [|split].
      * apply zlen_memcpy; unfold zlen; simpl; lia.
      * intros k Hk. apply firstn_memcpy; lia.
      * intros k Hk. apply skipn_memcpy; simpl; lia.
  - destruct (remain >? 0) eqn:Hr; simpl;
      [|exists (infobuf ctx idx); rewrite set_infobuf_id; auto].
    pose proof (strlen_nonneg ctx (name var)) as Hn.
    pose proof (strlen_nonneg ctx (value var)) as Hv.
    set (nlen := strlen ctx (name var) + 1) in *.
    set (vlen := strlen ctx (value var) + 1) in *.
    destruct (nlen + vlen >? remain) eqn:Hfit; simpl;
      [exists (infobuf ctx idx); rewrite set_infobuf_id; auto|].
    rewrite Z.gtb_ltb in Hfit; apply Z.ltb_ge in Hfit.
    set (b1 := memcpy (infobuf ctx idx) cp (mem_read ctx (name var) nlen)).
    set (ctx1 := set_infobuf ctx idx b1).
    set (b2 := memcpy (infobuf ctx1 idx) (cp + nlen) (mem_read ctx1 (value var) vlen)).
    pose proof (zlen_mem_read_le ctx (name var) nlen ltac:(lia)) as L1.
    pose proof (zlen_mem_read_le ctx1 (value var) vlen ltac:(lia)) as L2.
    assert (Z1 : zlen b1 = zlen (infobuf ctx idx)) by (apply zlen_memcpy; lia).
    assert (E1 : infobuf ctx1 idx = b1) by apply infobuf_set_same.
    assert (Z2 : zlen b2 = zlen (infobuf ctx idx)).
    { unfold b2. rewrite E1. rewrite zlen_memcpy; lia. }
    destruct (IH (set_infobuf ctx1 idx b2) (cp + nlen + vlen) (remain - nlen - vlen))
      as (b & Hb & Hz & Hf & Hs); try lia.
    { rewrite infobuf_set_same. lia. }
    exists b. rewrite infobuf_set_same in Hz, Hf, Hs.
    split; [rewrite Hb; unfold ctx1; now rewrite !set_infobuf_twice|].
    split; [congruence|]. unfold zlen in *. split.
    + intros k Hk. rewrite Hf by lia. unfold b2. rewrite E1.
      rewrite firstn_memcpy by lia. unfold b1. apply firstn_memcpy; lia.
    + intros k Hk. rewrite Hs by lia. unfold b2. rewrite E1.
      rewrite skipn_memcpy by lia. unfold b1. apply skipn_memcpy; lia.
Qed.

(** When the pointers are sound, pack_loop succeeds exactly when the packed
    strings leave room for the byte that ends the list, and then it stores
    them, that byte included, from [cp] on. *)
Lemma pack_loop_packs (idx : Z) (l : list info_var) :
  forall ctx cp remain,
  Forall (fun v => (clear_of idx (name v) /\ terminated ctx (name v)) /\
                   (clear_of idx (value v) /\ terminated ctx (value v))) l ->
  0 <= cp -> 0 <= remain -> cp + remain <= zlen (infobuf ctx idx) ->
  let strs := map (fun v => (cstr ctx (name v), cstr ctx (value v))) l in
  (zlen (serialize strs) < remain ->
   pack_loop ctx idx l cp remain =
   (0, set_infobuf ctx idx (memcpy (infobuf ctx idx) cp (serialize strs ++ [0])))) /\
  (remain <= zlen (serialize strs) -> fst (pack_loop ctx idx l cp remain) = -1).
Proof.
  induction l as [|var l IH]; intros ctx cp remain Hwf Hcp Hrem Hlen; cbv zeta.
  - cbn [pack_loop map serialize app]. change (zlen []) with 0. split; intros H.
    + destruct (Z.eqb_spec remain 0); [lia|reflexivity].
    + destruct (Z.eqb_spec remain 0); [reflexivity|lia].
  - inversion Hwf as [|? ? [[Cn Tn] [Cv Tv]] Hwf']; subst.
    pose proof (strlen_nonneg ctx (name var)) as Hn.
    pose proof (strlen_nonneg ctx (value var)) as Hv.
    cbn [pack_loop map]. rewrite zlen_serialize_cons, serialize_cons.
    fold (strlen ctx (name var)). fold (strlen ctx (value var)).
    set (rest := serialize (map (fun v => (cstr ctx (name v), cstr ctx (value v))) l)).
    pose proof (zlen_nonneg rest) as Hrest.
    destruct (remain >? 0) eqn:Hr; [|split; [lia|reflexivity]].
    destruct (strlen ctx (name var) + 1 + (strlen ctx (value var) + 1) >? remain) eqn:Hfit;
      [split; [lia|reflexivity]|].
    rewrite Z.gtb_ltb in Hfit; apply Z.ltb_ge in Hfit.
    rewrite (mem_read_string ctx (name var) Tn).
    set (b1 := memcpy (infobuf ctx idx) cp (cstr ctx (name var) ++ [0])).
    set (ctx1 := set_infobuf ctx idx b1).
    assert (R1 : mem_read ctx1 (value var) (strlen ctx (value var) + 1)
                 = cstr ctx (value var) ++ [0]).
    { unfold ctx1. rewrite mem_read_set_infobuf by auto. now apply mem_read_string. }
    rewrite R1. unfold ctx1. rewrite set_infobuf_twice, infobuf_set_same.
    assert (Ln : zlen (cstr ctx (name var) ++ [0]) = strlen ctx (name var) + 1).
    { rewrite zlen_app. reflexivity. }
    assert (Lv : zlen (cstr ctx (value var) ++ [0]) = strlen ctx (value var) + 1).
    { rewrite zlen_app. reflexivity. }
    set (b2 := memcpy (infobuf ctx idx) cp
                      ((cstr ctx (name var) ++ [0]) ++ cstr ctx (value var) ++ [0])).
    assert (E2 : memcpy b1 (cp + (strlen ctx (name var) + 1))
                        (cstr ctx (value var) ++ [0]) = b2).
    { unfold b1, b2. rewrite <- Ln. apply memcpy_adjacent; lia. }
    rewrite E2.
    assert (Z2 : zlen b2 = zlen (infobuf ctx idx)).
    { apply zlen_memcpy; [lia|]. rewrite zlen_app. lia. }
    specialize (IH (set_infobuf ctx idx b2)
                   (cp + (strlen ctx (name var) + 1) + (strlen ctx (value var) + 1))
                   (remain - (strlen ctx (name var) + 1) - (strlen ctx (value var) + 1))).
    assert (Hmap : map (fun v => (cstr (set_infobuf ctx idx b2) (name v),
                                  cstr (set_infobuf ctx idx b2) (value v))) l
                   = map (fun v => (cstr ctx (name v), cstr ctx (value v))) l).
    { apply map_ext_in. intros v Hin.
      rewrite Forall_forall in Hwf'. destruct (Hwf' v Hin) as [[? _] [? _]].
      now rewrite !cstr_set_infobuf. }
    cbv zeta in IH. rewrite Hmap in IH. fold rest in IH.
    rewrite infobuf_set_same, set_infobuf_twice in IH.
    destruct IH as [IHa IHb]; try lia.
    { rewrite Forall_forall in *. intros v Hin.
      destruct (Hwf' v Hin) as [[? ?] [? ?]].
      repeat split; auto; now apply terminated_set_infobuf. }
    split; intros H.
    + rewrite IHa by lia. do 2 f_equal. unfold b2.
      replace (cp + (strlen ctx (name var) + 1) + (strlen ctx (value var) + 1))
        with (cp + zlen ((cstr ctx (name var) ++ [0]) ++ cstr ctx (value var) ++ [0]))
        by (rewrite zlen_app; lia).
      rewrite memcpy_adjacent.
      * f_equal. rewrite <- !app_assoc. reflexivity.
      * lia.
      * rewrite !zlen_app in *. change (zlen [0]) with 1 in *. lia.
    + apply IHb. lia.
Qed.

End Pack.

(** ** Facts about the checksum *)

Lemma lxor_range (a b n : Z) :
  0 <= n -> 0 <= a < 2 ^ n -> 0 <= b < 2 ^ n -> 0 <= Z.lxor a b < 2 ^ n.
Proof.
  intros Hn Ha Hb. split; [apply Z.lxor_nonneg; lia|].
  destruct (Z.eq_dec (Z.lxor a b) 0) as [->|Hx]; [apply Z.pow_pos_nonneg; lia|].
  assert (0 <= Z.lxor a b) by (apply Z.lxor_nonneg; lia).
  assert (0 < n).
  { destruct (Z.eq_dec n 0) as [->|]; [|lia]. change (2 ^ 0) with 1 in *.
    replace a with 0 in Hx by lia. replace b with 0 in Hx by lia.
    simpl in Hx. congruence. }
  apply Z.log2_lt_pow2; [lia|].
  pose proof (Z.log2_lxor a b ltac:(lia) ltac:(lia)) as L.
  assert (La : Z.log2 a < n).
  { destruct (Z.eq_dec a 0) as [->|]; [simpl; lia|]. apply Z.log2_lt_pow2; lia. }
  assert (Lb : Z.log2 b < n).
  { destruct (Z.eq_dec b 0) as [->|]; [simpl; lia|]. apply Z.log2_lt_pow2; lia. }
  lia.
Qed.

Lemma crc_shift_range (c : Z) : 0 <= c < 2 ^ 32 -> 0 <= crc_shift c < 2 ^ 32.
Proof.
  intros Hc. unfold crc_shift.
  assert (S : 0 <= Z.shiftr c 1 < 2 ^ 32).
  { rewrite Z.shiftr_div_pow2 by lia. change (2 ^ 1) with 2.
    split; [apply Z.div_pos; lia|]. apply Z.div_lt_upper_bound; lia. }
  destruct (Z.testbit c 0); auto. apply lxor_range; lia.
Qed.

Lemma crc_byte_range (c b : Z) : 0 <= c < 2 ^ 32 -> 0 <= crc_byte c b < 2 ^ 32.
Proof.
  intros Hc. unfold crc_byte.
  assert (B : 0 <= Z.land b 255 < 2 ^ 32).
  { pose proof (Z.land_nonneg b 255). 
    assert (Z.land b 255 <= 255).
    { change 255 with (Z.ones 8). rewrite Z.land_ones by lia.
      pose proof (Z.mod_pos_bound b (2 ^ 8)). change (Z.ones 8) with 255. lia. }
    lia. }
  do 8 apply crc_shift_range. apply lxor_range; lia.
Qed.

Lemma crc32_range (buf : list Z) : 0 <= crc32 0 buf < 2 ^ 32.
Proof.
  unfold crc32.
  assert (H : forall l c, 0 <= c < 2 ^ 32 -> 0 <= fold_left crc_byte l c < 2 ^ 32).
  { induction l as [|b l IH]; intros c Hc; simpl; auto.
    apply IH. now apply crc_byte_range. }
  apply lxor_range; try lia. apply H. simpl. lia.
Qed.

Lemma crc32_le (buf : list Z) : le_val (le_bytes 4 (crc32 0 buf)) = crc32 0 buf.
Proof. apply le_val_bytes. apply crc32_range. Qed.

(** ** The header and the checksums of bootinfo_update *)

Section Checksums.

Context {cfg : config}.
Hypothesis cfg_ok : config_ok cfg.

Lemma zlen_header_bytes ci : zlen (header_bytes ci) = 20.
Proof. reflexivity. Qed.

Lemma fill_header_eq (ci : device_info) (buf : list Z) :
  512 <= zlen buf ->
  fill_header ci buf = header_bytes ci ++ zeros 492 ++ skipn 512 buf.
Proof.
  intros Hlen. unfold fill_header, DEVINFO_BLOCK_SIZE.
  assert (E0 : memcpy buf 0 (zeros 512) = (zeros 20 ++ zeros 492) ++ skipn 512 buf).
  { unfold memcpy. simpl firstn. rewrite app_nil_l. f_equal. }
  rewrite E0, <- app_assoc.
  rewrite !memcpy_app_l by (vm_compute; discriminate).
  reflexivity.
Qed.

Lemma sub_firstn_prefix (l : list Z) (n : Z) : sub l 0 n = firstn (Z.to_nat n) l.
Proof. reflexivity. Qed.

Lemma memcpy_overwrite (d a b : list Z) (off : Z) :
  0 <= off -> off <= zlen d -> zlen a = zlen b ->
  memcpy (memcpy d off a) off b = memcpy d off b.
Proof.
  unfold zlen, memcpy; intros.
  rewrite firstn_app, length_firstn, firstn_firstn.
  replace (Init.Nat.min (Z.to_nat off) (Z.to_nat off)) with (Z.to_nat off) by lia.
  replace (Z.to_nat off - Init.Nat.min (Z.to_nat off) (length d))%nat with 0%nat by lia.
  simpl firstn. rewrite app_nil_r. do 2 f_equal.
  rewrite skipn_app, length_firstn.
  rewrite skipn_all2 by (rewrite length_firstn; lia). simpl.
  rewrite skipn_app. rewrite skipn_all2 by lia. simpl.
  rewrite skipn_skipn. f_equal. lia.
Qed.

Lemma memcpy_self (d : list Z) (off n : Z) :
  0 <= off -> 0 <= n -> off + n <= zlen d -> memcpy d off (sub d off n) = d.
Proof.
  unfold zlen, memcpy, sub; intros.
  rewrite length_firstn, length_skipn.
  replace (Z.to_nat off + Init.Nat.min (Z.to_nat n) (length d - Z.to_nat off))%nat
    with (Z.to_nat n + Z.to_nat off)%nat by lia.
  rewrite <- skipn_skipn, firstn_skipn, firstn_skipn. reflexivity.
Qed.

Lemma sub_memcpy_inside (d src : list Z) (off n : Z) :
  0 <= off -> off + zlen src <= n -> n <= zlen d ->
  sub (memcpy d off src) 0 n = memcpy (sub d 0 n) off src.
Proof.
  unfold zlen, memcpy, sub; intros. simpl skipn.
  rewrite firstn_app, firstn_firstn, length_firstn.
  rewrite firstn_app, (firstn_all2 src) by lia.
  rewrite firstn_firstn, skipn_firstn_comm.
  replace (Init.Nat.min (Z.to_nat n) (Z.to_nat off)) with (Z.to_nat off) by lia.
  replace (Init.Nat.min (Z.to_nat off) (Z.to_nat n)) with (Z.to_nat off) by lia.
  do 3 f_equal. lia.
Qed.

Lemma sub_sub_prefix (l : list Z) (n a m : Z) :
  0 <= a -> 0 <= m -> a + m <= n -> sub (sub l 0 n) a m = sub l a m.
Proof.
  intros. rewrite (sub_as_skipn (sub l 0 n) a m), (sub_as_skipn l a m) by lia.
  unfold sub. simpl skipn. rewrite firstn_firstn. do 2 f_equal. lia.
Qed.

Lemma pack_vars_frame (ctx : devinfo_context) (idx : Z) :
  zlen (infobuf ctx idx) = INFOBUF_SIZE ->
  exists b, snd (pack_vars ctx idx) = set_infobuf ctx idx b /\
            zlen b = INFOBUF_SIZE /\
            firstn 20 b = firstn 20 (infobuf ctx idx) /\
            skipn (Z.to_nat (INFOBUF_SIZE - 5)) b
            = skipn (Z.to_nat (INFOBUF_SIZE - 5)) (infobuf ctx idx).
Proof.
  intros Hlen. pose proof ext_size_pos cfg_ok as HE.
  assert (HS : INFOBUF_SIZE = 512 + EXTENSION_SIZE) by reflexivity.
  unfold pack_vars.
  destruct (negb (idx =? 0) && negb (idx =? 1));
    [exists (infobuf ctx idx); rewrite set_infobuf_id; auto|].
  destruct (vars ctx) as [|v l] eqn:Hv;
    [exists (infobuf ctx idx); rewrite set_infobuf_id; auto|].
  destruct (pack_loop_frame idx (v :: l) ctx DEVINFO_HDR_SIZE
              (INFOBUF_SIZE - (DEVINFO_HDR_SIZE + 4 + 1)))
    as (b & Hb & Hz & Hf & Hs); unfold DEVINFO_HDR_SIZE in *; try lia.
  exists b. split; [exact Hb|]. split; [lia|]. split.
  - apply (Hf 20%nat). lia.
  - apply Hs. lia.
Qed.

Lemma store_crcs_spec (pk : list Z) :
  zlen pk = INFOBUF_SIZE ->
  let b := store_crcs pk in
  zlen b = INFOBUF_SIZE /\
  sub b 0 12 = sub pk 0 12 /\
  sub b 16 4 = sub pk 16 4 /\
  sub b 12 4 = le_bytes 4 (crc32 0 (sub pk 0 512)) /\
  sub b (INFOBUF_SIZE - 4) 4 = le_bytes 4 (crc32 0 (sub b 512 (EXTENSION_SIZE - 4))) /\
  (forall a n, 16 <= a -> 0 <= n -> a + n <= INFOBUF_SIZE - 4 -> sub b a n = sub pk a n) /\
  memcpy (sub b 0 512) 12 (sub pk 12 4) = sub pk 0 512.
Proof.
  intros Hlen. pose proof ext_size_pos cfg_ok as HE.
  assert (HS : INFOBUF_SIZE = 512 + EXTENSION_SIZE) by reflexivity.
  unfold store_crcs, OFF_CRCSUM, DEVINFO_BLOCK_SIZE.
  set (c1 := le_bytes 4 (crc32 0 (sub pk 0 512))).
  set (b1 := memcpy pk 12 c1).
  set (c2 := le_bytes 4 (crc32 0 (sub b1 512 (EXTENSION_SIZE - 4)))).
  assert (L1 : zlen c1 = 4) by (unfold zlen, c1; now rewrite length_le_bytes).
  assert (L2 : zlen c2 = 4) by (unfold zlen, c2; now rewrite length_le_bytes).
  assert (Z1 : zlen b1 = INFOBUF_SIZE) by (unfold b1; rewrite zlen_memcpy; lia).
  cbv zeta. splits.
  - rewrite zlen_memcpy; lia.
  - rewrite sub_memcpy_before by lia. unfold b1. apply sub_memcpy_before; lia.
  - rewrite sub_memcpy_before by lia. unfold b1. apply sub_memcpy_after; lia.
  - rewrite sub_memcpy_before by lia. unfold b1. rewrite <- L1.
    apply sub_memcpy_same; lia.
  - rewrite (sub_memcpy_before _ _ _ 512) by lia. fold c2. rewrite <- L2.
    apply sub_memcpy_same; lia.
  - intros a n Ha Hn Han. rewrite sub_memcpy_before by lia.
    unfold b1. apply sub_memcpy_after; lia.
  - rewrite (sub_memcpy_before _ _ _ 0) by lia. unfold b1.
    rewrite sub_memcpy_inside by lia.
    rewrite memcpy_overwrite.
    + replace (sub pk 12 4) with (sub (sub pk 0 512) 12 4).
      * apply memcpy_self; try lia. rewrite zlen_sub; lia.
      * apply sub_sub_prefix; lia.
    + lia.
    + rewrite zlen_sub; lia.
    + rewrite L1. unfold zlen, sub. rewrite length_firstn, length_skipn.
      unfold zlen in Hlen. lia.
Qed.

End Checksums.

(** ** What bootinfo_update leaves on the device *)

Section Device.

Context {cfg : config}.
Hypothesis cfg_ok : config_ok cfg.

Lemma dest_slot_cases ctx :
  (dest_slot ctx = 0 \/ dest_slot ctx = 1) /\
  (current ctx = 0 -> dest_slot ctx = 1) /\
  (current ctx = 1 -> dest_slot ctx = 0) /\
  (current ctx < 0 \/ current ctx > 1 -> dest_slot ctx = 0).
Proof.
  unfold dest_slot. rewrite Z.gtb_ltb.
  destruct (Z.ltb_spec (current ctx) 0), (Z.ltb_spec 1 (current ctx));
    cbn [orb]; lia.
Qed.

Lemma infobuf_sized ctx i :
  ctx_ok ctx -> zlen (infobuf ctx i) = INFOBUF_SIZE.
Proof.
  intros [[H0 H1] _]. unfold infobuf in *. simpl in *. destruct (i =? 0); auto.
Qed.

Lemma length_dev_slot w i : zlen (dev_slot w i) = INFOBUF_SIZE.
Proof.
  pose proof (ext_size_pos cfg_ok).
  unfold zlen, dev_slot. rewrite length_map, length_zrange.
  unfold INFOBUF_SIZE, DEVINFO_BLOCK_SIZE. lia.
Qed.

Lemma byte_at_dev_slot w i k :
  0 <= k < INFOBUF_SIZE -> byte_at (dev_slot w i) k = w_dev w (devinfo_offset i + k).
Proof.
  intros Hk. unfold byte_at, dev_slot.
  rewrite nth_indep with (d' := w_dev w 0) by (rewrite length_map, length_zrange; lia).
  rewrite map_nth. rewrite nth_zrange by lia. f_equal. lia.
Qed.

Lemma dev_slot_eq w i b :
  zlen b = INFOBUF_SIZE ->
  (forall o, in_slot i o -> w_dev w o = byte_at b (o - devinfo_offset i)) ->
  dev_slot w i = b.
Proof.
  intros Hb H. apply bytes_ext.
  - pose proof (length_dev_slot w i). unfold zlen in *. lia.
  - intros k Hk. rewrite length_dev_slot in Hk. rewrite byte_at_dev_slot by lia.
    rewrite H by (unfold in_slot; lia). f_equal. lia.
Qed.

Lemma dev_slot_frame w w' i :
  (forall o, in_slot i o -> w_dev w' o = w_dev w o) -> dev_slot w' i = dev_slot w i.
Proof.
  intros H. apply bytes_ext.
  - pose proof (length_dev_slot w i). pose proof (length_dev_slot w' i).
    unfold zlen in *. lia.
  - intros k Hk. rewrite length_dev_slot in Hk. rewrite !byte_at_dev_slot by lia.
    apply H. unfold in_slot. lia.
Qed.

Lemma slots_disjoint i j o :
  (i =? 0) <> (j =? 0) -> in_slot i o -> ~ in_slot j o.
Proof.
  destruct cfg_ok as (_ & _ & _ & Hd).
  unfold in_slot, devinfo_offset. destruct (i =? 0), (j =? 0); try congruence; lia.
Qed.

(** The shape of bootinfo_update: [pk] is the destination buffer as pack_vars
    leaves it. *)
Lemma bootinfo_update_inv ctx s w ret ctx' s' w' :
  ctx_ok ctx -> readonly ctx = false ->
  bootinfo_update ctx s w = (ret, ctx', s', w') ->
  exists r pk,
    pack_vars (set_infobuf ctx (dest_slot ctx)
                 (fill_header (curinfo ctx) (infobuf ctx (dest_slot ctx))))
              (dest_slot ctx)
    = (r, set_infobuf ctx (dest_slot ctx) pk) /\
    zlen pk = INFOBUF_SIZE /\
    firstn 20 pk = header_bytes (curinfo ctx) /\
    ((r < 0 /\ ret = -1 /\ ctx' = set_infobuf ctx (dest_slot ctx) pk /\ s' = s /\ w' = w) \/
     (0 <= r /\ ctx' = set_infobuf ctx (dest_slot ctx) (store_crcs pk) /\
      exists ok, write_slot (dest_slot ctx) (store_crcs pk) s w = (ok, s', w') /\
                 ret = if ok then 0 else -1)).
Proof.
  intros Hok Hro H. pose proof ext_size_pos cfg_ok as HE.
  assert (HS : INFOBUF_SIZE = 512 + EXTENSION_SIZE) by reflexivity.
  unfold bootinfo_update in H. rewrite Hro in H.
  set (idx := dest_slot ctx) in *.
  pose proof (infobuf_sized ctx idx Hok) as Hl.
  set (fh := fill_header (curinfo ctx) (infobuf ctx idx)) in *.
  assert (Efh : fh = header_bytes (curinfo ctx) ++ zeros 492 ++ skipn 512 (infobuf ctx idx))
    by (apply fill_header_eq; lia).
  assert (Zfh : zlen fh = INFOBUF_SIZE).
  { rewrite Efh, !zlen_app, zlen_header_bytes, zlen_zeros by lia.
    unfold zlen in *. rewrite length_skipn. lia. }
  destruct (pack_vars_frame cfg_ok (set_infobuf ctx idx fh) idx) as (pk & Hp & Zp & Fp & _).
  { now rewrite infobuf_set_same. }
  rewrite set_infobuf_twice in Hp. rewrite infobuf_set_same in Fp.
  destruct (pack_vars (set_infobuf ctx idx fh) idx) as [r c1] eqn:Epk.
  simpl in Hp. subst c1.
  exists r, pk. split; [reflexivity|]. split; [exact Zp|]. split.
  { rewrite Fp, Efh. reflexivity. }
  destruct (Z.ltb_spec r 0).
  - left. injection H as <- <- <- <-. auto.
  - right. split; [lia|]. rewrite infobuf_set_same, set_infobuf_twice in H.
    rewrite infobuf_set_same in H.
    destruct (write_slot idx (store_crcs pk) s w) as [[ok s1] w1] eqn:Ew.
    destruct ok; injection H as <- <- <- <-.
    + split; [reflexivity|]. exists true. split; reflexivity.
    + split; [reflexivity|]. exists false. split; reflexivity.
Qed.

End Device.

(** ** The fields of the header that is written *)

Lemma info_of_bytes_prefix (b : list Z) :
  info_of_bytes (sub b 0 20) = info_of_bytes b.
Proof.
  unfold info_of_bytes. rewrite !byte_at_sub1.
  rewrite !sub_sub_prefix by (cbv; intuition discriminate). reflexivity.
Qed.

Section HeaderFields.

Context {cfg : config}.
Hypothesis cfg_ok : config_ok cfg.

Lemma ext_sectors_le : le_val (le_bytes 2 EXTENSION_SECTOR_COUNT) = EXTENSION_SECTOR_COUNT.
Proof.
  apply le_val_bytes. destruct cfg_ok as (H & _).
  unfold MAX_EXTENSION_SECTORS in H. simpl. lia.
Qed.

(** The header that bootinfo_update builds, once the checksum [c] is stored
    in it. *)
Lemma header_fields (ci : device_info) (c : Z) :
  let h := info_of_bytes (firstn 12 (header_bytes ci) ++ le_bytes 4 c
                          ++ skipn 16 (header_bytes ci)) in
  magic h = DEVICE_MAGIC /\ devinfo_version h = DEVINFO_VERSION_CURRENT /\
  flags h = flags ci /\ failed_boots h = failed_boots ci /\
  crcsum h = le_val (le_bytes 4 c) /\
  sernum h = (sernum ci + 1) mod 256 /\ unused__ h = 0 /\
  ext_sectors h = EXTENSION_SECTOR_COUNT.
Proof.
  cbv zeta. rewrite <- ext_sectors_le at 1.
  unfold header_bytes.
  remember (le_bytes 4 c) as c4 eqn:E4.
  remember (le_bytes 2 EXTENSION_SECTOR_COUNT) as e2 eqn:E2.
  remember ((sernum ci + 1) mod 256) as sn.
  assert (L4 : length c4 = 4%nat) by (subst; apply length_le_bytes).
  assert (L2 : length e2 = 2%nat) by (subst; apply length_le_bytes).
  destruct c4 as [|c0 [|c1 [|c2 [|c3 [|]]]]]; try discriminate.
  destruct e2 as [|e0 [|e1 [|]]]; try discriminate.
  clear. repeat split.
Qed.

Lemma final_header (ci : device_info) (pk : list Z) :
  zlen pk = INFOBUF_SIZE -> firstn 20 pk = header_bytes ci ->
  sub (store_crcs pk) 0 20
  = firstn 12 (header_bytes ci) ++ le_bytes 4 (crc32 0 (sub pk 0 512))
    ++ skipn 16 (header_bytes ci).
Proof.
  intros Z H. destruct (store_crcs_spec cfg_ok pk Z) as (_ & A & B & C & _).
  change 20 with (12 + (4 + 4)). rewrite !sub_split by lia.
  change (0 + 12 + 4) with 16. change (0 + 12) with 12. rewrite A, B, C. rewrite <- H.
  f_equal; [|f_equal].
  - unfold sub. simpl skipn. now rewrite firstn_firstn.
  - rewrite sub_as_skipn by lia. reflexivity.
Qed.

End HeaderFields.

(** ** What bootinfo_update leaves of the context *)

Section Frame.

Context {cfg : config}.
Hypothesis cfg_ok : config_ok cfg.

Lemma pack_loop_shape (idx : Z) (l : list info_var) :
  forall ctx cp remain,
  exists b, snd (pack_loop ctx idx l cp remain) = set_infobuf ctx idx b.
Proof.
  induction l as [|var l IH]; intros ctx cp remain; simpl.
  - destruct (remain =? 0); simpl; eauto.
    exists (infobuf ctx idx). now rewrite set_infobuf_id.
  - destruct (remain >? 0); simpl;
      [|exists (infobuf ctx idx); now rewrite set_infobuf_id].
    match goal with |- context [if ?c then _ else _] => destruct c end; simpl;
      [exists (infobuf ctx idx); now rewrite set_infobuf_id|].
    match goal with |- context [pack_loop ?c idx l ?a ?b] =>
      destruct (IH c a b) as [b' Hb'] end.
    exists b'. rewrite Hb'. now rewrite !set_infobuf_twice.
Qed.

Lemma pack_vars_shape ctx idx :
  exists b, snd (pack_vars ctx idx) = set_infobuf ctx idx b.
Proof.
  unfold pack_vars.
  destruct (negb (idx =? 0) && negb (idx =? 1)); cbn [snd];
    [exists (infobuf ctx idx); now rewrite set_infobuf_id|].
  destruct (vars ctx) as [|v l]; cbn [snd];
    [exists (infobuf ctx idx); now rewrite set_infobuf_id|].
  apply pack_loop_shape.
Qed.

Lemma bootinfo_update_shape ctx s w :
  exists b, snd (fst (fst (bootinfo_update ctx s w)))
            = set_infobuf ctx (dest_slot ctx) b.
Proof.
  unfold bootinfo_update. set (idx := dest_slot ctx).
  destruct (readonly ctx); cbn [snd fst];
    [exists (infobuf ctx idx); now rewrite set_infobuf_id|].
  set (c0 := set_infobuf ctx idx _).
  destruct (pack_vars_shape c0 idx) as [b Hb].
  destruct (pack_vars c0 idx) as [r c1]. cbn [snd] in Hb. subst c1.
  unfold c0. rewrite set_infobuf_twice.
  destruct (r <? 0); cbn [snd fst]; [eauto|].
  rewrite set_infobuf_twice.
  destruct (write_slot _ _ _ _) as [[[] ?] ?]; cbn [snd fst]; eauto.
Qed.

Lemma ptr_ok_clear ctx p :
  ptr_ok ctx p -> clear_of (dest_slot ctx) p /\ terminated ctx p.
Proof.
  destruct p as [i off|]; simpl; auto.
  intros (-> & Hc & Ho & Hin). split; auto.
  pose proof (dest_slot_cases ctx) as (_ & D0 & D1 & _).
  destruct Hc as [Hc|Hc]; rewrite Hc; [rewrite D0|rewrite D1]; auto; discriminate.
Qed.

Lemma ctx_ok_set_dest ctx b :
  ctx_ok ctx -> zlen b = INFOBUF_SIZE ->
  ctx_ok (set_infobuf ctx (dest_slot ctx) b) /\
  var_strings (set_infobuf ctx (dest_slot ctx) b) = var_strings ctx.
Proof.
  intros Hok Hb. destruct Hok as [[H0 H1] Hv].
  pose proof (set_infobuf_fields ctx (dest_slot ctx) b)
    as (_ & _ & _ & _ & _ & Ecur & _ & Evars & _).
  split; [split; [split|]|].
  - destruct (Z.eqb_spec (dest_slot ctx) 0) as [->|Hd].
    + now rewrite infobuf_set_same.
    + rewrite infobuf_set_other; auto.
      destruct (Z.eqb_spec (dest_slot ctx) 0); simpl; congruence.
  - destruct (Z.eqb_spec (dest_slot ctx) 0) as [E|Hd].
    + rewrite infobuf_set_other; auto. rewrite E. simpl. discriminate.
    + unfold infobuf, set_infobuf. apply Z.eqb_neq in Hd. rewrite Hd. exact Hb.
  - rewrite Evars. rewrite Forall_forall in *. intros v Hin.
    assert (P : forall p, ptr_ok ctx p -> ptr_ok (set_infobuf ctx (dest_slot ctx) b) p).
    { intros p Hp. destruct (ptr_ok_clear ctx p Hp) as [C T].
      destruct p as [i off|]; simpl in *; auto. rewrite Ecur.
      rewrite infobuf_set_other by auto. exact Hp. }
    destruct (Hv v Hin). split; apply P; auto.
  - unfold var_strings. rewrite Evars. apply map_ext_in. intros v Hin.
    rewrite Forall_forall in Hv. destruct (Hv v Hin) as [Pn Pv].
    apply ptr_ok_clear in Pn, Pv. destruct Pn, Pv.
    now rewrite !cstr_set_infobuf.
Qed.

Lemma header_bytes_split ci :
  header_bytes ci
  = firstn 12 (header_bytes ci) ++ le_bytes 4 0 ++ skipn 16 (header_bytes ci).
Proof. reflexivity. Qed.

(* What an update, successful or not, leaves of the context. *)
Lemma update_frame_props ctx s w ret ctx' s' w' :
  bootinfo_update ctx s w = (ret, ctx', s', w') ->
  (fd ctx' = fd ctx /\ lockfd ctx' = lockfd ctx /\ readonly ctx' = readonly ctx /\
   valid0 ctx' = valid0 ctx /\ valid1 ctx' = valid1 ctx /\
   current ctx' = current ctx /\ curinfo ctx' = curinfo ctx /\
   vars ctx' = vars ctx /\ varsize ctx' = varsize ctx) /\
  infobuf ctx' (1 - dest_slot ctx) = infobuf ctx (1 - dest_slot ctx) /\
  dest_slot ctx' = dest_slot ctx /\
  (ctx_ok ctx ->
   ctx_ok ctx' /\ var_strings ctx' = var_strings ctx /\
   (forall o, ~ in_slot (dest_slot ctx) o -> w_dev w' o = w_dev w o) /\
   (readonly ctx = false ->
    sernum (info_of_bytes (infobuf ctx' (dest_slot ctx)))
    = (sernum (curinfo ctx) + 1) mod 256 /\
    forall s2 w2 ret2 ctx2 s2' w2',
      bootinfo_update ctx' s2 w2 = (ret2, ctx2, s2', w2') ->
      sernum (info_of_bytes (infobuf ctx2 (dest_slot ctx')))
      = sernum (info_of_bytes (infobuf ctx' (dest_slot ctx))))).
Proof.
  intros H.
  destruct (bootinfo_update_shape ctx s w) as [b Hb]. rewrite H in Hb. simpl in Hb.
  pose proof (set_infobuf_fields ctx (dest_slot ctx) b) as F. rewrite <- Hb in F.
  destruct F as (F1 & F2 & F3 & F4 & F5 & F6 & F7 & F8 & F9).
  assert (Hd : dest_slot ctx' = dest_slot ctx) by (unfold dest_slot; now rewrite F6).
  split; [tauto|]. split; [|split; [exact Hd|]].
  { rewrite Hb. apply infobuf_set_other.
    destruct (dest_slot_cases ctx) as ([E|E] & _); rewrite E; simpl; discriminate. }
  intros Hok.
  assert (Main : forall c t u r c' t' u', ctx_ok c -> readonly c = false ->
            bootinfo_update c t u = (r, c', t', u') ->
            ctx_ok c' /\ var_strings c' = var_strings c /\
            (forall o, ~ in_slot (dest_slot c) o -> w_dev u' o = w_dev u o) /\
            sernum (info_of_bytes (infobuf c' (dest_slot c)))
            = (sernum (curinfo c) + 1) mod 256).
  { clear - cfg_ok. intros c t u r c' t' u' Hok Hro H.
    destruct (bootinfo_update_inv cfg_ok c t u _ _ _ _ Hok Hro H)
      as (r0 & pk & Hpk & Zpk & Fpk & [(Hr & -> & -> & -> & ->)|(Hr & -> & ok & Hw & ->)]).
    - destruct (ctx_ok_set_dest c pk Hok Zpk) as [O V].
      splits; auto. rewrite infobuf_set_same, <- info_of_bytes_prefix.
      unfold sub. simpl skipn. change (Z.to_nat 20) with 20%nat.
      rewrite Fpk, header_bytes_split. apply (header_fields cfg_ok (curinfo c) 0).
    - destruct (store_crcs_spec cfg_ok pk Zpk) as (Zb & _).
      destruct (ctx_ok_set_dest c (store_crcs pk) Hok Zb) as [O V].
      destruct (write_slot_spec cfg_ok (dest_slot c) (store_crcs pk) t u _ _ _ Zb Hw)
        as (W1 & _).
      splits; auto. rewrite infobuf_set_same, <- info_of_bytes_prefix.
      rewrite (final_header cfg_ok (curinfo c) pk Zpk Fpk).
      apply (header_fields cfg_ok). }
  destruct (readonly ctx) eqn:Hro.
  - unfold bootinfo_update in H. rewrite Hro in H. injection H as <- <- <- <-.
    splits; auto. discriminate.
  - destruct (Main _ _ _ _ _ _ _ Hok Hro H) as (M1 & M2 & M3 & M4).
    splits; auto. intros _. split; [exact M4|].
    intros s2 w2 ret2 ctx2 s2' w2' H2.
    assert (Hro' : readonly ctx' = false) by congruence.
    destruct (Main _ _ _ _ _ _ _ M1 Hro' H2) as (_ & _ & _ & N4).
    rewrite N4, M4, F7. reflexivity.
Qed.

End Frame.

(** ** Reading a slot *)

Lemma byte_at_memcpy (buf data : list Z) (off k : Z) :
  0 <= off -> off + zlen data <= zlen buf -> 0 <= k ->
  byte_at (memcpy buf off data) k =
  if (off <=? k) && (k <? off + zlen data) then byte_at data (k - off)
  else byte_at buf k.
Proof.
  unfold zlen, memcpy; intros Ho Hl Hk.
  assert (Lf : length (firstn (Z.to_nat off) buf) = Z.to_nat off)
    by (rewrite length_firstn; lia).
  zcases; try lia.
  - rewrite byte_at_app_r by (unfold zlen; lia).
    rewrite byte_at_app_l by (unfold zlen; lia).
    f_equal. unfold zlen. lia.
  - rewrite byte_at_app_r by (unfold zlen; lia).
    rewrite byte_at_app_r by (unfold zlen; lia).
    unfold byte_at, zlen. rewrite nth_skipn. f_equal. lia.
  - rewrite byte_at_app_l by (unfold zlen; lia).
    unfold byte_at. rewrite nth_firstn.
    destruct (Nat.ltb_spec (Z.to_nat k) (Z.to_nat off)); [reflexivity|lia].
Qed.

Lemma byte_at_map_zrange (f : Z -> Z) (lo : Z) (n : nat) (k : Z) :
  0 <= k < Z.of_nat n -> byte_at (map f (zrange lo n)) k = f (lo + k).
Proof.
  intros Hk. unfold byte_at.
  rewrite nth_indep with (d' := f 0) by (rewrite length_map, length_zrange; lia).
  rewrite map_nth, nth_zrange by lia. f_equal. lia.
Qed.

Lemma read_loop_spec (s : script) : forall (w : world) (buf : list Z) (base n size : Z),
  0 <= base -> 0 <= n <= size -> base + size <= zlen buf ->
  forall n' buf' s' w', read_loop s w buf base n size = (n', buf', s', w') ->
  n <= n' <= size /\ zlen buf' = zlen buf /\
  w_dev w' = w_dev w /\ w_lock w' = w_lock w /\ w_ro w' = w_ro w /\
  w_trace w' = w_trace w /\
  (forall k, 0 <= k ->
             byte_at buf' k =
             if (base + n <=? k) && (k <? base + n')
             then w_dev w (w_pos w + (k - base - n)) else byte_at buf k).
Proof.
  assert (Step : forall (w : world) (buf : list Z) (base n size cnt : Z),
            0 <= base -> 0 <= n -> 0 <= cnt -> base + n + cnt <= zlen buf ->
            let data := fst (sys_read cnt w) in
            zlen (memcpy buf (base + n) data) = zlen buf /\
            forall k, 0 <= k ->
              byte_at (memcpy buf (base + n) data) k =
              if (base + n <=? k) && (k <? base + n + cnt)
              then w_dev w (w_pos w + (k - base - n)) else byte_at buf k).
  { intros w buf base n size cnt Hb Hn Hc Hl. cbn [sys_read fst].
    assert (L : zlen (map (w_dev w) (zrange (w_pos w) (Z.to_nat cnt))) = cnt)
      by (unfold zlen; rewrite length_map, length_zrange; lia).
    split; [apply zlen_memcpy; lia|].
    intros k Hk. rewrite byte_at_memcpy by lia. rewrite L.
    zcases; auto. rewrite byte_at_map_zrange by lia. f_equal; lia. }
  induction s as [|r s IH]; intros w buf base n size Hb Hn Hsz n' buf' s' w' H;
    simpl in H; destruct (n <? size) eqn:Hlt;
    [apply Z.ltb_lt in Hlt | apply Z.ltb_ge in Hlt
    |apply Z.ltb_lt in Hlt | apply Z.ltb_ge in Hlt].
  - injection H as <- <- <- <-.
    destruct (Step w buf base n size (size - n)) as [S1 S2]; try lia.
    cbn [sys_read fst] in S1, S2. cbn [w_dev w_lock w_ro w_trace].
    splits; auto; try lia.
    intros k Hk. rewrite S2 by lia. replace (base + n + (size - n)) with (base + size) by lia.
    reflexivity.
  - injection H as <- <- <- <-. splits; auto; try lia.
    intros k Hk. zcases; auto. lia.
  - destruct (r <? 0) eqn:Hr.
    + injection H as <- <- <- <-. splits; auto; try lia.
      intros k Hk. zcases; auto. lia.
    + apply Z.ltb_ge in Hr.
      set (cnt := Z.min r (size - n)) in *.
      assert (Hc : 0 <= cnt <= size - n) by (unfold cnt; lia).
      destruct (Step w buf base n size cnt) as [S1 S2]; try lia.
      cbn [sys_read fst] in S1, S2. cbn [sys_read] in H.
      apply IH in H; try lia.
      destruct H as (H1 & H2 & H3 & H4 & H5 & H6 & H7).
      cbn [w_dev w_pos w_lock w_ro w_trace] in *.
      splits; auto; try lia.
      intros k Hk. rewrite H7, S2 by lia. zcases; auto; try lia. f_equal; lia.
  - injection H as <- <- <- <-. splits; auto; try lia.
    intros k Hk. zcases; auto. lia.
Qed.

(** ** Facts about parse_vars *)

Lemma byte_at_skipn (l : list Z) (off k : Z) :
  0 <= off -> 0 <= k -> byte_at (skipn (Z.to_nat off) l) k = byte_at l (off + k).
Proof.
  intros. unfold byte_at. rewrite nth_skipn. f_equal. lia.
Qed.

Lemma in_skipn_of_byte (l : list Z) (off k : Z) :
  0 <= off <= k -> k < zlen l -> byte_at l k = 0 -> In 0 (skipn (Z.to_nat off) l).
Proof.
  unfold zlen, byte_at; intros Ho Hk Hz.
  rewrite <- Hz. replace (Z.to_nat k) with (Z.to_nat off + (Z.to_nat k - Z.to_nat off))%nat by lia.
  rewrite <- nth_skipn. apply nth_In. rewrite length_skipn. lia.
Qed.

(** Where a scanning loop stops: on a NUL, unless [varbytes] reached
    [remain] or the buffer ended. *)
Lemma scan_stop (l : list Z) : forall vb remain,
  vb <= scan l vb remain /\
  scan l vb remain - vb <= zlen l /\
  (scan l vb remain < remain -> scan l vb remain - vb < zlen l ->
   byte_at l (scan l vb remain - vb) = 0).
Proof.
  induction l as [|b l IH]; intros vb remain; simpl.
  - unfold zlen; simpl. lia.
  - rewrite zlen_cons.
    destruct (Z.ltb_spec vb remain); cbn [andb].
    + destruct (Z.eqb_spec b 0) as [->|Hb]; cbn [negb].
      * pose proof (zlen_nonneg l). replace (vb - vb) with 0 by lia.
        splits; try lia. reflexivity.
      * destruct (IH (vb + 1) remain) as (I1 & I2 & I3). splits; try lia.
        intros H1 H2. unfold byte_at in *.
        replace (Z.to_nat (scan l (vb + 1) remain - vb))
          with (S (Z.to_nat (scan l (vb + 1) remain - (vb + 1)))) by lia.
        simpl. apply I3; lia.
    + pose proof (zlen_nonneg l). splits; try lia.
Qed.

(** On a NUL-terminated string that fits, a scanning loop stops on its NUL. *)
Lemma scan_string (str rest : list Z) : forall vb remain,
  nonul str -> vb + zlen str < remain ->
  scan (str ++ 0 :: rest) vb remain = vb + zlen str.
Proof.
  unfold nonul. induction str as [|b str IH]; intros vb remain Hn Hr; simpl.
  - unfold zlen in *; simpl in *.
    destruct (Z.ltb_spec vb remain); simpl; lia.
  - rewrite zlen_cons in *.
    pose proof (zlen_nonneg str).
    destruct (Z.ltb_spec vb remain); [|lia]. cbn [andb].
    destruct (Z.eqb_spec b 0) as [->|Hb]; [exfalso; apply Hn; simpl; auto|].
    cbn [negb]. rewrite IH; [lia| |lia]. intros Hin. apply Hn. simpl. auto.
Qed.

Section Parse.

Context {cfg : config}.

Lemma parse_loop_ptrs (fuel : nat) (buf : list Z) (cur : Z) :
  forall cp remain vsz acc,
  0 <= cp -> cp + remain <= zlen buf ->
  Forall (parsed_ptr buf cur) acc ->
  Forall (parsed_ptr buf cur) (fst (parse_loop fuel buf cur cp remain vsz acc)).
Proof.
  induction fuel as [|fuel IH]; intros cp remain vsz acc Hcp Hlen Hacc;
    cbn [parse_loop].
  - cbn [fst]. apply Forall_rev. exact Hacc.
  - destruct ((remain >? 0) && negb (byte_at buf cp =? 0)) eqn:Hgo;
      [|cbn [fst]; apply Forall_rev; exact Hacc].
    apply andb_true_iff in Hgo. destruct Hgo as [Hrem _].
    rewrite Z.gtb_ltb in Hrem. apply Z.ltb_lt in Hrem.
    set (l1 := skipn (Z.to_nat (cp + 1)) buf).
    set (vb1 := scan l1 1 remain).
    destruct (scan_stop l1 1 remain) as (A1 & A2 & A3). fold vb1 in A1, A2, A3.
    assert (Ll1 : zlen l1 = zlen buf - (cp + 1)).
    { unfold l1, zlen in *. rewrite length_skipn. lia. }
    destruct (Z.geb_spec vb1 remain) as [|Hv1];
      [cbn [fst]; apply Forall_rev; exact Hacc|].
    set (l2 := skipn (Z.to_nat (cp + vb1 + 1)) buf).
    set (vb2 := scan l2 (vb1 + 1) remain).
    destruct (scan_stop l2 (vb1 + 1) remain) as (B1 & B2 & B3). fold vb2 in B1, B2, B3.
    assert (Ll2 : zlen l2 = zlen buf - (cp + vb1 + 1)).
    { unfold l2, zlen in *. rewrite length_skipn. lia. }
    destruct (Z.geb_spec vb2 remain) as [|Hv2];
      [cbn [fst]; apply Forall_rev; exact Hacc|].
    apply IH; try lia. constructor; [|exact Hacc].
    exists cp, (cp + vb1 + 1). cbn [name value]. splits; auto; try lia.
    + apply in_skipn_of_byte with (k := cp + vb1); try lia.
      specialize (A3 ltac:(lia) ltac:(lia)). unfold l1 in A3.
      rewrite byte_at_skipn in A3 by lia. rewrite <- A3. f_equal. lia.
    + apply in_skipn_of_byte with (k := cp + vb2); try lia.
      specialize (B3 ltac:(lia) ltac:(lia)). unfold l2 in B3.
      rewrite byte_at_skipn in B3 by lia. rewrite <- B3. f_equal. lia.
Qed.

Lemma parse_vars_spec (ctx : devinfo_context) :
  current ctx = 0 \/ current ctx = 1 ->
  zlen (infobuf ctx (current ctx)) = INFOBUF_SIZE ->
  exists l vsz,
    parse_vars ctx = (0, set_vars ctx l vsz) /\
    (l, vsz) = parse_loop (Z.to_nat (INFOBUF_SIZE - (DEVINFO_HDR_SIZE + 4)))
                          (infobuf ctx (current ctx)) (current ctx)
                          DEVINFO_HDR_SIZE (INFOBUF_SIZE - (DEVINFO_HDR_SIZE + 4)) 0 [] /\
    Forall (fun v => ptr_ok ctx (name v) /\ ptr_ok ctx (value v)) l.
Proof.
  intros Hc Hl. unfold parse_vars.
  destruct (Z.ltb_spec (current ctx) 0); [lia|].
  destruct (parse_loop _ _ _ _ _ _ _) as [l vsz] eqn:E.
  exists l, vsz. splits; auto.
  pose proof (parse_loop_ptrs (Z.to_nat (INFOBUF_SIZE - (DEVINFO_HDR_SIZE + 4)))
                (infobuf ctx (current ctx)) (current ctx) DEVINFO_HDR_SIZE
                (INFOBUF_SIZE - (DEVINFO_HDR_SIZE + 4)) 0 []) as P.
  rewrite E in P. cbn [fst] in P.
  assert (Q : Forall (parsed_ptr (infobuf ctx (current ctx)) (current ctx)) l).
  { apply P; [unfold DEVINFO_HDR_SIZE; lia | unfold DEVINFO_HDR_SIZE in *; lia | constructor]. }
  rewrite Forall_forall in *. intros v Hin.
  destruct (Q v Hin) as (on & ov & -> & -> & ? & ? & ? & ?).
  simpl. tauto.
Qed.

End Parse.

(** ** Loading a slot *)

Lemma respond_coop (s : script) r s' :
  cooperative s -> respond s = (r, s') -> 0 <= r /\ cooperative s'.
Proof.
  unfold cooperative. destruct s; simpl; intros C H; injection H as <- <-.
  - split; [unfold GRANT; lia | constructor].
  - inversion C; auto.
Qed.

Lemma read_loop_coop (s : script) : forall w buf base n size n' buf' s' w',
  cooperative s -> n <= size ->
  read_loop s w buf base n size = (n', buf', s', w') ->
  n' = size /\ cooperative s'.
Proof.
  unfold cooperative.
  induction s as [|r s IH]; intros w buf base n size n' buf' s' w' C Hn H;
    simpl in H; destruct (Z.ltb_spec n size).
  - injection H as <- <- <- <-. auto.
  - injection H as <- <- <- <-. split; [lia|auto].
  - inversion C as [|? ? Hr C']; subst.
    destruct (Z.ltb_spec r 0); [lia|].
    cbn [sys_read] in H. apply IH in H; auto. lia.
  - injection H as <- <- <- <-. split; [lia|auto].
Qed.

Lemma write_loop_coop (s : script) : forall w buf base n size n' s' w',
  cooperative s -> n <= size ->
  write_loop s w buf base n size = (n', s', w') ->
  n' = size /\ cooperative s'.
Proof.
  unfold cooperative.
  induction s as [|r s IH]; intros w buf base n size n' s' w' C Hn H;
    simpl in H; destruct (Z.ltb_spec n size).
  - injection H as <- <- <-. auto.
  - injection H as <- <- <-. split; [lia|auto].
  - inversion C as [|? ? Hr C']; subst.
    destruct (Z.ltb_spec r 0); [lia|].
    apply IH in H; auto. lia.
  - injection H as <- <- <-. split; [lia|auto].
Qed.

Section Load.

Context {cfg : config}.
Hypothesis cfg_ok : config_ok cfg.

Lemma set_valid_fields ctx i :
  infobuf (set_valid ctx i) 0 = infobuf ctx 0 /\
  infobuf (set_valid ctx i) 1 = infobuf ctx 1 /\
  fd (set_valid ctx i) = fd ctx /\ lockfd (set_valid ctx i) = lockfd ctx /\
  readonly (set_valid ctx i) = readonly ctx /\
  current (set_valid ctx i) = current ctx /\ curinfo (set_valid ctx i) = curinfo ctx /\
  vars (set_valid ctx i) = vars ctx /\ varsize (set_valid ctx i) = varsize ctx.
Proof. unfold set_valid. destruct (i =? 0); simpl; tauto. Qed.

(** What load_slot does to the context and to the world: it fills buffer [i],
    and sets [valid[i]] only for a slot image read in full that passes the
    checks. *)
Lemma load_slot_spec (i : Z) ctx s w ctx' s' w' :
  zlen (infobuf ctx i) = INFOBUF_SIZE ->
  load_slot i ctx s w = (ctx', s', w') ->
  exists b (v : bool),
    ctx' = (if v then set_valid (set_infobuf ctx i b) i else set_infobuf ctx i b) /\
    zlen b = INFOBUF_SIZE /\
    w_dev w' = w_dev w /\ w_lock w' = w_lock w /\ w_ro w' = w_ro w /\
    w_trace w' = w_trace w /\
    (v = true -> slot_valid b = true /\ b = dev_slot w i) /\
    (cooperative s -> cooperative s' /\ v = slot_valid (dev_slot w i)).
Proof.
  intros Hlen H. pose proof ext_size_pos cfg_ok as HE.
  assert (HS : INFOBUF_SIZE = 512 + EXTENSION_SIZE) by reflexivity.
  unfold load_slot in H.
  destruct (respond s) as [r1 s1] eqn:R1.
  destruct (Z.ltb_spec r1 0).
  { injection H as <- <- <-. exists (infobuf ctx i), false.
    rewrite set_infobuf_id. splits; auto; try discriminate.
    intros C. apply (respond_coop _ _ _ C) in R1. lia. }
  unfold DEVINFO_BLOCK_SIZE in *.
  destruct (read_loop s1 (sys_lseek (devinfo_offset i) w) (infobuf ctx i) 0 0 512)
    as [[[n1 b1] s2] w1] eqn:L1.
  pose proof (read_loop_spec s1 (sys_lseek (devinfo_offset i) w) (infobuf ctx i) 0 0 512
                ltac:(lia) ltac:(lia) ltac:(lia) _ _ _ _ L1)
    as (A1 & A2 & A3 & A4 & A5 & A6 & A7).
  cbn [sys_lseek w_dev w_pos w_lock w_ro w_trace] in A3, A4, A5, A6, A7.
  rewrite infobuf_set_same in H.
  (* the header of the device slot is the header of b1 when the read is full *)
  assert (Hdr : n1 = 512 -> sub b1 0 20 = sub (dev_slot w i) 0 20).
  { intros ->. apply bytes_ext.
    - unfold sub. rewrite !length_firstn. simpl skipn.
      pose proof (length_dev_slot cfg_ok w i). unfold zlen in *. lia.
    - intros k Hk. rewrite zlen_sub in Hk by lia.
      rewrite !byte_at_sub by lia. rewrite A7 by lia.
      rewrite byte_at_dev_slot by (auto; lia). zcases; try lia. f_equal; lia. }
  destruct (Z.ltb_spec n1 512).
  { injection H as <- <- <-. exists b1, false.
    splits; auto; try lia; try discriminate.
    intros C. apply (respond_coop _ _ _ C) in R1. destruct R1 as [_ C1].
    apply (read_loop_coop _ _ _ _ _ _ _ _ _ _ C1) in L1; lia. }
  assert (n1 = 512) by lia. subst n1. specialize (Hdr eq_refl).
  assert (Hinfo : info_of_bytes b1 = info_of_bytes (dev_slot w i)).
  { rewrite <- (info_of_bytes_prefix b1), Hdr. apply info_of_bytes_prefix. }
  assert (Coop1 : cooperative s -> cooperative s2).
  { intros C. apply (respond_coop _ _ _ C) in R1. destruct R1 as [_ C1].
    apply (read_loop_coop _ _ _ _ _ _ _ _ _ _ C1) in L1; try lia; tauto. }
  assert (SV : slot_valid (dev_slot w i)
               = bytes_eqb (magic (info_of_bytes b1)) DEVICE_MAGIC
                 && (devinfo_version (info_of_bytes b1) >=? DEVINFO_VERSION_CURRENT)
                 && (ext_sectors (info_of_bytes b1) =? EXTENSION_SECTOR_COUNT)
                 && (crc32 0 (sub (dev_slot w i) 512 (EXTENSION_SIZE - 4))
                     =? le_val (sub (dev_slot w i) (INFOBUF_SIZE - 4) 4)))
    by (unfold slot_valid; now rewrite Hinfo).
  destruct (bytes_eqb (magic (info_of_bytes b1)) DEVICE_MAGIC) eqn:M1; cbn [negb] in H.
  2:{ injection H as <- <- <-. exists b1, false.
      splits; auto; try lia; try discriminate. }
  destruct (devinfo_version (info_of_bytes b1) >=? DEVINFO_VERSION_CURRENT) eqn:M2.
  2:{ injection H as <- <- <-. exists b1, false.
      splits; auto; try lia; try discriminate. }
  destruct (ext_sectors (info_of_bytes b1) =? EXTENSION_SECTOR_COUNT) eqn:M3;
    cbn [negb] in H.
  2:{ injection H as <- <- <-. exists b1, false.
      splits; auto; try lia; try discriminate. }
  cbn [andb] in SV.
  destruct (respond s2) as [r2 s3] eqn:R2.
  destruct (Z.ltb_spec r2 0).
  { injection H as <- <- <-. exists b1, false.
    splits; auto; try lia; try discriminate.
    intros C. apply Coop1 in C. apply (respond_coop _ _ _ C) in R2. lia. }
  destruct (read_loop s3 (sys_lseek (extension_offset i) w1) b1 512 0 EXTENSION_SIZE)
    as [[[n2 b2] s4] w2] eqn:L2.
  assert (T1 : 0 <= 0 <= EXTENSION_SIZE) by lia.
  assert (T2 : 512 + EXTENSION_SIZE <= zlen b1) by lia.
  pose proof (read_loop_spec s3 (sys_lseek (extension_offset i) w1) b1 512 0 EXTENSION_SIZE
                ltac:(lia) T1 T2 _ _ _ _ L2)
    as (B1 & B2 & B3 & B4 & B5 & B6 & B7).
  unfold extension_offset, DEVINFO_BLOCK_SIZE in B7.
  cbn [sys_lseek w_dev w_pos w_lock w_ro w_trace] in B3, B4, B5, B6, B7.
  rewrite set_infobuf_twice, infobuf_set_same in H.
  assert (Coop2 : cooperative s -> n2 = EXTENSION_SIZE /\ cooperative s4).
  { intros C. apply Coop1 in C. apply (respond_coop _ _ _ C) in R2. destruct R2 as [_ C3].
    apply (read_loop_coop _ _ _ _ _ _ _ _ _ _ C3) in L2; try lia; tauto. }
  destruct (Z.ltb_spec n2 EXTENSION_SIZE).
  { injection H as <- <- <-. exists b2, false.
    splits; auto; try lia; try congruence; try discriminate.
    intros C. apply Coop2 in C. lia. }
  assert (n2 = EXTENSION_SIZE) by lia. subst n2.
  assert (Eb : b2 = dev_slot w i).
  { apply bytes_ext.
    - pose proof (length_dev_slot cfg_ok w i). unfold zlen in *. lia.
    - intros k Hk. rewrite byte_at_dev_slot by (auto; lia).
      rewrite B7 by lia. rewrite A3. zcases; try lia.
      + f_equal; lia.
      + rewrite A7 by lia. zcases; try lia. f_equal; lia. }
  rewrite <- Eb in SV.
  destruct (crc32 0 (sub b2 512 (EXTENSION_SIZE - 4)) =? le_val (sub b2 (INFOBUF_SIZE - 4) 4))
    eqn:M4; cbn [negb] in H; injection H as <- <- <-.
  - exists b2, true. split; [reflexivity|]. split; [lia|].
    split; [congruence|]. split; [congruence|]. split; [congruence|].
    split; [congruence|]. split.
    + intros _. split; [exact SV|exact Eb].
    + intros C. apply Coop2 in C. split; [tauto|]. rewrite <- Eb. now rewrite SV.
  - exists b2, false. split; [reflexivity|]. split; [lia|].
    split; [congruence|]. split; [congruence|]. split; [congruence|].
    split; [congruence|]. split.
    + discriminate.
    + intros C. apply Coop2 in C. split; [tauto|]. rewrite <- Eb. now rewrite SV.
Qed.

End Load.

(** ** find_bootinfo *)

Lemma set_status_frame (dev : list Z) (b : bool) (w : world) :
  w_dev (snd (set_bootdev_writeable_status dev b w)) = w_dev w /\
  w_pos (snd (set_bootdev_writeable_status dev b w)) = w_pos w /\
  w_lock (snd (set_bootdev_writeable_status dev b w)) = w_lock w /\
  w_trace (snd (set_bootdev_writeable_status dev b w)) = w_trace w.
Proof.
  unfold set_bootdev_writeable_status.
  destruct ((zlen (strz dev) <? 6) || (zlen (strz dev) >? 32)); [simpl; auto|].
  destruct (w_ro w); simpl; auto.
  destruct (Bool.eqb b (negb b0)); simpl; auto.
Qed.

Section Find.

Context {cfg : config}.
Hypothesis cfg_ok : config_ok cfg.

Lemma choose_current_cases ctx :
  choose_current ctx = 0 \/ choose_current ctx = 1.
Proof.
  unfold choose_current.
  repeat match goal with |- context [if ?c then _ else _] => destruct c end; auto.
Qed.

Lemma zlen_zero_buf : zlen (zeros INFOBUF_SIZE) = INFOBUF_SIZE.
Proof.
  pose proof (ext_size_pos cfg_ok). apply zlen_zeros.
  unfold INFOBUF_SIZE, DEVINFO_BLOCK_SIZE. lia.
Qed.

(** What find_bootinfo returns when it returns a context. *)
Lemma find_bootinfo_spec rdonly s w r ctx s' w' :
  find_bootinfo rdonly s w = (r, Some ctx, s', w') ->
  readonly ctx = rdonly /\ 0 <= fd ctx /\ 0 <= lockfd ctx /\
  w_dev w' = w_dev w /\ w_trace w' = w_trace w /\
  w_lock w' = (if rdonly then LockSh else LockEx) /\
  ctx_ok ctx /\
  (valid0 ctx = true -> slot_valid (infobuf ctx 0) = true /\ infobuf ctx 0 = dev_slot w 0) /\
  (valid1 ctx = true -> slot_valid (infobuf ctx 1) = true /\ infobuf ctx 1 = dev_slot w 1) /\
  (cooperative s ->
   cooperative s' /\ valid0 ctx = slot_valid (dev_slot w 0) /\
   valid1 ctx = slot_valid (dev_slot w 1)) /\
  ((r = -1 /\ valid0 ctx = false /\ valid1 ctx = false /\ current ctx = -1 /\
    curinfo ctx = info_zero /\ vars ctx = [] /\ varsize ctx = 0) \/
   (r = 0 /\ valid0 ctx || valid1 ctx = true /\ current ctx = choose_current ctx /\
    curinfo ctx = info_of_bytes (infobuf ctx (current ctx)) /\
    (vars ctx, varsize ctx)
    = parse_loop (Z.to_nat (INFOBUF_SIZE - (DEVINFO_HDR_SIZE + 4)))
                 (infobuf ctx (current ctx)) (current ctx)
                 DEVINFO_HDR_SIZE (INFOBUF_SIZE - (DEVINFO_HDR_SIZE + 4)) 0 [])).
Proof.
  intros H. unfold find_bootinfo in H.
  destruct (respond s) as [dirfd s1] eqn:R1.
  destruct (if dirfd <? 0 then respond s1 else (0, s1)) as [mk s2] eqn:R2.
  destruct ((dirfd <? 0) && (mk <? 0)) eqn:Emk; [discriminate|].
  destruct (if dirfd <? 0 then respond s2 else (dirfd, s2)) as [d2 s3] eqn:R3.
  destruct (respond s3) as [lkfd s4] eqn:R4.
  destruct (Z.ltb_spec lkfd 0); [discriminate|].
  destruct (respond s4) as [rf s5] eqn:R5.
  destruct (Z.ltb_spec rf 0); [discriminate|].
  destruct (respond s5) as [dfd s6] eqn:R6.
  destruct (Z.ltb_spec dfd 0); [discriminate|].
  set (wl := sys_flock (if rdonly then LockSh else LockEx) w) in *.
  set (cz := set_devinfo_dev (set_readonly ctx_zero rdonly) BOOTINFO_STORAGE_DEVICE) in *.
  set (wg := if negb rdonly
             then snd (set_bootdev_writeable_status (devinfo_dev cz) true wl)
             else wl) in *.
  set (c0 := set_fds cz dfd lkfd) in *.
  assert (Wg : w_dev wg = w_dev w /\ w_trace wg = w_trace w /\
               w_lock wg = (if rdonly then LockSh else LockEx)).
  { unfold wg. destruct (negb rdonly).
    - pose proof (set_status_frame (devinfo_dev cz) true wl) as (A & _ & B & C).
      rewrite A, B, C. unfold wl. simpl. auto.
    - unfold wl. simpl. auto. }
  destruct Wg as (Wd & Wt & Wl).
  assert (Coop6 : cooperative s -> cooperative s6).
  { intros C. apply (respond_coop _ _ _ C) in R1. destruct R1 as [? C1].
    destruct (Z.ltb_spec dirfd 0); [lia|].
    injection R2 as <- <-. injection R3 as <- <-.
    apply (respond_coop _ _ _ C1) in R4. destruct R4 as [_ C4].
    apply (respond_coop _ _ _ C4) in R5. destruct R5 as [_ C5].
    apply (respond_coop _ _ _ C5) in R6. tauto. }
  destruct (load_slot 0 c0 s6 (sys_open_dev wg)) as [[c1 s7] w1] eqn:L0.
  destruct (load_slot 1 c1 s7 w1) as [[c2 s8] w2] eqn:L1.
  apply (load_slot_spec cfg_ok) in L0; [|apply zlen_zero_buf].
  destruct L0 as (b0 & v0 & E1 & Z0 & D0 & K0 & _ & T0 & V0 & C0).
  assert (Z1' : zlen (infobuf c1 1) = INFOBUF_SIZE).
  { rewrite E1. destruct v0; unfold c0; cbn; apply zlen_zero_buf. }
  apply (load_slot_spec cfg_ok) in L1; [|exact Z1'].
  destruct L1 as (b1 & v1 & E2 & Z1 & D1 & K1 & _ & T1 & V1 & C1).
  cbn [sys_open_dev w_dev w_lock w_trace] in D0, K0, T0.
  assert (F : fd c2 = dfd /\ lockfd c2 = lkfd /\ readonly c2 = rdonly /\
              valid0 c2 = v0 /\ valid1 c2 = v1 /\
              infobuf c2 0 = b0 /\ infobuf c2 1 = b1 /\ vars c2 = [] /\ varsize c2 = 0).
  { rewrite E2, E1. unfold c0. destruct v0, v1; cbn; tauto. }
  destruct F as (F1 & F2 & F3 & F4 & F5 & F6 & F7 & F8 & F9).
  assert (DS1 : dev_slot w1 1 = dev_slot w 1).
  { apply dev_slot_frame; auto. intros o _. rewrite D0, Wd. reflexivity. }
  assert (DS0 : dev_slot (sys_open_dev wg) 0 = dev_slot w 0).
  { apply dev_slot_frame; auto. intros o _. cbn. rewrite Wd. reflexivity. }
  rewrite DS0 in V0, C0. rewrite DS1 in V1, C1.
  assert (Common :
    forall c l vsz d, ctx = set_vars (set_current c2 c d) l vsz ->
      readonly ctx = rdonly /\ fd ctx = dfd /\ lockfd ctx = lkfd /\
      valid0 ctx = v0 /\ valid1 ctx = v1 /\ infobuf ctx 0 = b0 /\ infobuf ctx 1 = b1 /\
      current ctx = c /\ curinfo ctx = d /\ vars ctx = l /\ varsize ctx = vsz).
  { intros c l vsz d ->. cbn. unfold infobuf in *. cbn in *. tauto. }
  destruct (negb (valid0 c2 || valid1 c2)) eqn:Enone.
  - injection H as <- <- <- <-.
    destruct (Common (-1) [] 0 info_zero) as (G1 & G2 & G3 & G4 & G5 & G6 & G7 & G8 & G9 & G10 & G11).
    { destruct c2; cbn in *. subst. reflexivity. }
    rewrite F4, F5 in Enone.
    assert (Ev : v0 = false /\ v1 = false)
      by (destruct v0, v1; simpl in Enone; try discriminate; auto).
    destruct Ev as [Ev0 Ev1]. subst v0 v1.
    splits; try lia; try congruence.
    + split; [split; congruence|]. rewrite G10. constructor.
    + intros C. apply Coop6 in C. apply C0 in C. destruct C as [C7 E0].
      apply C1 in C7. destruct C7 as [C8 E1']. rewrite G4, G5. auto.
    + left. rewrite G4, G5. auto 10.
  - set (c := choose_current c2) in *.
    set (c3 := set_current c2 c (info_of_bytes (infobuf c2 c))) in *.
    assert (Hc : c = 0 \/ c = 1) by apply choose_current_cases.
    destruct (parse_vars_spec c3) as (l & vsz & P1 & P2 & P3).
    { exact Hc. }
    { change (zlen (infobuf c2 c) = INFOBUF_SIZE).
      assert (HB : forall i, i = 0 \/ i = 1 -> zlen (infobuf c2 i) = INFOBUF_SIZE)
        by (intros i [-> | ->]; congruence).
      apply HB. exact Hc. }
    rewrite P1 in H. cbn [Z.ltb Z.compare] in H. injection H as <- <- <- <-.
    destruct (Common c l vsz (info_of_bytes (infobuf c2 c)) eq_refl)
      as (G1 & G2 & G3 & G4 & G5 & G6 & G7 & G8 & G9 & G10 & G11).
    assert (Ech : choose_current (set_vars c3 l vsz) = c).
    { unfold c, choose_current, c3. cbn. unfold infobuf. cbn. reflexivity. }
    assert (Ebuf : infobuf (set_vars c3 l vsz) c = infobuf c2 c).
    { unfold infobuf, c3. cbn. reflexivity. }
    splits; try lia; try congruence.
    + split; [split; congruence|]. rewrite G10.
      rewrite Forall_forall in *. intros v Hin. specialize (P3 v Hin).
      destruct (name v), (value v); cbn in *; tauto.
    + rewrite G4, G6. exact V0.
    + rewrite G5, G7. exact V1.
    + intros C. apply Coop6 in C. apply C0 in C. destruct C as [C7 E0].
      apply C1 in C7. destruct C7 as [C8 E1']. rewrite G4, G5. auto.
    + right. splits; auto.
      all: try (rewrite G4, G5, <- F4, <- F5;
                destruct (valid0 c2 || valid1 c2); [reflexivity|discriminate]).
      all: try (rewrite G8; now auto).
      all: try (rewrite G9, G8, Ebuf; reflexivity).
      all: try (rewrite G10, G11, G8, Ebuf; exact P2).
Qed.

End Find.

(** ** The slot that is written and the slot that is chosen *)

Section Slots.

Context {cfg : config}.
Hypothesis cfg_ok : config_ok cfg.

(** A successful bootinfo_update leaves on the device, in the destination
    slot, the buffer it has built, and touches nothing else. *)
Lemma bootinfo_update_device ctx s w ctx' s' w' :
  ctx_ok ctx -> bootinfo_update ctx s w = (0, ctx', s', w') ->
  exists pk,
    zlen pk = INFOBUF_SIZE /\ firstn 20 pk = header_bytes (curinfo ctx) /\
    fst (pack_vars (set_infobuf ctx (dest_slot ctx)
                      (fill_header (curinfo ctx) (infobuf ctx (dest_slot ctx))))
                   (dest_slot ctx)) >= 0 /\
    snd (pack_vars (set_infobuf ctx (dest_slot ctx)
                      (fill_header (curinfo ctx) (infobuf ctx (dest_slot ctx))))
                   (dest_slot ctx)) = set_infobuf ctx (dest_slot ctx) pk /\
    ctx' = set_infobuf ctx (dest_slot ctx) (store_crcs pk) /\
    dev_slot w' (dest_slot ctx) = store_crcs pk /\
    (forall o, ~ in_slot (dest_slot ctx) o -> w_dev w' o = w_dev w o) /\
    w_lock w' = w_lock w /\ trace_ext (w_lock w) w w'.
Proof.
  intros Hok H.
  assert (Hro : readonly ctx = false).
  { destruct (readonly ctx) eqn:E; auto. unfold bootinfo_update in H.
    rewrite E in H. discriminate. }
  destruct (bootinfo_update_inv cfg_ok ctx s w _ _ _ _ Hok Hro H)
    as (r & pk & Hpk & Zpk & Fpk & [(Hr & Hm & _)|(Hr & -> & ok & Hw & Hret)]);
    [discriminate|].
  destruct ok; [|discriminate].
  destruct (store_crcs_spec cfg_ok pk Zpk) as (Zb & _).
  destruct (write_slot_spec cfg_ok (dest_slot ctx) (store_crcs pk) s w _ _ _ Zb Hw)
    as (W1 & W2 & W3 & _ & W5).
  exists pk. rewrite Hpk. cbn [fst snd]. splits; auto; try lia.
  apply dev_slot_eq; auto.
Qed.

(* What a successful update leaves on the device, slot by slot. *)
Lemma update_other_slot_props ctx s w ctx' s' w' :
  ctx_ok ctx -> bootinfo_update ctx s w = (0, ctx', s', w') ->
  ((current ctx = 0 -> dest_slot ctx = 1) /\ (current ctx = 1 -> dest_slot ctx = 0) /\
   (current ctx = -1 -> dest_slot ctx = 0)) /\
  (forall o, ~ in_slot (dest_slot ctx) o -> w_dev w' o = w_dev w o) /\
  (let h := info_of_bytes (dev_slot w' (dest_slot ctx)) in
   magic h = DEVICE_MAGIC /\ devinfo_version h = 4 /\
   ext_sectors h = EXTENSION_SECTOR_COUNT /\
   flags h = flags (curinfo ctx) /\ failed_boots h = failed_boots (curinfo ctx) /\
   sernum h = (sernum (curinfo ctx) + 1) mod 256) /\
  (current ctx = 0 \/ current ctx = 1 ->
   dev_slot w' (current ctx) = dev_slot w (current ctx)).
Proof.
  intros Hok H.
  destruct (bootinfo_update_device ctx s w ctx' s' w' Hok H)
    as (pk & Zpk & Fpk & _ & _ & _ & Hdev & Hout & _).
  pose proof (dest_slot_cases ctx) as (_ & D0 & D1 & D2).
  split; [splits; auto; intros; apply D2; lia|].
  split; [exact Hout|]. split.
  - cbv zeta. rewrite Hdev, <- info_of_bytes_prefix.
    rewrite (final_header cfg_ok (curinfo ctx) pk Zpk Fpk).
    pose proof (header_fields cfg_ok (curinfo ctx) (crc32 0 (sub pk 0 512))) as F.
    cbv zeta in F. tauto.
  - intros Hc. apply dev_slot_frame; auto. intros o Ho. apply Hout.
    intros Hd. revert Ho. apply slots_disjoint with (i := dest_slot ctx); auto.
    destruct Hc as [Hc|Hc]; rewrite Hc; [rewrite D0|rewrite D1]; auto; discriminate.
Qed.

(* The two checksum fields of a written slot, and the check made on load. *)
Lemma update_crc_props ctx s w ctx' s' w' :
  ctx_ok ctx -> bootinfo_update ctx s w = (0, ctx', s', w') ->
  (let b := dev_slot w' (dest_slot ctx) in
   le_val (sub b (INFOBUF_SIZE - 4) 4)
   = crc32 0 (sub b DEVINFO_BLOCK_SIZE (EXTENSION_SIZE - 4)) /\
   crcsum (info_of_bytes b)
   = crc32 0 (memcpy (sub b 0 DEVINFO_BLOCK_SIZE) OFF_CRCSUM (zeros 4)) /\
   slot_valid b = true) /\
  (forall rdonly s0 w0 r c s1 w1,
     find_bootinfo rdonly s0 w0 = (r, Some c, s1, w1) ->
     (valid0 c = true ->
      crc32 0 (sub (infobuf c 0) DEVINFO_BLOCK_SIZE (EXTENSION_SIZE - 4))
      = le_val (sub (infobuf c 0) (INFOBUF_SIZE - 4) 4)) /\
     (valid1 c = true ->
      crc32 0 (sub (infobuf c 1) DEVINFO_BLOCK_SIZE (EXTENSION_SIZE - 4))
      = le_val (sub (infobuf c 1) (INFOBUF_SIZE - 4) 4))).
Proof.
  intros Hok H. split.
  - destruct (bootinfo_update_device ctx s w ctx' s' w' Hok H)
      as (pk & Zpk & Fpk & _ & _ & _ & Hdev & _).
    cbv zeta. rewrite Hdev.
    destruct (store_crcs_spec cfg_ok pk Zpk) as (Zb & A & B & C & D & E & F).
    pose proof (header_fields cfg_ok (curinfo ctx) (crc32 0 (sub pk 0 512)))
      as (M1 & M2 & _ & _ & M5 & _ & _ & M8).
    rewrite <- (final_header cfg_ok (curinfo ctx) pk Zpk Fpk) in M1, M2, M5, M8.
    rewrite info_of_bytes_prefix in M1, M2, M5, M8.
    assert (Ecrc : le_val (sub (store_crcs pk) (INFOBUF_SIZE - 4) 4)
                   = crc32 0 (sub (store_crcs pk) DEVINFO_BLOCK_SIZE (EXTENSION_SIZE - 4))).
    { unfold DEVINFO_BLOCK_SIZE. rewrite D. apply crc32_le. }
    splits.
    + exact Ecrc.
    + rewrite M5, crc32_le. f_equal. unfold DEVINFO_BLOCK_SIZE, OFF_CRCSUM.
      rewrite <- F. f_equal.
      replace (sub pk 12 4) with (sub (header_bytes (curinfo ctx)) 12 4); [reflexivity|].
      rewrite <- Fpk. change (firstn 20 pk) with (sub pk 0 20).
      apply sub_sub_prefix; lia.
    + unfold slot_valid. rewrite M1, M2, M8, Ecrc.
      rewrite Z.eqb_refl, Z.eqb_refl. reflexivity.
  - intros rdonly s0 w0 r c s1 w1 Hf.
    destruct (find_bootinfo_spec cfg_ok rdonly s0 w0 r c s1 w1 Hf)
      as (_ & _ & _ & _ & _ & _ & _ & V0 & V1 & _).
    split; intros Hv; [destruct (V0 Hv) as [S _] | destruct (V1 Hv) as [S _]];
      unfold slot_valid in S; apply andb_true_iff in S; destruct S as [_ S];
      now apply Z.eqb_eq in S.
Qed.

(** C2. What find_bootinfo makes the current slot, from the valid flags and
    the serial numbers [s0], [s1] of the two slot buffers: the only valid slot
    when exactly one is valid; none when neither is; when both are, slot 1
    for [(s0, s1) = (255, 0)], slot 0 for [(0, 255)], otherwise the slot with
    the larger serial number, and slot 0 when they are equal. *)
Theorem find_bootinfo_current rdonly s w r ctx s' w' :
  find_bootinfo rdonly s w = (r, Some ctx, s', w') ->
  let s0 := sernum (info_of_bytes (infobuf ctx 0)) in
  let s1 := sernum (info_of_bytes (infobuf ctx 1)) in
  (valid0 ctx = true -> valid1 ctx = false -> current ctx = 0) /\
  (valid0 ctx = false -> valid1 ctx = true -> current ctx = 1) /\
  (valid0 ctx = false -> valid1 ctx = false -> current ctx = -1) /\
  (valid0 ctx = true -> valid1 ctx = true ->
   (s0 = 255 -> s1 = 0 -> current ctx = 1) /\
   (s0 = 0 -> s1 = 255 -> current ctx = 0) /\
   (~ (s0 = 255 /\ s1 = 0) -> ~ (s0 = 0 /\ s1 = 255) ->
    (s1 > s0 -> current ctx = 1) /\ (s0 > s1 -> current ctx = 0) /\
    (s0 = s1 -> current ctx = 0))).
Proof.
  intros H s0 s1.
  destruct (find_bootinfo_spec cfg_ok rdonly s w r ctx s' w' H)
    as (_ & _ & _ & _ & _ & _ & _ & _ & _ & _ & [(_ & V0 & V1 & Hc & _)|(_ & Hv & Hc & _)]).
  - rewrite V0, V1, Hc. splits; intros; congruence.
  - rewrite Hc. unfold choose_current. fold s0 s1.
    destruct (valid0 ctx), (valid1 ctx); cbn [andb negb orb] in *;
      try discriminate; repeat (splits; intros); try congruence; try discriminate.
    all: destruct (Z.eqb_spec s0 255), (Z.eqb_spec s1 0), (Z.eqb_spec s1 255),
           (Z.eqb_spec s0 0); cbn [andb]; try lia; try tauto.
    all: rewrite Z.gtb_ltb; destruct (Z.ltb_spec s0 s1); lia.
Qed.

End Slots.

(** ** The boot-state marks *)

Lemma land_lor_1 (f : Z) : Z.land (Z.lor f 1) 1 = 1.
Proof.
  apply Z.bits_inj'. intros n Hn.
  rewrite Z.land_spec, Z.lor_spec.
  destruct (Z.eq_dec n 0) as [->|Hne].
  - simpl. now rewrite orb_true_r.
  - replace (Z.testbit 1 n) with false; [now rewrite andb_false_r|].
    symmetry. change 1 with (2 ^ 0). apply Z.pow2_bits_false. lia.
Qed.

Lemma land_254_1 (f : Z) : Z.land (Z.land f 254) 1 = 0.
Proof. rewrite <- Z.land_assoc. simpl. apply Z.land_0_r. Qed.

Section Marks.

Context {cfg : config}.

Lemma update_curinfo ctx s w ret ctx' s' w' :
  bootinfo_update ctx s w = (ret, ctx', s', w') ->
  curinfo ctx' = curinfo ctx /\ readonly ctx' = readonly ctx.
Proof.
  intros H. destruct (bootinfo_update_shape ctx s w) as [b Hb].
  rewrite H in Hb. cbn [fst snd] in Hb. subst ctx'.
  pose proof (set_infobuf_fields ctx (dest_slot ctx) b). tauto.
Qed.

Lemma mark_in_progress_step ctx s w ret cnt ctx' s' w' :
  readonly ctx = false ->
  bootinfo_mark_in_progress ctx s w = (ret, cnt, ctx', s', w') ->
  readonly ctx' = false /\
  cnt = Some (bootinfo_failed_boot_count ctx') /\
  bootinfo_is_in_progress ctx' = 1 /\
  (bootinfo_is_in_progress ctx = 0 ->
   bootinfo_failed_boot_count ctx' = bootinfo_failed_boot_count ctx) /\
  (bootinfo_is_in_progress ctx = 1 ->
   bootinfo_failed_boot_count ctx'
   = (bootinfo_failed_boot_count ctx + 1) mod 256).
Proof.
  intros Hro H. unfold bootinfo_mark_in_progress in H. rewrite Hro in H.
  match type of H with
  | context [bootinfo_update ?c s w] =>
      destruct (bootinfo_update c s w) as [[[r1 c1] s1] w1] eqn:U
  end.
  injection H as <- <- <- <- <-.
  apply update_curinfo in U. destruct U as [U1 U2]. cbn in U1, U2.
  unfold bootinfo_is_in_progress, bootinfo_failed_boot_count.
  rewrite U1, U2.
  destruct (Z.eqb_spec (Z.land (flags (curinfo ctx)) FLAG_BOOT_IN_PROGRESS) 0) as [E|E];
    cbn [negb]; cbn; unfold FLAG_BOOT_IN_PROGRESS in *.
  - rewrite land_lor_1. cbn. splits; auto. discriminate.
  - destruct (Z.eqb_spec (Z.land (flags (curinfo ctx)) 1) 0); [contradiction|].
    cbn. splits; auto. discriminate.
Qed.

Lemma mark_successful_step ctx s w ret cnt ctx' s' w' :
  readonly ctx = false ->
  bootinfo_mark_successful ctx s w = (ret, cnt, ctx', s', w') ->
  cnt = Some (bootinfo_failed_boot_count ctx) /\
  bootinfo_is_in_progress ctx' = 0 /\ bootinfo_failed_boot_count ctx' = 0.
Proof.
  intros Hro H. unfold bootinfo_mark_successful in H. rewrite Hro in H.
  match type of H with
  | context [bootinfo_update ?c s w] =>
      destruct (bootinfo_update c s w) as [[[r1 c1] s1] w1] eqn:U
  end.
  injection H as <- <- <- <- <-.
  apply update_curinfo in U. destruct U as [U1 U2]. cbn in U1.
  unfold bootinfo_is_in_progress, bootinfo_failed_boot_count.
  rewrite U1. cbn. unfold FLAG_BOOT_IN_PROGRESS.
  change (255 - 1) with 254. rewrite land_254_1. cbn. auto.
Qed.

(** From a state with the flag set, [j] more calls add [j] modulo 256. *)
Lemma mark_in_progress_more (j : nat) : forall ctx s w,
  readonly ctx = false -> bootinfo_is_in_progress ctx = 1 ->
  0 <= bootinfo_failed_boot_count ctx < 256 ->
  let '(ctx', _, _) := mark_in_progress_times j ctx s w in
  bootinfo_is_in_progress ctx' = 1 /\
  bootinfo_failed_boot_count ctx'
  = (bootinfo_failed_boot_count ctx + Z.of_nat j) mod 256.
Proof.
  induction j as [|j IH]; intros ctx s w Hro Hip Hn.
  - cbn. split; auto. rewrite Z.add_0_r, Z.mod_small; auto.
  - cbn [mark_in_progress_times].
    destruct (bootinfo_mark_in_progress ctx s w) as [[[[r c] c1] s1] w1] eqn:M.
    destruct (mark_in_progress_step ctx s w _ _ _ _ _ Hro M) as (R & _ & I & _ & F).
    specialize (F Hip).
    specialize (IH c1 s1 w1 R I).
    destruct (mark_in_progress_times j c1 s1 w1) as [[c2 s2] w2].
    rewrite F in IH.
    destruct IH as [I2 F2]; [apply Z.mod_pos_bound; lia|].
    split; auto. rewrite F2, Zplus_mod_idemp_l. f_equal. lia.
Qed.

(** C3, as the code has it.  On a writable context,
    bootinfo_mark_in_progress maps the boot state [(0, n)] to [(1, n)] and
    [(1, n)] to [(1, (n + 1) mod 256)] (the counter is a uint8_t: it wraps
    from 255 to 0, it does not stop at 255) and hands back the new count;
    bootinfo_mark_successful maps every state to [(0, 0)] and hands back the
    count it had before.  Hence after [k >= 1] consecutive calls of
    bootinfo_mark_in_progress from the state [(0, 0)], the flag is set and
    the count is [(k - 1) mod 256], which is [min (k - 1) 255] as long as
    [k <= 256]. *)
Theorem mark_transitions ctx s w :
  readonly ctx = false ->
  (forall ret cnt ctx' s' w',
     bootinfo_mark_in_progress ctx s w = (ret, cnt, ctx', s', w') ->
     cnt = Some (bootinfo_failed_boot_count ctx') /\
     (bootinfo_is_in_progress ctx = 0 ->
      boot_state ctx' = (1, bootinfo_failed_boot_count ctx)) /\
     (bootinfo_is_in_progress ctx = 1 ->
      boot_state ctx' = (1, (bootinfo_failed_boot_count ctx + 1) mod 256))) /\
  (forall ret cnt ctx' s' w',
     bootinfo_mark_successful ctx s w = (ret, cnt, ctx', s', w') ->
     cnt = Some (bootinfo_failed_boot_count ctx) /\ boot_state ctx' = (0, 0)) /\
  (forall k, (1 <= k)%nat -> boot_state ctx = (0, 0) ->
     let '(ctx', _, _) := mark_in_progress_times k ctx s w in
     boot_state ctx' = (1, (Z.of_nat k - 1) mod 256) /\
     ((k <= 256)%nat ->
      bootinfo_failed_boot_count ctx' = Z.min (Z.of_nat k - 1) 255)).
Proof.
  intros Hro. splits.
  - intros ret cnt ctx' s' w' H.
    destruct (mark_in_progress_step ctx s w _ _ _ _ _ Hro H) as (_ & C & I & F0 & F1).
    unfold boot_state. splits; auto; intros E; rewrite I; f_equal; auto.
  - intros ret cnt ctx' s' w' H.
    destruct (mark_successful_step ctx s w _ _ _ _ _ Hro H) as (C & I & F).
    unfold boot_state. rewrite I, F. auto.
  - intros k Hk Hst. unfold boot_state in Hst. injection Hst as I0 F0.
    destruct k as [|j]; [lia|]. cbn [mark_in_progress_times].
    destruct (bootinfo_mark_in_progress ctx s w) as [[[[r c] c1] s1] w1] eqn:M.
    destruct (mark_in_progress_step ctx s w _ _ _ _ _ Hro M) as (R & _ & I & F & _).
    specialize (F I0). rewrite F0 in F.
    pose proof (mark_in_progress_more j c1 s1 w1 R I) as More.
    destruct (mark_in_progress_times j c1 s1 w1) as [[c2 s2] w2].
    rewrite F in More. destruct More as [I2 F2]; [lia|].
    replace (Z.of_nat (S j) - 1) with (Z.of_nat j) by lia.
    unfold boot_state. rewrite I2, F2. cbn [Z.add]. split; auto.
    intros Hle. rewrite Z.mod_small by lia. lia.
Qed.

End Marks.

(** ** Packing and parsing *)

Lemma skipn_past (buf a b : list Z) (cp : Z) :
  0 <= cp -> skipn (Z.to_nat cp) buf = a ++ b ->
  skipn (Z.to_nat (cp + zlen a)) buf = b.
Proof.
  unfold zlen; intros Hcp H.
  replace (Z.to_nat (cp + Z.of_nat (length a))) with (length a + Z.to_nat cp)%nat by lia.
  rewrite <- skipn_skipn, H. rewrite skipn_app, skipn_all, Nat.sub_diag. reflexivity.
Qed.

Lemma skipn_memcpy_at (dst src : list Z) (off : Z) :
  0 <= off <= zlen dst ->
  skipn (Z.to_nat off) (memcpy dst off src)
  = src ++ skipn (Z.to_nat off + length src) dst.
Proof.
  unfold zlen, memcpy; intros.
  rewrite skipn_app, length_firstn.
  rewrite skipn_all2 by (rewrite length_firstn; lia).
  replace (Z.to_nat off - Init.Nat.min (Z.to_nat off) (length dst))%nat with 0%nat by lia.
  reflexivity.
Qed.

Lemma length_le_serialize (strs : list (list Z * list Z)) :
  Z.of_nat (length strs) <= zlen (serialize strs).
Proof.
  induction strs as [|[n v] tl IH]; [unfold zlen; simpl; lia|].
  rewrite zlen_serialize_cons. pose proof (zlen_nonneg n). pose proof (zlen_nonneg v).
  simpl length. lia.
Qed.

Section Roundtrip.

Context {cfg : config}.
Hypothesis cfg_ok : config_ok cfg.

(** parse_loop on a buffer that holds packed strings from [cp] on gives back
    those strings, in order. *)
Lemma parse_loop_serialized (cur : Z) (buf : list Z) (strs : list (list Z * list Z)) :
  forall fuel cp remain vsz acc rest,
  Forall (fun nv => fst nv <> [] /\ nonul (fst nv) /\ nonul (snd nv)) strs ->
  0 <= cp -> skipn (Z.to_nat cp) buf = serialize strs ++ 0 :: rest ->
  zlen (serialize strs) < remain -> (length strs <= fuel)%nat ->
  exists l,
    parse_loop fuel buf cur cp remain vsz acc
    = (rev acc ++ l, vsz + zlen (serialize strs)) /\
    forall ctx, infobuf ctx cur = buf ->
                map (fun v => (cstr ctx (name v), cstr ctx (value v))) l = strs.
Proof.
  induction strs as [|[n v] tl IH];
    intros fuel cp remain vsz acc rest Hwf Hcp Hbuf Hrem Hfuel.
  - exists []. split; [|reflexivity].
    change (zlen (serialize [])) with 0. rewrite app_nil_r, Z.add_0_r.
    destruct fuel as [|fuel]; [reflexivity|]. cbn [parse_loop].
    assert (B : byte_at buf cp = 0).
    { rewrite <- (Z.add_0_r cp), <- byte_at_skipn by lia. rewrite Hbuf. reflexivity. }
    rewrite B. simpl. now rewrite andb_false_r.
  - inversion Hwf as [|? ? (Hne & Hnn & Hnv) Hwf']; subst. cbn [fst snd] in *.
    rewrite zlen_serialize_cons in *.
    pose proof (zlen_nonneg n). pose proof (zlen_nonneg v).
    pose proof (zlen_nonneg (serialize tl)).
    destruct fuel as [|fuel]; [simpl in Hfuel; lia|]. cbn [parse_loop].
    destruct n as [|x n']; [congruence|].
    assert (Hx : x <> 0) by (intros ->; apply Hnn; simpl; auto).
    assert (Hn' : nonul n') by (intros Hin; apply Hnn; simpl; auto).
    rewrite zlen_cons in *.
    set (tail := serialize tl ++ 0 :: rest) in *.
    assert (S0 : skipn (Z.to_nat cp) buf = (x :: n') ++ 0 :: v ++ 0 :: tail).
    { rewrite Hbuf. unfold tail. simpl. rewrite <- !app_assoc. simpl.
      rewrite <- !app_assoc. reflexivity. }
    assert (B : byte_at buf cp = x).
    { rewrite <- (Z.add_0_r cp), <- byte_at_skipn by lia. rewrite S0. reflexivity. }
    rewrite B.
    destruct (Z.gtb_spec remain 0); [|lia].
    destruct (Z.eqb_spec x 0); [contradiction|]. cbn [andb negb].
    assert (S1 : skipn (Z.to_nat (cp + 1)) buf = n' ++ 0 :: v ++ 0 :: tail).
    { apply (skipn_past buf [x]); auto. }
    rewrite S1, scan_string by (auto; lia).
    destruct (Z.geb_spec (1 + zlen n') remain); [lia|].
    assert (S2 : skipn (Z.to_nat (cp + (1 + zlen n') + 1)) buf = v ++ 0 :: tail).
    { replace (cp + (1 + zlen n') + 1) with (cp + zlen ((x :: n') ++ [0]))
        by (rewrite zlen_app, zlen_cons; change (zlen [0]) with 1; lia).
      apply skipn_past; auto. rewrite S0, <- app_assoc. reflexivity. }
    rewrite S2, scan_string by (auto; lia).
    destruct (Z.geb_spec (1 + zlen n' + 1 + zlen v) remain); [lia|].
    set (var := InfoVar (InInfobuf cur cp) (InInfobuf cur (cp + (1 + zlen n') + 1))).
    destruct (IH fuel (cp + (1 + zlen n' + 1 + zlen v + 1))
                 (remain - (1 + zlen n' + 1 + zlen v + 1))
                 (vsz + (1 + zlen n' + 1 + zlen v + 1)) (var :: acc) rest)
      as (l & Hl & Hm); auto; try lia.
    { replace (cp + (1 + zlen n' + 1 + zlen v + 1))
        with (cp + zlen ((x :: n') ++ 0 :: v ++ [0]))
        by (rewrite zlen_app, !zlen_cons, zlen_app; change (zlen [0]) with 1; lia).
      apply skipn_past; auto. rewrite S0, <- !app_assoc. simpl.
      rewrite <- !app_assoc. reflexivity. }
    { simpl in Hfuel. lia. }
    exists (var :: l). split.
    + rewrite Hl. cbn [rev]. rewrite <- app_assoc. cbn [app]. f_equal. lia.
    + intros ctx Hctx. cbn [map]. rewrite (Hm ctx Hctx). f_equal.
      unfold var. cbn [name value cstr]. rewrite Hctx, S0, S2.
      rewrite !strz_app_nul; auto.
Qed.


Lemma var_strings_wf ctx :
  Forall (fun v => cstr ctx (name v) <> []) (vars ctx) ->
  Forall (fun nv => fst nv <> [] /\ nonul (fst nv) /\ nonul (snd nv)) (var_strings ctx).
Proof.
  unfold var_strings. intros H. rewrite Forall_forall in *.
  intros nv Hin. apply in_map_iff in Hin. destruct Hin as (v & <- & Hv).
  cbn [fst snd]. split; [now apply H|].
  split; destruct (name v), (value v); cbn [cstr]; apply strz_nonul.
Qed.

(** What pack_vars stores in the destination buffer of bootinfo_update, for
    a context that satisfies the invariant. *)
Lemma pack_vars_packs ctx :
  ctx_ok ctx ->
  let d := dest_slot ctx in
  let ctx0 := set_infobuf ctx d (fill_header (curinfo ctx) (infobuf ctx d)) in
  (zlen (serialize (var_strings ctx)) + 2 <= VARSPACE_SIZE ->
   exists pk rest,
     pack_vars ctx0 d = (0, set_infobuf ctx d pk) /\
     zlen pk = INFOBUF_SIZE /\
     skipn 20 pk = serialize (var_strings ctx) ++ 0 :: rest) /\
  (VARSPACE_SIZE < zlen (serialize (var_strings ctx)) + 2 ->
   fst (pack_vars ctx0 d) = -1).
Proof.
  intros Hok d ctx0. pose proof ext_size_pos cfg_ok as HE.
  assert (HS : INFOBUF_SIZE = 512 + EXTENSION_SIZE) by reflexivity.
  assert (HV : VARSPACE_SIZE = INFOBUF_SIZE - 24) by reflexivity.
  pose proof (infobuf_sized ctx d Hok) as Hl.
  set (fh := fill_header (curinfo ctx) (infobuf ctx d)) in *.
  assert (Efh : fh = header_bytes (curinfo ctx) ++ zeros 492 ++ skipn 512 (infobuf ctx d))
    by (apply fill_header_eq; auto; lia).
  assert (Zfh : zlen fh = INFOBUF_SIZE).
  { rewrite Efh, !zlen_app, zlen_header_bytes, zlen_zeros by lia.
    unfold zlen in *. rewrite length_skipn. lia. }
  assert (Hvars : vars ctx0 = vars ctx)
    by (pose proof (set_infobuf_fields ctx d fh); unfold ctx0; tauto).
  assert (Hd : (d =? 0) || (d =? 1) = true).
  { destruct (dest_slot_cases ctx) as ([E|E] & _); fold d in E; rewrite E; reflexivity. }
  assert (Hwf : Forall (fun v => (clear_of d (name v) /\ terminated ctx0 (name v)) /\
                                 (clear_of d (value v) /\ terminated ctx0 (value v)))
                       (vars ctx)).
  { destruct Hok as [_ Hp]. rewrite Forall_forall in *. intros v Hin.
    destruct (Hp v Hin) as [Pn Pv].
    apply ptr_ok_clear in Pn, Pv. destruct Pn, Pv.
    unfold ctx0. repeat split; auto; now apply terminated_set_infobuf. }
  assert (Hstr : map (fun v => (cstr ctx0 (name v), cstr ctx0 (value v))) (vars ctx)
                 = var_strings ctx).
  { unfold var_strings. apply map_ext_in. intros v Hin.
    rewrite Forall_forall in Hwf. destruct (Hwf v Hin) as [[? _] [? _]].
    unfold ctx0. now rewrite !cstr_set_infobuf. }
  unfold pack_vars. rewrite Hvars.
  replace (negb (d =? 0) && negb (d =? 1)) with false
    by (destruct (d =? 0), (d =? 1); simpl in *; congruence).
  destruct (vars ctx) as [|v0 l0] eqn:Ev.
  - unfold var_strings. rewrite Ev. cbn [map serialize fst]. split; [|unfold zlen; simpl; lia].
    intros _. exists fh, (zeros 491 ++ skipn 512 (infobuf ctx d)).
    split; [reflexivity|]. split; [exact Zfh|].
    rewrite Efh. reflexivity.
  - destruct (pack_loop_packs d (v0 :: l0) ctx0 DEVINFO_HDR_SIZE
                (INFOBUF_SIZE - (DEVINFO_HDR_SIZE + 4 + 1))) as [Pa Pb]; auto.
    { unfold DEVINFO_HDR_SIZE. lia. }
    { unfold DEVINFO_HDR_SIZE. lia. }
    { unfold ctx0. rewrite infobuf_set_same. unfold DEVINFO_HDR_SIZE. lia. }
    cbv zeta in Pa, Pb. rewrite Hstr in Pa, Pb. unfold DEVINFO_HDR_SIZE in *.
    split.
    + intros Hfit. rewrite Pa by lia. unfold ctx0.
      rewrite set_infobuf_twice, infobuf_set_same.
      pose proof (zlen_nonneg (serialize (var_strings ctx))).
      eexists. eexists. split; [reflexivity|]. split.
      * rewrite zlen_memcpy; [exact Zfh|lia|]. rewrite zlen_app. change (zlen [0]) with 1. lia.
      * change 20%nat with (Z.to_nat 20). rewrite skipn_memcpy_at by lia.
        rewrite <- app_assoc. reflexivity.
    + intros Hbig. apply Pb. lia.
Qed.

(** C9, as the code has it.  For a context that satisfies the invariant and
    whose variable names are not empty: pack_vars, on the destination buffer
    that bootinfo_update has prepared, returns 0 exactly when the packed size
    of the list plus two bytes, the byte that ends the list and one byte
    pack_vars keeps free, is within the variable area.  When it returns 0,
    parse_vars in any context whose current buffer holds the packed bytes,
    whatever variable list that context had before, returns 0 and yields the
    same (name, value) strings in the same order, with [varsize] their packed
    size. *)
Theorem pack_parse_roundtrip ctx :
  ctx_ok ctx -> Forall (fun v => cstr ctx (name v) <> []) (vars ctx) ->
  let d := dest_slot ctx in
  let ctx0 := set_infobuf ctx d (fill_header (curinfo ctx) (infobuf ctx d)) in
  (zlen (serialize (var_strings ctx)) + 2 <= VARSPACE_SIZE <->
   fst (pack_vars ctx0 d) = 0) /\
  (fst (pack_vars ctx0 d) = 0 ->
   forall c,
     current c = d -> infobuf c d = infobuf (snd (pack_vars ctx0 d)) d ->
     fst (parse_vars c) = 0 /\
     var_strings (snd (parse_vars c)) = var_strings ctx /\
     varsize (snd (parse_vars c)) = zlen (serialize (var_strings ctx))).
Proof.
  intros Hok Hne d ctx0. pose proof ext_size_pos cfg_ok as HE.
  assert (HS : INFOBUF_SIZE = 512 + EXTENSION_SIZE) by reflexivity.
  assert (HV : VARSPACE_SIZE = INFOBUF_SIZE - 24) by reflexivity.
  destruct (pack_vars_packs ctx Hok) as [Pa Pb]. fold d ctx0 in Pa, Pb.
  assert (Fit : fst (pack_vars ctx0 d) = 0 ->
                zlen (serialize (var_strings ctx)) + 2 <= VARSPACE_SIZE).
  { intros E. destruct (Z.le_gt_cases (zlen (serialize (var_strings ctx)) + 2) VARSPACE_SIZE);
      auto. rewrite Pb in E by lia. discriminate. }
  split.
  - split; [|exact Fit]. intros H. destruct (Pa H) as (pk & rest & -> & _). reflexivity.
  - intros E c Hc Hb. destruct (Pa (Fit E)) as (pk & rest & Hp & Zpk & Hsk).
    rewrite Hp in Hb. cbn [snd] in Hb. rewrite infobuf_set_same in Hb.
    assert (Hd : d = 0 \/ d = 1) by (destruct (dest_slot_cases ctx); tauto).
    unfold parse_vars. rewrite Hc.
    destruct (Z.ltb_spec d 0); [lia|]. rewrite Hb.
    pose proof (length_le_serialize (var_strings ctx)).
    pose proof (Fit E).
    destruct (parse_loop_serialized d pk (var_strings ctx)
                (Z.to_nat (INFOBUF_SIZE - (DEVINFO_HDR_SIZE + 4))) DEVINFO_HDR_SIZE
                (INFOBUF_SIZE - (DEVINFO_HDR_SIZE + 4)) 0 [] rest)
      as (l & Hl & Hm); unfold DEVINFO_HDR_SIZE in *; try lia.
    { now apply var_strings_wf. }
    { exact Hsk. }
    rewrite Hl. cbn [fst snd rev app]. splits; auto.
    unfold var_strings at 1. cbn [vars set_vars]. apply Hm.
    unfold infobuf in *. cbn. exact Hb.
Qed.

End Roundtrip.

(** ** The two slots across sessions *)

Section Alternation.

Context {cfg : config}.
Hypothesis cfg_ok : config_ok cfg.

Lemma dev_slot_same_dev w w' i : w_dev w = w_dev w' -> dev_slot w i = dev_slot w' i.
Proof. unfold dev_slot. now intros ->. Qed.

(** C4, as the code has it.  Let the current slot [c] of a context be valid
    on the device with the serial number of the in-memory header (a uint8_t),
    as find_bootinfo leaves it.  A successful bootinfo_update does not modify
    slot [c]; it does not change [ctx->current] either, so a second update of
    the same session has the same current slot and the same destination,
    [1 - c].  The two slots alternate from one session to the next: when the
    store is opened again on the device as the update left it, and the
    environment fails no call, the current slot is [1 - c]. *)
Theorem update_alternates_across_sessions ctx s w ctx' s' w' c :
  ctx_ok ctx -> current ctx = c -> c = 0 \/ c = 1 ->
  slot_valid (dev_slot w c) = true ->
  sernum (info_of_bytes (dev_slot w c)) = sernum (curinfo ctx) ->
  0 <= sernum (curinfo ctx) < 256 ->
  bootinfo_update ctx s w = (0, ctx', s', w') ->
  dev_slot w' c = dev_slot w c /\
  current ctx' = c /\ dest_slot ctx' = dest_slot ctx /\ dest_slot ctx = 1 - c /\
  (forall rdonly s2 w2 r ctx2 s2' w2',
     w_dev w2 = w_dev w' -> cooperative s2 ->
     find_bootinfo rdonly s2 w2 = (r, Some ctx2, s2', w2') ->
     r = 0 /\ current ctx2 = 1 - c).
Proof.
  intros Hok Hcur Hc Hval Hser Hrange H.
  destruct (update_other_slot_props cfg_ok ctx s w ctx' s' w' Hok H)
    as ((D0 & D1 & _) & _ & Hhdr & Hkeep).
  destruct (update_crc_props cfg_ok ctx s w ctx' s' w' Hok H)
    as ((_ & _ & Hvd) & _).
  destruct (update_frame_props cfg_ok ctx s w 0 ctx' s' w' H)
    as ((_ & _ & _ & _ & _ & Fcur & _) & _ & Fd & _).
  cbv zeta in Hhdr. destruct Hhdr as (_ & _ & _ & _ & _ & Hsn).
  assert (Hd : dest_slot ctx = 1 - c).
  { destruct Hc as [E|E]; rewrite E in Hcur |- *; [rewrite (D0 Hcur)|rewrite (D1 Hcur)];
      reflexivity. }
  rewrite Hcur in Hkeep. specialize (Hkeep Hc).
  splits; auto; try congruence.
  intros rdonly s2 w2 r ctx2 s2' w2' Hdev Hcoop Hf.
  destruct (find_bootinfo_spec cfg_ok rdonly s2 w2 r ctx2 s2' w2' Hf)
    as (_ & _ & _ & _ & _ & _ & _ & V0 & V1 & Co & Hres).
  destruct (Co Hcoop) as (_ & E0 & E1).
  rewrite (dev_slot_same_dev w2 w' 0 Hdev) in E0, V0.
  rewrite (dev_slot_same_dev w2 w' 1 Hdev) in E1, V1.
  rewrite Hd in Hvd, Hsn.
  assert (Both : valid0 ctx2 = true /\ valid1 ctx2 = true).
  { destruct Hc as [E|E]; rewrite E in *; rewrite E0, E1; change (1 - 0) with 1 in *;
      change (1 - 1) with 0 in *; rewrite Hvd, Hkeep, Hval; auto. }
  destruct Both as [B0 B1].
  destruct Hres as [(_ & Z0 & _)|(-> & _ & Hch & _)]; [congruence|].
  split; [reflexivity|]. rewrite Hch. unfold choose_current. rewrite B0, B1.
  cbn [andb negb].
  destruct (V0 B0) as [_ I0]. destruct (V1 B1) as [_ I1]. rewrite I0, I1.
  set (n := sernum (curinfo ctx)) in *.
  assert (Hm : (n + 1) mod 256 = if n =? 255 then 0 else n + 1).
  { destruct (Z.eqb_spec n 255) as [->|]; [reflexivity|]. apply Z.mod_small. lia. }
  destruct Hc as [E|E]; rewrite E in *; change (1 - 0) with 1 in *;
    change (1 - 1) with 0 in *.
  - rewrite Hkeep, Hser, Hsn, Hm.
    destruct (Z.eqb_spec n 255) as [->|]; [reflexivity|].
    destruct (Z.eqb_spec (n + 1) 0); [lia|]. cbn [andb].
    destruct (Z.eqb_spec (n + 1) 255), (Z.eqb_spec n 0); cbn [andb]; try lia;
      rewrite Z.gtb_ltb; destruct (Z.ltb_spec n (n + 1)); lia.
  - rewrite Hkeep, Hser, Hsn, Hm.
    destruct (Z.eqb_spec n 255) as [->|]; [reflexivity|].
    destruct (Z.eqb_spec (n + 1) 255), (Z.eqb_spec n 0); cbn [andb]; try lia;
      destruct (Z.eqb_spec (n + 1) 0); cbn [andb]; try lia;
      rewrite Z.gtb_ltb; destruct (Z.ltb_spec (n + 1) n); lia.
Qed.

End Alternation.

(** ** The initialization code *)

Lemma hd_strz (l : list Z) : (hd 0 l =? 95) = (hd 0 (strz l) =? 95).
Proof.
  destruct l as [|b l]; [reflexivity|]. simpl.
  destruct (Z.eqb_spec b 0) as [->|]; reflexivity.
Qed.

Lemma deref_underscore ctx p :
  (deref ctx p =? 95) = (hd 0 (cstr ctx p) =? 95).
Proof.
  unfold deref. destruct p as [i off|s]; cbn [mem_read cstr].
  - rewrite <- hd_strz. unfold sub. change (Z.to_nat 1) with 1%nat.
    destruct (skipn (Z.to_nat off) (infobuf ctx i)); reflexivity.
  - rewrite <- hd_strz. unfold sub. simpl skipn. change (Z.to_nat 1) with 1%nat.
    destruct s; reflexivity.
Qed.

(** The copies made by [preserve] are the variables whose name begins with
    an underscore, with their strings, in order, whatever context they are
    read in afterwards. *)
Lemma preserve_strings ctx ctx' (l : list info_var) :
  map (fun v => (cstr ctx' (name v), cstr ctx' (value v))) (preserve ctx l)
  = filter underscore (map (fun v => (cstr ctx (name v), cstr ctx (value v))) l).
Proof.
  induction l as [|v l IH]; [reflexivity|]. cbn [preserve map filter].
  unfold underscore at 1. cbn [fst]. rewrite deref_underscore.
  destruct (hd 0 (cstr ctx (name v)) =? 95); [|exact IH].
  cbn [map name value cstr]. rewrite IH.
  rewrite !strz_id; [reflexivity | |];
    destruct (name v), (value v); cbn [cstr]; apply strz_nonul.
Qed.

Lemma preserve_extern ctx (l : list info_var) :
  Forall (fun v => exists a b, v = InfoVar (Extern a) (Extern b)) (preserve ctx l).
Proof.
  induction l as [|v l IH]; cbn [preserve]; [constructor|].
  destruct (deref ctx (name v) =? 95); auto. constructor; eauto.
Qed.

Lemma filter_underscore_names (l : list (list Z * list Z)) :
  Forall (fun nv => fst nv <> []) (filter underscore l).
Proof.
  rewrite Forall_forall. intros nv Hin. apply filter_In in Hin.
  destruct Hin as [_ H]. unfold underscore in H. destruct (fst nv); [discriminate|congruence].
Qed.

Section Reinit.

Context {cfg : config}.
Hypothesis cfg_ok : config_ok cfg.

Lemma slot_valid_zeros : slot_valid (zeros INFOBUF_SIZE) = false.
Proof.
  pose proof ext_size_pos cfg_ok as HE.
  assert (E : zeros INFOBUF_SIZE = zeros 20 ++ zeros (INFOBUF_SIZE - 20)).
  { unfold zeros. rewrite <- repeat_app. f_equal.
    unfold INFOBUF_SIZE, DEVINFO_BLOCK_SIZE. lia. }
  unfold slot_valid. rewrite <- info_of_bytes_prefix, E.
  rewrite sub_app_l by (cbv; intuition discriminate). reflexivity.
Qed.

(** A context is taken to the invariant by an update whatever it returns,
    and the world keeps its lock; the writes happen under it. *)
Lemma bootinfo_update_world ctx s w ret ctx' s' w' :
  ctx_ok ctx -> bootinfo_update ctx s w = (ret, ctx', s', w') ->
  w_lock w' = w_lock w /\ trace_ext (w_lock w) w w' /\
  (forall o, ~ in_slot (dest_slot ctx) o -> w_dev w' o = w_dev w o).
Proof.
  intros Hok H. destruct (readonly ctx) eqn:Hro.
  - unfold bootinfo_update in H. rewrite Hro in H. injection H as <- <- <- <-.
    splits; auto. apply trace_ext_refl.
  - destruct (bootinfo_update_inv cfg_ok ctx s w _ _ _ _ Hok Hro H)
      as (r & pk & _ & Zpk & _ & [(_ & _ & _ & _ & ->)|(_ & _ & ok & Hw & _)]).
    + splits; auto. apply trace_ext_refl.
    + destruct (store_crcs_spec cfg_ok pk Zpk) as (Zb & _).
      destruct (write_slot_spec cfg_ok (dest_slot ctx) (store_crcs pk) s w _ _ _ Zb Hw)
        as (W1 & _ & W3 & _ & W5). auto.
Qed.

Lemma fresh_context_ok octx dfd : ctx_ok (fresh_context octx dfd).
Proof.
  unfold fresh_context, ctx_ok. cbn. unfold infobuf. cbn.
  split; [split; apply (zlen_zero_buf cfg_ok)|].
  assert (P : forall l, Forall (fun v => exists a b, v = InfoVar (Extern a) (Extern b)) l ->
                        Forall (fun v : info_var => True /\ True) l).
  { intros l Hl. rewrite Forall_forall in *. auto. }
  destruct octx as [c|]; [|constructor].
  pose proof (preserve_extern c (vars c)) as E.
  rewrite Forall_forall in *. intros v Hin. destruct (E v Hin) as (a & b & ->).
  cbn. auto.
Qed.

(** What the initialization code does: every write happens under the lock
    the process holds when it starts, and when it returns 0 both slots were
    zero-filled and the fresh context was persisted by bootinfo_update. *)
Lemma reinitialize_spec octx s w ret octx' s' w' :
  reinitialize octx s w = (ret, octx', s', w') ->
  trace_ext (w_lock w) w w' /\
  (ret = 0 ->
   exists dfd s3 w3 ctx',
     octx' = Some ctx' /\
     bootinfo_update (fresh_context octx dfd) s3 w3 = (0, ctx', s', w') /\
     w_lock w3 = w_lock w /\ w_lock w' = w_lock w /\
     dev_slot w3 1 = zeros INFOBUF_SIZE).
Proof.
  intros H. unfold reinitialize in H.
  set (pl := match octx with Some c => preserve c (vars c) | None => [] end).
  set (lk := match octx with Some c => lockfd c | None => -1 end).
  set (wc := match octx with
             | Some c => if negb (readonly c)
                         then snd (set_bootdev_writeable_status (devinfo_dev c) false w)
                         else w
             | None => w end).
  set (stale := match octx with Some _ => true | None => false end) in H.
  assert (E0 : (let '(preserve_list, lkfd, w0) :=
                  match octx with
                  | Some ctx => let pl := preserve ctx (vars ctx) in
                                let '(lkfd, w0) := close_bootinfo ctx true w in (pl, lkfd, w0)
                  | None => ([], -1, w)
                  end in (preserve_list, lkfd, w0)) = (pl, lk, wc)).
  { destruct octx; reflexivity. }
  destruct (match octx with
            | Some ctx => let pl := preserve ctx (vars ctx) in
                          let '(lkfd, w0) := close_bootinfo ctx true w in (pl, lkfd, w0)
            | None => ([], -1, w)
            end) as [[pl' lk'] wc'].
  injection E0 as -> -> ->.
  assert (Wc : w_dev wc = w_dev w /\ w_lock wc = w_lock w /\ w_trace wc = w_trace w).
  { unfold wc. destruct octx as [c|]; auto. destruct (negb (readonly c)); auto.
    pose proof (set_status_frame (devinfo_dev c) false w). tauto. }
  destruct Wc as (Wd & Wl & Wt).
  destruct (set_bootdev_writeable_status BOOTINFO_STORAGE_DEVICE true wc)
    as [reset wg] eqn:Eg.
  assert (Wg : w_dev wg = w_dev w /\ w_lock wg = w_lock w /\ w_trace wg = w_trace w).
  { pose proof (set_status_frame BOOTINFO_STORAGE_DEVICE true wc) as F.
    rewrite Eg in F. cbn [snd] in F.
    destruct F as (A & _ & B & C). rewrite A, B, C. auto. }
  destruct Wg as (Gd & Gl & Gt).
  assert (Err : forall st lkfd rst t u, trace_ext (w_lock w) w u ->
            trace_ext (w_lock w) w (snd (error_depart st lkfd rst t u)) /\
            fst (fst (fst (error_depart st lkfd rst t u))) = -1).
  { intros st lkfd rst t u T. unfold error_depart. cbn [fst snd]. split; [|reflexivity].
    destruct T as (evs & Te & Tf). exists evs. split; [|exact Tf].
    destruct st, (lkfd >=? 0), rst; cbn [w_trace sys_close_lock sys_free_again]; auto;
      match goal with |- w_trace (snd (set_bootdev_writeable_status ?d ?b ?x)) = _ =>
        pose proof (set_status_frame d b x) as (_ & _ & _ & ->) end; auto. }
  assert (T0 : trace_ext (w_lock w) w (sys_open_dev wg)).
  { exists []. cbn. split; auto. }
  destruct (respond s) as [dfd s1] eqn:R1.
  destruct (Z.ltb_spec dfd 0).
  { destruct (Err stale lk reset s1 wg) as [E1 E2].
    - exists []. split; [now rewrite Gt|constructor].
    - rewrite H in E1, E2. cbn [fst snd] in E1, E2. split; [exact E1|lia]. }
  pose proof (zlen_zero_buf cfg_ok) as Zz.
  change (DEVINFO_BLOCK_SIZE + EXTENSION_SIZE) with INFOBUF_SIZE in H.
  destruct (write_slot 0 (zeros INFOBUF_SIZE) s1 (sys_open_dev wg)) as [[ok0 s2] w1] eqn:W0.
  destruct (write_slot_spec cfg_ok 0 _ _ _ _ _ _ Zz W0) as (A1 & A2 & A3 & _ & A5).
  cbn [sys_open_dev w_lock w_dev] in A1, A3, A5. rewrite Gl in A3, A5.
  assert (T1 : trace_ext (w_lock w) w w1) by (eapply trace_ext_trans; eauto).
  destruct ok0.
  2:{ destruct (Err stale lk reset s2 w1 T1) as [E1 E2].
      cbn [negb] in H. rewrite H in E1, E2. cbn [fst snd] in E1, E2.
      split; [exact E1|lia]. }
  destruct (write_slot 1 (zeros INFOBUF_SIZE) s2 w1) as [[ok1 s3] w2] eqn:W1.
  destruct (write_slot_spec cfg_ok 1 _ _ _ _ _ _ Zz W1) as (B1 & B2 & B3 & _ & B5).
  rewrite A3 in B3, B5.
  assert (T2 : trace_ext (w_lock w) w w2) by (eapply trace_ext_trans; eauto).
  destruct ok1.
  2:{ destruct (Err stale lk reset s3 w2 T2) as [E1 E2].
      cbn [negb] in H. rewrite H in E1, E2. cbn [fst snd] in E1, E2.
      split; [exact E1|lia]. }
  cbn [negb] in H.
  change (set_vars (set_current (set_fds ctx_zero dfd lk) (-1) info_zero) pl 0)
    with (fresh_context octx dfd) in H.
  destruct (bootinfo_update (fresh_context octx dfd) s3 w2) as [[[r c] s4] w3] eqn:U.
  injection H as <- <- <- <-.
  destruct (bootinfo_update_world _ _ _ _ _ _ _ (fresh_context_ok octx dfd) U)
    as (U1 & U2 & _).
  rewrite B3 in U1, U2.
  split; [eapply trace_ext_trans; eauto|].
  intros ->. exists dfd, s3, w2, c. splits; auto.
  apply dev_slot_eq; auto.
Qed.

End Reinit.

(** ** bootinfo_open in write mode *)

Section Open.

Context {cfg : config}.
Hypothesis cfg_ok : config_ok cfg.

(** The two ways a write-mode bootinfo_open goes on after find_storage_dev. *)
Lemma bootinfo_open_write oflags s w ret octx s' w' :
  Z.land oflags BOOTINFO_O_RDONLY = 0 ->
  bootinfo_open oflags s w = (ret, octx, s', w') ->
  (fst (respond s) < 0 /\ ret = -1 /\ octx = None /\ w' = w) \/
  (0 <= fst (respond s) /\
   exists r0 oc0 s0 w0,
     find_bootinfo false (snd (respond s)) w = (r0, oc0, s0, w0) /\
     ((exists c0, oc0 = Some c0 /\ r0 = 0 /\ Z.land oflags BOOTINFO_O_FORCE_INIT = 0 /\
                  ret = 0 /\ octx = Some c0 /\ s' = s0 /\ w' = w0) \/
      ((oc0 = None \/ r0 <> 0 \/ Z.land oflags BOOTINFO_O_FORCE_INIT <> 0) /\
       reinitialize oc0 s0 w0 = (ret, octx, s', w')))).
Proof.
  intros Hw H. unfold bootinfo_open in H. rewrite Hw in H. cbn [Z.eqb negb andb] in H.
  destruct (respond s) as [a s1]. cbn [fst snd].
  destruct (Z.ltb_spec a 0).
  { left. injection H as <- <- <- <-. auto. }
  right. split; [lia|].
  destruct (find_bootinfo false s1 w) as [[[r0 oc0] s0] w0].
  exists r0, oc0, s0, w0. split; [reflexivity|].
  destruct oc0 as [c0|]; [|right; auto].
  destruct (Z.eqb_spec r0 0); cbn [andb] in H; [|right; auto].
  destruct (Z.eqb_spec (Z.land oflags BOOTINFO_O_FORCE_INIT) 0); [|right; auto].
  left. exists c0. injection H as <- <- <- <-. auto 10.
Qed.

(** C5, as the code has it.  In a write-mode open in which find_bootinfo
    delivers a context (so the lockfile was opened and locked), every write
    to the device, the zero-filling of both slots and the first persist
    included, happens with the exclusive lock held: the lock descriptor
    passes from the closed context to the fresh one.  When the open returns
    0 the session holds the exclusive lock through [ctx->lockfd], and every
    bootinfo_update of the session happens under it. *)
Theorem open_keeps_lock oflags s w ret octx s' w' :
  Z.land oflags BOOTINFO_O_RDONLY = 0 ->
  open_found s w <> None ->
  bootinfo_open oflags s w = (ret, octx, s', w') ->
  trace_ext LockEx w w' /\
  (ret = 0 ->
   exists ctx', octx = Some ctx' /\ w_lock w' = LockEx /\ 0 <= lockfd ctx' /\
                forall s2 u r2 c2 s2' u',
                  w_lock u = LockEx ->
                  bootinfo_update ctx' s2 u = (r2, c2, s2', u') ->
                  w_lock u' = LockEx /\ trace_ext LockEx u u').
Proof.
  intros Hw Hfound H.
  destruct (bootinfo_open_write oflags s w ret octx s' w' Hw H)
    as [(_ & -> & _ & ->)|(_ & r0 & oc0 & s0 & w0 & Hf & Hcase)].
  { split; [apply trace_ext_refl|discriminate]. }
  unfold open_found in Hfound. rewrite Hf in Hfound. cbn [fst snd] in Hfound.
  destruct oc0 as [c0|]; [|congruence].
  destruct (find_bootinfo_spec cfg_ok false _ w r0 c0 s0 w0 Hf)
    as (F1 & F2 & F3 & F4 & F5 & F6 & F7 & _).
  assert (Upd : forall c, ctx_ok c ->
            forall s2 u r2 c2 s2' u', w_lock u = LockEx ->
              bootinfo_update c s2 u = (r2, c2, s2', u') ->
              w_lock u' = LockEx /\ trace_ext LockEx u u').
  { intros c Hc s2 u r2 c2 s2' u' Hl Hu.
    destruct (bootinfo_update_world cfg_ok c s2 u r2 c2 s2' u' Hc Hu) as (U1 & U2 & _).
    rewrite Hl in U1, U2. auto. }
  destruct Hcase as [(c & Ec & _ & _ & -> & -> & -> & ->)|(_ & Hre)].
  - injection Ec as <-. split.
    + exists []. split; [now rewrite F5|constructor].
    + intros _. exists c0. splits; auto. apply Upd; auto.
  - destruct (reinitialize_spec cfg_ok (Some c0) s0 w0 ret octx s' w' Hre) as [T Hret].
    rewrite F6 in T. split.
    + destruct T as (evs & Te & Tf). exists evs. split; [now rewrite Te, F5|exact Tf].
    + intros Hr. destruct (Hret Hr) as (dfd & s3 & w3 & ctx' & -> & Hu & L3 & L' & _).
      destruct (update_frame_props cfg_ok _ _ _ _ _ _ _ Hu)
        as ((_ & Flk & _) & _ & _ & Fok).
      destruct (Fok (fresh_context_ok cfg_ok (Some c0) dfd)) as (Ok' & _).
      exists ctx'. splits; auto; try congruence.
      * rewrite Flk. cbn. exact F3.
      * apply Upd; auto.
Qed.

Lemma skipn20_store_crcs (pk ser rest : list Z) :
  zlen pk = INFOBUF_SIZE -> skipn 20 pk = ser ++ 0 :: rest ->
  zlen ser + 2 <= VARSPACE_SIZE ->
  exists rest', skipn 20 (store_crcs pk) = ser ++ 0 :: rest'.
Proof.
  intros Zpk Hsk Hfit. pose proof ext_size_pos cfg_ok as HE.
  assert (HS : INFOBUF_SIZE = 512 + EXTENSION_SIZE) by reflexivity.
  assert (HV : VARSPACE_SIZE = INFOBUF_SIZE - 24) by reflexivity.
  pose proof (zlen_nonneg ser).
  destruct (store_crcs_spec cfg_ok pk Zpk) as (_ & _ & _ & _ & _ & E & _).
  specialize (E 20 (zlen ser + 1) ltac:(lia) ltac:(lia) ltac:(lia)).
  exists (skipn (Z.to_nat (zlen ser + 1)) (skipn 20 (store_crcs pk))).
  rewrite <- (firstn_skipn (Z.to_nat (zlen ser + 1)) (skipn 20 (store_crcs pk))) at 1.
  change (firstn (Z.to_nat (zlen ser + 1)) (skipn 20 (store_crcs pk)))
    with (sub (store_crcs pk) 20 (zlen ser + 1)).
  rewrite E. unfold sub. change (Z.to_nat 20) with 20%nat. rewrite Hsk.
  replace (Z.to_nat (zlen ser + 1)) with (length ser + 1)%nat by (unfold zlen; lia).
  rewrite firstn_app_2. cbn [firstn]. rewrite <- app_assoc. reflexivity.
Qed.

(** A write-mode open that runs the initialization code (no valid slot
    was found, or force-init was asked) and returns 0 keeps exactly the
    variables whose name begins with an underscore: the variable list of the
    new context holds those of the list that was in memory, with their
    values and in their order, and nothing else; the in-memory header has
    flags 0 and failed_boots 0; slot 0 of the device has flags 0,
    failed_boots 0 and serial number 1.  When the store is opened again on
    that device and the environment fails no call, slot 0 is current and the
    context has those same variables, flags 0, failed_boots 0 and serial
    number 1. *)
Lemma reinit_underscore_props oflags s w ctx' s' w' :
  Z.land oflags BOOTINFO_O_RDONLY = 0 ->
  Z.land oflags BOOTINFO_O_FORCE_INIT <> 0 \/
  fst (fst (fst (find_bootinfo false (snd (respond s)) w))) <> 0 ->
  bootinfo_open oflags s w = (0, Some ctx', s', w') ->
  var_strings ctx' = filter underscore (found_strings s w) /\
  flags (curinfo ctx') = 0 /\ failed_boots (curinfo ctx') = 0 /\
  (let h := info_of_bytes (dev_slot w' 0) in
   flags h = 0 /\ failed_boots h = 0 /\ sernum h = 1) /\
  (forall rdonly s2 w2 r ctx2 s2' w2',
     w_dev w2 = w_dev w' -> cooperative s2 ->
     find_bootinfo rdonly s2 w2 = (r, Some ctx2, s2', w2') ->
     r = 0 /\ current ctx2 = 0 /\
     var_strings ctx2 = filter underscore (found_strings s w) /\
     flags (curinfo ctx2) = 0 /\ failed_boots (curinfo ctx2) = 0 /\
     sernum (curinfo ctx2) = 1).
Proof.
  intros Hw Hinit H. pose proof ext_size_pos cfg_ok as HE.
  assert (HS : INFOBUF_SIZE = 512 + EXTENSION_SIZE) by reflexivity.
  assert (HV : VARSPACE_SIZE = INFOBUF_SIZE - 24) by reflexivity.
  destruct (bootinfo_open_write oflags s w 0 (Some ctx') s' w' Hw H)
    as [(_ & E & _)|(_ & r0 & oc0 & s0 & w0 & Hf & Hcase)]; [discriminate|].
  rewrite Hf in Hinit. cbn [fst] in Hinit.
  destruct Hcase as [(c & _ & -> & F0 & _)|(_ & Hre)]; [tauto|].
  destruct (reinitialize_spec cfg_ok oc0 s0 w0 0 (Some ctx') s' w' Hre) as [_ Hret].
  destruct (Hret eq_refl) as (dfd & s3 & w3 & c' & Ec & Hu & _ & _ & Hz1).
  injection Ec as <-.
  set (fresh := fresh_context oc0 dfd) in *.
  pose proof (fresh_context_ok cfg_ok oc0 dfd) as Hok. fold fresh in Hok.
  assert (Hstr : var_strings fresh = filter underscore (found_strings s w)).
  { unfold found_strings, open_found. rewrite Hf. cbn [fst snd].
    unfold var_strings, fresh, fresh_context. cbn [vars set_vars].
    destruct oc0 as [c0|]; [|reflexivity]. apply preserve_strings. }
  assert (Hd : dest_slot fresh = 0) by reflexivity.
  assert (Hci : curinfo fresh = info_zero) by reflexivity.
  destruct (update_frame_props cfg_ok fresh s3 w3 0 ctx' s' w' Hu)
    as ((_ & _ & _ & _ & _ & _ & Fci & _) & _ & _ & Fok).
  destruct (Fok Hok) as (_ & Fstr & _).
  destruct (update_other_slot_props cfg_ok fresh s3 w3 ctx' s' w' Hok Hu)
    as (_ & Hout & Hhdr & _).
  destruct (update_crc_props cfg_ok fresh s3 w3 ctx' s' w' Hok Hu)
    as ((_ & _ & Hvd) & _).
  destruct (bootinfo_update_device cfg_ok fresh s3 w3 ctx' s' w' Hok Hu)
    as (pk & Zpk & _ & Hge & Hsnd & _ & Hdev & _).
  rewrite Hd in Hout, Hhdr, Hvd, Hdev, Hge, Hsnd. rewrite Hci in Hhdr.
  cbv zeta in Hhdr. destruct Hhdr as (_ & _ & _ & Hfl & Hfb & Hsn).
  change ((sernum info_zero + 1) mod 256) with 1 in Hsn.
  change (flags info_zero) with 0 in Hfl. change (failed_boots info_zero) with 0 in Hfb.
  splits; try congruence.
  { rewrite Fci, Hci. reflexivity. }
  { rewrite Fci, Hci. reflexivity. }
  { cbv zeta. auto. }
  intros rdonly s2 w2 r ctx2 s2' w2' Hdev2 Hcoop Hf2.
  (* the packed strings in the slot *)
  destruct (pack_vars_packs cfg_ok fresh Hok) as [Pa Pb]. rewrite Hd in Pa, Pb.
  assert (Hfit : zlen (serialize (var_strings fresh)) + 2 <= VARSPACE_SIZE).
  { destruct (Z.le_gt_cases (zlen (serialize (var_strings fresh)) + 2) VARSPACE_SIZE);
      auto. rewrite Pb in Hge by lia. lia. }
  destruct (Pa Hfit) as (pk' & rest & Hp & _ & Hsk).
  rewrite Hp in Hsnd. cbn [snd] in Hsnd.
  assert (pk' = pk).
  { apply (f_equal (fun c => infobuf c 0)) in Hsnd.
    now rewrite !infobuf_set_same in Hsnd. }
  subst pk'.
  destruct (skipn20_store_crcs pk _ rest Zpk Hsk Hfit) as [rest' Hsk'].
  (* the next open *)
  destruct (find_bootinfo_spec cfg_ok rdonly s2 w2 r ctx2 s2' w2' Hf2)
    as (_ & _ & _ & _ & _ & _ & _ & V0 & V1 & Co & Hres).
  destruct (Co Hcoop) as (_ & E0 & E1).
  rewrite (dev_slot_same_dev w2 w' 0 Hdev2) in E0, V0.
  rewrite (dev_slot_same_dev w2 w' 1 Hdev2) in E1.
  assert (D1 : dev_slot w' 1 = zeros INFOBUF_SIZE).
  { rewrite <- Hz1. apply dev_slot_frame; auto. intros o Ho. apply Hout.
    intros Hd0. revert Ho. apply (slots_disjoint cfg_ok 0 1); auto. discriminate. }
  rewrite D1, (slot_valid_zeros cfg_ok) in E1. rewrite Hvd in E0.
  destruct Hres as [(_ & Z0 & _)|(-> & _ & Hch & Hcur & Hparse)]; [congruence|].
  assert (Hc0 : current ctx2 = 0).
  { rewrite Hch. unfold choose_current. rewrite E0, E1. reflexivity. }
  destruct (V0 E0) as [_ I0]. rewrite Hc0 in Hcur, Hparse. rewrite I0, Hdev in Hcur, Hparse.
  pose proof (length_le_serialize (var_strings fresh)).
  destruct (parse_loop_serialized 0 (store_crcs pk) (var_strings fresh)
              (Z.to_nat (INFOBUF_SIZE - (DEVINFO_HDR_SIZE + 4))) DEVINFO_HDR_SIZE
              (INFOBUF_SIZE - (DEVINFO_HDR_SIZE + 4)) 0 [] rest')
    as (l & Hl & Hm); unfold DEVINFO_HDR_SIZE in *; try lia.
  { rewrite Hstr. rewrite Forall_forall. intros nv Hin.
    pose proof (filter_underscore_names (found_strings s w)) as Nn.
    rewrite Forall_forall in Nn. split; [now apply Nn|].
    apply filter_In in Hin. destruct Hin as [Hin _].
    unfold found_strings in Hin. destruct (open_found s w) as [c0|]; [|contradiction].
    unfold var_strings in Hin. apply in_map_iff in Hin. destruct Hin as (v & <- & _).
    cbn [fst snd]. split; destruct (name v), (value v); cbn [cstr]; apply strz_nonul. }
  { exact Hsk'. }
  rewrite Hl in Hparse. cbn [rev app] in Hparse. injection Hparse as Hv Hvs.
  splits; auto.
  - unfold var_strings. rewrite Hv, <- Hstr. apply Hm. rewrite I0, Hdev. reflexivity.
  - rewrite Hcur, <- Hdev. exact Hfl.
  - rewrite Hcur, <- Hdev. exact Hfb.
  - rewrite Hcur, <- Hdev. exact Hsn.
Qed.

End Open.

(** ** bootinfo_update *)

Section UpdateClaims.

Context {cfg : config}.
Hypothesis cfg_ok : config_ok cfg.

(** C1. For a context that satisfies the invariant, a successful
    bootinfo_update writes the other slot, [1 - current] (slot 0 when
    [current] is none), and nothing outside it: the destination slot on the
    device then holds the BOOTINFO magic, version 4, [ext_sectors = E], the
    flags and failed_boots of the in-memory header and the serial number
    [(curinfo.sernum + 1) mod 256], and every byte of the slot that was
    current is as before. *)
Theorem bootinfo_update_writes_other_slot ctx s w ctx' s' w' :
  ctx_ok ctx -> bootinfo_update ctx s w = (0, ctx', s', w') ->
  ((current ctx = 0 -> dest_slot ctx = 1) /\ (current ctx = 1 -> dest_slot ctx = 0) /\
   (current ctx = -1 -> dest_slot ctx = 0)) /\
  (forall o, ~ in_slot (dest_slot ctx) o -> w_dev w' o = w_dev w o) /\
  (let h := info_of_bytes (dev_slot w' (dest_slot ctx)) in
   magic h = DEVICE_MAGIC /\ devinfo_version h = 4 /\
   ext_sectors h = EXTENSION_SECTOR_COUNT /\
   flags h = flags (curinfo ctx) /\ failed_boots h = failed_boots (curinfo ctx) /\
   sernum h = (sernum (curinfo ctx) + 1) mod 256) /\
  (current ctx = 0 \/ current ctx = 1 ->
   dev_slot w' (current ctx) = dev_slot w (current ctx)).
Proof. intros Hok H. exact (update_other_slot_props cfg_ok ctx s w ctx' s' w' Hok H). Qed.

(** C8, as the code has it.  In a slot written by a successful
    bootinfo_update, the trailing 4-byte field equals the CRC-32 (zlib,
    initial value 0) of the extension area without its last 4 bytes, and the
    header CRC field equals the CRC-32 of the header sector with the four
    bytes of that field zero (the field is still clear when the checksum is
    computed).  The slot passes the checks of find_bootinfo, and whenever
    find_bootinfo marks a slot valid its buffer passes them, the comparison
    of the trailing field with the CRC-32 of the extension area among them. *)
Theorem bootinfo_update_crc_fields ctx s w ctx' s' w' :
  ctx_ok ctx -> bootinfo_update ctx s w = (0, ctx', s', w') ->
  (let b := dev_slot w' (dest_slot ctx) in
   le_val (sub b (INFOBUF_SIZE - 4) 4)
   = crc32 0 (sub b DEVINFO_BLOCK_SIZE (EXTENSION_SIZE - 4)) /\
   crcsum (info_of_bytes b)
   = crc32 0 (memcpy (sub b 0 DEVINFO_BLOCK_SIZE) OFF_CRCSUM (zeros 4)) /\
   slot_valid b = true) /\
  (forall rdonly s0 w0 r c s1 w1,
     find_bootinfo rdonly s0 w0 = (r, Some c, s1, w1) ->
     (valid0 c = true ->
      crc32 0 (sub (infobuf c 0) DEVINFO_BLOCK_SIZE (EXTENSION_SIZE - 4))
      = le_val (sub (infobuf c 0) (INFOBUF_SIZE - 4) 4)) /\
     (valid1 c = true ->
      crc32 0 (sub (infobuf c 1) DEVINFO_BLOCK_SIZE (EXTENSION_SIZE - 4))
      = le_val (sub (infobuf c 1) (INFOBUF_SIZE - 4) 4))).
Proof. intros Hok H. exact (update_crc_props cfg_ok ctx s w ctx' s' w' Hok H). Qed.

(** C10. A call to bootinfo_update, whatever it returns, changes nothing of
    the context but the buffer of the destination slot: the descriptors, the
    read-only flag, the valid flags, [current], [curinfo] (serial number,
    flags, failed_boots), [varsize] and the variable list are as before, and
    so is the buffer of the other slot.  For a context that satisfies the
    invariant, the strings of the variables are as before, the device is
    written inside the destination slot only, and the serial number stored
    in the destination buffer is [curinfo.sernum + 1] (mod 256); hence a
    second update of the same session has the same destination slot and
    stores the same serial number. *)
Theorem bootinfo_update_frame ctx s w ret ctx' s' w' :
  bootinfo_update ctx s w = (ret, ctx', s', w') ->
  (fd ctx' = fd ctx /\ lockfd ctx' = lockfd ctx /\ readonly ctx' = readonly ctx /\
   valid0 ctx' = valid0 ctx /\ valid1 ctx' = valid1 ctx /\
   current ctx' = current ctx /\ curinfo ctx' = curinfo ctx /\
   vars ctx' = vars ctx /\ varsize ctx' = varsize ctx) /\
  infobuf ctx' (1 - dest_slot ctx) = infobuf ctx (1 - dest_slot ctx) /\
  dest_slot ctx' = dest_slot ctx /\
  (ctx_ok ctx ->
   ctx_ok ctx' /\ var_strings ctx' = var_strings ctx /\
   (forall o, ~ in_slot (dest_slot ctx) o -> w_dev w' o = w_dev w o) /\
   (readonly ctx = false ->
    sernum (info_of_bytes (infobuf ctx' (dest_slot ctx)))
    = (sernum (curinfo ctx) + 1) mod 256 /\
    forall s2 w2 ret2 ctx2 s2' w2',
      bootinfo_update ctx' s2 w2 = (ret2, ctx2, s2', w2') ->
      sernum (info_of_bytes (infobuf ctx2 (dest_slot ctx')))
      = sernum (info_of_bytes (infobuf ctx' (dest_slot ctx))))).
Proof. intros H. exact (update_frame_props cfg_ok ctx s w ret ctx' s' w' H). Qed.

End UpdateClaims.

(** ** bootinfo_bootvar_set *)

Section SetVar.

Context {cfg : config}.

(** No call of bootinfo_bootvar_set changes [ctx->varsize]. *)
Lemma bootvar_set_varsize ctx nm val :
  varsize (snd (bootinfo_bootvar_set ctx nm val)) = varsize ctx.
Proof.
  unfold bootinfo_bootvar_set.
  repeat match goal with
         | |- context [if ?b then _ else _] => destruct b
         | |- context [match set_walk ?c ?l ?n ?v with _ => _ end] =>
             destruct (set_walk c l n v)
         end; reflexivity.
Qed.

(** A call that fails leaves the context, the variable list with it, as it
    was. *)
Lemma bootvar_set_failure ctx nm val :
  fst (fst (bootinfo_bootvar_set ctx nm val)) <> 0 ->
  snd (bootinfo_bootvar_set ctx nm val) = ctx.
Proof.
  unfold bootinfo_bootvar_set.
  repeat match goal with
         | |- context [if ?b then _ else _] => destruct b
         | |- context [match set_walk ?c ?l ?n ?v with _ => _ end] =>
             destruct (set_walk c l n v)
         end; cbn [fst snd]; congruence.
Qed.

(** The size check, for a name and a value that pass the character checks:
    the value is refused exactly when it has [MAX_VALUE_SIZE] bytes or more,
    or when it, its name and their two terminators, added to [ctx->varsize],
    exceed [MAX_VALUE_SIZE]. *)
Lemma bootvar_set_size_check ctx nm v :
  readonly ctx = false -> nonul nm -> nonul v -> v <> [] ->
  (hd 0 nm =? 95) || isalpha (hd 0 nm) = true ->
  forallb (fun c => (c =? 95) || isalnum c) (tl nm) = true ->
  forallb isprint v = true -> zlen nm < DEVINFO_BLOCK_SIZE ->
  (snd (fst (bootinfo_bootvar_set ctx nm (Some v))) = Some EMSGSIZE <->
   MAX_VALUE_SIZE <= zlen v \/ varsize ctx + (zlen nm + zlen v + 2) > MAX_VALUE_SIZE).
Proof.
  intros Hro Hn Hv Hne H0 Ht Hp Hl. unfold bootinfo_bootvar_set.
  rewrite Hro, (strz_id nm Hn), (strz_id v Hv).
  assert (Hh : (hd 0 v =? 0) = false).
  { destruct v as [|b v']; [congruence|]. cbn [hd]. apply Z.eqb_neq.
    intros ->. apply Hv. now left. }
  rewrite Hh, (strz_id v Hv), Hp, Ht. cbn [negb].
  apply orb_true_iff in H0.
  replace (negb (hd 0 nm =? 95) && negb (isalpha (hd 0 nm))) with false
    by (destruct H0 as [-> | ->]; [reflexivity|now rewrite andb_false_r]).
  destruct (Z.geb_spec (zlen nm) DEVINFO_BLOCK_SIZE) as [G|_]; [lia|].
  destruct (Z.geb_spec (zlen v) MAX_VALUE_SIZE) as [G1|G1]; cbn [orb].
  - cbn [fst snd]. split; auto.
  - rewrite Z.gtb_ltb.
    destruct (Z.ltb_spec MAX_VALUE_SIZE (varsize ctx + (zlen nm + zlen v + 2)))
      as [G2|G2].
    + cbn [fst snd]. split; auto. intros _. right. lia.
    + destruct (set_walk ctx (vars ctx) nm (Some v)); cbn [fst snd];
        split; try discriminate; intros [?|?]; lia.
Qed.

End SetVar.

(** ** The sample sessions *)

Lemma ptr_okb_sound {cfg : config} ctx p : ptr_okb ctx p = true -> ptr_ok ctx p.
Proof.
  destruct p as [i off|e]; cbn [ptr_okb ptr_ok]; auto. intros H.
  apply andb_true_iff in H. destruct H as [H H4].
  apply andb_true_iff in H. destruct H as [H H3].
  apply andb_true_iff in H. destruct H as [H1 H2].
  apply Z.eqb_eq in H1. apply Z.leb_le in H3. apply orb_true_iff in H2.
  apply existsb_exists in H4. destruct H4 as (x & Hin & Hx).
  apply Z.eqb_eq in Hx. subst x.
  rewrite !Z.eqb_eq in H2. auto.
Qed.

Lemma ctx_okb_sound {cfg : config} ctx : ctx_okb ctx = true -> ctx_ok ctx.
Proof.
  unfold ctx_okb, ctx_ok. intros H.
  apply andb_true_iff in H. destruct H as [H H3].
  apply andb_true_iff in H. destruct H as [H1 H2].
  apply Z.eqb_eq in H1, H2. split; [auto|].
  apply Forall_forall. intros v Hv. rewrite forallb_forall in H3.
  specialize (H3 v Hv). apply andb_true_iff in H3. destruct H3.
  split; apply ptr_okb_sound; auto.
Qed.

(** A run that returns [a]. *)
Lemma run4 {A B C D : Type} (x : A * B * C * D) (a : A) :
  fst (fst (fst x)) = a -> x = (a, snd (fst (fst x)), snd (fst x), snd x).
Proof. destruct x as [[[a' b] c] d]. cbn. now intros ->. Qed.

(** A run that returns [a] and a context. *)
Lemma run4_some (x : Z * option devinfo_context * script * world) (a : Z) :
  fst (fst (fst x)) = a -> snd (fst (fst x)) <> None ->
  x = (a, Some (ctx_of x), snd (fst x), snd x).
Proof.
  destruct x as [[[a' [c|]] s] w]; cbn; [|congruence]. now intros ->.
Qed.

Lemma run5 {A B C D E : Type} (x : A * B * C * D * E) :
  x = (fst (fst (fst (fst x))), snd (fst (fst (fst x))), snd (fst (fst x)),
       snd (fst x), snd x).
Proof. now destruct x as [[[[a b] c] d] e]. Qed.

Lemma bootinfo_close_dev ctx w : w_dev (bootinfo_close ctx w) = w_dev w.
Proof.
  unfold bootinfo_close, close_bootinfo.
  destruct (negb (readonly ctx)), (lockfd ctx >=? 0); cbn [snd];
    unfold set_bootdev_writeable_status, sys_close_lock;
    repeat match goal with
           | |- context [match ?x with _ => _ end] => destruct x
           end; reflexivity.
Qed.

Lemma small_config_ok : config_ok small_config.
Proof. unfold config_ok. vm_compute. intuition discriminate. Qed.

Lemma second_ctx_ok : @ctx_ok small_config second_ctx.
Proof. apply ctx_okb_sound. vm_compute. reflexivity. Qed.

Lemma second_update_runs :
  second_update = (0, updated_ctx, snd (fst second_update), updated_world).
Proof. apply (run4 second_update). vm_compute. reflexivity. Qed.

(** In the second session the current slot is 0: the update writes slot 1
    with the next serial number and leaves slot 0 as it was. *)
Lemma bootinfo_update_writes_other_slot_witness :
  @ctx_ok small_config second_ctx /\
  current second_ctx = 0 /\ dest_slot second_ctx = 1 /\
  sernum (info_of_bytes (@dev_slot small_config updated_world
                           (dest_slot second_ctx)))
  = (sernum (curinfo second_ctx) + 1) mod 256 /\
  @dev_slot small_config updated_world (current second_ctx)
  = @dev_slot small_config second_world (current second_ctx).
Proof.
  assert (Hc : current second_ctx = 0) by (vm_compute; reflexivity).
  pose proof (@bootinfo_update_writes_other_slot small_config small_config_ok
                second_ctx [] second_world _ _ _ second_ctx_ok second_update_runs)
    as H.
  destruct H as ((D0 & _) & _ & Hh & Hs).
  cbv zeta in Hh. destruct Hh as (_ & _ & _ & _ & _ & Hn).
  split; [exact second_ctx_ok|]. split; [exact Hc|]. split; [exact (D0 Hc)|].
  split; [exact Hn|]. apply Hs. left. exact Hc.
Defined.

(** After the update of the second session both slots are valid, with serial
    numbers 1 and 2: the next load makes slot 1 current. *)
Lemma find_bootinfo_current_witness :
  valid0 (ctx_of third_find) = true /\ valid1 (ctx_of third_find) = true /\
  sernum (info_of_bytes (infobuf (ctx_of third_find) 0)) = 1 /\
  sernum (info_of_bytes (infobuf (ctx_of third_find) 1)) = 2 /\
  current (ctx_of third_find) = 1.
Proof.
  assert (V0 : valid0 (ctx_of third_find) = true) by (vm_compute; reflexivity).
  assert (V1 : valid1 (ctx_of third_find) = true) by (vm_compute; reflexivity).
  assert (S0 : sernum (info_of_bytes (infobuf (ctx_of third_find) 0)) = 1)
    by (vm_compute; reflexivity).
  assert (S1 : sernum (info_of_bytes (infobuf (ctx_of third_find) 1)) = 2)
    by (vm_compute; reflexivity).
  assert (R : third_find
              = (0, Some (ctx_of third_find), snd (fst third_find), snd third_find)).
  { apply run4_some; vm_compute; [reflexivity|discriminate]. }
  pose proof (@find_bootinfo_current small_config small_config_ok true []
                reclosed_world _ _ _ _ R) as H.
  cbv zeta in H. destruct H as (_ & _ & _ & H).
  destruct (H V0 V1) as (_ & _ & H2).
  rewrite S0, S1 in H2.
  destruct H2 as (H3 & _); [intros [E _]; discriminate E|intros [E _]; discriminate E|].
  split; [exact V0|]. split; [exact V1|]. split; [exact S0|]. split; [exact S1|].
  apply H3. rewrite Z.gt_lt_iff. reflexivity.
Defined.

(** The update of the second session leaves [current], [curinfo] and the
    variable list of the context as they were. *)
Lemma bootinfo_update_frame_witness :
  current updated_ctx = current second_ctx /\
  curinfo updated_ctx = curinfo second_ctx /\
  vars updated_ctx = vars second_ctx /\
  dest_slot updated_ctx = dest_slot second_ctx.
Proof.
  pose proof (@bootinfo_update_frame small_config small_config_ok second_ctx []
                second_world 0 _ _ _ second_update_runs) as H.
  destruct H as ((_ & _ & _ & _ & _ & Hc & Hi & Hv & _) & _ & Hd & _).
  split; [exact Hc|]. split; [exact Hi|]. split; [exact Hv|exact Hd].
Defined.

(** The slot the update of the second session wrote passes the checks of
    find_bootinfo, and its trailing field is the CRC-32 of the extension
    area. *)
Lemma bootinfo_update_crc_fields_witness :
  let b := @dev_slot small_config updated_world (dest_slot second_ctx) in
  le_val (sub b (@INFOBUF_SIZE small_config - 4) 4)
  = crc32 0 (sub b DEVINFO_BLOCK_SIZE (@EXTENSION_SIZE small_config - 4)) /\
  @slot_valid small_config b = true.
Proof.
  pose proof (@bootinfo_update_crc_fields small_config small_config_ok second_ctx []
                second_world _ _ _ second_ctx_ok second_update_runs) as H.
  apply proj1 in H. cbv zeta in H. destruct H as (H1 & _ & H3).
  cbv zeta. split; [exact H1|exact H3].
Defined.

Lemma Forall_by_forallb {A : Type} (P : A -> Prop) (f : A -> bool) (l : list A) :
  (forall x, f x = true -> P x) -> forallb f l = true -> Forall P l.
Proof.
  intros Hf H. apply Forall_forall. intros x Hx.
  rewrite forallb_forall in H. auto.
Qed.

(** The variables of the second session, [foo=bar] and [_k=1], packed into
    the buffer of slot 1, and parsed from these bytes by a context that had
    no variables. *)
Lemma pack_parse_roundtrip_witness :
  let d := dest_slot second_ctx in
  let ctx0 := set_infobuf second_ctx d
                (@fill_header small_config (curinfo second_ctx)
                   (infobuf second_ctx d)) in
  fst (@pack_vars small_config ctx0 d) = 0 /\
  vars reader_ctx = [] /\
  fst (@parse_vars small_config reader_ctx) = 0 /\
  var_strings (snd (@parse_vars small_config reader_ctx)) = var_strings second_ctx /\
  length (var_strings second_ctx) = 2%nat.
Proof.
  assert (Hne : Forall (fun v => cstr second_ctx (name v) <> []) (vars second_ctx)).
  { apply (Forall_by_forallb _ (fun v => 0 <? zlen (cstr second_ctx (name v)))).
    - intros v Hv E. rewrite E in Hv. discriminate Hv.
    - vm_compute. reflexivity. }
  pose proof (@pack_parse_roundtrip small_config small_config_ok second_ctx
                second_ctx_ok Hne) as H.
  cbv zeta in H. destruct H as (Hfit & Hparse). cbv zeta.
  assert (Hsz : zlen (serialize (var_strings second_ctx)) + 2
                <= @VARSPACE_SIZE small_config).
  { apply Z.leb_le. vm_compute. reflexivity. }
  pose proof (proj1 Hfit Hsz) as Hp.
  assert (Hc : current reader_ctx = dest_slot second_ctx)
    by (vm_compute; reflexivity).
  assert (Hb : infobuf reader_ctx (dest_slot second_ctx)
               = infobuf
                   (snd (@pack_vars small_config
                           (set_infobuf second_ctx (dest_slot second_ctx)
                              (@fill_header small_config (curinfo second_ctx)
                                 (infobuf second_ctx (dest_slot second_ctx))))
                           (dest_slot second_ctx)))
                   (dest_slot second_ctx))
    by (vm_compute; reflexivity).
  pose proof (Hparse Hp reader_ctx Hc Hb) as Hr.
  split; [exact Hp|]. split; [vm_compute; reflexivity|].
  split; [exact (proj1 Hr)|]. split; [exact (proj1 (proj2 Hr))|].
  vm_compute. reflexivity.
Defined.

(** A boot check in the second session: from the state (0, 0),
    bootinfo_mark_in_progress sets the flag and keeps the count, and
    bootinfo_mark_successful clears both. *)
Lemma mark_transitions_witness :
  readonly second_ctx = false /\ boot_state second_ctx = (0, 0) /\
  boot_state (snd (fst (fst (@bootinfo_mark_in_progress small_config
                               second_ctx [] second_world))))
  = (1, bootinfo_failed_boot_count second_ctx) /\
  boot_state (snd (fst (fst (@bootinfo_mark_successful small_config
                               second_ctx [] second_world))))
  = (0, 0).
Proof.
  assert (Hro : readonly second_ctx = false) by (vm_compute; reflexivity).
  assert (Hst : boot_state second_ctx = (0, 0)) by (vm_compute; reflexivity).
  pose proof (@mark_transitions small_config second_ctx [] second_world Hro) as H.
  destruct H as (Hin & Hsucc & _).
  pose proof (Hin _ _ _ _ _ (run5 _)) as H0. apply proj2, proj1 in H0.
  pose proof (Hsucc _ _ _ _ _ (run5 _)) as H1. apply proj2 in H1.
  assert (Hip : bootinfo_is_in_progress second_ctx = 0) by (vm_compute; reflexivity).
  split; [exact Hro|]. split; [exact Hst|]. split; [exact (H0 Hip)|exact H1].
Defined.

(** The update of the second session keeps slot 0 current in the context;
    the load of the next session makes slot 1 current. *)
Lemma update_alternates_across_sessions_witness :
  current second_ctx = 0 /\ current updated_ctx = 0 /\
  current (ctx_of third_find) = 1 - 0.
Proof.
  assert (Hc : current second_ctx = 0) by (vm_compute; reflexivity).
  assert (Hv : @slot_valid small_config (@dev_slot small_config second_world 0) = true)
    by (vm_compute; reflexivity).
  assert (Hs : sernum (info_of_bytes (@dev_slot small_config second_world 0))
               = sernum (curinfo second_ctx)) by (vm_compute; reflexivity).
  assert (Hn : sernum (curinfo second_ctx) = 1) by (vm_compute; reflexivity).
  assert (Hr : 0 <= sernum (curinfo second_ctx) < 256) by (rewrite Hn; lia).
  assert (R : third_find
              = (0, Some (ctx_of third_find), snd (fst third_find), snd third_find)).
  { apply run4_some; vm_compute; [reflexivity|discriminate]. }
  pose proof (@update_alternates_across_sessions small_config small_config_ok
                second_ctx [] second_world _ _ _ 0 second_ctx_ok Hc
                (or_introl eq_refl) Hv Hs Hr second_update_runs) as H.
  destruct H as (_ & Hc' & _ & _ & Hnext).
  pose proof (Hnext true [] reclosed_world _ _ _ _
                (bootinfo_close_dev updated_ctx updated_world) (Forall_nil _) R)
    as Hc2.
  apply proj2 in Hc2.
  split; [exact Hc|]. split; [exact Hc'|exact Hc2].
Defined.

(** The first session got the lock: the writes of its initialization
    happened under it, and the session holds it. *)
Lemma open_keeps_lock_witness :
  @open_found small_config [] blank_world <> None /\
  trace_ext LockEx blank_world first_world /\ w_lock first_world = LockEx /\
  0 <= lockfd first_ctx.
Proof.
  assert (Hf : @open_found small_config [] blank_world <> None)
    by (vm_compute; discriminate).
  assert (R : first_open = (0, Some first_ctx, snd (fst first_open), first_world)).
  { apply run4_some; vm_compute; [reflexivity|discriminate]. }
  pose proof (@open_keeps_lock small_config small_config_ok 0 [] blank_world
                _ _ _ _ eq_refl Hf R) as H.
  destruct H as (Ht & H). specialize (H eq_refl).
  destruct H as (c & Hc & Hl & Hfd & _).
  injection Hc as Hc. rewrite <- Hc in Hfd.
  split; [exact Hf|]. split; [exact Ht|]. split; [exact Hl|exact Hfd].
Defined.

(** C3 as it is written fails.  Consecutive calls of
    bootinfo_mark_in_progress in the first session (writable, state (0, 0)):
    after 256 calls the state is (1, 255); the next call makes it (1, 0),
    where [min (255 + 1) 255] and [min (257 - 1) 255] are 255. *)
Lemma mark_in_progress_wraps :
  readonly first_ctx = false /\ boot_state first_ctx = (0, 0) /\
  boot_state (fst (fst (@mark_in_progress_times small_config 256 first_ctx []
                          first_world)))
  = (1, 255) /\
  boot_state (fst (fst (@mark_in_progress_times small_config 257 first_ctx []
                          first_world)))
  = (1, 0) /\
  Z.min (255 + 1) 255 = 255 /\ Z.min (257 - 1) 255 = 255.
Proof. vm_compute. repeat split; reflexivity. Qed.

(** C4 as it is written fails.  The two successive updates of the second
    session both succeed; slot 0 is current before the first and before the
    second, and both write slot 1. *)
Lemma updates_in_session_keep_current :
  fst (fst (fst second_update)) = 0 /\ fst (fst (fst third_update)) = 0 /\
  current second_ctx = 0 /\ current updated_ctx = 0 /\
  dest_slot second_ctx = 1 /\ dest_slot updated_ctx = 1.
Proof. vm_compute. repeat split; reflexivity. Qed.

(** C5 as it is written fails.  A write-mode open on the blank device in
    which flock fails: find_bootinfo hands back no context, bootinfo_open
    goes on with [lockfd = -1], zero-fills both slots and persists, and
    returns 0; the six writes happen with no lock held. *)
Lemma init_without_lock :
  Z.land 0 BOOTINFO_O_RDONLY = 0 /\
  fst (fst (fst unlocked_open)) = 0 /\
  lockfd (ctx_of unlocked_open) = -1 /\
  w_lock (snd unlocked_open) = Unlocked /\
  map ev_lock (w_trace (snd unlocked_open)) = repeat Unlocked 6 /\
  map ev_off (w_trace (snd unlocked_open))
  = [524800; 524288; 525824; 525312; 524800; 524288].
Proof. vm_compute. repeat split; reflexivity. Qed.

(** C8 as it is written fails.  In slot 1 as the update of the second
    session wrote it, the CRC-32 of the header sector as it is stored (the
    checksum field holding its value) is not the value of the field. *)
Lemma header_crc_not_over_stored_value :
  let b := @dev_slot small_config updated_world 1 in
  crc32 0 (sub b 0 DEVINFO_BLOCK_SIZE) <> crcsum (info_of_bytes b).
Proof. vm_compute. discriminate. Qed.

(** C9 as it is written fails.  In the first session (empty list, a variable
    area of 1000 bytes), [a] is set to 400 bytes and then [b] to 593 bytes;
    both calls return 0.  The list packs to 999 bytes, so with the byte that
    ends it it fills the variable area exactly; pack_vars returns -1 on it,
    and so does bootinfo_update: there is no packed area to parse. *)
Lemma pack_vars_rejects_exact_fit :
  fst (fst full_set_a) = 0 /\ fst (fst full_set_b) = 0 /\
  @VARSPACE_SIZE small_config = 1000 /\
  zlen (serialize (var_strings (snd full_set_b))) + 1 = 1000 /\
  fst (@pack_vars small_config
         (set_infobuf (snd full_set_b) (dest_slot (snd full_set_b))
            (@fill_header small_config (curinfo (snd full_set_b))
               (infobuf (snd full_set_b) (dest_slot (snd full_set_b)))))
         (dest_slot (snd full_set_b))) = -1 /\
  fst (fst (fst (@bootinfo_update small_config (snd full_set_b) [] first_world)))
  = -1.
Proof. vm_compute. repeat split; reflexivity. Qed.

(** C7.  bootinfo_bootvar_set checks the size against [ctx->varsize], which
    is the packed size parse_vars found at load and which no set changes.
    In the first session (empty list, [varsize = 0], a variable area of 1000
    bytes), [a] is set to 600 bytes and then [b] to 600 bytes: both calls
    return 0 with errno not set, [varsize] is still 0, the list then packs to
    1206 bytes plus the byte that ends it, and the bootinfo_update that
    follows fails in pack_vars. *)
Theorem bootvar_set_checks_stale_varsize :
  fst (fst big_set_a) = 0 /\
  fst (fst big_set_b) = 0 /\ snd (fst big_set_b) = None /\
  varsize first_ctx = 0 /\ varsize (snd big_set_b) = 0 /\
  @VARSPACE_SIZE small_config = 1000 /\ @MAX_VALUE_SIZE small_config = 996 /\
  zlen (serialize (var_strings (snd big_set_b))) + 1 = 1207 /\
  fst (@pack_vars small_config (snd big_set_b) 0) = -1 /\
  fst (fst (fst (@bootinfo_update small_config (snd big_set_b) [] first_world)))
  = -1.
Proof. vm_compute. repeat split; reflexivity. Qed.

(** ** Setting and getting variables *)

Lemma bytes_eqb_refl (a : list Z) : bytes_eqb a a = true.
Proof. now apply bytes_eqb_eq. Qed.

Lemma bytes_eqb_neq (a b : list Z) : a <> b -> bytes_eqb a b = false.
Proof.
  intros H. destruct (bytes_eqb a b) eqn:E; [|reflexivity].
  apply bytes_eqb_eq in E. contradiction.
Qed.

Lemma strz_idem (l : list Z) : strz (strz l) = strz l.
Proof. apply strz_id, strz_nonul. Qed.

Lemma var_strings_set_vars ctx l sz :
  var_strings (set_vars ctx l sz)
  = map (fun v => (cstr ctx (name v), cstr ctx (value v))) l.
Proof. reflexivity. Qed.

(** bootinfo_bootvar_get reads the association list of the strings. *)
Lemma bootvar_get_assoc ctx (nm : list Z) :
  bootinfo_bootvar_get ctx nm = assoc_get nm (var_strings ctx).
Proof.
  unfold bootinfo_bootvar_get, var_strings.
  induction (vars ctx) as [|v l IH]; [reflexivity|].
  cbn [bootvar_lookup map assoc_get].
  destruct (bytes_eqb nm (cstr ctx (name v))); [reflexivity|exact IH].
Qed.

(** The walk of bootinfo_bootvar_set over the list, on the strings. *)
Lemma set_walk_strings ctx (nm v : list Z) (l : list info_var) :
  exists l', set_walk ctx l nm (Some v) = Some l' /\
    map (fun x => (cstr ctx (name x), cstr ctx (value x))) l'
    = assoc_set (strz nm) (strz v)
        (map (fun x => (cstr ctx (name x), cstr ctx (value x))) l).
Proof.
  induction l as [|x l IH]; cbn [set_walk map assoc_set].
  - eexists. split; reflexivity.
  - destruct (bytes_eqb (strz nm) (cstr ctx (name x))).
    + eexists. split; reflexivity.
    + destruct IH as (l' & -> & E). eexists. split; [reflexivity|].
      cbn [map]. now rewrite E.
Qed.

Lemma set_walk_delete ctx (nm : list Z) (l : list info_var) :
  match set_walk ctx l nm None with
  | Some l' =>
      assoc_get (strz nm) (map (fun x => (cstr ctx (name x), cstr ctx (value x))) l)
      <> None /\
      map (fun x => (cstr ctx (name x), cstr ctx (value x))) l'
      = assoc_del (strz nm)
          (map (fun x => (cstr ctx (name x), cstr ctx (value x))) l)
  | None =>
      assoc_get (strz nm) (map (fun x => (cstr ctx (name x), cstr ctx (value x))) l)
      = None
  end.
Proof.
  induction l as [|x l IH]; cbn [set_walk map assoc_get assoc_del];
    [reflexivity|].
  destruct (bytes_eqb (strz nm) (cstr ctx (name x))).
  - split; [discriminate|reflexivity].
  - destruct (set_walk ctx l nm None) as [l'|]; cbn [option_map]; [|exact IH].
    destruct IH as [G E]. split; [exact G|]. cbn [map]. now rewrite E.
Qed.

Section SetGet.

Context {cfg : config}.

(** The value bootinfo_bootvar_set works with: an empty string is a request
    to delete, like NULL. *)
Lemma bootvar_set_inv ctx nm val :
  fst (fst (bootinfo_bootvar_set ctx nm val)) = 0 ->
  readonly ctx = false /\ name_ok (strz nm) /\
  zlen (strz nm) < DEVINFO_BLOCK_SIZE /\
  let val' := match val with
              | Some v => if hd 0 (strz v) =? 0 then None else Some v
              | None => None
              end in
  (forall v, val' = Some v ->
     forallb isprint (strz v) = true /\ zlen (strz v) < MAX_VALUE_SIZE /\
     varsize ctx + (zlen (strz nm) + zlen (strz v) + 2) <= MAX_VALUE_SIZE) /\
  exists l, set_walk ctx (vars ctx) nm val' = Some l /\
            snd (bootinfo_bootvar_set ctx nm val) = set_vars ctx l (varsize ctx).
Proof.
  unfold bootinfo_bootvar_set. cbv zeta.
  set (val' := match val with
               | Some v => if hd 0 (strz v) =? 0 then None else Some v
               | None => None
               end).
  destruct (readonly ctx); [discriminate|].
  destruct (negb (hd 0 (strz nm) =? 95) && negb (isalpha (hd 0 (strz nm)))) eqn:E1;
    [discriminate|].
  destruct (forallb (fun c => (c =? 95) || isalnum c) (tl (strz nm))) eqn:E2;
    [|discriminate]. cbn [negb].
  destruct (match val' with
            | Some v => forallb isprint (strz v)
            | None => true
            end) eqn:E3; [|discriminate]. cbn [negb].
  destruct (Z.geb_spec (zlen (strz nm)) DEVINFO_BLOCK_SIZE) as [|E4]; [discriminate|].
  destruct (match val' with
            | Some v =>
                (zlen (strz v) >=? MAX_VALUE_SIZE)
                || (varsize ctx + (zlen (strz nm) + zlen (strz v) + 2) >? MAX_VALUE_SIZE)
            | None => false
            end) eqn:E5; [discriminate|].
  destruct (set_walk ctx (vars ctx) nm val') as [l|] eqn:E6; [|discriminate].
  intros _. split; [reflexivity|]. split.
  { unfold name_ok. split; [|split; [|exact E2]].
    - intros E. rewrite E in E1. discriminate E1.
    - destruct (hd 0 (strz nm) =? 95); [reflexivity|].
      destruct (isalpha (hd 0 (strz nm))); [reflexivity|discriminate E1]. }
  split; [exact E4|]. split.
  - intros v Hv. rewrite Hv in E3, E5. apply orb_false_iff in E5.
    destruct E5 as [A B]. split; [exact E3|].
    destruct (Z.geb_spec (zlen (strz v)) MAX_VALUE_SIZE); [discriminate|].
    rewrite Z.gtb_ltb in B. apply Z.ltb_ge in B. lia.
  - exists l. split; reflexivity.
Qed.

(** bootinfo_bootvar_set with a value that is not empty stores it under the
    name: in place, when the list has a variable of that name, and otherwise
    in a new variable at the end of the list.  The other variables, and the
    order of the list, are as before. *)
Lemma set_stores_strings ctx nm v :
  fst (fst (bootinfo_bootvar_set ctx nm (Some v))) = 0 -> strz v <> [] ->
  var_strings (snd (bootinfo_bootvar_set ctx nm (Some v)))
  = assoc_set (strz nm) (strz v) (var_strings ctx).
Proof.
  intros H Hv.
  destruct (bootvar_set_inv ctx nm (Some v) H) as (_ & _ & _ & Hinv).
  cbv zeta in Hinv. destruct Hinv as (_ & l & Hw & ->).
  assert (Hh : (hd 0 (strz v) =? 0) = false).
  { destruct (strz v) as [|b r] eqn:E; [congruence|]. cbn [hd].
    apply Z.eqb_neq. intros ->. apply (strz_nonul v). rewrite E. now left. }
  rewrite Hh in Hw.
  destruct (set_walk_strings ctx nm v (vars ctx)) as (l' & Hw' & E).
  rewrite Hw in Hw'. injection Hw' as <-.
  rewrite var_strings_set_vars. exact E.
Qed.

(** bootinfo_bootvar_set with a NULL or empty value that returns 0 has
    removed the first variable of that name, which the list had; the other
    variables, and their order, are as before. *)
Lemma set_deletes_strings ctx nm val :
  fst (fst (bootinfo_bootvar_set ctx nm val)) = 0 -> deleting val ->
  assoc_get (strz nm) (var_strings ctx) <> None /\
  var_strings (snd (bootinfo_bootvar_set ctx nm val))
  = assoc_del (strz nm) (var_strings ctx).
Proof.
  intros H Hv.
  destruct (bootvar_set_inv ctx nm val H) as (_ & _ & _ & Hinv).
  cbv zeta in Hinv. destruct Hinv as (_ & l & Hw & ->).
  assert (E : match val with
              | Some v => if hd 0 (strz v) =? 0 then None else Some v
              | None => None
              end = None).
  { destruct val as [v|]; [|reflexivity]. cbn [deleting] in Hv. rewrite Hv. reflexivity. }
  rewrite E in Hw. pose proof (set_walk_delete ctx nm (vars ctx)) as D.
  rewrite Hw in D. rewrite var_strings_set_vars. exact D.
Qed.

End SetGet.

(** *** Laws of the association list *)

Lemma assoc_get_set_same (k v : list Z) l : assoc_get k (assoc_set k v l) = Some v.
Proof.
  induction l as [|[k' v'] l IH]; cbn [assoc_set assoc_get].
  - now rewrite bytes_eqb_refl.
  - destruct (bytes_eqb k k') eqn:E; cbn [assoc_get]; rewrite E; auto.
Qed.

Lemma assoc_get_set_other (k k2 v : list Z) l :
  k2 <> k -> assoc_get k2 (assoc_set k v l) = assoc_get k2 l.
Proof.
  intros Hne. induction l as [|[k' v'] l IH]; cbn [assoc_set assoc_get].
  - now rewrite (bytes_eqb_neq k2 k Hne).
  - destruct (bytes_eqb k k') eqn:E; cbn [assoc_get].
    + apply bytes_eqb_eq in E. subst k'. now rewrite (bytes_eqb_neq k2 k Hne).
    + destruct (bytes_eqb k2 k'); auto.
Qed.

Lemma assoc_get_del_other (k k2 : list Z) l :
  k2 <> k -> assoc_get k2 (assoc_del k l) = assoc_get k2 l.
Proof.
  intros Hne. induction l as [|[k' v'] l IH]; cbn [assoc_del assoc_get]; auto.
  destruct (bytes_eqb k k') eqn:E; cbn [assoc_get].
  - apply bytes_eqb_eq in E. subst k'. now rewrite (bytes_eqb_neq k2 k Hne).
  - destruct (bytes_eqb k2 k'); auto.
Qed.

Lemma assoc_get_none (k : list Z) l : ~ In k (map fst l) -> assoc_get k l = None.
Proof.
  induction l as [|[k' v'] l IH]; cbn [assoc_get map fst In]; auto.
  intros H. rewrite bytes_eqb_neq by (intros ->; apply H; now left).
  apply IH. tauto.
Qed.

Lemma assoc_get_in (k : list Z) l : assoc_get k l <> None -> In k (map fst l).
Proof.
  induction l as [|[k' v'] l IH]; cbn [assoc_get map fst In]; [congruence|].
  destruct (bytes_eqb k k') eqn:E.
  - apply bytes_eqb_eq in E. auto.
  - auto.
Qed.

Lemma assoc_set_names (k v : list Z) l :
  map fst (assoc_set k v l)
  = if existsb (bytes_eqb k) (map fst l) then map fst l else map fst l ++ [k].
Proof.
  induction l as [|[k' v'] l IH]; cbn [assoc_set map fst existsb app]; auto.
  destruct (bytes_eqb k k') eqn:E; cbn [map fst orb]; auto.
  rewrite IH. destruct (existsb (bytes_eqb k) (map fst l)); reflexivity.
Qed.

Lemma assoc_del_names_incl (k : list Z) l x :
  In x (map fst (assoc_del k l)) -> In x (map fst l).
Proof.
  induction l as [|[k' v'] l IH]; cbn [assoc_del map fst In]; auto.
  destruct (bytes_eqb k k'); cbn [map fst In]; tauto.
Qed.

Lemma assoc_del_nodup (k : list Z) l :
  NoDup (map fst l) -> NoDup (map fst (assoc_del k l)) /\ ~ In k (map fst (assoc_del k l)).
Proof.
  induction l as [|[k' v'] l IH]; cbn [assoc_del map fst].
  - intros _. split; [constructor|intros []].
  - intros H. inversion H as [|? ? Hn Hd]; subst.
    destruct (bytes_eqb k k') eqn:E.
    + apply bytes_eqb_eq in E. subst k'. auto.
    + destruct (IH Hd) as [A B]. cbn [map fst]. split.
      * constructor; auto. intros Hin. apply Hn. eapply assoc_del_names_incl; eauto.
      * cbn [In]. intros [->|Hin]; [|auto]. now rewrite bytes_eqb_refl in E.
Qed.

Lemma assoc_set_nodup (k v : list Z) l :
  NoDup (map fst l) -> NoDup (map fst (assoc_set k v l)).
Proof.
  intros H. rewrite assoc_set_names.
  destruct (existsb (bytes_eqb k) (map fst l)) eqn:E; auto.
  apply NoDup_app; auto.
  - constructor; [intros []|constructor].
  - intros x Hx [Ex|[]]. subst x.
    assert (existsb (bytes_eqb k) (map fst l) = true); [|congruence].
    apply existsb_exists. exists k. split; auto. apply bytes_eqb_refl.
Qed.

Lemma assoc_set_forall (P : list Z * list Z -> Prop) (k v : list Z) l :
  Forall P l -> P (k, v) -> (forall k' v', P (k', v') -> P (k', v)) ->
  Forall P (assoc_set k v l).
Proof.
  intros H Hk Hrep. induction H as [|[k' v'] l Hx Hl IH]; cbn [assoc_set].
  - constructor; auto.
  - destruct (bytes_eqb k k'); constructor; eauto.
Qed.

Lemma assoc_del_forall (P : list Z * list Z -> Prop) (k : list Z) l :
  Forall P l -> Forall P (assoc_del k l).
Proof.
  intros H. induction H as [|[k' v'] l Hx Hl IH]; cbn [assoc_del]; auto.
  destruct (bytes_eqb k k'); auto.
Qed.

(** ** The iterator over the variables *)

Section Iterator.

Context {cfg : config}.

Lemma iterate_all_from ctx (rest : list info_var) :
  forall x fuel, (length rest < fuel)%nat ->
  iterate_all fuel ctx (x :: rest) = map (fun v => (name v, value v)) rest.
Proof.
  induction rest as [|y rest IH]; intros x fuel Hf;
    (destruct fuel as [|fuel]; [inversion Hf|]); cbn [iterate_all bootinfo_bootvar_iterate map].
  - reflexivity.
  - rewrite IH; [reflexivity|]. cbn [length] in Hf. lia.
Qed.

Lemma get_loop_from ctx (nm : list Z) (rest : list info_var) :
  forall x fuel, (length rest < fuel)%nat ->
  get_loop fuel ctx (x :: rest) nm = bootvar_lookup ctx rest nm.
Proof.
  induction rest as [|y rest IH]; intros x fuel Hf;
    (destruct fuel as [|fuel]; [inversion Hf|]);
    cbn [get_loop bootinfo_bootvar_iterate bootvar_lookup].
  - reflexivity.
  - rewrite IH; [reflexivity|]. cbn [length] in Hf. lia.
Qed.

Lemma show_iter_from ctx (nm : option (list Z)) (omitname : bool)
      (rest : list info_var) :
  forall x fuel, (length rest < fuel)%nat ->
  show_iter fuel ctx nm omitname (x :: rest) = show_loop ctx nm omitname rest.
Proof.
  induction rest as [|y rest IH]; intros x fuel Hf;
    (destruct fuel as [|fuel]; [inversion Hf|]);
    cbn [show_iter bootinfo_bootvar_iterate show_loop].
  - reflexivity.
  - rewrite IH; [reflexivity|]. cbn [length] in Hf. lia.
Qed.

(** The loop of show_bootvar over the iterator is the loop over the list. *)
Lemma show_iter_loop ctx (nm : option (list Z)) (omitname : bool) (fuel : nat) :
  (length (vars ctx) < fuel)%nat ->
  show_iter fuel ctx nm omitname [] = show_loop ctx nm omitname (vars ctx).
Proof.
  intros Hf. destruct fuel as [|fuel]; [inversion Hf|].
  cbn [show_iter bootinfo_bootvar_iterate].
  destruct (vars ctx) as [|v l]; [reflexivity|].
  cbn [show_loop]. rewrite show_iter_from; [reflexivity|]. cbn [length] in Hf. lia.
Qed.

End Iterator.

(** ** Laws of setting and getting *)

Section SetGetLaws.

Context {cfg : config}.

Lemma deleting_cases (val : option (list Z)) :
  deleting val \/ exists v, val = Some v /\ strz v <> [].
Proof.
  destruct val as [v|]; [|left; exact I].
  destruct (strz v) eqn:E; [left; exact E|right].
  exists v. split; [reflexivity|]. rewrite E. discriminate.
Qed.

(** X3.  After a bootinfo_bootvar_set that stored a value, bootinfo_bootvar_get of
    that name finds that value. *)
Theorem bootvar_get_after_set ctx nm v :
  fst (fst (bootinfo_bootvar_set ctx nm (Some v))) = 0 -> strz v <> [] ->
  bootinfo_bootvar_get (snd (bootinfo_bootvar_set ctx nm (Some v))) (strz nm)
  = Some (strz v).
Proof.
  intros H Hv. rewrite bootvar_get_assoc, (set_stores_strings ctx nm v H Hv).
  apply assoc_get_set_same.
Qed.

(** X4.  A bootinfo_bootvar_set that returns 0, whether it stored or deleted,
    changes what bootinfo_bootvar_get finds under no other name. *)
Theorem bootvar_get_other_after_set ctx nm val (k : list Z) :
  fst (fst (bootinfo_bootvar_set ctx nm val)) = 0 -> k <> strz nm ->
  bootinfo_bootvar_get (snd (bootinfo_bootvar_set ctx nm val)) k
  = bootinfo_bootvar_get ctx k.
Proof.
  intros H Hk. rewrite !bootvar_get_assoc.
  destruct (deleting_cases val) as [D|(v & -> & Hv)].
  - destruct (set_deletes_strings ctx nm val H D) as [_ ->].
    now apply assoc_get_del_other.
  - rewrite (set_stores_strings ctx nm v H Hv). now apply assoc_get_set_other.
Qed.

(** X5.  bootinfo_bootvar_set keeps the list in shape: when the names of the list
    are distinct and every variable has a well-formed name and a printable
    value that is not empty, the same holds after a call that returns 0. *)
Theorem bootvar_set_keeps_shape ctx nm val :
  fst (fst (bootinfo_bootvar_set ctx nm val)) = 0 ->
  NoDup (map fst (var_strings ctx)) -> Forall var_ok (var_strings ctx) ->
  NoDup (map fst (var_strings (snd (bootinfo_bootvar_set ctx nm val)))) /\
  Forall var_ok (var_strings (snd (bootinfo_bootvar_set ctx nm val))).
Proof.
  intros H Hn Hf.
  destruct (deleting_cases val) as [D|(v & -> & Hv)].
  - destruct (set_deletes_strings ctx nm val H D) as [_ ->]. split.
    + now apply assoc_del_nodup.
    + now apply assoc_del_forall.
  - rewrite (set_stores_strings ctx nm v H Hv).
    destruct (bootvar_set_inv ctx nm (Some v) H) as (_ & Hname & _ & Hinv).
    cbv zeta in Hinv. destruct Hinv as (Hval & _).
    assert (Hh : (hd 0 (strz v) =? 0) = false).
    { destruct (strz v) as [|b r] eqn:E; [congruence|]. cbn [hd].
      apply Z.eqb_neq. intros ->. apply (strz_nonul v). rewrite E. now left. }
    rewrite Hh in Hval. destruct (Hval v eq_refl) as (Hp & _). split.
    + now apply assoc_set_nodup.
    + apply assoc_set_forall; auto.
      * split; [exact Hname|]. split; assumption.
      * intros k' v' (A & _). split; [exact A|]. split; assumption.
Qed.

(** X6.  When the names of the list are distinct, a name that
    bootinfo_bootvar_set has deleted is no longer found. *)
Theorem bootvar_get_after_delete ctx nm val :
  fst (fst (bootinfo_bootvar_set ctx nm val)) = 0 -> deleting val ->
  NoDup (map fst (var_strings ctx)) ->
  bootinfo_bootvar_get (snd (bootinfo_bootvar_set ctx nm val)) (strz nm) = None.
Proof.
  intros H D Hn. rewrite bootvar_get_assoc.
  destruct (set_deletes_strings ctx nm val H D) as [_ ->].
  apply assoc_get_none. now apply assoc_del_nodup.
Qed.

(** X7.  Deleting a variable the list does not have fails with ENOENT and leaves
    the context as it was. *)
Theorem bootvar_delete_missing ctx nm val :
  readonly ctx = false -> name_ok (strz nm) ->
  zlen (strz nm) < DEVINFO_BLOCK_SIZE -> deleting val ->
  bootinfo_bootvar_get ctx (strz nm) = None ->
  bootinfo_bootvar_set ctx nm val = (-1, Some ENOENT, ctx).
Proof.
  intros Hro (Hne & H0 & Ht) Hl D Hg. unfold bootinfo_bootvar_set. cbv zeta.
  assert (E : match val with
              | Some v => if hd 0 (strz v) =? 0 then None else Some v
              | None => None
              end = None).
  { destruct val as [v|]; [|reflexivity]. cbn [deleting] in D. rewrite D.
    reflexivity. }
  rewrite Hro, E, Ht. cbn [negb].
  apply orb_true_iff in H0.
  replace (negb (hd 0 (strz nm) =? 95) && negb (isalpha (hd 0 (strz nm))))
    with false
    by (destruct H0 as [-> | ->]; [reflexivity|now rewrite andb_false_r]).
  destruct (Z.geb_spec (zlen (strz nm)) DEVINFO_BLOCK_SIZE); [lia|].
  pose proof (set_walk_delete ctx nm (vars ctx)) as W.
  rewrite bootvar_get_assoc in Hg. fold (var_strings ctx) in W.
  destruct (set_walk ctx (vars ctx) nm None); [|reflexivity].
  destruct W as [W _]. contradiction.
Qed.

(** The errors of bootinfo_bootvar_set, in the order the checks are made:
    EROFS on a read-only context; EINVAL for a name that is empty, does not
    begin with a letter or an underscore or holds another character than
    letters, digits and underscores; EINVAL for a value with a character that
    is not printable; ENAMETOOLONG for a name of 512 bytes or more.  The
    context is as before in each case. *)
Lemma set_error_cases ctx nm val :
  (readonly ctx = true ->
   bootinfo_bootvar_set ctx nm val = (-1, Some EROFS, ctx)) /\
  (readonly ctx = false -> ~ name_ok (strz nm) ->
   bootinfo_bootvar_set ctx nm val = (-1, Some EINVAL, ctx)) /\
  (readonly ctx = false -> name_ok (strz nm) ->
   forall v, val = Some v -> forallb isprint (strz v) = false ->
   bootinfo_bootvar_set ctx nm val = (-1, Some EINVAL, ctx)) /\
  (readonly ctx = false -> name_ok (strz nm) ->
   match val with Some v => forallb isprint (strz v) = true | None => True end ->
   DEVINFO_BLOCK_SIZE <= zlen (strz nm) ->
   bootinfo_bootvar_set ctx nm val = (-1, Some ENAMETOOLONG, ctx)).
Proof.
  unfold bootinfo_bootvar_set. cbv zeta. splits.
  - intros ->. reflexivity.
  - intros -> Hbad.
    destruct (negb (hd 0 (strz nm) =? 95) && negb (isalpha (hd 0 (strz nm)))) eqn:E1;
      [reflexivity|].
    destruct (forallb (fun c => (c =? 95) || isalnum c) (tl (strz nm))) eqn:E2;
      [|reflexivity].
    exfalso. apply Hbad. split; [|split; [|exact E2]].
    + intros E. rewrite E in E1. discriminate E1.
    + destruct (hd 0 (strz nm) =? 95); [reflexivity|].
      destruct (isalpha (hd 0 (strz nm))); [reflexivity|discriminate E1].
  - intros -> (Hne & H0 & Ht) v -> Hp. rewrite Ht. cbn [negb].
    apply orb_true_iff in H0.
    replace (negb (hd 0 (strz nm) =? 95) && negb (isalpha (hd 0 (strz nm))))
      with false
      by (destruct H0 as [-> | ->]; [reflexivity|now rewrite andb_false_r]).
    destruct (hd 0 (strz v) =? 0) eqn:Eh.
    + destruct (strz v) as [|b r] eqn:Ev; [discriminate Hp|]. cbn [hd] in Eh.
      apply Z.eqb_eq in Eh. subst b. exfalso. apply (strz_nonul v). rewrite Ev.
      now left.
    + rewrite Hp. reflexivity.
  - intros -> (Hne & H0 & Ht) Hp Hl. rewrite Ht. cbn [negb].
    apply orb_true_iff in H0.
    replace (negb (hd 0 (strz nm) =? 95) && negb (isalpha (hd 0 (strz nm))))
      with false
      by (destruct H0 as [-> | ->]; [reflexivity|now rewrite andb_false_r]).
    replace (negb match match val with
                        | Some v => if hd 0 (strz v) =? 0 then None else Some v
                        | None => None
                        end with
                  | Some v => forallb isprint (strz v)
                  | None => true
                  end) with false.
    + destruct (Z.geb_spec (zlen (strz nm)) DEVINFO_BLOCK_SIZE); [reflexivity|lia].
    + destruct val as [v|]; [|reflexivity].
      destruct (hd 0 (strz v) =? 0); [reflexivity|]. now rewrite Hp.
Qed.

End SetGetLaws.

(** ** Sessions *)

Section Sessions.

Context {cfg : config}.
Hypothesis cfg_ok : config_ok cfg.

(** find_bootinfo, whatever it returns: it writes nothing, a read-only call
    leaves the soft read-only switch alone, and when no call fails it hands
    back a context. *)
Lemma find_bootinfo_frame rdonly s w r octx s' w' :
  find_bootinfo rdonly s w = (r, octx, s', w') ->
  w_dev w' = w_dev w /\ w_trace w' = w_trace w /\
  (rdonly = true -> w_ro w' = w_ro w) /\
  (octx = None -> r = -1) /\
  (cooperative s -> octx <> None).
Proof.
  intros H. unfold find_bootinfo in H.
  destruct (respond s) as [dirfd s1] eqn:R1.
  destruct (if dirfd <? 0 then respond s1 else (0, s1)) as [mk s2] eqn:R2.
  set (cz := set_devinfo_dev (set_readonly ctx_zero rdonly) BOOTINFO_STORAGE_DEVICE) in *.
  assert (St : forall d b u,
             w_dev (snd (set_bootdev_writeable_status d b u)) = w_dev u /\
             w_trace (snd (set_bootdev_writeable_status d b u)) = w_trace u).
  { intros d b u. destruct (set_status_frame d b u) as (A & _ & _ & B). auto. }
  destruct ((dirfd <? 0) && (mk <? 0)) eqn:Emk.
  { injection H as <- <- <- <-. destruct rdonly; cbn [negb].
    - splits; auto. intros C. destruct s as [|a s0]; cbn in R1.
      + injection R1 as <- <-. discriminate Emk.
      + injection R1 as <- <-. inversion C; subst.
        destruct (Z.ltb_spec a 0); [lia|discriminate Emk].
    - destruct (St (devinfo_dev cz) false w) as [A B]. splits; auto; try discriminate.
      intros C. destruct s as [|a s0]; cbn in R1.
      + injection R1 as <- <-. discriminate Emk.
      + injection R1 as <- <-. inversion C; subst.
        destruct (Z.ltb_spec a 0); [lia|discriminate Emk]. }
  destruct (if dirfd <? 0 then respond s2 else (dirfd, s2)) as [d2 s3] eqn:R3.
  destruct (respond s3) as [lkfd s4] eqn:R4.
  assert (C3 : cooperative s -> cooperative s3).
  { intros C. apply (respond_coop _ _ _ C) in R1. destruct R1 as [? C1].
    destruct (Z.ltb_spec dirfd 0); [lia|].
    injection R2 as <- <-. injection R3 as <- <-. exact C1. }
  destruct (Z.ltb_spec lkfd 0).
  { injection H as <- <- <- <-. splits; auto.
    intros C. apply C3 in C. apply (respond_coop _ _ _ C) in R4. lia. }
  destruct (respond s4) as [rf s5] eqn:R5.
  destruct (Z.ltb_spec rf 0).
  { injection H as <- <- <- <-. splits; auto.
    intros C. apply C3 in C. apply (respond_coop _ _ _ C) in R4.
    destruct R4 as [_ C4]. apply (respond_coop _ _ _ C4) in R5. lia. }
  destruct (respond s5) as [dfd s6] eqn:R6.
  set (wl := sys_flock (if rdonly then LockSh else LockEx) w) in *.
  set (wg := if negb rdonly
             then snd (set_bootdev_writeable_status (devinfo_dev cz) true wl)
             else wl) in *.
  assert (Wg : w_dev wg = w_dev w /\ w_trace wg = w_trace w /\
               (rdonly = true -> w_ro wg = w_ro w)).
  { unfold wg. destruct rdonly; cbn [negb].
    - unfold wl. cbn. auto.
    - destruct (St (devinfo_dev cz) true wl) as [A B]. rewrite A, B. unfold wl. cbn.
      splits; auto. discriminate. }
  destruct Wg as (Wd & Wt & Wr).
  destruct (Z.ltb_spec dfd 0).
  { injection H as <- <- <- <-. split; [|split; [|split; [|split]]]; auto.
    - destruct (negb rdonly); cbn; [rewrite (proj1 (St _ false wg))|]; exact Wd.
    - destruct (negb rdonly); cbn; [rewrite (proj2 (St _ false wg))|]; exact Wt.
    - intros ->. cbn. apply Wr. reflexivity.
    - intros C. apply C3 in C. apply (respond_coop _ _ _ C) in R4.
      destruct R4 as [_ C4]. apply (respond_coop _ _ _ C4) in R5.
      destruct R5 as [_ C5]. apply (respond_coop _ _ _ C5) in R6. lia. }
  set (c0 := set_fds cz dfd lkfd) in *.
  destruct (load_slot 0 c0 s6 (sys_open_dev wg)) as [[c1 s7] w1] eqn:L0.
  destruct (load_slot 1 c1 s7 w1) as [[c2 s8] w2] eqn:L1.
  apply (load_slot_spec cfg_ok) in L0; [|apply (zlen_zero_buf cfg_ok)].
  destruct L0 as (b0 & v0 & E1 & Z0 & D0 & _ & O0 & T0 & _).
  assert (Z1' : zlen (infobuf c1 1) = INFOBUF_SIZE).
  { rewrite E1. destruct v0; unfold c0, cz; cbn; apply (zlen_zero_buf cfg_ok). }
  apply (load_slot_spec cfg_ok) in L1; [|exact Z1'].
  destruct L1 as (b1 & v1 & E2 & Z1 & D1 & _ & O1 & T1 & _).
  cbn [sys_open_dev w_dev w_ro w_trace] in D0, O0, T0.
  assert (W2 : w_dev w2 = w_dev w /\ w_trace w2 = w_trace w /\
               (rdonly = true -> w_ro w2 = w_ro w)).
  { splits; try congruence. intros E. rewrite O1, O0. auto. }
  destruct W2 as (W2d & W2t & W2r).
  assert (Ro2 : readonly c2 = rdonly).
  { rewrite E2, E1. unfold c0, cz. destruct v0, v1; reflexivity. }
  destruct (negb (valid0 c2 || valid1 c2)).
  - injection H as <- <- <- <-. splits; auto; discriminate.
  - destruct (parse_vars _) as [rp cp] eqn:Ep.
    assert (Rp : readonly cp = rdonly).
    { unfold parse_vars in Ep. cbn [current set_current] in Ep.
      destruct (choose_current c2 <? 0).
      - injection Ep as <- <-. exact Ro2.
      - destruct (parse_loop _ _ _ _ _ _ _) as [l vsz]. injection Ep as <- <-.
        exact Ro2. }
    destruct (rp <? 0).
    + injection H as <- <- <- <-. rewrite Rp.
      destruct rdonly; cbn [negb].
      * splits; auto; discriminate.
      * destruct (St (devinfo_dev cp) false w2) as [A B]. rewrite A, B.
        splits; auto; discriminate.
    + injection H as <- <- <- <-. splits; auto; discriminate.
Qed.

End Sessions.

(** ** What an open loads *)

Section Loading.

Context {cfg : config}.
Hypothesis cfg_ok : config_ok cfg.

Lemma slot_valid_fields (b : list Z) :
  slot_valid b = true ->
  magic (info_of_bytes b) = DEVICE_MAGIC /\
  DEVINFO_VERSION_CURRENT <= devinfo_version (info_of_bytes b) /\
  ext_sectors (info_of_bytes b) = EXTENSION_SECTOR_COUNT /\
  crc32 0 (sub b DEVINFO_BLOCK_SIZE (EXTENSION_SIZE - 4))
  = le_val (sub b (INFOBUF_SIZE - 4) 4).
Proof.
  unfold slot_valid. intros H.
  apply andb_true_iff in H. destruct H as [H H4].
  apply andb_true_iff in H. destruct H as [H H3].
  apply andb_true_iff in H. destruct H as [H1 H2].
  apply bytes_eqb_eq in H1. apply Z.eqb_eq in H3, H4.
  apply Z.geb_le in H2. auto.
Qed.

(** What a find_bootinfo that returns 0 has loaded: the slot it made current
    passed the checks, its buffer holds the bytes of that slot of the device,
    and [curinfo] is the header of that slot. *)
Lemma find_bootinfo_loaded rdonly s w ctx s' w' :
  find_bootinfo rdonly s w = (0, Some ctx, s', w') ->
  (current ctx = 0 \/ current ctx = 1) /\
  slot_valid (dev_slot w (current ctx)) = true /\
  infobuf ctx (current ctx) = dev_slot w (current ctx) /\
  curinfo ctx = info_of_bytes (dev_slot w (current ctx)) /\
  (vars ctx, varsize ctx)
  = parse_loop (Z.to_nat (INFOBUF_SIZE - (DEVINFO_HDR_SIZE + 4)))
               (dev_slot w (current ctx)) (current ctx)
               DEVINFO_HDR_SIZE (INFOBUF_SIZE - (DEVINFO_HDR_SIZE + 4)) 0 [].
Proof.
  intros H.
  destruct (find_bootinfo_spec cfg_ok rdonly s w 0 ctx s' w' H)
    as (_ & _ & _ & _ & _ & _ & _ & V0 & V1 & _ & Hres).
  destruct Hres as [(E & _)|(_ & Hv & Hc & Hi & Hp)]; [discriminate E|].
  assert (Hsel : (current ctx = 0 /\ valid0 ctx = true) \/
                 (current ctx = 1 /\ valid1 ctx = true)).
  { rewrite Hc. unfold choose_current.
    destruct (valid0 ctx), (valid1 ctx); cbn [andb negb orb] in *;
      try discriminate; auto.
    repeat match goal with |- context [if ?c then _ else _] => destruct c end; auto. }
  destruct Hsel as [[E Hval]|[E Hval]]; rewrite E in *.
  - destruct (V0 Hval) as [S I]. rewrite I in *. auto 6.
  - destruct (V1 Hval) as [S I]. rewrite I in *. auto 6.
Qed.

(** A read-only bootinfo_open writes nothing to the device, whatever it
    finds there and whatever fails: the bytes of the device, the trace of
    writes and the soft read-only switch are as before (with force-init
    the call is refused outright).  The context it hands back is read-only
    and holds the shared lock, and on it bootinfo_update, the two marks and
    bootinfo_bootvar_set fail without changing the context or the device. *)
Lemma open_rdonly_props oflags s w ret octx s' w' :
  Z.land oflags BOOTINFO_O_RDONLY <> 0 ->
  bootinfo_open oflags s w = (ret, octx, s', w') ->
  (w_dev w' = w_dev w /\ w_trace w' = w_trace w /\ w_ro w' = w_ro w) /\
  (Z.land oflags BOOTINFO_O_FORCE_INIT <> 0 -> ret = -1 /\ octx = None /\ w' = w) /\
  forall ctx, octx = Some ctx ->
    readonly ctx = true /\ w_lock w' = LockSh /\
    (forall s2 u, bootinfo_update ctx s2 u = (-1, ctx, s2, u)) /\
    (forall s2 u, bootinfo_mark_successful ctx s2 u = (-1, None, ctx, s2, u)) /\
    (forall s2 u, bootinfo_mark_in_progress ctx s2 u = (-1, None, ctx, s2, u)) /\
    (forall nm val, bootinfo_bootvar_set ctx nm val = (-1, Some EROFS, ctx)).
Proof.
  intros Hro H. unfold bootinfo_open in H.
  destruct (Z.eqb_spec (Z.land oflags BOOTINFO_O_RDONLY) 0) as [E|_]; [contradiction|].
  cbn [negb andb] in H.
  destruct (Z.eqb_spec (Z.land oflags BOOTINFO_O_FORCE_INIT) 0) as [F|F];
    cbn [negb] in H.
  2:{ injection H as <- <- <- <-. splits; auto. intros ctx E. discriminate E. }
  destruct (respond s) as [r s1].
  destruct (r <? 0).
  { injection H as <- <- <- <-. splits; auto; try contradiction.
    intros ctx E. discriminate E. }
  destruct (find_bootinfo_frame cfg_ok true s1 w ret octx s' w' H)
    as (A & B & C & _).
  split; [splits; auto|]. split; [contradiction|].
  intros ctx ->.
  destruct (find_bootinfo_spec cfg_ok true s1 w ret ctx s' w' H)
    as (R & _ & _ & _ & _ & L & _).
  splits; auto; intros.
  - unfold bootinfo_update. now rewrite R.
  - unfold bootinfo_mark_successful. now rewrite R.
  - unfold bootinfo_mark_in_progress. now rewrite R.
  - unfold bootinfo_bootvar_set. now rewrite R.
Qed.

(** A write-mode bootinfo_open without force-init, in which no call fails,
    on a device with a valid slot: it returns 0 and writes nothing; the
    context is writable, holds the exclusive lock, and its current slot is a
    valid slot of the device whose bytes are in the buffer and whose header
    is [curinfo]. *)
Lemma open_write_props oflags s w ret octx s' w' :
  Z.land oflags BOOTINFO_O_RDONLY = 0 ->
  Z.land oflags BOOTINFO_O_FORCE_INIT = 0 ->
  cooperative s ->
  slot_valid (dev_slot w 0) || slot_valid (dev_slot w 1) = true ->
  bootinfo_open oflags s w = (ret, octx, s', w') ->
  ret = 0 /\ w_dev w' = w_dev w /\ w_trace w' = w_trace w /\
  w_lock w' = LockEx /\ cooperative s' /\
  exists ctx,
    octx = Some ctx /\ readonly ctx = false /\ ctx_ok ctx /\
    (current ctx = 0 \/ current ctx = 1) /\
    slot_valid (dev_slot w (current ctx)) = true /\
    infobuf ctx (current ctx) = dev_slot w (current ctx) /\
    curinfo ctx = info_of_bytes (dev_slot w (current ctx)).
Proof.
  intros Hro Hfi Hco Hval H.
  destruct (bootinfo_open_write oflags s w ret octx s' w' Hro H)
    as [(Hneg & _)|(_ & r0 & oc0 & s0 & w0 & Hf & Hcase)].
  { destruct (respond s) as [r s1] eqn:R. apply (respond_coop _ _ _ Hco) in R.
    cbn [fst] in Hneg. lia. }
  assert (Hco1 : cooperative (snd (respond s))).
  { destruct (respond s) as [r s1] eqn:R. apply (respond_coop _ _ _ Hco) in R.
    tauto. }
  destruct (find_bootinfo_frame cfg_ok false _ w r0 oc0 s0 w0 Hf)
    as (_ & _ & _ & _ & Hsome).
  destruct oc0 as [c0|]; [|exfalso; now apply (Hsome Hco1)].
  destruct (find_bootinfo_spec cfg_ok false _ w r0 c0 s0 w0 Hf)
    as (R & _ & _ & Wd & Wt & Wl & Ok & _ & _ & Co & Hres).
  destruct (Co Hco1) as (Cs & E0 & E1).
  assert (Hr0 : r0 = 0).
  { destruct Hres as [(_ & Z0 & Z1 & _)|(Hr & _)]; [|exact Hr].
    rewrite <- E0, <- E1, Z0, Z1 in Hval. discriminate Hval. }
  subst r0.
  destruct Hcase as [(c & Ec & _ & _ & -> & -> & -> & ->)|([E|[E|E]] & _)];
    try discriminate; try contradiction; try (now exfalso; apply E).
  injection Ec as <-.
  destruct (find_bootinfo_loaded false _ w c0 s0 w0 Hf) as (Hc & Hv & Hi & Hci & _).
  splits; auto. exists c0. splits; auto.
Qed.

(** X18.  show_bootinfo: whatever happens, nothing is written to the device.  When it
    exits with 0, what it prints is read off the header of a valid slot of
    the device: the version is 4 or more, the number of extension sectors is
    the configured one, and the in-progress indicator is 0 or 1. *)
Theorem show_bootinfo_reports s w rc out s' w' :
  show_bootinfo s w = (rc, out, s', w') ->
  (w_dev w' = w_dev w /\ w_trace w' = w_trace w) /\
  (rc = 0 ->
   exists c, (c = 0 \/ c = 1) /\ slot_valid (dev_slot w c) = true /\
     let h := info_of_bytes (dev_slot w c) in
     out = Some (devinfo_version h,
                 (if Z.land (flags h) 1 =? 0 then 0 else 1),
                 failed_boots h, EXTENSION_SECTOR_COUNT) /\
     DEVINFO_VERSION_CURRENT <= devinfo_version h).
Proof.
  unfold show_bootinfo. intros H.
  destruct (bootinfo_open BOOTINFO_O_RDONLY s w) as [[[r octx] s1] w1] eqn:Ho.
  assert (Hro : Z.land BOOTINFO_O_RDONLY BOOTINFO_O_RDONLY <> 0) by discriminate.
  destruct (open_rdonly_props _ s w r octx s1 w1 Hro Ho)
    as ((Wd & Wt & _) & _ & _).
  assert (Hcl : forall c, w_dev (bootinfo_close c w1) = w_dev w /\
                          w_trace (bootinfo_close c w1) = w_trace w).
  { intros c. rewrite bootinfo_close_dev. split; [exact Wd|].
    unfold bootinfo_close, close_bootinfo.
    destruct (negb (readonly c)), (lockfd c >=? 0); cbn [snd];
      unfold sys_close_lock; cbn [w_trace];
      try rewrite (proj2 (proj2 (proj2 (set_status_frame _ false w1)))); exact Wt. }
  unfold bootinfo_open in Ho. cbn [Z.land BOOTINFO_O_RDONLY BOOTINFO_O_FORCE_INIT
    Z.eqb negb andb Pos.land] in Ho.
  change (Z.land 1 1 =? 0) with false in Ho.
  change (Z.land 1 2 =? 0) with true in Ho. cbn [negb andb] in Ho.
  destruct (respond s) as [ra sa].
  destruct (ra <? 0).
  { injection Ho as <- <- <- <-. cbn in H. injection H as <- <- <- <-.
    split; [auto|discriminate]. }
  destruct (Z.ltb_spec r 0).
  { injection H as <- <- <- <-. split; [auto|discriminate]. }
  destruct octx as [ctx|].
  2:{ destruct (find_bootinfo_frame cfg_ok true sa w r None s1 w1 Ho)
        as (_ & _ & _ & Hn & _). specialize (Hn eq_refl). lia. }
  injection H as <- <- <- <-. split; [apply Hcl|]. intros _.
  destruct (find_bootinfo_spec cfg_ok true sa w r ctx s1 w1 Ho)
    as (_ & _ & _ & _ & _ & _ & _ & _ & _ & _ & Hres).
  assert (Hr : r = 0) by (destruct Hres as [(E & _)|(E & _)]; [lia|exact E]).
  subst r.
  destruct (find_bootinfo_loaded true sa w ctx s1 w1 Ho) as (Hc & Hv & _ & Hci & _).
  exists (current ctx). split; [exact Hc|]. split; [exact Hv|]. cbv zeta.
  destruct (slot_valid_fields _ Hv) as (_ & Hver & Hext & _).
  split; [|exact Hver].
  unfold bootinfo_devinfo_version, bootinfo_is_in_progress,
    bootinfo_failed_boot_count, bootinfo_extension_sectors.
  rewrite Hci, Hext. unfold FLAG_BOOT_IN_PROGRESS.
  destruct (Z.land (flags (info_of_bytes (dev_slot w (current ctx)))) 1 =? 0);
    reflexivity.
Qed.

End Loading.

(** ** What parse_vars reads *)

(** A scanning loop that stops short of [remain] inside the buffer has
    walked over a string and stopped on its NUL. *)
Lemma scan_split (l : list Z) : forall vb remain,
  scan l vb remain < remain -> scan l vb remain - vb < zlen l ->
  exists str rest, l = str ++ 0 :: rest /\ nonul str /\
                   zlen str = scan l vb remain - vb.
Proof.
  induction l as [|b l IH]; intros vb remain; cbn [scan].
  - unfold zlen; cbn. lia.
  - rewrite zlen_cons. destruct (Z.ltb_spec vb remain); cbn [andb]; [|lia].
    destruct (Z.eqb_spec b 0) as [->|Hb]; cbn [negb].
    + intros _ _. exists [], l. splits; auto.
      * intros [].
      * unfold zlen; cbn. lia.
    + intros H1 H2. destruct (scan_stop l (vb + 1) remain) as (S1 & _).
      destruct (IH (vb + 1) remain H1 ltac:(lia)) as (str & rest & -> & Hn & Hz).
      exists (b :: str), rest. splits; auto.
      * intros [E|E]; [congruence|now apply Hn].
      * rewrite zlen_cons. lia.
Qed.

Lemma skipn_byte (l : list Z) (k : Z) :
  0 <= k -> byte_at l k <> 0 ->
  skipn (Z.to_nat k) l = byte_at l k :: skipn (Z.to_nat (k + 1)) l.
Proof.
  intros Hk Hb. unfold byte_at in *.
  replace (Z.to_nat (k + 1)) with (S (Z.to_nat k)) by lia.
  generalize dependent (Z.to_nat k). clear k Hk.
  induction l as [|x l IH]; intros n Hb.
  - destruct n; cbn in Hb; congruence.
  - destruct n as [|n]; [reflexivity|]. cbn [skipn nth] in *. now apply IH.
Qed.

(** One variable, as the body of the loop of parse_vars reads it at [cp].
    When neither scanning loop runs into [remain], the buffer holds from [cp]
    on a name that is not empty, a NUL, a value and a NUL, and the two loops
    have counted them. *)
Lemma parse_one (buf : list Z) (cp remain : Z) :
  0 <= cp -> cp + remain <= zlen buf -> byte_at buf cp <> 0 ->
  let vb1 := scan (skipn (Z.to_nat (cp + 1)) buf) 1 remain in
  let vb2 := scan (skipn (Z.to_nat (cp + vb1 + 1)) buf) (vb1 + 1) remain in
  vb1 < remain -> vb2 < remain ->
  exists nm v rest,
    skipn (Z.to_nat cp) buf = nm ++ 0 :: v ++ 0 :: rest /\
    nm <> [] /\ nonul nm /\ nonul v /\
    zlen nm = vb1 /\ zlen v = vb2 - (vb1 + 1) /\
    skipn (Z.to_nat (cp + vb1 + 1)) buf = v ++ 0 :: rest /\
    skipn (Z.to_nat (cp + (vb2 + 1))) buf = rest.
Proof.
  intros Hcp Hlen Hb vb1 vb2 H1 H2.
  set (l1 := skipn (Z.to_nat (cp + 1)) buf) in *.
  set (l2 := skipn (Z.to_nat (cp + vb1 + 1)) buf) in *.
  assert (Ll1 : zlen l1 = zlen buf - (cp + 1)).
  { unfold l1, zlen in *. rewrite length_skipn.
    assert (byte_at buf cp = 0 \/ (Z.to_nat cp < length buf)%nat) as [E|E].
    { unfold byte_at. destruct (Nat.lt_ge_cases (Z.to_nat cp) (length buf)); auto.
      left. now apply nth_overflow. }
    - contradiction.
    - lia. }
  destruct (scan_stop l1 1 remain) as (A1 & A2 & _). fold vb1 in A1, A2.
  destruct (scan_split l1 1 remain H1 ltac:(fold vb1; lia))
    as (str1 & rest1 & E1 & N1 & Z1). fold vb1 in Z1.
  assert (E2 : l2 = rest1).
  { unfold l2. replace (cp + vb1 + 1) with (cp + 1 + zlen (str1 ++ [0]))
      by (rewrite zlen_app; change (zlen [0]) with 1; lia).
    apply skipn_past; [lia|]. fold l1. rewrite E1, <- app_assoc. reflexivity. }
  assert (Ll2 : zlen l2 = zlen buf - (cp + vb1 + 1)).
  { unfold l2, zlen in *. rewrite length_skipn. lia. }
  destruct (scan_stop l2 (vb1 + 1) remain) as (B1 & B2 & _). fold vb2 in B1, B2.
  destruct (scan_split l2 (vb1 + 1) remain H2 ltac:(fold vb2; lia))
    as (str2 & rest2 & E3 & N2 & Z2). fold vb2 in Z2.
  exists (byte_at buf cp :: str1), str2, rest2.
  assert (Esk : skipn (Z.to_nat cp) buf
                = (byte_at buf cp :: str1) ++ 0 :: str2 ++ 0 :: rest2).
  { rewrite (skipn_byte buf cp Hcp Hb). fold l1. rewrite E1, <- E2, E3. reflexivity. }
  splits; auto.
  - discriminate.
  - intros [E|E]; [congruence|now apply N1].
  - rewrite zlen_cons. lia.
  - replace (cp + (vb2 + 1))
      with (cp + zlen ((byte_at buf cp :: str1) ++ 0 :: str2 ++ [0])).
    + apply skipn_past; [lia|]. rewrite Esk, <- !app_assoc. cbn [app].
      rewrite <- app_assoc. reflexivity.
    + rewrite zlen_app, !zlen_cons, zlen_app, Z2, Z1. change (zlen [0]) with 1. lia.
Qed.

Section ParseBack.

Context {cfg : config}.

(** The variables the loop of parse_vars finds from [cp] on are laid out
    one after the other from [cp]: the buffer holds their packed form
    there, and [vsz] grows by its size. *)
Lemma parse_loop_consumed (cur : Z) (buf : list Z) :
  forall fuel cp remain vsz acc l vsz',
  0 <= cp -> cp + remain <= zlen buf ->
  parse_loop fuel buf cur cp remain vsz acc = (l, vsz') ->
  exists l2 strs rest,
    l = rev acc ++ l2 /\
    skipn (Z.to_nat cp) buf = serialize strs ++ rest /\
    vsz' = vsz + zlen (serialize strs) /\
    zlen (serialize strs) <= Z.max 0 remain /\
    Forall (fun nv => fst nv <> [] /\ nonul (fst nv) /\ nonul (snd nv)) strs /\
    (forall ctx, infobuf ctx cur = buf ->
                 map (fun v => (cstr ctx (name v), cstr ctx (value v))) l2 = strs) /\
    Forall (fun v => exists offn offv,
                name v = InInfobuf cur offn /\ value v = InInfobuf cur offv /\
                cp <= offn /\ offn < offv /\
                offv + zlen (strz (skipn (Z.to_nat offv) buf)) + 1
                <= cp + zlen (serialize strs)) l2.
Proof.
  induction fuel as [|fuel IH]; intros cp remain vsz acc l vsz' Hcp Hlen H;
    cbn [parse_loop] in H.
  all: assert (Stop : (l, vsz') = (rev acc, vsz) ->
         exists l2 strs rest,
           l = rev acc ++ l2 /\
           skipn (Z.to_nat cp) buf = serialize strs ++ rest /\
           vsz' = vsz + zlen (serialize strs) /\
           zlen (serialize strs) <= Z.max 0 remain /\
           Forall (fun nv => fst nv <> [] /\ nonul (fst nv) /\ nonul (snd nv)) strs /\
           (forall ctx, infobuf ctx cur = buf ->
              map (fun v => (cstr ctx (name v), cstr ctx (value v))) l2 = strs) /\
           Forall (fun v => exists offn offv,
                name v = InInfobuf cur offn /\ value v = InInfobuf cur offv /\
                cp <= offn /\ offn < offv /\
                offv + zlen (strz (skipn (Z.to_nat offv) buf)) + 1
                <= cp + zlen (serialize strs)) l2).
  1,3: intros E; injection E as -> ->; exists [], [], (skipn (Z.to_nat cp) buf);
       rewrite app_nil_r; cbn [serialize app map]; change (zlen []) with 0;
       splits; auto; lia.
  - apply Stop. now rewrite H.
  - destruct ((remain >? 0) && negb (byte_at buf cp =? 0)) eqn:Hgo;
      [|apply Stop; now rewrite H].
    apply andb_true_iff in Hgo. destruct Hgo as [Hrem Hb].
    rewrite Z.gtb_ltb in Hrem. apply Z.ltb_lt in Hrem.
    apply negb_true_iff, Z.eqb_neq in Hb.
    pose proof (parse_one buf cp remain Hcp Hlen Hb) as P1. cbv zeta in P1.
    set (vb1 := scan (skipn (Z.to_nat (cp + 1)) buf) 1 remain) in *.
    destruct (Z.geb_spec vb1 remain) as [|Hv1]; [apply Stop; now rewrite H|].
    set (vb2 := scan (skipn (Z.to_nat (cp + vb1 + 1)) buf) (vb1 + 1) remain) in *.
    destruct (Z.geb_spec vb2 remain) as [|Hv2]; [apply Stop; now rewrite H|].
    destruct (P1 Hv1 Hv2) as (nm & v & rest & Esk & Hne & Nn & Nv & Zn & Zv & Ev & Er).
    pose proof (zlen_nonneg nm). pose proof (zlen_nonneg v).
    apply IH in H; [|lia|lia].
    destruct H as (l2 & strs & rest' & -> & Esk' & -> & Hle & Hwf & Hstr & Hptr).
    exists (InfoVar (InInfobuf cur cp) (InInfobuf cur (cp + vb1 + 1)) :: l2),
           ((nm, v) :: strs), rest'.
    assert (Ztot : zlen (serialize ((nm, v) :: strs))
                   = vb2 + 1 + zlen (serialize strs)).
    { rewrite zlen_serialize_cons. lia. }
    split; [cbn [rev]; now rewrite <- app_assoc|].
    split.
    { rewrite Esk, serialize_cons. rewrite Er in Esk'. rewrite Esk'.
      rewrite <- !app_assoc. reflexivity. }
    split; [lia|]. split; [lia|]. split; [constructor; auto|]. split.
    { intros ctx Hbuf. cbn [map name value cstr]. rewrite (Hstr ctx Hbuf), Hbuf.
      rewrite Esk, Ev. rewrite (strz_app_nul nm _ Nn), (strz_app_nul v _ Nv).
      reflexivity. }
    constructor.
    + exists cp, (cp + vb1 + 1). cbn [name value]. splits; auto; try lia.
      rewrite Ev, (strz_app_nul v _ Nv).
      pose proof (zlen_nonneg (serialize strs)). lia.
    + eapply Forall_impl; [|exact Hptr]. intros x (on & ov & A & B & C & D & E).
      exists on, ov. splits; auto; lia.
Qed.

(** The loop ends by itself: fuel beyond [remain] changes nothing. *)
Lemma parse_loop_fuel (cur : Z) (buf : list Z) :
  forall fuel k cp remain vsz acc,
  remain <= Z.of_nat fuel ->
  parse_loop (fuel + k) buf cur cp remain vsz acc
  = parse_loop fuel buf cur cp remain vsz acc.
Proof.
  induction fuel as [|fuel IH]; intros k cp remain vsz acc Hf.
  - destruct k as [|k]; [reflexivity|]. cbn [Nat.add parse_loop].
    destruct (Z.gtb_spec remain 0); [lia|reflexivity].
  - cbn [Nat.add parse_loop].
    destruct ((remain >? 0) && negb (byte_at buf cp =? 0)); [|reflexivity].
    set (vb1 := scan (skipn (Z.to_nat (cp + 1)) buf) 1 remain).
    destruct (vb1 >=? remain); [reflexivity|].
    set (vb2 := scan (skipn (Z.to_nat (cp + vb1 + 1)) buf) (vb1 + 1) remain).
    destruct (vb2 >=? remain); [reflexivity|].
    apply IH.
    pose proof (proj1 (scan_stop (skipn (Z.to_nat (cp + 1)) buf) 1 remain)).
    pose proof (proj1 (scan_stop (skipn (Z.to_nat (cp + vb1 + 1)) buf) (vb1 + 1) remain)).
    fold vb1 in H. fold vb2 in H0. lia.
Qed.

End ParseBack.

(** ** parse_vars on a loaded slot *)

Section ParseVars.

Context {cfg : config}.
Hypothesis cfg_ok : config_ok cfg.

Lemma firstn_app_exact (a b : list Z) : firstn (length a) (a ++ b) = a.
Proof.
  rewrite firstn_app, Nat.sub_diag, firstn_all. cbn [firstn]. apply app_nil_r.
Qed.

(** X11.  parse_vars on the buffer of the current slot, whatever bytes it holds.
    It returns 0; the variables it finds are packed one after the other from
    the end of the header on, so that packing them again gives back the bytes
    it has read; [varsize] is the size of that packed form and is within the
    variable area; every name is a string that is not empty; and every
    string it points at ends, terminator included, before the trailing
    checksum. *)
Theorem parse_vars_reads_back ctx :
  current ctx = 0 \/ current ctx = 1 ->
  zlen (infobuf ctx (current ctx)) = INFOBUF_SIZE ->
  let ctx' := snd (parse_vars ctx) in
  fst (parse_vars ctx) = 0 /\
  sub (infobuf ctx (current ctx)) DEVINFO_HDR_SIZE (varsize ctx')
  = serialize (var_strings ctx') /\
  varsize ctx' = zlen (serialize (var_strings ctx')) /\
  varsize ctx' <= VARSPACE_SIZE /\
  Forall (fun nv => fst nv <> [] /\ nonul (fst nv) /\ nonul (snd nv))
         (var_strings ctx') /\
  Forall (fun v => exists offn offv,
              name v = InInfobuf (current ctx) offn /\
              value v = InInfobuf (current ctx) offv /\
              DEVINFO_HDR_SIZE <= offn /\ offn < offv /\
              offv + strlen ctx' (value v) + 1 <= INFOBUF_SIZE - 4)
         (vars ctx').
Proof.
  intros Hc Hl. pose proof ext_size_pos cfg_ok as HE.
  assert (HS : INFOBUF_SIZE = 512 + EXTENSION_SIZE) by reflexivity.
  assert (HV : VARSPACE_SIZE = INFOBUF_SIZE - 24) by reflexivity.
  destruct (parse_vars_spec ctx Hc Hl) as (l & vsz & Hp & Hloop & _).
  rewrite Hp. cbn [fst snd]. symmetry in Hloop.
  apply parse_loop_consumed in Hloop; unfold DEVINFO_HDR_SIZE in *; try lia.
  destruct Hloop as (l2 & strs & rest & El & Esk & Ev & Hle & Hwf & Hstr & Hptr).
  cbn [rev app] in El. subst l2.
  assert (Es : var_strings (set_vars ctx l vsz) = strs).
  { rewrite var_strings_set_vars. apply Hstr. reflexivity. }
  rewrite Es. cbn [varsize set_vars vars]. cbn [Z.add] in Ev. subst vsz.
  splits; auto; try lia.
  - unfold sub, zlen. rewrite Nat2Z.id. change (Z.to_nat 20) with 20%nat in *.
    rewrite Esk. apply firstn_app_exact.
  - eapply Forall_impl; [|exact Hptr].
    intros v (on & ov & A & B & C & D & E). exists on, ov.
    splits; auto. unfold strlen. rewrite B. cbn [cstr].
    replace (infobuf (set_vars ctx l (zlen (serialize strs))) (current ctx))
      with (infobuf ctx (current ctx)) by reflexivity.
    lia.
Qed.

(** The names of a context that find_bootinfo has loaded are not empty, and
    [varsize] is the packed size of its variables. *)
Lemma find_bootinfo_names rdonly s w r ctx s' w' :
  find_bootinfo rdonly s w = (r, Some ctx, s', w') ->
  Forall (fun v => cstr ctx (name v) <> []) (vars ctx) /\
  varsize ctx = zlen (serialize (var_strings ctx)) /\
  varsize ctx <= VARSPACE_SIZE.
Proof.
  intros H. pose proof ext_size_pos cfg_ok as HE.
  assert (HS : INFOBUF_SIZE = 512 + EXTENSION_SIZE) by reflexivity.
  assert (HV : VARSPACE_SIZE = INFOBUF_SIZE - 24) by reflexivity.
  destruct (find_bootinfo_spec cfg_ok rdonly s w r ctx s' w' H)
    as (_ & _ & _ & _ & _ & _ & Ok & _ & _ & _ & Hres).
  destruct Hres as [(_ & _ & _ & _ & _ & Ev & Es)|(_ & _ & Hc & _ & Hp)].
  - unfold var_strings. rewrite Ev, Es. cbn. splits; [constructor|reflexivity|lia].
  - assert (Hc' : current ctx = 0 \/ current ctx = 1).
    { rewrite Hc. apply choose_current_cases. }
    symmetry in Hp. apply parse_loop_consumed in Hp;
      unfold DEVINFO_HDR_SIZE in *; try lia.
    2:{ rewrite (infobuf_sized ctx _ Ok). lia. }
    destruct Hp as (l2 & strs & rest & El & _ & Ev & Hle & Hwf & Hstr & _).
    cbn [rev app] in El. subst l2. specialize (Hstr ctx eq_refl).
    fold (var_strings ctx) in Hstr. rewrite Hstr. cbn [Z.add] in Ev.
    splits; auto; try lia.
    rewrite <- Hstr in Hwf. unfold var_strings in Hwf.
    rewrite Forall_map in Hwf. eapply Forall_impl; [|exact Hwf].
    cbn [fst]. tauto.
Qed.

End ParseVars.

(** ** What is persisted is what is loaded *)

Section Persist.

Context {cfg : config}.
Hypothesis cfg_ok : config_ok cfg.

(** The choice between two valid slots whose serial numbers are [n] and the
    next one. *)
Lemma choose_next (ctx : devinfo_context) (c n : Z) :
  c = 0 \/ c = 1 -> 0 <= n < 256 ->
  valid0 ctx = true -> valid1 ctx = true ->
  sernum (info_of_bytes (infobuf ctx c)) = n ->
  sernum (info_of_bytes (infobuf ctx (1 - c))) = (n + 1) mod 256 ->
  choose_current ctx = 1 - c.
Proof.
  intros Hc Hn V0 V1 Sc Sd. unfold choose_current. rewrite V0, V1. cbn [andb negb].
  assert (Hm : (n + 1) mod 256 = if n =? 255 then 0 else n + 1).
  { destruct (Z.eqb_spec n 255) as [->|]; [reflexivity|]. apply Z.mod_small. lia. }
  rewrite Hm in Sd.
  destruct Hc as [-> | ->]; change (1 - 0) with 1 in *; change (1 - 1) with 0 in *;
    rewrite Sc, Sd.
  - destruct (Z.eqb_spec n 255) as [->|]; [reflexivity|].
    destruct (Z.eqb_spec (n + 1) 0); [lia|]. cbn [andb].
    destruct (Z.eqb_spec (n + 1) 255), (Z.eqb_spec n 0); cbn [andb]; try lia;
      rewrite Z.gtb_ltb; destruct (Z.ltb_spec n (n + 1)); lia.
  - destruct (Z.eqb_spec n 255) as [->|]; [reflexivity|].
    destruct (Z.eqb_spec (n + 1) 255), (Z.eqb_spec n 0); cbn [andb]; try lia;
      destruct (Z.eqb_spec (n + 1) 0); cbn [andb]; try lia;
      rewrite Z.gtb_ltb; destruct (Z.ltb_spec (n + 1) n); lia.
Qed.

(** A successful bootinfo_update followed by a load.  For a context in step
    with the device whose names are not empty: when the store is loaded from
    the device as the update left it, and no call fails, the load returns 0,
    its current slot is the slot the update wrote, and it finds the
    variables of the context, names and values in their order, its flags and
    failed_boots, and the next serial number. *)
Lemma update_load_props ctx s w ctx' s' w' :
  ctx_ok ctx -> Forall (fun v => cstr ctx (name v) <> []) (vars ctx) ->
  in_step ctx w ->
  bootinfo_update ctx s w = (0, ctx', s', w') ->
  forall rdonly s2 w2 r ctx2 s2' w2',
    w_dev w2 = w_dev w' -> cooperative s2 ->
    find_bootinfo rdonly s2 w2 = (r, Some ctx2, s2', w2') ->
    r = 0 /\ current ctx2 = dest_slot ctx /\
    var_strings ctx2 = var_strings ctx /\
    flags (curinfo ctx2) = flags (curinfo ctx) /\
    failed_boots (curinfo ctx2) = failed_boots (curinfo ctx) /\
    sernum (curinfo ctx2) = (sernum (curinfo ctx) + 1) mod 256 /\
    varsize ctx2 = zlen (serialize (var_strings ctx)).
Proof.
  intros Hok Hnames (Hrange & Hstep) Hu rdonly s2 w2 r ctx2 s2' w2' Hdev Hco Hf.
  pose proof ext_size_pos cfg_ok as HE.
  assert (HS : INFOBUF_SIZE = 512 + EXTENSION_SIZE) by reflexivity.
  assert (HV : VARSPACE_SIZE = INFOBUF_SIZE - 24) by reflexivity.
  set (d := dest_slot ctx) in *.
  destruct (dest_slot_cases ctx) as (Hd & D0 & D1 & D2). fold d in Hd, D0, D1, D2.
  destruct (update_other_slot_props cfg_ok ctx s w ctx' s' w' Hok Hu)
    as (_ & Hout & Hhdr & _). fold d in Hout, Hhdr.
  destruct (update_crc_props cfg_ok ctx s w ctx' s' w' Hok Hu) as ((_ & _ & Hvd) & _).
  fold d in Hvd.
  destruct (bootinfo_update_device cfg_ok ctx s w ctx' s' w' Hok Hu)
    as (pk & Zpk & _ & Hge & Hsnd & _ & Hdevd & _). fold d in Hge, Hsnd, Hdevd.
  cbv zeta in Hhdr. destruct Hhdr as (_ & _ & _ & Hfl & Hfb & Hsn).
  (* the packed variables in the slot *)
  destruct (pack_vars_packs cfg_ok ctx Hok) as [Pa Pb]. fold d in Pa, Pb.
  assert (Hfit : zlen (serialize (var_strings ctx)) + 2 <= VARSPACE_SIZE).
  { destruct (Z.le_gt_cases (zlen (serialize (var_strings ctx)) + 2) VARSPACE_SIZE);
      auto. rewrite Pb in Hge by lia. lia. }
  destruct (Pa Hfit) as (pk' & rest & Hp & _ & Hsk).
  rewrite Hp in Hsnd. cbn [snd] in Hsnd.
  assert (pk' = pk).
  { apply (f_equal (fun c => infobuf c d)) in Hsnd.
    now rewrite !infobuf_set_same in Hsnd. }
  subst pk'.
  destruct (skipn20_store_crcs cfg_ok pk _ rest Zpk Hsk Hfit) as [rest' Hsk'].
  (* the other slot is as it was *)
  assert (Hother : dev_slot w' (1 - d) = dev_slot w (1 - d)).
  { apply dev_slot_frame; auto. intros o Ho. apply Hout. intros Hin.
    revert Ho. apply (slots_disjoint cfg_ok d (1 - d)); auto.
    destruct Hd as [-> | ->]; discriminate. }
  (* the load *)
  destruct (find_bootinfo_spec cfg_ok rdonly s2 w2 r ctx2 s2' w2' Hf)
    as (_ & _ & _ & _ & _ & _ & _ & V0 & V1 & Co & Hres).
  destruct (Co Hco) as (_ & E0 & E1).
  rewrite (dev_slot_same_dev w2 w' 0 Hdev) in E0, V0.
  rewrite (dev_slot_same_dev w2 w' 1 Hdev) in E1, V1.
  assert (Hvalid_d : (if d =? 0 then valid0 ctx2 else valid1 ctx2) = true).
  { destruct Hd as [E|E]; rewrite E in *; cbn [Z.eqb]; congruence. }
  assert (Hr : r = 0 /\ current ctx2 = choose_current ctx2).
  { destruct Hres as [(_ & Z0 & Z1 & _)|(Hr & _ & Hc & _)]; [|auto].
    destruct Hd as [E|E]; rewrite E in Hvalid_d; cbn [Z.eqb] in Hvalid_d; congruence. }
  destruct Hr as [-> Hch].
  destruct (find_bootinfo_loaded cfg_ok rdonly s2 w2 ctx2 s2' w2' Hf)
    as (_ & _ & _ & Hci & Hparse).
  rewrite !(dev_slot_same_dev w2 w' _ Hdev) in Hci, Hparse.
  assert (Hcur : current ctx2 = d).
  { rewrite Hch. destruct Hstep as [(Hc & Hval & Hser)|(Hc & Hinv)].
    - assert (Ed : d = 1 - current ctx).
      { destruct Hc as [E|E]; rewrite E; [rewrite (D0 E)|rewrite (D1 E)]; reflexivity. }
      assert (Ec : current ctx = 1 - d) by lia.
      rewrite <- Ec in Hother.
      assert (Both : valid0 ctx2 = true /\ valid1 ctx2 = true).
      { destruct Hc as [E|E]; rewrite E in Hother, Hval, Ed;
          change (1 - 0) with 1 in Ed; change (1 - 1) with 0 in Ed;
          rewrite Ed in Hvd; rewrite E0, E1, Hvd, Hother, Hval; auto. }
      destruct Both as [B0 B1].
      destruct (V0 B0) as [_ I0]. destruct (V1 B1) as [_ I1].
      rewrite Ed. apply (choose_next ctx2 (current ctx) (sernum (curinfo ctx)));
        auto.
      + destruct Hc as [E|E]; rewrite E in *; [rewrite I0|rewrite I1];
          rewrite Hother; exact Hser.
      + rewrite <- Ed.
        destruct Hd as [E|E]; rewrite E in *; [rewrite I0|rewrite I1]; exact Hsn.
    - assert (Ed : d = 0) by (apply D2; exact Hc).
      rewrite Ed in *. change (1 - 0) with 1 in Hother.
      unfold choose_current. rewrite E0, E1, Hvd, Hother, Hinv. reflexivity. }
  rewrite Hcur in Hci, Hparse. rewrite Hdevd in Hci, Hparse.
  pose proof (length_le_serialize (var_strings ctx)).
  destruct (parse_loop_serialized d (store_crcs pk) (var_strings ctx)
              (Z.to_nat (INFOBUF_SIZE - (DEVINFO_HDR_SIZE + 4))) DEVINFO_HDR_SIZE
              (INFOBUF_SIZE - (DEVINFO_HDR_SIZE + 4)) 0 [] rest')
    as (l & Hl & Hm); unfold DEVINFO_HDR_SIZE in *; try lia.
  { apply var_strings_wf. exact Hnames. }
  { exact Hsk'. }
  rewrite Hl in Hparse. cbn [rev app Z.add] in Hparse. injection Hparse as Hv Hvs.
  assert (Hbuf : infobuf ctx2 d = store_crcs pk).
  { destruct (find_bootinfo_loaded cfg_ok rdonly s2 w2 ctx2 s2' w2' Hf)
      as (_ & _ & Hi & _). rewrite Hcur, (dev_slot_same_dev w2 w' _ Hdev) in Hi.
    rewrite Hi. exact Hdevd. }
  splits; auto.
  - unfold var_strings at 1. rewrite Hv. apply Hm. exact Hbuf.
  - rewrite Hci, <- Hdevd. exact Hfl.
  - rewrite Hci, <- Hdevd. exact Hfb.
  - rewrite Hci, <- Hdevd. exact Hsn.
Qed.

End Persist.

(** ** bootinfo_update when no call fails *)

Section Cooperative.

Context {cfg : config}.
Hypothesis cfg_ok : config_ok cfg.

Lemma write_slot_coop (i : Z) (buf : list Z) s w ok s' w' :
  cooperative s -> write_slot i buf s w = (ok, s', w') ->
  ok = true /\ cooperative s'.
Proof.
  intros C H. unfold write_slot in H. pose proof ext_size_pos cfg_ok as HE.
  destruct (respond s) as [r1 s1] eqn:R1.
  apply (respond_coop _ _ _ C) in R1. destruct R1 as [G1 C1].
  destruct (Z.ltb_spec r1 0); [lia|].
  destruct (write_loop s1 _ buf 0 0 DEVINFO_BLOCK_SIZE) as [[n1 s2] w2] eqn:L1.
  apply (write_loop_coop _ _ _ _ _ _ _ _ _ C1) in L1;
    [|unfold DEVINFO_BLOCK_SIZE; lia].
  destruct L1 as [-> C2]. rewrite Z.ltb_irrefl in H.
  destruct (respond s2) as [r2 s3] eqn:R2.
  apply (respond_coop _ _ _ C2) in R2. destruct R2 as [G2 C3].
  destruct (Z.ltb_spec r2 0); [lia|].
  destruct (write_loop s3 _ buf DEVINFO_BLOCK_SIZE 0 EXTENSION_SIZE)
    as [[n2 s4] w4] eqn:L2.
  apply (write_loop_coop _ _ _ _ _ _ _ _ _ C3) in L2; [|lia].
  destruct L2 as [-> C4]. rewrite Z.ltb_irrefl in H.
  injection H as <- <- <-. auto.
Qed.

(** When no call fails, bootinfo_update returns 0 exactly when the context is
    writable and its variables fit, that is when their packed size and two
    more bytes are within the variable area; and when it fails it has not
    touched the device. *)
Lemma update_fits_props ctx s w ret ctx' s' w' :
  ctx_ok ctx -> cooperative s ->
  bootinfo_update ctx s w = (ret, ctx', s', w') ->
  (ret = 0 <-> readonly ctx = false /\ fits ctx) /\
  (ret <> 0 -> ret = -1 /\ s' = s /\ w' = w) /\
  cooperative s'.
Proof.
  intros Hok C H. unfold fits.
  destruct (readonly ctx) eqn:Hro.
  { unfold bootinfo_update in H. rewrite Hro in H. injection H as <- <- <- <-.
    splits; auto; try discriminate.
    split; [discriminate|]. intros [E _]. discriminate E. }
  destruct (bootinfo_update_inv cfg_ok ctx s w ret ctx' s' w' Hok Hro H)
    as (r & pk & Hp & Zpk & _ & Hcase).
  destruct (pack_vars_packs cfg_ok ctx Hok) as [Pa Pb].
  destruct (Z.le_gt_cases (zlen (serialize (var_strings ctx)) + 2) VARSPACE_SIZE)
    as [Hfit|Hbig].
  - destruct (Pa Hfit) as (pk' & rest & Hp' & _). rewrite Hp in Hp'.
    injection Hp' as -> _.
    destruct Hcase as [(Hneg & _)|(_ & _ & ok & Hw & ->)]; [lia|].
    apply (write_slot_coop _ _ _ _ _ _ _ C) in Hw. destruct Hw as [-> C'].
    splits; auto; try tauto; try congruence.
  - specialize (Pb ltac:(lia)). rewrite Hp in Pb. cbn [fst] in Pb. subst r.
    destruct Hcase as [(_ & -> & _ & -> & ->)|(Hge & _)]; [|lia].
    splits; auto; try discriminate.
    split; [discriminate|]. intros [_ E]. lia.
Qed.

(** A context in step with the device stays in step through a
    bootinfo_update, whatever it returns. *)
Lemma in_step_update ctx s w ret ctx' s' w' :
  ctx_ok ctx -> in_step ctx w ->
  bootinfo_update ctx s w = (ret, ctx', s', w') ->
  in_step ctx' w'.
Proof.
  intros Hok (Hrange & Hstep) H.
  destruct (update_frame_props cfg_ok ctx s w ret ctx' s' w' H)
    as ((_ & _ & _ & _ & _ & Fc & Fi & _) & _ & _ & _).
  destruct (bootinfo_update_world cfg_ok ctx s w ret ctx' s' w' Hok H)
    as (_ & _ & Hout).
  destruct (dest_slot_cases ctx) as (Hd & D0 & D1 & D2).
  assert (Hkeep : forall i, (i =? 0) <> (dest_slot ctx =? 0) ->
                            dev_slot w' i = dev_slot w i).
  { intros i Hi. apply dev_slot_frame; auto. intros o Ho. apply Hout. intros Hin.
    revert Ho. apply (slots_disjoint cfg_ok (dest_slot ctx) i); auto. }
  unfold in_step. rewrite Fc, Fi. split; [exact Hrange|].
  destruct Hstep as [(Hc & Hv & Hs)|(Hc & Hv)]; [left|right].
  - rewrite Hkeep; auto.
    destruct Hc as [E|E]; rewrite E; [rewrite (D0 E)|rewrite (D1 E)]; discriminate.
  - rewrite Hkeep; auto. rewrite (D2 Hc). discriminate.
Qed.

(** A successful bootinfo_update keeps the serial-number bytes of the device
    bytes. *)
Lemma byte_serials_update ctx s w ctx' s' w' :
  ctx_ok ctx -> byte_serials w ->
  bootinfo_update ctx s w = (0, ctx', s', w') ->
  byte_serials w'.
Proof.
  intros Hok Hb H i.
  destruct (update_other_slot_props cfg_ok ctx s w ctx' s' w' Hok H)
    as (_ & Hout & Hhdr & _).
  cbv zeta in Hhdr. destruct Hhdr as (_ & _ & _ & _ & _ & Hsn).
  destruct (dest_slot_cases ctx) as (Hd & _).
  destruct (Bool.bool_dec (i =? 0) (dest_slot ctx =? 0)) as [E|E].
  - assert (Ei : dev_slot w' i = dev_slot w' (dest_slot ctx)).
    { unfold dev_slot, devinfo_offset. now rewrite E. }
    rewrite Ei, Hsn. apply Z.mod_pos_bound. lia.
  - replace (dev_slot w' i) with (dev_slot w i); [apply Hb|].
    symmetry. apply dev_slot_frame; auto. intros o Ho. apply Hout. intros Hin.
    revert Ho. apply (slots_disjoint cfg_ok (dest_slot ctx) i); auto.
Qed.

End Cooperative.

(** ** A write session when no call fails *)

Section WriteSession.

Context {cfg : config}.
Hypothesis cfg_ok : config_ok cfg.

(** The initialization code when no call fails: both slots are zero-filled
    and the fresh context is handed to bootinfo_update, whose result is the
    result. *)
Lemma reinitialize_coop octx s w ret octx' s' w' :
  cooperative s ->
  reinitialize octx s w = (ret, octx', s', w') ->
  exists dfd s3 w3 ctx',
    octx' = Some ctx' /\ cooperative s3 /\
    bootinfo_update (fresh_context octx dfd) s3 w3 = (ret, ctx', s', w') /\
    dev_slot w3 1 = zeros INFOBUF_SIZE.
Proof.
  intros C H. unfold reinitialize in H.
  set (pl := match octx with Some c => preserve c (vars c) | None => [] end).
  set (lk := match octx with Some c => lockfd c | None => -1 end).
  set (wc := match octx with
             | Some c => if negb (readonly c)
                         then snd (set_bootdev_writeable_status (devinfo_dev c) false w)
                         else w
             | None => w end).
  assert (E0 : (let '(preserve_list, lkfd, w0) :=
                  match octx with
                  | Some ctx => let pl := preserve ctx (vars ctx) in
                                let '(lkfd, w0) := close_bootinfo ctx true w in (pl, lkfd, w0)
                  | None => ([], -1, w)
                  end in (preserve_list, lkfd, w0)) = (pl, lk, wc)).
  { destruct octx; reflexivity. }
  destruct (match octx with
            | Some ctx => let pl := preserve ctx (vars ctx) in
                          let '(lkfd, w0) := close_bootinfo ctx true w in (pl, lkfd, w0)
            | None => ([], -1, w)
            end) as [[pl' lk'] wc'].
  injection E0 as -> -> ->.
  destruct (set_bootdev_writeable_status BOOTINFO_STORAGE_DEVICE true wc)
    as [reset wg] eqn:Eg.
  destruct (respond s) as [dfd s1] eqn:R1.
  apply (respond_coop _ _ _ C) in R1. destruct R1 as [G1 C1].
  destruct (Z.ltb_spec dfd 0); [lia|].
  pose proof (zlen_zero_buf cfg_ok) as Zz.
  change (DEVINFO_BLOCK_SIZE + EXTENSION_SIZE) with INFOBUF_SIZE in H.
  destruct (write_slot 0 (zeros INFOBUF_SIZE) s1 (sys_open_dev wg)) as [[ok0 s2] w1] eqn:W0.
  destruct (write_slot_coop cfg_ok _ _ _ _ _ _ _ C1 W0) as [-> C2].
  destruct (write_slot 1 (zeros INFOBUF_SIZE) s2 w1) as [[ok1 s3] w2] eqn:W1.
  destruct (write_slot_coop cfg_ok _ _ _ _ _ _ _ C2 W1) as [-> C3].
  destruct (write_slot_spec cfg_ok 1 _ _ _ _ _ _ Zz W1) as (_ & B2 & _).
  cbn [negb] in H.
  change (set_vars (set_current (set_fds ctx_zero dfd lk) (-1) info_zero) pl 0)
    with (fresh_context octx dfd) in H.
  destruct (bootinfo_update (fresh_context octx dfd) s3 w2) as [[[r c] s4] w3] eqn:U.
  injection H as <- <- <- <-.
  exists dfd, s3, w2, c. splits; auto.
  apply dev_slot_eq; auto.
Qed.

Lemma names_of_strings ctx :
  Forall (fun nv => fst nv <> []) (var_strings ctx) ->
  Forall (fun v => cstr ctx (name v) <> []) (vars ctx).
Proof.
  unfold var_strings. rewrite Forall_map. intros H.
  eapply Forall_impl; [|exact H]. cbn [fst]. auto.
Qed.

Lemma strings_of_names ctx :
  Forall (fun v => cstr ctx (name v) <> []) (vars ctx) ->
  Forall (fun nv => fst nv <> []) (var_strings ctx).
Proof.
  unfold var_strings. rewrite Forall_map. intros H.
  eapply Forall_impl; [|exact H]. cbn [fst]. auto.
Qed.

Lemma fresh_context_names octx dfd :
  Forall (fun v => cstr (fresh_context octx dfd) (name v) <> [])
         (vars (fresh_context octx dfd)).
Proof.
  apply names_of_strings.
  assert (E : var_strings (fresh_context octx dfd)
              = filter underscore (match octx with
                                   | Some c => var_strings c
                                   | None => []
                                   end)).
  { unfold var_strings, fresh_context. cbn [vars set_vars].
    destruct octx as [c|]; [|reflexivity]. apply preserve_strings. }
  rewrite E. eapply Forall_impl; [|apply filter_underscore_names]. auto.
Qed.

(** What a write-mode bootinfo_open hands over when no call fails and it
    returns 0. *)
Lemma open_session oflags s w octx s' w' :
  Z.land oflags BOOTINFO_O_RDONLY = 0 -> cooperative s -> byte_serials w ->
  bootinfo_open oflags s w = (0, octx, s', w') ->
  cooperative s' /\
  exists ctx, octx = Some ctx /\ session_ok ctx w'.
Proof.
  intros Hro C Hb H.
  destruct (bootinfo_open_write oflags s w 0 octx s' w' Hro H)
    as [(_ & E & _)|(_ & r0 & oc0 & s0 & w0 & Hf & Hcase)]; [discriminate E|].
  assert (C1 : cooperative (snd (respond s))).
  { destruct (respond s) as [r s1] eqn:R. apply (respond_coop _ _ _ C) in R. tauto. }
  destruct (find_bootinfo_frame cfg_ok false _ w r0 oc0 s0 w0 Hf)
    as (Wd & _ & _ & _ & Hsome).
  destruct oc0 as [c0|]; [|exfalso; now apply (Hsome C1)].
  destruct (find_bootinfo_spec cfg_ok false _ w r0 c0 s0 w0 Hf)
    as (R & _ & _ & _ & _ & _ & Ok & _ & _ & Co & _).
  destruct (Co C1) as (C0 & _).
  assert (Hb0 : byte_serials w0).
  { intros i. rewrite (dev_slot_same_dev w0 w i Wd). apply Hb. }
  destruct Hcase as [(c & Ec & -> & _ & _ & -> & -> & ->)|(_ & Hre)].
  - injection Ec as <-. split; [exact C0|]. exists c0. split; [reflexivity|].
    destruct (find_bootinfo_loaded cfg_ok false _ w c0 s0 w0 Hf)
      as (Hc & Hv & _ & Hci & _).
    destruct (find_bootinfo_names cfg_ok false _ w 0 c0 s0 w0 Hf) as (Hn & _).
    unfold session_ok, in_step. splits; auto.
    + rewrite Hci. apply Hb.
    + rewrite Hci. apply Hb.
    + left. rewrite !(dev_slot_same_dev w0 w _ Wd). rewrite Hci. auto.
  - destruct (reinitialize_coop (Some c0) s0 w0 0 octx s' w' C0 Hre)
      as (dfd & s3 & w3 & ctx' & -> & C3 & Hu & Hz).
    pose proof (fresh_context_ok cfg_ok (Some c0) dfd) as Fok.
    destruct (update_fits_props cfg_ok _ _ _ _ _ _ _ Fok C3 Hu) as (_ & _ & C').
    split; [exact C'|]. exists ctx'. split; [reflexivity|].
    destruct (update_frame_props cfg_ok _ _ _ _ _ _ _ Hu)
      as ((_ & _ & Fr & _ & _ & Fc & Fi & Fv & _) & _ & _ & Fk).
    destruct (Fk Fok) as (Ok' & Fs & _).
    assert (Hin : in_step (fresh_context (Some c0) dfd) w3).
    { unfold in_step. split; [cbn; lia|]. right. split; [left; cbn; lia|].
      rewrite Hz. apply (slot_valid_zeros cfg_ok). }
    assert (S1 : readonly ctx' = false) by (rewrite Fr; reflexivity).
    assert (S3 : Forall (fun v => cstr ctx' (name v) <> []) (vars ctx')).
    { apply names_of_strings. rewrite Fs. apply strings_of_names.
      apply fresh_context_names. }
    assert (S4 : in_step ctx' w')
      by exact (in_step_update cfg_ok _ _ _ _ _ _ _ Fok Hin Hu).
    assert (S5 : byte_serials w').
    { intros i.
      destruct (update_other_slot_props cfg_ok _ _ _ _ _ _ Fok Hu)
        as (_ & Hout & Hhdr & _).
      cbv zeta in Hhdr. destruct Hhdr as (_ & _ & _ & _ & _ & Hsn).
      change (dest_slot (fresh_context (Some c0) dfd)) with 0 in Hout, Hsn.
      destruct (Z.eqb_spec i 0) as [->|Hi].
      - rewrite Hsn. apply Z.mod_pos_bound. lia.
      - assert (Ei : dev_slot w' i = dev_slot w3 1).
        { transitivity (dev_slot w' 1).
          - unfold dev_slot, devinfo_offset.
            destruct (Z.eqb_spec i 0); [contradiction|reflexivity].
          - apply dev_slot_frame; auto. intros o Ho. apply Hout. intros Hin0.
            revert Ho. apply (slots_disjoint cfg_ok 0 1); auto. discriminate. }
        rewrite Ei, Hz.
        pose proof ext_size_pos cfg_ok as HE.
        assert (E16 : sernum (info_of_bytes (zeros INFOBUF_SIZE)) = 0).
        { unfold info_of_bytes, sernum, byte_at, zeros, OFF_SERNUM.
          apply nth_repeat. }
        rewrite E16. lia. }
    unfold session_ok. split; [exact S1|]. split; [exact Ok'|].
    split; [exact S3|]. split; [exact S4|exact S5].
Qed.

End WriteSession.

(** ** The steps of a write session *)

Section Steps.

Context {cfg : config}.
Hypothesis cfg_ok : config_ok cfg.

(** Two loads of the same device bytes, in which no call fails, find the
    same store. *)
Lemma load_same ra sa wa r1 c1 sa' wa' rb sb wb r2 c2 sb' wb' :
  cooperative sa -> cooperative sb -> w_dev wa = w_dev wb ->
  find_bootinfo ra sa wa = (r1, Some c1, sa', wa') ->
  find_bootinfo rb sb wb = (r2, Some c2, sb', wb') ->
  r1 = r2 /\ current c1 = current c2 /\ curinfo c1 = curinfo c2 /\
  var_strings c1 = var_strings c2.
Proof.
  intros Ca Cb Hdev Ha Hb.
  destruct (find_bootinfo_spec cfg_ok ra sa wa r1 c1 sa' wa' Ha)
    as (_ & _ & _ & _ & _ & _ & _ & Va0 & Va1 & Coa & Hra).
  destruct (find_bootinfo_spec cfg_ok rb sb wb r2 c2 sb' wb' Hb)
    as (_ & _ & _ & _ & _ & _ & Ok2 & Vb0 & Vb1 & Cob & Hrb).
  destruct (Coa Ca) as (_ & Ea0 & Ea1). destruct (Cob Cb) as (_ & Eb0 & Eb1).
  rewrite (dev_slot_same_dev wa wb 0 Hdev) in Ea0, Va0.
  rewrite (dev_slot_same_dev wa wb 1 Hdev) in Ea1, Va1.
  assert (F0 : valid0 c1 = valid0 c2) by congruence.
  assert (F1 : valid1 c1 = valid1 c2) by congruence.
  destruct Hra as [(-> & Za0 & Za1 & Ca1 & Ia & Xa & _)|(-> & Hva & _)];
    destruct Hrb as [(-> & Zb0 & Zb1 & Cb1 & Ib & Xb & _)|(-> & Hvb & _)].
  - unfold var_strings. rewrite Xa, Xb. splits; try congruence; reflexivity.
  - rewrite <- F0, <- F1, Za0, Za1 in Hvb. discriminate Hvb.
  - rewrite F0, F1, Zb0, Zb1 in Hva. discriminate Hva.
  - destruct (find_bootinfo_loaded cfg_ok ra sa wa c1 sa' wa' Ha)
      as (_ & _ & Ia & Cia & Pa).
    destruct (find_bootinfo_loaded cfg_ok rb sb wb c2 sb' wb' Hb)
      as (_ & _ & Ib & Cib & Pb).
    destruct (find_bootinfo_spec cfg_ok ra sa wa 0 c1 sa' wa' Ha)
      as (_ & _ & _ & _ & _ & _ & _ & _ & _ & _ & [(E & _)|(_ & _ & Cha & _)]);
      [discriminate E|].
    destruct (find_bootinfo_spec cfg_ok rb sb wb 0 c2 sb' wb' Hb)
      as (_ & _ & _ & _ & _ & _ & _ & _ & _ & _ & [(E & _)|(_ & _ & Chb & _)]);
      [discriminate E|].
    assert (Hcur : current c1 = current c2).
    { rewrite Cha, Chb. unfold choose_current. rewrite F0, F1.
      destruct (valid0 c2) eqn:W0, (valid1 c2) eqn:W1; cbn [andb negb]; auto;
        try discriminate Hvb.
      rewrite F0 in Va0. rewrite F1 in Va1.
      destruct (Va0 eq_refl) as [_ ->]. destruct (Va1 eq_refl) as [_ ->].
      destruct (Vb0 eq_refl) as [_ ->]. destruct (Vb1 eq_refl) as [_ ->].
      reflexivity. }
    rewrite (dev_slot_same_dev wa wb _ Hdev), Hcur in Ia, Cia, Pa.
    splits; auto; try congruence.
    rewrite <- Pb in Pa. injection Pa as Ev _.
    unfold var_strings. rewrite Ev. apply map_ext_in. intros v Hin.
    destruct Ok2 as [_ Hp]. rewrite Forall_forall in Hp.
    destruct (Hp v Hin) as [Pn Pv].
    assert (Hs : forall p, ptr_ok c2 p -> cstr c1 p = cstr c2 p).
    { intros [i off|e] Hp0; cbn [cstr]; [|reflexivity].
      destruct Hp0 as (-> & _). now rewrite Ia, Ib. }
    rewrite (Hs _ Pn), (Hs _ Pv). reflexivity.
Qed.

Lemma set_walk_ptrs ctx (nm : list Z) (val : option (list Z)) (l l' : list info_var) :
  set_walk ctx l nm val = Some l' ->
  Forall (fun v => ptr_ok ctx (name v) /\ ptr_ok ctx (value v)) l ->
  Forall (fun v => ptr_ok ctx (name v) /\ ptr_ok ctx (value v)) l'.
Proof.
  revert l'. induction l as [|x l IH]; intros l' H Hl; cbn [set_walk] in H.
  - destruct val as [v|]; [|discriminate]. injection H as <-.
    constructor; [|constructor]. cbn. auto.
  - inversion Hl as [|? ? Hx Hl']; subst.
    destruct (bytes_eqb (strz nm) (cstr ctx (name x))).
    + destruct val as [v|]; injection H as <-; auto.
      constructor; auto. cbn. tauto.
    + destruct (set_walk ctx l nm val) as [l2|]; [|discriminate].
      injection H as <-. constructor; auto.
Qed.

(** bootinfo_bootvar_set, whatever it returns, leaves the session in working
    order. *)
Lemma session_set ctx w nm val :
  session_ok ctx w -> session_ok (snd (bootinfo_bootvar_set ctx nm val)) w.
Proof.
  intros (Hro & Hok & Hn & Hin & Hb).
  destruct (Z.eq_dec (fst (fst (bootinfo_bootvar_set ctx nm val))) 0) as [E|E].
  2:{ rewrite (bootvar_set_failure ctx nm val E). unfold session_ok. auto. }
  destruct (bootvar_set_inv ctx nm val E) as (_ & Hname & _ & Hinv).
  cbv zeta in Hinv. destruct Hinv as (_ & l & Hw & Hs).
  assert (Hstr : Forall (fun nv => fst nv <> [])
                   (var_strings (snd (bootinfo_bootvar_set ctx nm val)))).
  { apply strings_of_names in Hn.
    destruct (deleting_cases val) as [D|(v & -> & Hv)].
    - destruct (set_deletes_strings ctx nm val E D) as [_ ->].
      now apply assoc_del_forall.
    - rewrite (set_stores_strings ctx nm v E Hv).
      apply assoc_set_forall; auto. cbn [fst]. apply Hname. }
  apply names_of_strings in Hstr. rewrite Hs in *.
  unfold session_ok. split; [exact Hro|]. split.
  { destruct Hok as [Hz Hp]. split; [exact Hz|].
    cbn [vars set_vars].
    assert (Hp' : Forall (fun v => ptr_ok ctx (name v) /\ ptr_ok ctx (value v)) l)
      by (eapply set_walk_ptrs; eauto).
    eapply Forall_impl; [|exact Hp']. intros v [A B].
    destruct (name v), (value v); cbn in *; tauto. }
  split; [exact Hstr|]. split; [exact Hin|exact Hb].
Qed.

(** Changing flags and failed_boots in [curinfo] leaves the session in
    working order. *)
Lemma session_curinfo ctx w (ci : device_info) :
  sernum ci = sernum (curinfo ctx) ->
  session_ok ctx w -> session_ok (set_curinfo ctx ci) w.
Proof.
  intros Hs (Hro & Hok & Hn & (Hr & Hst) & Hb). unfold session_ok, in_step.
  split; [exact Hro|]. split.
  { destruct Hok as [Hz Hp]. split; [exact Hz|].
    eapply Forall_impl; [|exact Hp]. intros v [A B].
    destruct (name v), (value v); cbn in *; tauto. }
  split; [exact Hn|]. cbn [set_curinfo set_current curinfo current].
  rewrite Hs. auto.
Qed.

(** bootinfo_update, when no call fails, leaves the session in working
    order. *)
Lemma session_update ctx s w ret ctx' s' w' :
  session_ok ctx w -> cooperative s ->
  bootinfo_update ctx s w = (ret, ctx', s', w') ->
  session_ok ctx' w' /\ cooperative s' /\ var_strings ctx' = var_strings ctx /\
  curinfo ctx' = curinfo ctx /\ (ret = 0 \/ ret = -1).
Proof.
  intros (Hro & Hok & Hn & Hin & Hb) C H.
  destruct (update_frame_props cfg_ok ctx s w ret ctx' s' w' H)
    as ((_ & _ & Fr & _ & _ & _ & Fi & _) & _ & _ & Fk).
  destruct (Fk Hok) as (Ok' & Fs & _).
  destruct (update_fits_props cfg_ok ctx s w ret ctx' s' w' Hok C H)
    as (_ & Hfail & C').
  assert (Hb' : byte_serials w').
  { destruct (Z.eq_dec ret 0) as [->|E].
    - exact (byte_serials_update cfg_ok _ _ _ _ _ _ Hok Hb H).
    - destruct (Hfail E) as (_ & _ & ->). exact Hb. }
  assert (Hret : ret = 0 \/ ret = -1).
  { destruct (Z.eq_dec ret 0) as [->|E]; [auto|right; apply Hfail, E]. }
  assert (Hn' : Forall (fun v => cstr ctx' (name v) <> []) (vars ctx')).
  { apply names_of_strings. rewrite Fs. apply strings_of_names. exact Hn. }
  pose proof (in_step_update cfg_ok _ _ _ _ _ _ _ Hok Hin H) as Hin'.
  assert (Hro' : readonly ctx' = false) by congruence.
  unfold session_ok. splits; auto.
Qed.

End Steps.

(** ** The commands of rk-bootinfo *)

Lemma show_loop_named ctx (n : list Z) (omitname : bool) (l : list info_var) :
  show_loop ctx (Some n) omitname l
  = match assoc_get (strz n)
            (map (fun v => (cstr ctx (name v), cstr ctx (value v))) l) with
    | Some v => (true, [if omitname then v else strz n ++ [61] ++ v])
    | None => (false, [])
    end.
Proof.
  induction l as [|x l IH]; cbn [show_loop map assoc_get]; [reflexivity|].
  destruct (bytes_eqb (strz n) (cstr ctx (name x))) eqn:E; [|exact IH].
  apply bytes_eqb_eq in E. rewrite <- E. reflexivity.
Qed.

Lemma show_loop_all ctx (omitname : bool) (l : list info_var) :
  show_loop ctx None omitname l
  = (true, map (fun v => if omitname then cstr ctx (value v)
                         else cstr ctx (name v) ++ [61] ++ cstr ctx (value v)) l).
Proof.
  induction l as [|x l IH]; cbn [show_loop map]; [reflexivity|].
  rewrite IH. reflexivity.
Qed.

Section Commands.

Context {cfg : config}.
Hypothesis cfg_ok : config_ok cfg.

Lemma close_frame ctx w :
  w_dev (bootinfo_close ctx w) = w_dev w /\
  w_trace (bootinfo_close ctx w) = w_trace w.
Proof.
  split; [apply bootinfo_close_dev|].
  unfold bootinfo_close, close_bootinfo.
  destruct (negb (readonly ctx)), (lockfd ctx >=? 0); cbn [snd];
    unfold sys_close_lock; cbn [w_trace];
    try rewrite (proj2 (proj2 (proj2 (set_status_frame _ false w)))); reflexivity.
Qed.

(** A read-only open, when no call fails, returns what find_bootinfo finds. *)
Lemma open_rdonly_coop s w :
  cooperative s ->
  exists r ctx s1 s' w',
    bootinfo_open BOOTINFO_O_RDONLY s w = (r, Some ctx, s', w') /\
    cooperative s1 /\ find_bootinfo true s1 w = (r, Some ctx, s', w').
Proof.
  intros C. unfold bootinfo_open.
  change (Z.land BOOTINFO_O_RDONLY BOOTINFO_O_RDONLY =? 0) with false.
  change (Z.land BOOTINFO_O_RDONLY BOOTINFO_O_FORCE_INIT =? 0) with true.
  cbn [negb andb].
  destruct (respond s) as [ra s1] eqn:R. apply (respond_coop _ _ _ C) in R.
  destruct R as [G C1]. destruct (Z.ltb_spec ra 0); [lia|].
  destruct (find_bootinfo true s1 w) as [[[r octx] s'] w'] eqn:F.
  destruct (find_bootinfo_frame cfg_ok true s1 w r octx s' w' F)
    as (_ & _ & _ & _ & Hsome).
  destruct octx as [ctx|]; [|exfalso; now apply (Hsome C1)].
  exists r, ctx, s1, s', w'. auto.
Qed.

(** X20.  set_bootvar, then show_bootvar.  When no call fails and set_bootvar has
    stored a value that is not empty and exited with 0, a show_bootvar of
    that name on the device as it was left exits with 0 and prints the
    value: [name=value], or the value alone when the name is omitted. *)
Theorem set_bootvar_then_show nm v s w s1 w1 :
  cooperative s -> byte_serials w -> strz v <> [] ->
  set_bootvar nm (Some v) s w = (0, s1, w1) ->
  forall omitname s2 w2,
    cooperative s2 -> w_dev w2 = w_dev w1 ->
    fst (fst (show_bootvar (Some nm) omitname s2 w2))
    = (0, [if omitname then strz v else strz nm ++ [61] ++ strz v]).
Proof.
  intros C Hb Hv H omitname s2 w2 C2 Hdev. unfold set_bootvar in H.
  destruct (bootinfo_open 0 s w) as [[[r octx] sa] wa] eqn:Ho.
  destruct (Z.ltb_spec r 0); [discriminate H|].
  destruct octx as [ctx|]; [|discriminate H].
  assert (Hr : r = 0).
  { destruct (bootinfo_open_write 0 s w r (Some ctx) sa wa eq_refl Ho)
      as [(_ & E & _)|(_ & r0 & oc0 & s0 & w0 & Hf & Hcase)]; [lia|].
    destruct Hcase as [(_ & _ & _ & _ & E & _)|(_ & Hre)]; [exact E|].
    assert (C0 : cooperative s0).
    { assert (C1 : cooperative (snd (respond s))).
      { destruct (respond s) as [x s1'] eqn:R.
        apply (respond_coop _ _ _ C) in R. tauto. }
      destruct oc0 as [c0|].
      - destruct (find_bootinfo_spec cfg_ok false _ w r0 c0 s0 w0 Hf)
          as (_ & _ & _ & _ & _ & _ & _ & _ & _ & Co & _). now apply Co.
      - destruct (find_bootinfo_frame cfg_ok false _ w r0 None s0 w0 Hf)
          as (_ & _ & _ & _ & Hs). exfalso. now apply (Hs C1). }
    destruct (reinitialize_coop cfg_ok oc0 s0 w0 r (Some ctx) sa wa C0 Hre)
      as (dfd & s3 & w3 & ctx' & _ & C3 & Hu & _).
    destruct (update_fits_props cfg_ok _ _ _ _ _ _ _
                (fresh_context_ok cfg_ok oc0 dfd) C3 Hu) as (_ & Hfail & _).
    destruct (Z.eq_dec r 0) as [E|E]; [exact E|].
    destruct (Hfail E) as (E1 & _). lia. }
  subst r.
  destruct (open_session cfg_ok 0 s w (Some ctx) sa wa eq_refl C Hb Ho)
    as (Ca & c & Ec & Hs).
  injection Ec as <-.
  destruct (bootinfo_bootvar_set ctx (strz nm) (Some v)) as [[r1 e1] ctx1] eqn:Es.
  destruct (bootinfo_update ctx1 sa wa) as [[[r2 ctx2] sb] wb] eqn:Eu.
  destruct (Z.ltb_spec r1 0); [discriminate H|].
  destruct (Z.ltb_spec r2 0); [discriminate H|].
  cbn [orb] in H. injection H as <- <-.
  assert (Hs1 : session_ok ctx1 wa).
  { pose proof (session_set ctx wa (strz nm) (Some v) Hs) as S.
    rewrite Es in S. exact S. }
  assert (Hr1 : r1 = 0).
  { destruct (Z.eq_dec r1 0) as [E|E]; [exact E|].
    exfalso. unfold bootinfo_bootvar_set in Es.
    repeat match type of Es with
           | context [if ?b then _ else _] => destruct b
           | context [match set_walk ?a ?b ?c ?d with _ => _ end] =>
               destruct (set_walk a b c d)
           end; injection Es as <- _ _; lia. }
  assert (Estr : var_strings ctx1
                 = assoc_set (strz nm) (strz v) (var_strings ctx)).
  { pose proof (set_stores_strings ctx (strz nm) v) as S. rewrite Es in S.
    cbn [fst snd] in S. rewrite strz_idem in S. apply S; auto. }
  destruct (session_update cfg_ok ctx1 sa wa r2 ctx2 sb wb Hs1 Ca Eu)
    as (_ & _ & _ & _ & Hr2).
  assert (E2 : r2 = 0) by lia. subst r2.
  destruct Hs1 as (_ & Ok1 & Hn1 & Hin1 & _).
  destruct (open_rdonly_coop s2 w2 C2) as (r & c2 & s2a & s2' & w2' & Ho2 & C2a & Hf2).
  assert (Hdev' : w_dev w2 = w_dev wb).
  { rewrite Hdev. apply bootinfo_close_dev. }
  destruct (update_load_props cfg_ok ctx1 sa wa ctx2 sb wb Ok1 Hn1 Hin1 Eu
              true s2a w2 r c2 s2' w2' Hdev' C2a Hf2) as (-> & _ & Hvs & _).
  unfold show_bootvar. rewrite Ho2. cbn [Z.ltb Z.compare].
  rewrite show_iter_loop by lia.
  rewrite show_loop_named. fold (var_strings c2).
  rewrite Hvs, Estr, assoc_get_set_same. reflexivity.
Qed.

End Commands.

(** ** The boot count across sessions *)

Section BootCount.

Context {cfg : config}.
Hypothesis cfg_ok : config_ok cfg.

Lemma filter_underscore_nil : filter underscore [] = [].
Proof. reflexivity. Qed.

(** A write-mode open without flags, when no call fails, returns 0 or -1. *)
Lemma open_write_ret s w r octx s' w' :
  cooperative s -> bootinfo_open 0 s w = (r, octx, s', w') -> r = 0 \/ r = -1.
Proof.
  intros C Ho.
  destruct (bootinfo_open_write 0 s w r octx s' w' eq_refl Ho)
    as [(_ & E & _)|(_ & r0 & oc0 & s0 & w0 & Hf & Hcase)]; [auto|].
  destruct Hcase as [(_ & _ & _ & _ & E & _)|(_ & Hre)]; [auto|].
  assert (C1 : cooperative (snd (respond s))).
  { destruct (respond s) as [x s1'] eqn:R.
    apply (respond_coop _ _ _ C) in R. tauto. }
  assert (C0 : cooperative s0).
  { destruct oc0 as [c0|].
    - destruct (find_bootinfo_spec cfg_ok false _ w r0 c0 s0 w0 Hf)
        as (_ & _ & _ & _ & _ & _ & _ & _ & _ & Co & _). now apply Co.
    - destruct (find_bootinfo_frame cfg_ok false _ w r0 None s0 w0 Hf)
        as (_ & _ & _ & _ & Hs). exfalso. now apply (Hs C1). }
  destruct (reinitialize_coop cfg_ok oc0 s0 w0 r octx s' w' C0 Hre)
    as (dfd & s3 & w3 & ctx' & _ & C3 & Hu & _).
  destruct (update_fits_props cfg_ok _ _ _ _ _ _ _
              (fresh_context_ok cfg_ok oc0 dfd) C3 Hu) as (_ & Hfail & _).
  destruct (Z.eq_dec r 0) as [E|E]; [auto|right; apply Hfail, E].
Qed.

(** The context of a write-mode open without flags, when no call fails and it
    returns 0, has the flags, failed_boots and variables that a load of the
    device finds (nothing, when no slot is valid: the store is then
    initialized). *)
Lemma open_matches_load s w octx s' w' :
  cooperative s -> byte_serials w ->
  bootinfo_open 0 s w = (0, octx, s', w') ->
  exists ctx,
    octx = Some ctx /\ session_ok ctx w' /\ cooperative s' /\
    forall rd s0 w0 r0 c0 s0' w0',
      cooperative s0 -> w_dev w0 = w_dev w ->
      find_bootinfo rd s0 w0 = (r0, Some c0, s0', w0') ->
      flags (curinfo ctx) = flags (curinfo c0) /\
      failed_boots (curinfo ctx) = failed_boots (curinfo c0) /\
      var_strings ctx = var_strings c0 /\
      (r0 = 0 -> curinfo ctx = curinfo c0 /\ current ctx = current c0 /\
                 w_dev w' = w_dev w).
Proof.
  intros C Hb Ho.
  destruct (open_session cfg_ok 0 s w octx s' w' eq_refl C Hb Ho)
    as (C' & ctx & -> & Hs).
  exists ctx. splits; auto.
  intros rd s0 w0 r0 c0 s0' w0' Cs0 Hdev Hf0.
  assert (C1 : cooperative (snd (respond s))).
  { destruct (respond s) as [x s1'] eqn:R.
    apply (respond_coop _ _ _ C) in R. tauto. }
  destruct (bootinfo_open_write 0 s w 0 (Some ctx) s' w' eq_refl Ho)
    as [(_ & E & _)|(_ & r1 & oc1 & s1 & w1 & Hf & Hcase)]; [discriminate E|].
  destruct oc1 as [c1|].
  2:{ destruct (find_bootinfo_frame cfg_ok false _ w r1 None s1 w1 Hf)
        as (_ & _ & _ & _ & Hsm). exfalso. now apply (Hsm C1). }
  destruct (load_same cfg_ok _ _ _ _ _ _ _ _ _ _ _ _ _ _ Cs0 C1 Hdev Hf0 Hf)
    as (Er & Ecur & Ei & Ev).
  destruct (find_bootinfo_frame cfg_ok false _ w r1 (Some c1) s1 w1 Hf)
    as (Wd1 & _).
  destruct Hcase as [(c & Ec & _ & _ & _ & Ec' & _ & Ew)|([E|[E|E]] & Hre)];
    try discriminate; try (now exfalso; apply E).
  - injection Ec as <-. injection Ec' as <-. rewrite Ei, Ev, Ecur, Ew. auto 6.
  - destruct (find_bootinfo_spec cfg_ok false _ w r1 c1 s1 w1 Hf)
      as (_ & _ & _ & _ & _ & _ & _ & _ & _ & Co & Hres).
    destruct Hres as [(_ & _ & _ & _ & Z1 & Z2 & _)|(E0 & _)]; [|contradiction].
    destruct (Co C1) as (Cs1 & _).
    destruct (reinitialize_coop cfg_ok (Some c1) s1 w1 0 (Some ctx) s' w' Cs1 Hre)
      as (dfd & s3 & w3 & ctx' & Ec & C3 & Hu & _).
    injection Ec as <-.
    destruct (update_frame_props cfg_ok _ _ _ _ _ _ _ Hu)
      as ((_ & _ & _ & _ & _ & _ & Fi & _) & _ & _ & Fk).
    destruct (Fk (fresh_context_ok cfg_ok (Some c1) dfd)) as (_ & Fs & _).
    rewrite Fi, Fs, Ei, Ev, Z1.
    unfold var_strings, fresh_context. cbn [vars set_vars curinfo set_current].
    rewrite Z2. cbn. splits; auto. intros E0. congruence.
Qed.

(** What one mark does to the device.  In a session in working order, when
    no call fails and the update of the mark succeeds, a load of the device
    as it was left finds the new boot state and the variables of the
    session. *)
Lemma mark_then_load ctx (ci : device_info) s w ctx' s' w' :
  session_ok ctx w -> sernum ci = sernum (curinfo ctx) ->
  bootinfo_update (set_curinfo ctx ci) s w = (0, ctx', s', w') ->
  forall rd s2 w2 r2 c2 s2' w2',
    cooperative s2 -> w_dev w2 = w_dev w' ->
    find_bootinfo rd s2 w2 = (r2, Some c2, s2', w2') ->
    r2 = 0 /\ flags (curinfo c2) = flags ci /\
    failed_boots (curinfo c2) = failed_boots ci /\
    var_strings c2 = var_strings ctx.
Proof.
  intros Hs Hser Hu rd s2 w2 r2 c2 s2' w2' C2 Hdev Hf.
  pose proof (session_curinfo ctx w ci Hser Hs) as (_ & Ok & Hn & Hin & _).
  destruct (update_load_props cfg_ok _ _ _ _ _ _ Ok Hn Hin Hu
              rd s2 w2 r2 c2 s2' w2' Hdev C2 Hf) as (-> & _ & Hv & Hfl & Hfb & _).
  splits; auto.
Qed.

End BootCount.

(** ** boot_check_status and boot_successful *)

Section BootCommands.

Context {cfg : config}.
Hypothesis cfg_ok : config_ok cfg.

Lemma land1_cases (f : Z) : Z.land f 1 = 0 \/ Z.land f 1 = 1.
Proof.
  change 1 with (Z.ones 1) at 1 2. rewrite Z.land_ones by lia.
  pose proof (Z.mod_pos_bound f (2 ^ 1)). change (2 ^ 1) with 2 in *. lia.
Qed.

Lemma fits_same ctx ctx' : var_strings ctx' = var_strings ctx -> fits ctx -> fits ctx'.
Proof. unfold fits. now intros ->. Qed.

(** X23.  boot_check_status, from one boot to the next.  When no call fails and
    the command does not exit with 1: let the store hold the boot state
    (in progress, n) before (a blank store counts as (0, 0)), and let [n1] be
    [n] when no boot was in progress and [(n + 1) mod 256] when one was.  The
    command exits with 77 when [n1] is 3 or more and leaves the state
    (0, 0); otherwise it exits with 0 and leaves the state (1, n1).  The
    variables of the store are as before. *)
Theorem boot_check_status_protocol s w rc s1 w1 :
  cooperative s -> byte_serials w ->
  boot_check_status s w = (rc, s1, w1) -> rc <> 1 ->
  forall rd0 s0 w0 r0 c0 s0' w0',
    cooperative s0 -> w_dev w0 = w_dev w ->
    find_bootinfo rd0 s0 w0 = (r0, Some c0, s0', w0') ->
  forall rd2 s2 w2 r2 c2 s2' w2',
    cooperative s2 -> w_dev w2 = w_dev w1 ->
    find_bootinfo rd2 s2 w2 = (r2, Some c2, s2', w2') ->
  let n1 := if bootinfo_is_in_progress c0 =? 1
            then (bootinfo_failed_boot_count c0 + 1) mod 256
            else bootinfo_failed_boot_count c0 in
  rc = (if n1 >=? MAX_BOOT_FAILURES then 77 else 0) /\ r2 = 0 /\
  boot_state c2 = (if n1 >=? MAX_BOOT_FAILURES then (0, 0) else (1, n1)) /\
  var_strings c2 = var_strings c0.
Proof.
  intros C Hb H Hrc rd0 s0 w0 r0 c0 s0' w0' C0 Hdev0 Hf0
         rd2 s2 w2 r2 c2 s2' w2' C2 Hdev2 Hf2 n1.
  unfold boot_check_status in H.
  destruct (bootinfo_open 0 s w) as [[[r octx] sa] wa] eqn:Ho.
  destruct (Z.ltb_spec r 0); [injection H as <- _ _; contradiction|].
  destruct (open_write_ret cfg_ok s w r octx sa wa C Ho) as [-> | ->]; [|lia].
  destruct (open_matches_load cfg_ok s w octx sa wa C Hb Ho)
    as (ctx & -> & Hs & Ca & Hm).
  destruct (Hm rd0 s0 w0 r0 c0 s0' w0' C0 Hdev0 Hf0) as (Mfl & Mfb & Mv & _).
  destruct (bootinfo_mark_in_progress ctx sa wa) as [[[[r1 cnt] ctx1] sb] wb] eqn:Em.
  pose proof Hs as (Hro & _).
  unfold bootinfo_mark_in_progress in Em. rewrite Hro in Em.
  set (ci := if negb (Z.land (flags (curinfo ctx)) FLAG_BOOT_IN_PROGRESS =? 0)
             then set_failed_boots (curinfo ctx)
                    ((failed_boots (curinfo ctx) + 1) mod 256)
             else set_flags (curinfo ctx)
                    (Z.lor (flags (curinfo ctx)) FLAG_BOOT_IN_PROGRESS)) in *.
  destruct (bootinfo_update (set_curinfo ctx ci) sa wa) as [[[ru cu] su] wu] eqn:Eu.
  injection Em as <- <- <- <- <-.
  assert (Hser : sernum ci = sernum (curinfo ctx)).
  { unfold ci. destruct (negb _); reflexivity. }
  pose proof (session_curinfo ctx wa ci Hser Hs) as Hsc.
  destruct (session_update cfg_ok _ _ _ _ _ _ _ Hsc Ca Eu)
    as (Hs1 & Cb & Hv1 & Hci1 & Hru).
  destruct (Z.ltb_spec ru 0); [injection H as <- _ _; contradiction|].
  assert (ru = 0) by lia. subst ru.
  (* the state the mark has stored *)
  assert (Hn1 : failed_boots ci = n1).
  { unfold ci, n1, bootinfo_is_in_progress, bootinfo_failed_boot_count.
    rewrite <- Mfl, <- Mfb.
    destruct (negb (Z.land (flags (curinfo ctx)) FLAG_BOOT_IN_PROGRESS =? 0));
      reflexivity. }
  assert (Hip : Z.land (flags ci) FLAG_BOOT_IN_PROGRESS = 1).
  { unfold ci, FLAG_BOOT_IN_PROGRESS.
    destruct (Z.eqb_spec (Z.land (flags (curinfo ctx)) 1) 0) as [E|E]; cbn [negb].
    - cbn [flags set_flags]. apply land_lor_1.
    - cbn [flags set_failed_boots].
      destruct (land1_cases (flags (curinfo ctx))); congruence. }
  rewrite Hn1 in H.
  destruct (Z.geb_spec n1 MAX_BOOT_FAILURES) as [Hbig|Hsmall].
  - (* too many failures: the state is cleared in the same session *)
    destruct (bootinfo_mark_successful cu su wu) as [[[[r3 cnt3] ctx3] sc] wc] eqn:E3.
    injection H as <- <- <-.
    pose proof Hs1 as (Hro1 & Ok1 & _).
    unfold bootinfo_mark_successful in E3. rewrite Hro1 in E3.
    set (ci3 := set_failed_boots
                  (set_flags (curinfo cu)
                     (Z.land (flags (curinfo cu)) (255 - FLAG_BOOT_IN_PROGRESS))) 0)
      in *.
    destruct (bootinfo_update (set_curinfo cu ci3) su wu) as [[[r4 c4] s4] w4] eqn:E4.
    injection E3 as <- _ <- <- <-.
    assert (Hser3 : sernum ci3 = sernum (curinfo cu)) by reflexivity.
    pose proof (session_curinfo cu wu ci3 Hser3 Hs1) as Hsc3.
    pose proof Hsc as (_ & Okc & _). pose proof Hsc3 as (Hro3 & Okc3 & _).
    assert (Hfit : fits (set_curinfo cu ci3)).
    { apply (fits_same (set_curinfo ctx ci)); [exact Hv1|].
      apply (update_fits_props cfg_ok _ _ _ _ _ _ _ Okc Ca Eu). reflexivity. }
    assert (r4 = 0).
    { apply (update_fits_props cfg_ok _ _ _ _ _ _ _ Okc3 Cb E4). auto. }
    subst r4.
    assert (Hdev : w_dev w2 = w_dev w4).
    { rewrite Hdev2. apply bootinfo_close_dev. }
    destruct (mark_then_load cfg_ok cu ci3 su wu c4 s4 w4 Hs1 Hser3 E4
                rd2 s2 w2 r2 c2 s2' w2' C2 Hdev Hf2) as (-> & Lfl & Lfb & Lv).
    splits; auto.
    + unfold boot_state, bootinfo_is_in_progress, bootinfo_failed_boot_count.
      rewrite Lfl, Lfb. unfold ci3. cbn [flags failed_boots set_flags set_failed_boots].
      change (255 - FLAG_BOOT_IN_PROGRESS) with 254. unfold FLAG_BOOT_IN_PROGRESS.
      rewrite land_254_1. reflexivity.
    + rewrite Lv, Hv1. exact Mv.
  - injection H as <- <- <-.
    assert (Hdev : w_dev w2 = w_dev wu).
    { rewrite Hdev2. apply bootinfo_close_dev. }
    destruct (mark_then_load cfg_ok ctx ci sa wa cu su wu Hs Hser Eu
                rd2 s2 w2 r2 c2 s2' w2' C2 Hdev Hf2) as (-> & Lfl & Lfb & Lv).
    splits; auto.
    + unfold boot_state, bootinfo_is_in_progress, bootinfo_failed_boot_count.
      rewrite Lfl, Lfb, Hip, Hn1. reflexivity.
    + rewrite Lv. exact Mv.
Qed.

(** X24.  boot_successful.  When no call fails and the command exits with 0, it
    prints the number of failed boots the store held before, and leaves the
    boot state (0, 0) and the variables as they were. *)
Theorem boot_successful_resets s w out s1 w1 :
  cooperative s -> byte_serials w ->
  boot_successful s w = (0, out, s1, w1) ->
  forall rd0 s0 w0 r0 c0 s0' w0',
    cooperative s0 -> w_dev w0 = w_dev w ->
    find_bootinfo rd0 s0 w0 = (r0, Some c0, s0', w0') ->
  forall rd2 s2 w2 r2 c2 s2' w2',
    cooperative s2 -> w_dev w2 = w_dev w1 ->
    find_bootinfo rd2 s2 w2 = (r2, Some c2, s2', w2') ->
  out = Some (bootinfo_failed_boot_count c0) /\ r2 = 0 /\
  boot_state c2 = (0, 0) /\ var_strings c2 = var_strings c0.
Proof.
  intros C Hb H rd0 s0 w0 r0 c0 s0' w0' C0 Hdev0 Hf0
         rd2 s2 w2 r2 c2 s2' w2' C2 Hdev2 Hf2.
  unfold boot_successful in H.
  destruct (bootinfo_open 0 s w) as [[[r octx] sa] wa] eqn:Ho.
  destruct (Z.ltb_spec r 0); [discriminate H|].
  destruct (open_write_ret cfg_ok s w r octx sa wa C Ho) as [-> | ->]; [|lia].
  destruct (open_matches_load cfg_ok s w octx sa wa C Hb Ho)
    as (ctx & -> & Hs & Ca & Hm).
  destruct (Hm rd0 s0 w0 r0 c0 s0' w0' C0 Hdev0 Hf0) as (Mfl & Mfb & Mv & _).
  destruct (bootinfo_mark_successful ctx sa wa) as [[[[r1 cnt] ctx1] sb] wb] eqn:Em.
  pose proof Hs as (Hro & _).
  unfold bootinfo_mark_successful in Em. rewrite Hro in Em.
  set (ci := set_failed_boots
               (set_flags (curinfo ctx)
                  (Z.land (flags (curinfo ctx)) (255 - FLAG_BOOT_IN_PROGRESS))) 0)
    in *.
  destruct (bootinfo_update (set_curinfo ctx ci) sa wa) as [[[ru cu] su] wu] eqn:Eu.
  injection Em as <- <- <- <- <-.
  assert (Hser : sernum ci = sernum (curinfo ctx)) by reflexivity.
  pose proof (session_curinfo ctx wa ci Hser Hs) as Hsc.
  destruct (session_update cfg_ok _ _ _ _ _ _ _ Hsc Ca Eu)
    as (_ & _ & _ & _ & Hru).
  destruct (Z.ltb_spec ru 0); [discriminate H|].
  assert (ru = 0) by lia. subst ru.
  injection H as <- <- <-.
  assert (Hdev : w_dev w2 = w_dev wu).
  { rewrite Hdev2. apply bootinfo_close_dev. }
  destruct (mark_then_load cfg_ok ctx ci sa wa cu su wu Hs Hser Eu
              rd2 s2 w2 r2 c2 s2' w2' C2 Hdev Hf2) as (-> & Lfl & Lfb & Lv).
  splits; auto.
  - unfold bootinfo_failed_boot_count. now rewrite <- Mfb.
  - unfold boot_state, bootinfo_is_in_progress, bootinfo_failed_boot_count.
    rewrite Lfl, Lfb. unfold ci. cbn [flags failed_boots set_flags set_failed_boots].
    change (255 - FLAG_BOOT_IN_PROGRESS) with 254. unfold FLAG_BOOT_IN_PROGRESS.
    rewrite land_254_1. reflexivity.
  - rewrite Lv. exact Mv.
Qed.

End BootCommands.

(** ** The arguments of set_bootvar *)

Lemma strchr_split_app (nm v : list Z) (c : Z) :
  ~ In c nm -> strchr_split (nm ++ c :: v) c = Some (nm, v).
Proof.
  induction nm as [|b nm IH]; intros H; cbn [app strchr_split].
  - now rewrite Z.eqb_refl.
  - destruct (Z.eqb_spec b c) as [->|_]; [exfalso; apply H; now left|].
    rewrite IH; [reflexivity|]. intros Hin. apply H. now right.
Qed.

Lemma strz_app_nonul (a b : list Z) : nonul a -> strz (a ++ b) = a ++ strz b.
Proof.
  unfold nonul. induction a as [|x a IH]; intros H; cbn [app strz]; auto.
  destruct (Z.eqb_spec x 0) as [->|_]; [exfalso; apply H; now left|].
  rewrite IH; auto. intros Hin. apply H. now right.
Qed.

Section Arguments.

Context {cfg : config}.
Hypothesis cfg_ok : config_ok cfg.

(** X21.  The two ways to give set_bootvar a value.  [name=value] in one argument
    does what [name] and [value] in two arguments do, for a name without
    [=] that is not empty ([name=] passes the empty value, which deletes);
    and an argument that begins with [=] is refused with exit status 1 before
    the store is opened. *)
Theorem set_bootvar_assignment (nm v : list Z) s w :
  (nonul nm -> ~ In 61 nm -> nm <> [] ->
   set_bootvar (nm ++ 61 :: v) None s w = set_bootvar nm (Some (strz v)) s w) /\
  set_bootvar (61 :: v) None s w = (1, s, w).
Proof.
  split.
  - intros Hn H61 Hne. unfold set_bootvar.
    rewrite (strz_app_nonul nm _ Hn). cbn [strz]. cbn [Z.eqb].
    rewrite (strchr_split_app nm (strz v) 61 H61), (strz_id nm Hn).
    destruct nm as [|b nm']; [congruence|]. reflexivity.
  - unfold set_bootvar. cbn [strz Z.eqb strchr_split]. reflexivity.
Qed.

(** X22.  A set_bootvar whose name bootinfo_bootvar_set refuses still rewrites the
    store.  When no call fails, on a store that loads and whose variables
    fit: the command exits with 1, and a load of the device as it was left
    finds the other slot current, with the next serial number and the header
    and variables of before. *)
Theorem set_bootvar_refused_rewrites nm val s w rc s1 w1 :
  cooperative s -> byte_serials w -> ~ name_ok (strz nm) ->
  (val = None -> ~ In 61 (strz nm)) ->
  set_bootvar nm val s w = (rc, s1, w1) ->
  forall rd0 s0 w0 c0 s0' w0',
    cooperative s0 -> w_dev w0 = w_dev w ->
    find_bootinfo rd0 s0 w0 = (0, Some c0, s0', w0') -> fits c0 ->
  forall rd2 s2 w2 r2 c2 s2' w2',
    cooperative s2 -> w_dev w2 = w_dev w1 ->
    find_bootinfo rd2 s2 w2 = (r2, Some c2, s2', w2') ->
  rc = 1 /\ r2 = 0 /\ current c2 = 1 - current c0 /\
  sernum (curinfo c2) = (sernum (curinfo c0) + 1) mod 256 /\
  flags (curinfo c2) = flags (curinfo c0) /\
  failed_boots (curinfo c2) = failed_boots (curinfo c0) /\
  var_strings c2 = var_strings c0.
Proof.
  intros C Hb Hbad Hno H rd0 s0 w0 c0 s0' w0' C0 Hdev0 Hf0 Hfit
         rd2 s2 w2 r2 c2 s2' w2' C2 Hdev2 Hf2.
  unfold set_bootvar in H.
  set (args := match val with
               | Some v => Some (strz nm, Some v)
               | None =>
                   match strchr_split (strz nm) 61 with
                   | None => Some (strz nm, None)
                   | Some ([], _) => None
                   | Some (n, v) => Some (n, Some v)
                   end
               end) in *.
  assert (Hargs : exists val', args = Some (strz nm, val')).
  { unfold args. destruct val as [v|]; [eauto|].
    assert (E : strchr_split (strz nm) 61 = None).
    { specialize (Hno eq_refl). clear -Hno.
      induction (strz nm) as [|b l IH]; [reflexivity|]. cbn [strchr_split].
      destruct (Z.eqb_spec b 61) as [->|_]; [exfalso; apply Hno; now left|].
      rewrite IH; [reflexivity|]. intros Hin. apply Hno. now right. }
    rewrite E. eauto. }
  destruct Hargs as [val' ->].
  destruct (bootinfo_open 0 s w) as [[[r octx] sa] wa] eqn:Ho.
  (* the open finds the store *)
  assert (Hval : slot_valid (dev_slot w 0) || slot_valid (dev_slot w 1) = true).
  { destruct (find_bootinfo_spec cfg_ok rd0 s0 w0 0 c0 s0' w0' Hf0)
      as (_ & _ & _ & _ & _ & _ & _ & _ & _ & Co & Hres).
    destruct (Co C0) as (_ & E0 & E1).
    rewrite (dev_slot_same_dev w0 w 0 Hdev0) in E0.
    rewrite (dev_slot_same_dev w0 w 1 Hdev0) in E1.
    destruct Hres as [(E & _)|(_ & Hv & _)]; [discriminate E|]. congruence. }
  destruct (open_write_props cfg_ok 0 s w r octx sa wa
              eq_refl eq_refl C Hval Ho)
    as (-> & _ & _ & _ & Ca & ctx & -> & _).
  destruct (open_matches_load cfg_ok s w (Some ctx) sa wa C Hb Ho)
    as (ctx' & Ec & Hs & _ & Hm).
  injection Ec as <-.
  destruct (Hm rd0 s0 w0 0 c0 s0' w0' C0 Hdev0 Hf0) as (_ & _ & Mv & Mh).
  destruct (Mh eq_refl) as (Mci & Mcur & _).
  cbn [Z.ltb Z.compare] in H.
  pose proof Hs as (Hro & Ok & Hn & Hin & _).
  destruct (set_error_cases ctx (strz nm) val') as (_ & Hinv & _).
  rewrite strz_idem in Hinv. rewrite (Hinv Hro Hbad) in H.
  destruct (bootinfo_update ctx sa wa) as [[[r2' cu] su] wu] eqn:Eu.
  cbn [Z.ltb Z.compare orb] in H. injection H as <- <- <-.
  assert (r2' = 0).
  { apply (update_fits_props cfg_ok _ _ _ _ _ _ _ Ok Ca Eu).
    split; [exact Hro|]. apply (fits_same c0); auto. }
  subst r2'.
  assert (Hdev : w_dev w2 = w_dev wu).
  { rewrite Hdev2. apply bootinfo_close_dev. }
  destruct (update_load_props cfg_ok ctx sa wa cu su wu Ok Hn Hin Eu
              rd2 s2 w2 r2 c2 s2' w2' Hdev C2 Hf2)
    as (-> & Hc & Hv & Hfl & Hfb & Hsn & _).
  destruct (find_bootinfo_loaded cfg_ok rd0 s0 w0 c0 s0' w0' Hf0) as (Hc0 & _).
  destruct (dest_slot_cases ctx) as (_ & D0 & D1 & _).
  splits; auto; try congruence.
  rewrite Hc, <- Mcur. rewrite <- Mcur in Hc0.
  destruct Hc0 as [E|E]; rewrite E; [apply D0|apply D1]; exact E.
Qed.

End Arguments.

(** ** Iteration, the store after a failed update, and initialization *)

Section Iteration.

Context {cfg : config}.

(** X9.  bootinfo_bootvar_iterate, called from a NULL iterator until it hands back
    a NULL name, visits every variable of the list once, in list order.  The
    call that passes the last variable leaves the iterator NULL, so a call
    after it starts again at the first variable. *)
Theorem bootvar_iterate_visits_all ctx (fuel : nat) :
  (length (vars ctx) < fuel)%nat ->
  iterate_all fuel ctx [] = map (fun v => (name v, value v)) (vars ctx) /\
  forall x, bootinfo_bootvar_iterate ctx [x] = ([], None) /\
            bootinfo_bootvar_iterate ctx (fst (bootinfo_bootvar_iterate ctx [x]))
            = (vars ctx, match vars ctx with
                         | [] => None
                         | v :: _ => Some (name v, value v)
                         end).
Proof.
  intros Hf. split; [|intros x; split; reflexivity].
  destruct fuel as [|fuel]; [inversion Hf|].
  cbn [iterate_all bootinfo_bootvar_iterate].
  destruct (vars ctx) as [|v l]; [reflexivity|].
  cbn [map]. rewrite iterate_all_from; [reflexivity|]. cbn [length] in Hf. lia.
Qed.

(** X10.  The loop of bootinfo_bootvar_get over the iterator finds the value of the
    first variable of the list whose name is the one asked for, and fails
    with ENOENT when the list has none. *)
Theorem bootvar_get_by_iteration ctx (nm : list Z) (fuel : nat) :
  (length (vars ctx) < fuel)%nat ->
  option_map (cstr ctx) (get_loop fuel ctx [] nm) = assoc_get nm (var_strings ctx) /\
  bootinfo_bootvar_get ctx nm = assoc_get nm (var_strings ctx).
Proof.
  intros Hf. split; [|apply bootvar_get_assoc].
  rewrite <- bootvar_get_assoc. unfold bootinfo_bootvar_get. f_equal.
  destruct fuel as [|fuel]; [inversion Hf|].
  cbn [get_loop bootinfo_bootvar_iterate].
  destruct (vars ctx) as [|v l]; [reflexivity|].
  cbn [bootvar_lookup]. rewrite get_loop_from; [reflexivity|].
  cbn [length] in Hf. lia.
Qed.

End Iteration.

Section Safety.

Context {cfg : config}.
Hypothesis cfg_ok : config_ok cfg.

(** When no call fails, a load of a device with a valid slot returns 0. *)
Lemma load_finds_valid rd s w r octx s' w' :
  cooperative s ->
  slot_valid (dev_slot w 0) || slot_valid (dev_slot w 1) = true ->
  find_bootinfo rd s w = (r, octx, s', w') ->
  r = 0 /\ exists c, octx = Some c.
Proof.
  intros C Hv H.
  destruct (find_bootinfo_frame cfg_ok rd s w r octx s' w' H)
    as (_ & _ & _ & _ & Hsome).
  destruct octx as [c|]; [|exfalso; now apply (Hsome C)].
  split; [|exists c; reflexivity].
  destruct (find_bootinfo_spec cfg_ok rd s w r c s' w' H)
    as (_ & _ & _ & _ & _ & _ & _ & _ & _ & Co & Hres).
  destruct (Co C) as (_ & E0 & E1).
  destruct Hres as [(_ & F0 & F1 & _)|(E & _)]; [|exact E].
  rewrite <- E0, <- E1, F0, F1 in Hv. discriminate Hv.
Qed.

(** X17.  bootinfo_update never damages the slot the context was loaded from.
    Whatever fails in it, and at whatever point, the current slot of the
    device is byte for byte as before; so when that slot was valid, a later
    load in which no call fails still finds a store, and the slot it makes
    current is a valid one. *)
Theorem update_keeps_current_slot ctx s w ret ctx' s' w' :
  ctx_ok ctx -> current ctx = 0 \/ current ctx = 1 ->
  slot_valid (dev_slot w (current ctx)) = true ->
  bootinfo_update ctx s w = (ret, ctx', s', w') ->
  dev_slot w' (current ctx) = dev_slot w (current ctx) /\
  forall rd s2 w2 r2 octx s2' w2',
    cooperative s2 -> w_dev w2 = w_dev w' ->
    find_bootinfo rd s2 w2 = (r2, octx, s2', w2') ->
    r2 = 0 /\ exists c2, octx = Some c2 /\ (current c2 = 0 \/ current c2 = 1) /\
                         slot_valid (dev_slot w' (current c2)) = true.
Proof.
  intros Ok Hc Hv H.
  destruct (update_frame_props cfg_ok _ _ _ _ _ _ _ H) as (_ & _ & _ & Fk).
  destruct (Fk Ok) as (_ & _ & Hout & _).
  assert (Hslot : dev_slot w' (current ctx) = dev_slot w (current ctx)).
  { apply dev_slot_frame; auto. intros o Ho. apply Hout.
    apply (slots_disjoint cfg_ok (current ctx) (dest_slot ctx) o); [|exact Ho].
    unfold dest_slot. destruct Hc as [E|E]; rewrite E; discriminate. }
  split; [exact Hslot|].
  intros rd s2 w2 r2 octx s2' w2' C2 Hdev Hf.
  assert (Hv2 : slot_valid (dev_slot w2 0) || slot_valid (dev_slot w2 1) = true).
  { rewrite !(dev_slot_same_dev w2 w' _ Hdev).
    rewrite <- Hslot in Hv. destruct Hc as [E|E]; rewrite E in Hv; rewrite Hv;
      [reflexivity|apply orb_true_r]. }
  destruct (load_finds_valid rd s2 w2 r2 octx s2' w2' C2 Hv2 Hf) as (-> & c2 & ->).
  split; [reflexivity|]. exists c2. split; [reflexivity|].
  destruct (find_bootinfo_loaded cfg_ok rd s2 w2 c2 s2' w2' Hf) as (Hc2 & Hval & _).
  split; [exact Hc2|].
  rewrite <- (dev_slot_same_dev w2 w' _ Hdev). exact Hval.
Qed.

End Safety.

(** ** Printing and initializing the store *)

Section StoreCommands.

Context {cfg : config}.
Hypothesis cfg_ok : config_ok cfg.

(** X19.  show_bootvar prints what the store holds.  When no call fails, it writes
    nothing to the device, and relative to what a load of the device finds:
    it exits with 1 and prints nothing when there is no valid store; asked
    for all variables it exits with 0 and prints each variable of the store,
    in their order; asked for one name it prints the value of the first
    variable of that name and exits with 0, or prints nothing and exits with
    1 when the store has none. *)
Theorem show_bootvar_prints_store nm omitname s w rc lines s' w' :
  cooperative s ->
  show_bootvar nm omitname s w = (rc, lines, s', w') ->
  (w_dev w' = w_dev w /\ w_trace w' = w_trace w) /\
  forall rd0 s0 w0 r0 c0 s0' w0',
    cooperative s0 -> w_dev w0 = w_dev w ->
    find_bootinfo rd0 s0 w0 = (r0, Some c0, s0', w0') ->
    (r0 <> 0 -> rc = 1 /\ lines = []) /\
    (r0 = 0 ->
     (nm = None ->
      rc = 0 /\
      lines = map (fun nv => if omitname then snd nv
                             else fst nv ++ [61] ++ snd nv) (var_strings c0)) /\
     (forall n v, nm = Some n ->
        assoc_get (strz n) (var_strings c0) = Some v ->
        rc = 0 /\ lines = [if omitname then v else strz n ++ [61] ++ v]) /\
     (forall n, nm = Some n ->
        assoc_get (strz n) (var_strings c0) = None ->
        rc = 1 /\ lines = [])).
Proof.
  intros C H.
  destruct (open_rdonly_coop cfg_ok s w C) as (r & c & sa & sb & wb & Ho & Ca & Hf).
  destruct (find_bootinfo_frame cfg_ok true sa w r (Some c) sb wb Hf)
    as (Wd & Wt & _).
  unfold show_bootvar in H. rewrite Ho in H.
  assert (Hframe : w_dev w' = w_dev w /\ w_trace w' = w_trace w).
  { destruct (r <? 0); [injection H as _ _ _ <-; auto|].
    destruct (show_iter _ c nm omitname []) as [found ls].
    injection H as _ _ _ <-.
    destruct (close_frame c wb) as [A B]. rewrite A, B. auto. }
  split; [exact Hframe|].
  intros rd0 s0 w0 r0 c0 s0' w0' C0 Hdev Hf0.
  destruct (load_same cfg_ok _ _ _ _ _ _ _ _ _ _ _ _ _ _ C0 Ca Hdev Hf0 Hf)
    as (Er & _ & _ & Ev).
  assert (Hr : r = 0 \/ r = -1).
  { destruct (find_bootinfo_spec cfg_ok true sa w r c sb wb Hf)
      as (_ & _ & _ & _ & _ & _ & _ & _ & _ & _ & [(E & _)|(E & _)]); auto. }
  rewrite Er, Ev. split.
  - intros Hne. destruct Hr as [E|E]; [contradiction|]. rewrite E in H.
    injection H as <- <- _ _. auto.
  - intros E0. rewrite E0 in H. cbn [Z.ltb Z.compare] in H.
    rewrite show_iter_loop in H by lia.
    split; [|split].
    + intros ->. rewrite show_loop_all in H. injection H as <- <- _ _.
      split; [reflexivity|]. unfold var_strings. rewrite map_map. reflexivity.
    + intros n v -> Eg. rewrite show_loop_named in H. fold (var_strings c) in H.
      rewrite Eg in H. injection H as <- <- _ _. auto.
    + intros n -> Eg. rewrite show_loop_named in H. fold (var_strings c) in H.
      rewrite Eg in H. injection H as <- <- _ _. auto.
Qed.

(** X25.  boot_devinfo_init, when it initializes: with force, or on a device
    without a valid slot.  When no call fails and it exits with 0, slot 1 of
    the device is zero-filled, and a load of the device as it was left
    returns 0 and finds slot 0 current with serial number 1, the boot state
    (0, 0), and of the variables the device held before exactly those whose
    name begins with an underscore, in their order. *)
Theorem boot_devinfo_init_initializes (force_init : bool) s w s1 w1 :
  cooperative s ->
  force_init = true \/
  slot_valid (dev_slot w 0) || slot_valid (dev_slot w 1) = false ->
  boot_devinfo_init force_init s w = (0, s1, w1) ->
  dev_slot w1 1 = zeros INFOBUF_SIZE /\
  forall rd0 s0 w0 r0 c0 s0' w0',
    cooperative s0 -> w_dev w0 = w_dev w ->
    find_bootinfo rd0 s0 w0 = (r0, Some c0, s0', w0') ->
  forall rd2 s2 w2 r2 c2 s2' w2',
    cooperative s2 -> w_dev w2 = w_dev w1 ->
    find_bootinfo rd2 s2 w2 = (r2, Some c2, s2', w2') ->
  r2 = 0 /\ current c2 = 0 /\ sernum (curinfo c2) = 1 /\
  boot_state c2 = (0, 0) /\
  var_strings c2 = filter underscore (var_strings c0).
Proof.
  intros C Hwhy H. unfold boot_devinfo_init in H.
  set (oflags := if force_init then BOOTINFO_O_FORCE_INIT else 0) in H.
  assert (Hro : Z.land oflags BOOTINFO_O_RDONLY = 0)
    by (unfold oflags; destruct force_init; reflexivity).
  destruct (bootinfo_open oflags s w) as [[[r octx] sa] wa] eqn:Ho.
  destruct (Z.ltb_spec r 0); [discriminate H|].
  assert (C1 : cooperative (snd (respond s)) /\ 0 <= fst (respond s)).
  { destruct (respond s) as [x s1'] eqn:R.
    apply (respond_coop _ _ _ C) in R. tauto. }
  destruct C1 as [C1 G1].
  destruct (bootinfo_open_write oflags s w r octx sa wa Hro Ho)
    as [(E & _)|(_ & r1 & oc1 & sb & wb & Hf & Hcase)]; [lia|].
  destruct (find_bootinfo_frame cfg_ok false _ w r1 oc1 sb wb Hf)
    as (Wd & _ & _ & _ & Hsome).
  destruct oc1 as [c1|]; [|exfalso; now apply (Hsome C1)].
  destruct (find_bootinfo_spec cfg_ok false _ w r1 c1 sb wb Hf)
    as (_ & _ & _ & _ & _ & _ & _ & _ & _ & Co & Hres).
  destruct (Co C1) as (Cb & V0 & V1).
  assert (Hre : reinitialize (Some c1) sb wb = (r, octx, sa, wa)).
  { destruct Hcase as [(c & _ & Er & Ef & _)|(_ & Hre)]; [|exact Hre].
    exfalso. destruct Hwhy as [->|Hno].
    - discriminate Ef.
    - destruct Hres as [(E & _)|(_ & Hv & _)]; [lia|].
      rewrite V0, V1, Hno in Hv. discriminate Hv. }
  destruct (reinitialize_coop cfg_ok (Some c1) sb wb r octx sa wa Cb Hre)
    as (dfd & s3 & w3 & ctx' & -> & C3 & Hu & Hz).
  injection H as <- <-.
  pose proof (fresh_context_ok cfg_ok (Some c1) dfd) as Fok.
  assert (Hr : r = 0).
  { destruct (update_fits_props cfg_ok _ _ _ _ _ _ _ Fok C3 Hu) as (_ & Hfail & _).
    destruct (Z.eq_dec r 0) as [E|E]; [exact E|]. destruct (Hfail E) as (E1 & _). lia. }
  subst r.
  assert (Hin : in_step (fresh_context (Some c1) dfd) w3).
  { unfold in_step. split; [cbn; lia|]. right. split; [left; cbn; lia|].
    rewrite Hz. apply (slot_valid_zeros cfg_ok). }
  destruct (bootinfo_update_world cfg_ok _ _ _ _ _ _ _ Fok Hu) as (_ & _ & Hout).
  change (dest_slot (fresh_context (Some c1) dfd)) with 0 in Hout.
  assert (Hs1 : dev_slot (bootinfo_close ctx' wa) 1 = zeros INFOBUF_SIZE).
  { rewrite (dev_slot_same_dev _ wa 1 (bootinfo_close_dev ctx' wa)).
    rewrite <- Hz. apply dev_slot_frame; auto. intros o Ho1. apply Hout.
    apply (slots_disjoint cfg_ok 1 0 o); [discriminate|exact Ho1]. }
  split; [exact Hs1|].
  intros rd0 s0 w0 r0 c0 s0' w0' C0 Hdev0 Hf0 rd2 s2 w2 r2 c2 s2' w2' C2 Hdev2 Hf2.
  destruct (load_same cfg_ok _ _ _ _ _ _ _ _ _ _ _ _ _ _ C0 C1 Hdev0 Hf0 Hf)
    as (_ & _ & _ & Ev).
  assert (Hdev2' : w_dev w2 = w_dev wa).
  { rewrite Hdev2. apply bootinfo_close_dev. }
  destruct (update_load_props cfg_ok _ _ _ _ _ _ Fok
              (fresh_context_names (Some c1) dfd) Hin Hu
              rd2 s2 w2 r2 c2 s2' w2' Hdev2' C2 Hf2)
    as (-> & Hc & Hv & Hfl & Hfb & Hsn & _).
  split; [reflexivity|]. split; [exact Hc|]. split; [exact Hsn|].
  split.
  - unfold boot_state, bootinfo_is_in_progress, bootinfo_failed_boot_count.
    rewrite Hfl, Hfb. reflexivity.
  - rewrite Hv, Ev. unfold var_strings, fresh_context. cbn [vars set_vars].
    apply preserve_strings.
Qed.

(** X26.  boot_devinfo_init without force on a device with a valid slot, when no
    call fails: it exits with 0 and writes nothing. *)
Theorem boot_devinfo_init_keeps_store s w rc s1 w1 :
  cooperative s ->
  slot_valid (dev_slot w 0) || slot_valid (dev_slot w 1) = true ->
  boot_devinfo_init false s w = (rc, s1, w1) ->
  rc = 0 /\ w_dev w1 = w_dev w /\ w_trace w1 = w_trace w.
Proof.
  intros C Hv H. unfold boot_devinfo_init in H.
  destruct (bootinfo_open 0 s w) as [[[r octx] sa] wa] eqn:Ho.
  destruct (open_write_props cfg_ok 0 s w r octx sa wa eq_refl eq_refl C Hv Ho)
    as (-> & Wd & Wt & _ & _ & ctx & -> & _).
  cbn [Z.ltb Z.compare] in H. injection H as <- _ <-.
  destruct (close_frame ctx wa) as [A B]. rewrite A, B. auto.
Qed.

End StoreCommands.

(** ** The library calls, as their callers see them *)

Section Library.

Context {cfg : config}.
Hypothesis cfg_ok : config_ok cfg.

(** X1.  bootinfo_bootvar_set with a value that is not empty stores it under the
    name: in place, when the list has a variable of that name, and otherwise
    in a new variable at the end of the list.  The other variables, and the
    order of the list, are as before. *)
Theorem bootvar_set_stores ctx nm v :
  fst (fst (bootinfo_bootvar_set ctx nm (Some v))) = 0 -> strz v <> [] ->
  var_strings (snd (bootinfo_bootvar_set ctx nm (Some v)))
  = assoc_set (strz nm) (strz v) (var_strings ctx).
Proof. exact (set_stores_strings ctx nm v). Qed.

(** X2.  bootinfo_bootvar_set with a NULL or empty value that returns 0 has
    removed the first variable of that name, which the list had; the other
    variables, and their order, are as before. *)
Theorem bootvar_set_deletes ctx nm val :
  fst (fst (bootinfo_bootvar_set ctx nm val)) = 0 -> deleting val ->
  assoc_get (strz nm) (var_strings ctx) <> None /\
  var_strings (snd (bootinfo_bootvar_set ctx nm val))
  = assoc_del (strz nm) (var_strings ctx).
Proof. exact (set_deletes_strings ctx nm val). Qed.

(** X8.  The errors of bootinfo_bootvar_set, in the order the checks are made:
    EROFS on a read-only context; EINVAL for a name that is empty, does not
    begin with a letter or an underscore or holds another character than
    letters, digits and underscores; EINVAL for a value with a character that
    is not printable; ENAMETOOLONG for a name of 512 bytes or more.  The
    context is as before in each case. *)
Theorem bootvar_set_errors ctx nm val :
  (readonly ctx = true ->
   bootinfo_bootvar_set ctx nm val = (-1, Some EROFS, ctx)) /\
  (readonly ctx = false -> ~ name_ok (strz nm) ->
   bootinfo_bootvar_set ctx nm val = (-1, Some EINVAL, ctx)) /\
  (readonly ctx = false -> name_ok (strz nm) ->
   forall v, val = Some v -> forallb isprint (strz v) = false ->
   bootinfo_bootvar_set ctx nm val = (-1, Some EINVAL, ctx)) /\
  (readonly ctx = false -> name_ok (strz nm) ->
   match val with Some v => forallb isprint (strz v) = true | None => True end ->
   DEVINFO_BLOCK_SIZE <= zlen (strz nm) ->
   bootinfo_bootvar_set ctx nm val = (-1, Some ENAMETOOLONG, ctx)).
Proof. exact (set_error_cases ctx nm val). Qed.

(** X13.  A read-only bootinfo_open writes nothing to the device, whatever it
    finds there and whatever fails: the bytes of the device, the trace of
    writes and the soft read-only switch are as before (with force-init
    the call is refused outright).  The context it hands back is read-only
    and holds the shared lock, and on it bootinfo_update, the two marks and
    bootinfo_bootvar_set fail without changing the context or the device. *)
Theorem open_rdonly_never_writes oflags s w ret octx s' w' :
  Z.land oflags BOOTINFO_O_RDONLY <> 0 ->
  bootinfo_open oflags s w = (ret, octx, s', w') ->
  (w_dev w' = w_dev w /\ w_trace w' = w_trace w /\ w_ro w' = w_ro w) /\
  (Z.land oflags BOOTINFO_O_FORCE_INIT <> 0 -> ret = -1 /\ octx = None /\ w' = w) /\
  forall ctx, octx = Some ctx ->
    readonly ctx = true /\ w_lock w' = LockSh /\
    (forall s2 u, bootinfo_update ctx s2 u = (-1, ctx, s2, u)) /\
    (forall s2 u, bootinfo_mark_successful ctx s2 u = (-1, None, ctx, s2, u)) /\
    (forall s2 u, bootinfo_mark_in_progress ctx s2 u = (-1, None, ctx, s2, u)) /\
    (forall nm val, bootinfo_bootvar_set ctx nm val = (-1, Some EROFS, ctx)).
Proof. exact (open_rdonly_props cfg_ok oflags s w ret octx s' w'). Qed.

(** X14.  A write-mode bootinfo_open without force-init, in which no call fails,
    on a device with a valid slot: it returns 0 and writes nothing; the
    context is writable, holds the exclusive lock, and its current slot is a
    valid slot of the device whose bytes are in the buffer and whose header
    is [curinfo]. *)
Theorem open_write_loads_valid_store oflags s w ret octx s' w' :
  Z.land oflags BOOTINFO_O_RDONLY = 0 ->
  Z.land oflags BOOTINFO_O_FORCE_INIT = 0 ->
  cooperative s ->
  slot_valid (dev_slot w 0) || slot_valid (dev_slot w 1) = true ->
  bootinfo_open oflags s w = (ret, octx, s', w') ->
  ret = 0 /\ w_dev w' = w_dev w /\ w_trace w' = w_trace w /\
  w_lock w' = LockEx /\ cooperative s' /\
  exists ctx,
    octx = Some ctx /\ readonly ctx = false /\ ctx_ok ctx /\
    (current ctx = 0 \/ current ctx = 1) /\
    slot_valid (dev_slot w (current ctx)) = true /\
    infobuf ctx (current ctx) = dev_slot w (current ctx) /\
    curinfo ctx = info_of_bytes (dev_slot w (current ctx)).
Proof. exact (open_write_props cfg_ok oflags s w ret octx s' w'). Qed.

(** X16.  A successful bootinfo_update followed by a load.  For a context in step
    with the device whose names are not empty: when the store is loaded from
    the device as the update left it, and no call fails, the load returns 0,
    its current slot is the slot the update wrote, and it finds the
    variables of the context, names and values in their order, its flags and
    failed_boots, and the next serial number. *)
Theorem update_then_load ctx s w ctx' s' w' :
  ctx_ok ctx -> Forall (fun v => cstr ctx (name v) <> []) (vars ctx) ->
  in_step ctx w ->
  bootinfo_update ctx s w = (0, ctx', s', w') ->
  forall rdonly s2 w2 r ctx2 s2' w2',
    w_dev w2 = w_dev w' -> cooperative s2 ->
    find_bootinfo rdonly s2 w2 = (r, Some ctx2, s2', w2') ->
    r = 0 /\ current ctx2 = dest_slot ctx /\
    var_strings ctx2 = var_strings ctx /\
    flags (curinfo ctx2) = flags (curinfo ctx) /\
    failed_boots (curinfo ctx2) = failed_boots (curinfo ctx) /\
    sernum (curinfo ctx2) = (sernum (curinfo ctx) + 1) mod 256 /\
    varsize ctx2 = zlen (serialize (var_strings ctx)).
Proof. exact (update_load_props cfg_ok ctx s w ctx' s' w'). Qed.

(** X15.  When no call fails, bootinfo_update returns 0 exactly when the context is
    writable and its variables fit, that is when their packed size and two
    more bytes are within the variable area; and when it fails it has not
    touched the device. *)
Theorem update_succeeds_iff_fits ctx s w ret ctx' s' w' :
  ctx_ok ctx -> cooperative s ->
  bootinfo_update ctx s w = (ret, ctx', s', w') ->
  (ret = 0 <-> readonly ctx = false /\ fits ctx) /\
  (ret <> 0 -> ret = -1 /\ s' = s /\ w' = w) /\
  cooperative s'.
Proof. exact (update_fits_props cfg_ok ctx s w ret ctx' s' w'). Qed.

(** X12.  What a load finds depends on the bytes of the device alone.  Two loads in
    which no call fails, of devices that hold the same bytes, return the same
    value and find the same current slot, header and variables, whether they
    are read-only or not and in whatever pieces read() hands the data
    over. *)
Theorem load_reads_device_only ra sa wa r1 c1 sa' wa' rb sb wb r2 c2 sb' wb' :
  cooperative sa -> cooperative sb -> w_dev wa = w_dev wb ->
  find_bootinfo ra sa wa = (r1, Some c1, sa', wa') ->
  find_bootinfo rb sb wb = (r2, Some c2, sb', wb') ->
  r1 = r2 /\ current c1 = current c2 /\ curinfo c1 = curinfo c2 /\
  var_strings c1 = var_strings c2.
Proof. exact (load_same cfg_ok ra sa wa r1 c1 sa' wa' rb sb wb r2 c2 sb' wb'). Qed.

End Library.

(** ** What the initialization code keeps of the store *)

Section Reinitialization.

Context {cfg : config}.
Hypothesis cfg_ok : config_ok cfg.

(** When no call of a write-mode open fails, the list find_bootinfo leaves in
    memory is the list of the store: what any load of the device finds. *)
Lemma found_strings_load s w rd0 s0 w0 r0 c0 s0' w0' :
  cooperative s -> cooperative s0 -> w_dev w0 = w_dev w ->
  find_bootinfo rd0 s0 w0 = (r0, Some c0, s0', w0') ->
  found_strings s w = var_strings c0.
Proof.
  intros C C0 Hdev Hf0.
  assert (C1 : cooperative (snd (respond s))).
  { destruct (respond s) as [x s1] eqn:R.
    apply (respond_coop _ _ _ C) in R. tauto. }
  unfold found_strings, open_found.
  destruct (find_bootinfo false (snd (respond s)) w) as [[[r1 oc1] s1] w1] eqn:Hf.
  cbn [fst snd].
  destruct (find_bootinfo_frame cfg_ok false _ w r1 oc1 s1 w1 Hf)
    as (_ & _ & _ & _ & Hsome).
  destruct oc1 as [c1|]; [|exfalso; now apply (Hsome C1)].
  destruct (load_same cfg_ok _ _ _ _ _ _ _ _ _ _ _ _ _ _ C0 C1 Hdev Hf0 Hf)
    as (_ & _ & _ & Ev).
  symmetry. exact Ev.
Qed.

(** C6, as the code has it.  A write-mode open that runs the initialization
    code (no valid slot was found, or force-init was asked) and returns 0
    keeps exactly the variables of the list find_bootinfo left in memory
    whose name begins with an underscore: the variable list of the new
    context holds those, with their values and in their order, and nothing
    else; the in-memory header has flags 0 and failed_boots 0; slot 0 of the
    device has flags 0, failed_boots 0 and serial number 1; and when the
    store is opened again on that device and the environment fails no call,
    slot 0 is current and the context has those same variables, flags 0,
    failed_boots 0 and serial number 1.  When no call of the open fails, the
    list in memory is the list of the store, what a load of the device as it
    was before the open finds: then every variable of the store whose name
    begins with an underscore survives, and no other.  When find_bootinfo
    hands back no context, the list in memory is empty and the new store has
    no variables, whatever the store held. *)
Theorem reinit_preserves_underscore oflags s w ctx' s' w' :
  Z.land oflags BOOTINFO_O_RDONLY = 0 ->
  Z.land oflags BOOTINFO_O_FORCE_INIT <> 0 \/
  fst (fst (fst (find_bootinfo false (snd (respond s)) w))) <> 0 ->
  bootinfo_open oflags s w = (0, Some ctx', s', w') ->
  (var_strings ctx' = filter underscore (found_strings s w) /\
   flags (curinfo ctx') = 0 /\ failed_boots (curinfo ctx') = 0 /\
   (let h := info_of_bytes (dev_slot w' 0) in
    flags h = 0 /\ failed_boots h = 0 /\ sernum h = 1) /\
   (forall rdonly s2 w2 r ctx2 s2' w2',
      w_dev w2 = w_dev w' -> cooperative s2 ->
      find_bootinfo rdonly s2 w2 = (r, Some ctx2, s2', w2') ->
      r = 0 /\ current ctx2 = 0 /\
      var_strings ctx2 = filter underscore (found_strings s w) /\
      flags (curinfo ctx2) = 0 /\ failed_boots (curinfo ctx2) = 0 /\
      sernum (curinfo ctx2) = 1)) /\
  (cooperative s ->
   forall rd0 s0 w0 r0 c0 s0' w0',
     cooperative s0 -> w_dev w0 = w_dev w ->
     find_bootinfo rd0 s0 w0 = (r0, Some c0, s0', w0') ->
     found_strings s w = var_strings c0 /\
     var_strings ctx' = filter underscore (var_strings c0)) /\
  (open_found s w = None -> found_strings s w = [] /\ var_strings ctx' = []).
Proof.
  intros Hw Hinit H.
  pose proof (reinit_underscore_props cfg_ok oflags s w ctx' s' w' Hw Hinit H) as P.
  split; [exact P|]. destruct P as (Hv & _). split.
  - intros C rd0 s0 w0 r0 c0 s0' w0' C0 Hdev Hf0.
    pose proof (found_strings_load s w rd0 s0 w0 r0 c0 s0' w0' C C0 Hdev Hf0) as E.
    split; [exact E|]. rewrite Hv, E. reflexivity.
  - intros Hn. assert (E : found_strings s w = []).
    { unfold found_strings. rewrite Hn. reflexivity. }
    split; [exact E|]. rewrite Hv, E. reflexivity.
Qed.

End Reinitialization.

(** The forced initialization of the store of the first session, which holds
    [foo=bar] and [_k=1], in an environment that fails no call: it keeps
    [_k=1] and drops [foo=bar]. *)
Lemma reinit_preserves_underscore_witness :
  @found_strings small_config [] closed_world
  = [([102; 111; 111], [98; 97; 114]); ([95; 107], [49])] /\
  @found_strings small_config [] closed_world = var_strings (ctx_of second_find) /\
  var_strings (ctx_of force_open) = [([95; 107], [49])] /\
  var_strings (ctx_of force_open)
  = filter underscore (var_strings (ctx_of second_find)) /\
  sernum (info_of_bytes (@dev_slot small_config (snd force_open) 0)) = 1.
Proof.
  assert (Hs : @found_strings small_config [] closed_world
               = [([102; 111; 111], [98; 97; 114]); ([95; 107], [49])])
    by (vm_compute; reflexivity).
  assert (R : force_open
              = (0, Some (ctx_of force_open), snd (fst force_open), snd force_open)).
  { apply run4_some; vm_compute; [reflexivity|discriminate]. }
  assert (R0 : second_find
               = (0, Some (ctx_of second_find), snd (fst second_find),
                  snd second_find)).
  { apply run4_some; vm_compute; [reflexivity|discriminate]. }
  assert (Hfi : Z.land BOOTINFO_O_FORCE_INIT BOOTINFO_O_FORCE_INIT <> 0)
    by (vm_compute; discriminate).
  assert (C : cooperative []) by constructor.
  pose proof (@reinit_preserves_underscore small_config small_config_ok
                BOOTINFO_O_FORCE_INIT [] closed_world _ _ _ eq_refl
                (or_introl Hfi) R) as H.
  destruct H as ((Hv & _ & _ & Hd & _) & Hc & _).
  cbv zeta in Hd. apply proj2, proj2 in Hd.
  pose proof (Hc C true [] closed_world 0 _ _ _ C eq_refl R0) as (E1 & E2).
  rewrite Hs in Hv.
  split; [exact Hs|]. split; [exact E1|]. split; [exact Hv|].
  split; [exact E2|exact Hd].
Defined.

(** C6 as it is written fails.  The device the first session left holds
    [foo=bar] and [_k=1].  In a forced initialization of it in which flock
    fails, find_bootinfo hands back no context, so the list in memory is
    empty; bootinfo_open initializes the store and returns 0, and a load of
    the device as it is left finds a valid store without variables: [_k] has
    not survived. *)
Lemma force_init_without_lock_drops_underscore :
  var_strings (ctx_of second_find)
  = [([102; 111; 111], [98; 97; 114]); ([95; 107], [49])] /\
  Z.land BOOTINFO_O_FORCE_INIT BOOTINFO_O_RDONLY = 0 /\
  fst (fst (fst unlocked_force_open)) = 0 /\
  @open_found small_config unlocked_script closed_world = None /\
  var_strings (ctx_of unlocked_force_open) = [] /\
  fst (fst (fst after_unlocked_find)) = 0 /\
  var_strings (ctx_of after_unlocked_find) = [].
Proof. vm_compute. repeat split; reflexivity. Qed.

(** ** The soft read-only switch, and the context that is freed twice *)

Lemma set_status_fault (dev : list Z) (b : bool) (w : world) :
  w_fault (snd (set_bootdev_writeable_status dev b w)) = w_fault w.
Proof.
  unfold set_bootdev_writeable_status.
  destruct ((zlen (strz dev) <? 6) || (zlen (strz dev) >? 32)); [reflexivity|].
  destruct (w_ro w) as [ro|]; [|reflexivity].
  destruct (Bool.eqb b (negb ro)); reflexivity.
Qed.

(** With a device name it accepts, and the sysfs attribute present,
    set_bootdev_writeable_status leaves the switch as asked. *)
Lemma set_status_ro (dev : list Z) (b : bool) (w : world) (ro : bool) :
  6 <= zlen (strz dev) <= 32 -> w_ro w = Some ro ->
  w_ro (snd (set_bootdev_writeable_status dev b w)) = Some (negb b).
Proof.
  intros Hl Hr. unfold set_bootdev_writeable_status.
  destruct (Z.ltb_spec (zlen (strz dev)) 6); [lia|].
  rewrite Z.gtb_ltb. destruct (Z.ltb_spec 32 (zlen (strz dev))); [lia|].
  cbn [orb]. rewrite Hr.
  destruct b, ro; cbn; try exact Hr; reflexivity.
Qed.

(** It refuses the empty name. *)
Lemma set_status_empty (b : bool) (w : world) :
  set_bootdev_writeable_status [] b w = (false, w).
Proof. reflexivity. Qed.

Lemma write_loop_aux (s : script) :
  forall (w : world) (buf : list Z) (base n size : Z) n' s' w',
    write_loop s w buf base n size = (n', s', w') ->
    w_ro w' = w_ro w /\ w_fault w' = w_fault w.
Proof.
  induction s as [|r s IH]; intros w buf base n size n' s' w' H;
    simpl in H; destruct (n <? size).
  - injection H as _ _ <-. split; reflexivity.
  - injection H as _ _ <-. split; reflexivity.
  - destruct (r <? 0).
    + injection H as _ _ <-. split; reflexivity.
    + apply IH in H. exact H.
  - injection H as _ _ <-. split; reflexivity.
Qed.

Lemma read_loop_aux (s : script) :
  forall (w : world) (buf : list Z) (base n size : Z) n' buf' s' w',
    read_loop s w buf base n size = (n', buf', s', w') ->
    w_ro w' = w_ro w /\ w_fault w' = w_fault w.
Proof.
  induction s as [|r s IH]; intros w buf base n size n' buf' s' w' H;
    simpl in H; destruct (n <? size).
  - injection H as _ _ _ <-. split; reflexivity.
  - injection H as _ _ _ <-. split; reflexivity.
  - destruct (r <? 0).
    + injection H as _ _ _ <-. split; reflexivity.
    + apply IH in H. exact H.
  - injection H as _ _ _ <-. split; reflexivity.
Qed.

Section Faults.

Context {cfg : config}.
Hypothesis cfg_ok : config_ok cfg.

Lemma write_slot_aux (i : Z) (buf : list Z) s w ok s' w' :
  write_slot i buf s w = (ok, s', w') ->
  w_ro w' = w_ro w /\ w_fault w' = w_fault w.
Proof.
  intros H. unfold write_slot in H.
  destruct (respond s) as [r1 s1].
  destruct (r1 <? 0); [injection H as _ _ <-; split; reflexivity|].
  destruct (write_loop s1 _ buf 0 0 DEVINFO_BLOCK_SIZE) as [[n1 s2] w1] eqn:W1.
  apply write_loop_aux in W1. cbn [sys_lseek w_ro w_fault] in W1.
  destruct (n1 <? DEVINFO_BLOCK_SIZE); [injection H as _ _ <-; exact W1|].
  destruct (respond s2) as [r2 s3].
  destruct (r2 <? 0); [injection H as _ _ <-; exact W1|].
  destruct (write_loop s3 _ buf DEVINFO_BLOCK_SIZE 0 EXTENSION_SIZE)
    as [[n2 s4] w2] eqn:W2.
  apply write_loop_aux in W2. cbn [sys_lseek w_ro w_fault] in W2.
  destruct W1 as [A1 A2]. destruct W2 as [B1 B2]. rewrite A1 in B1. rewrite A2 in B2.
  destruct (n2 <? EXTENSION_SIZE); injection H as _ _ <-; split; assumption.
Qed.

Lemma load_slot_aux (i : Z) ctx s w ctx' s' w' :
  load_slot i ctx s w = (ctx', s', w') ->
  w_fault w' = w_fault w /\ devinfo_dev ctx' = devinfo_dev ctx.
Proof.
  intros H. unfold load_slot in H.
  assert (Si : forall c b, devinfo_dev (set_infobuf c i b) = devinfo_dev c).
  { intros c b. unfold set_infobuf. destruct (i =? 0); reflexivity. }
  assert (Sv : forall c, devinfo_dev (set_valid c i) = devinfo_dev c).
  { intros c. unfold set_valid. destruct (i =? 0); reflexivity. }
  destruct (respond s) as [r1 s1].
  destruct (r1 <? 0); [injection H as <- _ <-; split; reflexivity|].
  destruct (read_loop s1 _ (infobuf ctx i) 0 0 DEVINFO_BLOCK_SIZE)
    as [[[n1 b1] s2] w1] eqn:L1.
  apply read_loop_aux in L1. cbn [sys_lseek w_ro w_fault] in L1.
  destruct L1 as [_ A].
  repeat match type of H with
         | (if ?b then _ else _) = _ => destruct b
         | (let '(_, _) := respond ?x in _) = _ => destruct (respond x)
         end;
    try (injection H as <- _ <-; rewrite ?Sv, ?Si; split; [exact A|reflexivity]).
  destruct (read_loop _ _ _ DEVINFO_BLOCK_SIZE 0 EXTENSION_SIZE)
    as [[[n2 b2] s4] w2] eqn:L2.
  apply read_loop_aux in L2. cbn [sys_lseek w_ro w_fault] in L2.
  destruct L2 as [_ B]. rewrite A in B.
  repeat match type of H with
         | (if ?b then _ else _) = _ => destruct b
         end;
    injection H as <- _ <-; rewrite ?Sv, ?Si; split; try exact B; reflexivity.
Qed.

(** find_bootinfo frees nothing twice; the context it hands back holds the
    name of the storage device, and a write-mode call leaves the switch as
    set_bootdev_writeable_status has set it after the lock was taken. *)
Lemma find_bootinfo_aux rdonly s w r octx s' w' :
  find_bootinfo rdonly s w = (r, octx, s', w') ->
  w_fault w' = w_fault w /\
  forall c, octx = Some c ->
    devinfo_dev c = strz BOOTINFO_STORAGE_DEVICE /\
    (rdonly = false ->
     w_ro w'
     = w_ro (snd (set_bootdev_writeable_status
                    (strz BOOTINFO_STORAGE_DEVICE) true w))).
Proof.
  intros H. unfold find_bootinfo in H.
  set (cz := set_devinfo_dev (set_readonly ctx_zero rdonly) BOOTINFO_STORAGE_DEVICE) in *.
  change (devinfo_dev cz) with (strz BOOTINFO_STORAGE_DEVICE) in H.
  set (dev := strz BOOTINFO_STORAGE_DEVICE) in *.
  destruct (respond s) as [dirfd s1].
  destruct (if dirfd <? 0 then respond s1 else (0, s1)) as [mk s2].
  destruct ((dirfd <? 0) && (mk <? 0)).
  { injection H as _ <- _ <-. split; [|discriminate].
    destruct (negb rdonly); [apply set_status_fault|reflexivity]. }
  destruct (if dirfd <? 0 then respond s2 else (dirfd, s2)) as [d2 s3].
  destruct (respond s3) as [lkfd s4].
  destruct (lkfd <? 0); [injection H as _ <- _ <-; split; [reflexivity|discriminate]|].
  destruct (respond s4) as [rf s5].
  destruct (rf <? 0); [injection H as _ <- _ <-; split; [reflexivity|discriminate]|].
  destruct (respond s5) as [dfd s6].
  set (wl := sys_flock (if rdonly then LockSh else LockEx) w) in *.
  set (wg := if negb rdonly then snd (set_bootdev_writeable_status dev true wl)
             else wl) in *.
  assert (Wf : w_fault wg = w_fault w).
  { unfold wg. destruct (negb rdonly); [rewrite set_status_fault|]; reflexivity. }
  assert (Wr : rdonly = false ->
               w_ro wg = w_ro (snd (set_bootdev_writeable_status dev true w))).
  { intros ->. unfold wg, wl. cbn [negb].
    unfold set_bootdev_writeable_status. cbn [sys_flock w_ro].
    destruct ((zlen (strz dev) <? 6) || (zlen (strz dev) >? 32)); [reflexivity|].
    destruct (w_ro w) as [ro|]; [|reflexivity].
    destruct (Bool.eqb true (negb ro)); reflexivity. }
  destruct (dfd <? 0).
  { injection H as _ <- _ <-. split; [|discriminate].
    cbn [sys_close_lock w_fault].
    destruct (negb rdonly); [rewrite set_status_fault|]; exact Wf. }
  set (c0 := set_fds cz dfd lkfd) in *.
  destruct (load_slot 0 c0 s6 (sys_open_dev wg)) as [[c1 s7] w1] eqn:L0.
  destruct (load_slot 1 c1 s7 w1) as [[c2 s8] w2] eqn:L1.
  destruct (load_slot_aux _ _ _ _ _ _ _ L0) as [A0 D0].
  destruct (load_slot_aux _ _ _ _ _ _ _ L1) as [A1 D1].
  apply (load_slot_spec cfg_ok) in L0; [|apply (zlen_zero_buf cfg_ok)].
  destruct L0 as (b0 & v0 & E1 & Z0 & _ & _ & O0 & _).
  assert (Z1' : zlen (infobuf c1 1) = INFOBUF_SIZE).
  { rewrite E1. destruct v0; unfold c0, cz; cbn; apply (zlen_zero_buf cfg_ok). }
  apply (load_slot_spec cfg_ok) in L1; [|exact Z1'].
  destruct L1 as (b1 & v1 & E2 & Z1 & _ & _ & O1 & _).
  cbn [sys_open_dev w_ro w_fault] in O0, A0.
  assert (F2 : w_fault w2 = w_fault w) by congruence.
  assert (R2 : rdonly = false ->
               w_ro w2 = w_ro (snd (set_bootdev_writeable_status dev true w))).
  { intros E. rewrite O1, O0. exact (Wr E). }
  assert (Dc : devinfo_dev c2 = dev) by (rewrite D1, D0; reflexivity).
  assert (HB : forall i, i = 0 \/ i = 1 -> zlen (infobuf c2 i) = INFOBUF_SIZE).
  { intros i Hi. rewrite E2, E1.
    destruct Hi as [-> | ->], v0, v1; unfold c0, cz, infobuf; cbn;
      first [exact Z0 | exact Z1 | apply (zlen_zero_buf cfg_ok)]. }
  destruct (negb (valid0 c2 || valid1 c2)).
  - injection H as _ <- _ <-. split; [exact F2|].
    intros c Ec. injection Ec as <-. split; [exact Dc|exact R2].
  - set (c := choose_current c2) in *.
    set (c3 := set_current c2 c (info_of_bytes (infobuf c2 c))) in *.
    assert (Hc : c = 0 \/ c = 1) by apply choose_current_cases.
    destruct (parse_vars_spec c3) as (l & vsz & P1 & _).
    { exact Hc. }
    { change (zlen (infobuf c2 c) = INFOBUF_SIZE). apply HB. exact Hc. }
    rewrite P1 in H. cbn [Z.ltb Z.compare] in H. injection H as _ <- _ <-.
    split; [exact F2|].
    intros c' Ec. injection Ec as <-. split; [exact Dc|exact R2].
Qed.

(** bootinfo_update leaves the switch and the device name of the context
    alone and frees nothing twice. *)
Lemma update_aux ctx s w ret ctx' s' w' :
  bootinfo_update ctx s w = (ret, ctx', s', w') ->
  w_ro w' = w_ro w /\ w_fault w' = w_fault w /\
  devinfo_dev ctx' = devinfo_dev ctx.
Proof.
  intros H.
  assert (Hd : devinfo_dev ctx' = devinfo_dev ctx).
  { destruct (bootinfo_update_shape ctx s w) as [b Hb]. rewrite H in Hb.
    cbn [fst snd] in Hb. rewrite Hb. unfold set_infobuf.
    destruct (dest_slot ctx =? 0); reflexivity. }
  unfold bootinfo_update in H.
  destruct (readonly ctx); [injection H as _ _ _ <-; auto|].
  destruct (pack_vars _ (dest_slot ctx)) as [r c1].
  destruct (r <? 0); [injection H as _ _ _ <-; auto|].
  destruct (write_slot _ _ s w) as [[ok s1] w1] eqn:W.
  apply write_slot_aux in W. destruct W as [A B].
  destruct ok; injection H as _ _ _ <-; auto.
Qed.

(** close_bootinfo frees the context once; on a writable context it asks for
    the switch of the device whose name the context holds. *)
Lemma close_aux ctx (keeplock : bool) w :
  w_fault (snd (close_bootinfo ctx keeplock w)) = w_fault w /\
  w_ro (snd (close_bootinfo ctx keeplock w))
  = (if readonly ctx then w_ro w
     else w_ro (snd (set_bootdev_writeable_status (devinfo_dev ctx) false w))).
Proof.
  unfold close_bootinfo.
  destruct (readonly ctx); cbn [negb];
    destruct keeplock; try destruct (lockfd ctx >=? 0);
    cbn [snd sys_close_lock w_fault w_ro]; rewrite ?set_status_fault; auto.
Qed.

Lemma set_status_some (dev : list Z) (b : bool) (w : world) (ro : bool) :
  w_ro w = Some ro ->
  exists ro', w_ro (snd (set_bootdev_writeable_status dev b w)) = Some ro'.
Proof.
  intros Hr. unfold set_bootdev_writeable_status.
  destruct ((zlen (strz dev) <? 6) || (zlen (strz dev) >? 32)); [eauto|].
  rewrite Hr. destruct (Bool.eqb b (negb ro)); cbn; eauto.
Qed.

(** The initialization code.  When it leaves by [error_depart] it hands back
    no context, and has freed the context of find_bootinfo twice if there
    was one.  Otherwise it frees nothing twice, and the context it hands
    back holds no device name. *)
Lemma reinitialize_aux octx s w ret octx' s' w' :
  reinitialize octx s w = (ret, octx', s', w') ->
  (octx' = None ->
   ret = -1 /\
   w_fault w' = match octx with Some _ => true | None => w_fault w end) /\
  (forall c', octx' = Some c' ->
     w_fault w' = w_fault w /\ devinfo_dev c' = [] /\ readonly c' = false /\
     forall ro, 6 <= zlen (strz BOOTINFO_STORAGE_DEVICE) <= 32 ->
                w_ro w = Some ro -> w_ro w' = Some false).
Proof.
  intros H. unfold reinitialize in H.
  set (pl := match octx with Some c => preserve c (vars c) | None => [] end).
  set (lk := match octx with Some c => lockfd c | None => -1 end).
  set (wc := match octx with
             | Some c => snd (close_bootinfo c true w)
             | None => w end).
  set (stale := match octx with Some _ => true | None => false end) in H.
  assert (E0 : (let '(preserve_list, lkfd, w0) :=
                  match octx with
                  | Some ctx => let pl := preserve ctx (vars ctx) in
                                let '(lkfd, w0) := close_bootinfo ctx true w in (pl, lkfd, w0)
                  | None => ([], -1, w)
                  end in (preserve_list, lkfd, w0)) = (pl, lk, wc)).
  { destruct octx; reflexivity. }
  destruct (match octx with
            | Some ctx => let pl := preserve ctx (vars ctx) in
                          let '(lkfd, w0) := close_bootinfo ctx true w in (pl, lkfd, w0)
            | None => ([], -1, w)
            end) as [[pl' lk'] wc'].
  injection E0 as -> -> ->.
  assert (Wc : w_fault wc = w_fault w /\
               forall ro, w_ro w = Some ro -> exists ro', w_ro wc = Some ro').
  { unfold wc. destruct octx as [c|]; [|eauto].
    destruct (close_aux c true w) as [A B]. split; [exact A|].
    intros ro Hr. rewrite B. destruct (readonly c); [eauto|].
    now apply (set_status_some _ _ _ ro). }
  destruct Wc as [Wf Wr].
  destruct (set_bootdev_writeable_status BOOTINFO_STORAGE_DEVICE true wc)
    as [reset wg] eqn:Eg.
  assert (Wg : w_fault wg = w_fault w /\
               forall ro, 6 <= zlen (strz BOOTINFO_STORAGE_DEVICE) <= 32 ->
                          w_ro w = Some ro -> w_ro wg = Some false).
  { split.
    - pose proof (set_status_fault BOOTINFO_STORAGE_DEVICE true wc) as F.
      rewrite Eg in F. cbn [snd] in F. congruence.
    - intros ro Hl Hr. destruct (Wr ro Hr) as [ro' Hr'].
      pose proof (set_status_ro BOOTINFO_STORAGE_DEVICE true wc ro' Hl Hr') as F.
      rewrite Eg in F. exact F. }
  destruct Wg as [Gf Gr].
  assert (Err : forall lkfd rst t u, w_fault u = w_fault w ->
            error_depart stale lkfd rst t u = (ret, octx', s', w') ->
            octx' = None /\ ret = -1 /\
            w_fault w' = match octx with Some _ => true | None => w_fault w end).
  { intros lkfd rst t u F E. unfold error_depart in E.
    injection E as <- <- _ <-. split; [reflexivity|]. split; [reflexivity|].
    unfold stale. destruct octx; cbn [sys_free_again w_fault]; [reflexivity|].
    destruct rst; rewrite ?set_status_fault;
      destruct (lkfd >=? 0); cbn [sys_close_lock w_fault]; exact F. }
  assert (Fin : forall lkfd rst t u, w_fault u = w_fault w ->
            error_depart stale lkfd rst t u = (ret, octx', s', w') ->
            (octx' = None ->
             ret = -1 /\
             w_fault w' = match octx with Some _ => true | None => w_fault w end) /\
            (forall c', octx' = Some c' ->
               w_fault w' = w_fault w /\ devinfo_dev c' = [] /\
               readonly c' = false /\
               forall ro, 6 <= zlen (strz BOOTINFO_STORAGE_DEVICE) <= 32 ->
                          w_ro w = Some ro -> w_ro w' = Some false)).
  { intros lkfd rst t u F E. destruct (Err lkfd rst t u F E) as (-> & A & B).
    split; [auto|discriminate]. }
  destruct (respond s) as [dfd s1].
  destruct (dfd <? 0); [exact (Fin _ _ _ _ Gf H)|].
  destruct (write_slot 0 _ s1 (sys_open_dev wg)) as [[ok0 s2] w1] eqn:W0.
  apply write_slot_aux in W0. cbn [sys_open_dev w_ro w_fault] in W0.
  destruct W0 as [A1 A2].
  destruct ok0; [|cbn [negb] in H; apply (Fin _ _ _ _ (eq_trans A2 Gf) H)].
  destruct (write_slot 1 _ s2 w1) as [[ok1 s3] w2] eqn:W1.
  apply write_slot_aux in W1. destruct W1 as [B1 B2].
  destruct ok1;
    [|cbn [negb] in H; apply (Fin _ _ _ _ (eq_trans B2 (eq_trans A2 Gf)) H)].
  cbn [negb] in H.
  destruct (bootinfo_update _ s3 w2) as [[[r c] s4] w3] eqn:U.
  injection H as _ <- _ <-.
  destruct (update_aux _ _ _ _ _ _ _ U) as (U1 & U2 & U3).
  destruct (update_frame_props cfg_ok _ _ _ _ _ _ _ U)
    as ((_ & _ & Fr & _) & _).
  split; [discriminate|].
  intros c' Ec. injection Ec as <-.
  split; [congruence|]. split; [exact U3|]. split; [exact Fr|].
  intros ro Hl Hr. rewrite U1, B1, A1. exact (Gr ro Hl Hr).
Qed.


(** X28.  The soft read-only switch of the device after a write session,
    when the sysfs attribute is present and the name of the storage device
    is one set_bootdev_writeable_status accepts.  A write-mode bootinfo_open
    that returns 0 leaves the device writeable.  When the open has loaded an
    existing store, bootinfo_close makes the device read-only again; when it
    has run the initialization code, the context holds no device name and
    bootinfo_close leaves the device writeable.  The same holds when the
    session is closed after a bootinfo_update. *)
Theorem close_after_init_leaves_writeable oflags s w ctx s' w' (ro : bool) :
  Z.land oflags BOOTINFO_O_RDONLY = 0 ->
  6 <= zlen (strz BOOTINFO_STORAGE_DEVICE) <= 32 -> w_ro w = Some ro ->
  bootinfo_open oflags s w = (0, Some ctx, s', w') ->
  let initialized :=
    Z.land oflags BOOTINFO_O_FORCE_INIT <> 0 \/
    fst (fst (fst (find_bootinfo false (snd (respond s)) w))) <> 0 in
  w_ro w' = Some false /\
  (~ initialized ->
   w_ro (bootinfo_close ctx w') = Some true /\
   forall s2 ret c2 s2' w2,
     bootinfo_update ctx s2 w' = (ret, c2, s2', w2) ->
     w_ro (bootinfo_close c2 w2) = Some true) /\
  (initialized ->
   w_ro (bootinfo_close ctx w') = Some false /\
   forall s2 ret c2 s2' w2,
     bootinfo_update ctx s2 w' = (ret, c2, s2', w2) ->
     w_ro (bootinfo_close c2 w2) = Some false).
Proof.
  intros Hw Hl Hr H initialized.
  destruct (bootinfo_open_write oflags s w 0 (Some ctx) s' w' Hw H)
    as [(_ & E & _)|(_ & r0 & oc0 & s0 & w0 & Hf & Hcase)]; [discriminate E|].
  unfold initialized. rewrite Hf. cbn [fst].
  destruct (find_bootinfo_aux _ _ _ _ _ _ _ Hf) as [_ Fa].
  assert (Close : forall c u (b : bool),
            readonly c = false -> w_ro u = Some false ->
            devinfo_dev c = (if b then strz BOOTINFO_STORAGE_DEVICE else []) ->
            w_ro (bootinfo_close c u) = Some b).
  { intros c u b Hro Hu Hd. unfold bootinfo_close.
    destruct (close_aux c false u) as [_ B]. rewrite B, Hro, Hd.
    destruct b.
    - apply (set_status_ro _ false u false); [rewrite strz_idem; exact Hl|exact Hu].
    - rewrite set_status_empty. exact Hu. }
  assert (After : forall (b : bool),
            readonly ctx = false -> w_ro w' = Some false ->
            devinfo_dev ctx = (if b then strz BOOTINFO_STORAGE_DEVICE else []) ->
            w_ro (bootinfo_close ctx w') = Some b /\
            forall s2 ret c2 s2' w2,
              bootinfo_update ctx s2 w' = (ret, c2, s2', w2) ->
              w_ro (bootinfo_close c2 w2) = Some b).
  { intros b Hro Hu Hd. split; [now apply Close|].
    intros s2 ret c2 s2' w2 U.
    destruct (update_aux _ _ _ _ _ _ _ U) as (U1 & _ & U3).
    destruct (update_frame_props cfg_ok _ _ _ _ _ _ _ U)
      as ((_ & _ & Fr & _) & _).
    apply Close; congruence. }
  destruct Hcase as [(c & Ec & E0 & Ef & _ & Ec' & _ & Ew)|(Hwhy & Hre)].
  - injection Ec' as Ec'. subst c oc0 w'.
    destruct (Fa ctx eq_refl) as (Fd & Fro).
    destruct (find_bootinfo_spec cfg_ok false _ w r0 ctx s0 w0 Hf) as (F1 & _).
    assert (Hs : w_ro w0 = Some false).
    { rewrite (Fro eq_refl).
      apply (set_status_ro _ true w ro); [rewrite strz_idem; exact Hl|exact Hr]. }
    split; [exact Hs|]. split.
    + intros _. exact (After true F1 Hs Fd).
    + intros [E|E]; contradiction.
  - destruct (reinitialize_aux _ _ _ _ _ _ _ Hre) as [_ S].
    destruct (S ctx eq_refl) as (_ & Fd & Fro & Fw).
    assert (Hs0 : exists ro0, w_ro w0 = Some ro0).
    { destruct oc0 as [c0|].
      - destruct (Fa c0 eq_refl) as (_ & Fo). rewrite (Fo eq_refl).
        now apply (set_status_some _ _ _ ro).
      - clear - Hf Hr. unfold find_bootinfo in Hf.
        repeat match type of Hf with
               | (let '(_, _) := ?x in _) = _ => destruct x
               | (if ?b then _ else _) = _ => destruct b
               end; try discriminate Hf;
          injection Hf as _ _ <-; cbn [negb sys_close_lock w_ro];
          repeat match goal with
                 | |- exists _, w_ro (snd (set_bootdev_writeable_status ?d ?b ?u)) = _ =>
                     let K := fresh in
                     assert (K : exists r, w_ro u = Some r);
                     [|destruct K as [? K]; exact (set_status_some d b u _ K)]
                 end; cbn [sys_flock w_ro]; eauto. }
    destruct Hs0 as [ro0 Hr0].
    pose proof (Fw ro0 Hl Hr0) as Hs.
    split; [exact Hs|]. split.
    + intros Hn. exfalso. apply Hn.
      destruct Hwhy as [E|[E|E]]; auto.
      subst oc0. right.
      destruct (find_bootinfo_frame cfg_ok false _ w r0 None s0 w0 Hf)
        as (_ & _ & _ & Hnone & _). rewrite (Hnone eq_refl). discriminate.
    + intros _. exact (After false Fro Hs Fd).
Qed.

End Faults.

(** ** The properties on the sample sessions *)

Lemma cooperative_by_forallb (s : script) :
  forallb (fun r => 0 <=? r) s = true -> cooperative s.
Proof.
  intros H. apply (Forall_by_forallb _ (fun r => 0 <=? r)); [|exact H].
  intros x Hx. apply Z.leb_le. exact Hx.
Qed.

Lemma byte_serials_by_slots {cfg : config} (w : world) :
  0 <= sernum (info_of_bytes (dev_slot w 0)) < 256 ->
  0 <= sernum (info_of_bytes (dev_slot w 1)) < 256 ->
  byte_serials w.
Proof.
  intros H0 H1 i. destruct (Z.eqb_spec i 0) as [->|Hi]; [exact H0|].
  assert (E : dev_slot w i = dev_slot w 1).
  { unfold dev_slot, devinfo_offset.
    destruct (Z.eqb_spec i 0); [contradiction|reflexivity]. }
  rewrite E. exact H1.
Qed.

Lemma run3 {A B C : Type} (x : A * B * C) (a : A) :
  fst (fst x) = a -> x = (a, snd (fst x), snd x).
Proof. destruct x as [[a' b] c]. cbn. now intros ->. Qed.

Lemma second_names_nodup : NoDup (map fst (var_strings second_ctx)).
Proof.
  vm_compute. constructor; [intros [E|[]]; discriminate E|].
  constructor; [intros []|constructor].
Qed.

Lemma second_vars_ok : Forall var_ok (var_strings second_ctx).
Proof.
  apply (Forall_by_forallb _
           (fun nv => negb (bytes_eqb (fst nv) [])
                      && ((hd 0 (fst nv) =? 95) || isalpha (hd 0 (fst nv)))
                      && forallb (fun c => (c =? 95) || isalnum c) (tl (fst nv))
                      && negb (bytes_eqb (snd nv) [])
                      && forallb isprint (snd nv))).
  - intros [n v] H. cbn [fst snd] in H.
    apply andb_true_iff in H. destruct H as [H H5].
    apply andb_true_iff in H. destruct H as [H H4].
    apply andb_true_iff in H. destruct H as [H H3].
    apply andb_true_iff in H. destruct H as [H1 H2].
    unfold var_ok, name_ok. cbn [fst snd]. splits; auto.
    + intros ->. discriminate H1.
    + intros ->. discriminate H4.
  - vm_compute. reflexivity.
Qed.

Lemma second_names : Forall (fun v => cstr second_ctx (name v) <> []) (vars second_ctx).
Proof.
  apply (Forall_by_forallb _ (fun v => 0 <? zlen (cstr second_ctx (name v)))).
  - intros v Hv E. rewrite E in Hv. discriminate Hv.
  - vm_compute. reflexivity.
Qed.

(** In the second session [foo=bar] becomes [foo=baz], in place. *)
Lemma bootvar_set_stores_witness :
  var_strings (snd second_set)
  = assoc_set (strz name_foo) (strz value_baz) (var_strings second_ctx).
Proof.
  assert (H1 : fst (fst second_set) = 0) by (vm_compute; reflexivity).
  assert (H2 : strz value_baz <> []) by (vm_compute; discriminate).
  exact (@bootvar_set_stores small_config second_ctx name_foo value_baz H1 H2).
Defined.

(** In the second session [foo] is deleted. *)
Lemma bootvar_set_deletes_witness :
  assoc_get (strz name_foo) (var_strings second_ctx) <> None /\
  var_strings (snd second_delete)
  = assoc_del (strz name_foo) (var_strings second_ctx).
Proof.
  assert (H1 : fst (fst second_delete) = 0) by (vm_compute; reflexivity).
  exact (@bootvar_set_deletes small_config second_ctx name_foo None H1 I).
Defined.

(** After [foo=baz] in the second session, [foo] reads [baz]. *)
Lemma bootvar_get_after_set_witness :
  bootinfo_bootvar_get (snd second_set) (strz name_foo)
  = Some (strz value_baz).
Proof.
  assert (H1 : fst (fst second_set) = 0) by (vm_compute; reflexivity).
  assert (H2 : strz value_baz <> []) by (vm_compute; discriminate).
  exact (@bootvar_get_after_set small_config second_ctx name_foo value_baz H1 H2).
Defined.

(** After [foo=baz] in the second session, [_k] reads what it read before. *)
Lemma bootvar_get_other_after_set_witness :
  bootinfo_bootvar_get (snd second_set) name_k
  = bootinfo_bootvar_get second_ctx name_k.
Proof.
  assert (H1 : fst (fst second_set) = 0) by (vm_compute; reflexivity).
  assert (H2 : name_k <> strz name_foo) by (vm_compute; discriminate).
  exact (@bootvar_get_other_after_set small_config second_ctx name_foo
           (Some value_baz) name_k H1 H2).
Defined.

(** The list of the second session is in shape, and still is after
    [foo=baz]. *)
Lemma bootvar_set_keeps_shape_witness :
  NoDup (map fst (var_strings (snd second_set))) /\
  Forall var_ok (var_strings (snd second_set)).
Proof.
  assert (H1 : fst (fst second_set) = 0) by (vm_compute; reflexivity).
  exact (@bootvar_set_keeps_shape small_config second_ctx name_foo
           (Some value_baz) H1 second_names_nodup second_vars_ok).
Defined.

(** After [foo] is deleted in the second session, it is not found. *)
Lemma bootvar_get_after_delete_witness :
  bootinfo_bootvar_get (snd second_delete) (strz name_foo) = None.
Proof.
  assert (H1 : fst (fst second_delete) = 0) by (vm_compute; reflexivity).
  exact (@bootvar_get_after_delete small_config second_ctx name_foo None H1 I
           second_names_nodup).
Defined.

(** Deleting [no] in the second session fails with ENOENT. *)
Lemma bootvar_delete_missing_witness :
  @bootinfo_bootvar_set small_config second_ctx name_absent None
  = (-1, Some ENOENT, second_ctx).
Proof.
  assert (H1 : readonly second_ctx = false) by (vm_compute; reflexivity).
  assert (H2 : name_ok (strz name_absent)).
  { unfold name_ok. split; [vm_compute; discriminate|].
    split; vm_compute; reflexivity. }
  assert (H3 : zlen (strz name_absent) < DEVINFO_BLOCK_SIZE)
    by (vm_compute; reflexivity).
  assert (H4 : bootinfo_bootvar_get second_ctx (strz name_absent) = None)
    by (vm_compute; reflexivity).
  exact (@bootvar_delete_missing small_config second_ctx name_absent None
           H1 H2 H3 I H4).
Defined.

(** Three calls of the iterator visit the two variables of the second
    session. *)
Lemma bootvar_iterate_visits_all_witness :
  iterate_all 3 second_ctx []
  = map (fun v => (name v, value v)) (vars second_ctx).
Proof.
  assert (H : (length (vars second_ctx) < 3)%nat)
    by (apply Nat.ltb_lt; vm_compute; reflexivity).
  exact (proj1 (@bootvar_iterate_visits_all second_ctx 3 H)).
Defined.

(** The loop over the iterator finds [_k] in the second session. *)
Lemma bootvar_get_by_iteration_witness :
  option_map (cstr second_ctx) (get_loop 3 second_ctx [] name_k)
  = assoc_get name_k (var_strings second_ctx).
Proof.
  assert (H : (length (vars second_ctx) < 3)%nat)
    by (apply Nat.ltb_lt; vm_compute; reflexivity).
  exact (proj1 (@bootvar_get_by_iteration second_ctx name_k 3 H)).
Defined.

(** parse_vars on the context of the second session reads back the two
    variables slot 0 holds. *)
Lemma parse_vars_reads_back_witness :
  fst (@parse_vars small_config second_ctx) = 0 /\
  varsize (snd (@parse_vars small_config second_ctx))
  = zlen (serialize (var_strings (snd (@parse_vars small_config second_ctx)))).
Proof.
  assert (H1 : current second_ctx = 0 \/ current second_ctx = 1)
    by (left; vm_compute; reflexivity).
  assert (H2 : zlen (infobuf second_ctx (current second_ctx))
               = @INFOBUF_SIZE small_config) by (vm_compute; reflexivity).
  pose proof (@parse_vars_reads_back small_config small_config_ok second_ctx H1 H2)
    as H.
  cbv zeta in H. destruct H as (Ha & _ & Hb & _).
  split; [exact Ha|exact Hb].
Defined.

Lemma run3_eta {A B C : Type} (x : A * B * C) : x = (fst (fst x), snd (fst x), snd x).
Proof. now destruct x as [[a b] c]. Qed.

Lemma run4_eta {A B C D : Type} (x : A * B * C * D) :
  x = (fst (fst (fst x)), snd (fst (fst x)), snd (fst x), snd x).
Proof. now destruct x as [[[a b] c] d]. Qed.

Lemma no_script_cooperative : cooperative [].
Proof. constructor. Qed.

Lemma second_find_runs :
  second_find = (0, Some (ctx_of second_find), snd (fst second_find), snd second_find).
Proof. apply run4_some; vm_compute; [reflexivity|discriminate]. Qed.

Lemma closed_world_serials : @byte_serials small_config closed_world.
Proof.
  apply byte_serials_by_slots; (split; [apply Z.leb_le|apply Z.ltb_lt]);
    vm_compute; reflexivity.
Qed.

Lemma second_in_step : @in_step small_config second_ctx second_world.
Proof.
  split; [split; [apply Z.leb_le|apply Z.ltb_lt]; vm_compute; reflexivity|].
  left. split; [left; vm_compute; reflexivity|].
  split; vm_compute; reflexivity.
Qed.

(** A read-only load of the device the first session left, and a write-mode
    load of it in which read hands the header over in three pieces, find the
    same store. *)
Lemma load_reads_device_only_witness :
  current (ctx_of second_find) = current (ctx_of chunked_find) /\
  curinfo (ctx_of second_find) = curinfo (ctx_of chunked_find) /\
  var_strings (ctx_of second_find) = var_strings (ctx_of chunked_find).
Proof.
  assert (C2 : cooperative chunked_script).
  { apply cooperative_by_forallb. vm_compute. reflexivity. }
  assert (R2 : chunked_find
               = (0, Some (ctx_of chunked_find), snd (fst chunked_find),
                  snd chunked_find)).
  { apply run4_some; vm_compute; [reflexivity|discriminate]. }
  pose proof (@load_reads_device_only small_config small_config_ok
                true [] closed_world 0 _ _ _ false chunked_script closed_world
                0 _ _ _ no_script_cooperative C2 eq_refl second_find_runs R2) as H.
  exact (proj2 H).
Defined.

(** A read-only open of the device the first session left writes nothing and
    holds the shared lock. *)
Lemma open_rdonly_never_writes_witness :
  w_dev (snd rdonly_open) = w_dev closed_world /\
  w_trace (snd rdonly_open) = w_trace closed_world /\
  readonly (ctx_of rdonly_open) = true /\ w_lock (snd rdonly_open) = LockSh.
Proof.
  assert (H0 : Z.land BOOTINFO_O_RDONLY BOOTINFO_O_RDONLY <> 0)
    by (vm_compute; discriminate).
  assert (R : rdonly_open
              = (0, Some (ctx_of rdonly_open), snd (fst rdonly_open),
                 snd rdonly_open)).
  { apply run4_some; vm_compute; [reflexivity|discriminate]. }
  pose proof (@open_rdonly_never_writes small_config small_config_ok
                BOOTINFO_O_RDONLY [] closed_world 0 _ _ _ H0 R) as H.
  destruct H as ((A & B & _) & _ & Hc).
  destruct (Hc _ eq_refl) as (C & D & _).
  split; [exact A|]. split; [exact B|]. split; [exact C|exact D].
Defined.

(** The write-mode open of the second session returns 0, writes nothing and
    holds the exclusive lock. *)
Lemma open_write_loads_valid_store_witness :
  fst (fst (fst second_open)) = 0 /\
  w_dev (snd second_open) = w_dev closed_world /\
  w_trace (snd second_open) = w_trace closed_world /\
  w_lock (snd second_open) = LockEx.
Proof.
  assert (Hv : @slot_valid small_config (@dev_slot small_config closed_world 0)
               || @slot_valid small_config (@dev_slot small_config closed_world 1)
               = true) by (vm_compute; reflexivity).
  pose proof (@open_write_loads_valid_store small_config small_config_ok
                0 [] closed_world _ _ _ _ eq_refl eq_refl no_script_cooperative
                Hv (run4_eta second_open)) as H.
  destruct H as (A & B & C & D & _).
  split; [exact A|]. split; [exact B|]. split; [exact C|exact D].
Defined.

(** The update of the second session returns 0: its context is writable and
    its two variables fit. *)
Lemma update_succeeds_iff_fits_witness :
  readonly second_ctx = false /\ @fits small_config second_ctx.
Proof.
  pose proof (@update_succeeds_iff_fits small_config small_config_ok
                second_ctx [] second_world 0 _ _ _ second_ctx_ok
                no_script_cooperative second_update_runs) as H.
  exact (proj1 (proj1 H) eq_refl).
Defined.

(** The load that follows the update of the second session finds slot 1
    current, with the variables of the session and the next serial
    number. *)
Lemma update_then_load_witness :
  current (ctx_of third_find) = dest_slot second_ctx /\
  var_strings (ctx_of third_find) = var_strings second_ctx /\
  sernum (curinfo (ctx_of third_find)) = (sernum (curinfo second_ctx) + 1) mod 256.
Proof.
  assert (R : third_find
              = (0, Some (ctx_of third_find), snd (fst third_find), snd third_find)).
  { apply run4_some; vm_compute; [reflexivity|discriminate]. }
  pose proof (@update_then_load small_config small_config_ok
                second_ctx [] second_world _ _ _ second_ctx_ok second_names
                second_in_step second_update_runs
                true [] reclosed_world 0 _ _ _
                (bootinfo_close_dev updated_ctx updated_world)
                no_script_cooperative R) as H.
  destruct H as (_ & A & B & _ & _ & C & _).
  split; [exact A|]. split; [exact B|exact C].
Defined.

(** An update of the second session in which the second write fails returns
    -1; slot 0, the current one, is as before, and the load that follows
    finds a store. *)
Lemma update_keeps_current_slot_witness :
  fst (fst (fst failed_update)) = -1 /\
  @dev_slot small_config (snd failed_update) (current second_ctx)
  = @dev_slot small_config second_world (current second_ctx) /\
  fst (fst (fst after_failed_find)) = 0.
Proof.
  assert (H0 : fst (fst (fst failed_update)) = -1) by (vm_compute; reflexivity).
  assert (H1 : current second_ctx = 0 \/ current second_ctx = 1)
    by (left; vm_compute; reflexivity).
  assert (H2 : @slot_valid small_config
                 (@dev_slot small_config second_world (current second_ctx)) = true)
    by (vm_compute; reflexivity).
  pose proof (@update_keeps_current_slot small_config small_config_ok
                second_ctx failing_script second_world _ _ _ _
                second_ctx_ok H1 H2 (run4_eta failed_update)) as H.
  destruct H as (A & B).
  pose proof (B true [] (snd failed_update) _ _ _ _ no_script_cooperative
                eq_refl (run4_eta after_failed_find)) as C.
  split; [exact H0|]. split; [exact A|exact (proj1 C)].
Defined.

(** show_bootinfo on the device the first session left: it writes nothing
    and prints the header fields of a valid slot. *)
Lemma show_bootinfo_reports_witness :
  (w_dev (snd sample_show_bootinfo) = w_dev closed_world /\
   w_trace (snd sample_show_bootinfo) = w_trace closed_world) /\
  exists c, (c = 0 \/ c = 1) /\
    @slot_valid small_config (@dev_slot small_config closed_world c) = true /\
    let h := info_of_bytes (@dev_slot small_config closed_world c) in
    snd (fst (fst sample_show_bootinfo))
    = Some (devinfo_version h, (if Z.land (flags h) 1 =? 0 then 0 else 1),
            failed_boots h, @EXTENSION_SECTOR_COUNT small_config) /\
    DEVINFO_VERSION_CURRENT <= devinfo_version h.
Proof.
  assert (R : sample_show_bootinfo
              = (0, snd (fst (fst sample_show_bootinfo)),
                 snd (fst sample_show_bootinfo), snd sample_show_bootinfo)).
  { apply (run4 sample_show_bootinfo). vm_compute. reflexivity. }
  pose proof (@show_bootinfo_reports small_config small_config_ok
                [] closed_world 0 _ _ _ R) as H.
  destruct H as (A & B). split; [exact A|exact (B eq_refl)].
Defined.

(** show_bootvar of [foo] on the device the first session left prints
    [foo=bar] and exits with 0. *)
Lemma show_bootvar_prints_store_witness :
  fst (fst (fst sample_show_bootvar)) = 0 /\
  snd (fst (fst sample_show_bootvar)) = [strz name_foo ++ [61] ++ [98; 97; 114]].
Proof.
  assert (E : assoc_get (strz name_foo) (var_strings (ctx_of second_find))
              = Some [98; 97; 114]) by (vm_compute; reflexivity).
  pose proof (@show_bootvar_prints_store small_config small_config_ok
                (Some name_foo) false [] closed_world _ _ _ _
                no_script_cooperative (run4_eta sample_show_bootvar)) as H.
  destruct H as (_ & H).
  pose proof (H true [] closed_world 0 _ _ _ no_script_cooperative eq_refl
                second_find_runs) as H1.
  destruct H1 as (_ & H1).
  destruct (H1 eq_refl) as (_ & H2 & _).
  exact (H2 name_foo [98; 97; 114] eq_refl E).
Defined.

(** set_bootvar of [foo=baz] on the device the first session left, and then
    show_bootvar of [foo]: it prints [foo=baz]. *)
Lemma set_bootvar_then_show_witness :
  fst (fst after_set_show) = (0, [strz name_foo ++ [61] ++ strz value_baz]).
Proof.
  assert (Hv : strz value_baz <> []) by (vm_compute; discriminate).
  assert (R : sample_set_bootvar
              = (0, snd (fst sample_set_bootvar), snd sample_set_bootvar)).
  { apply (run3 sample_set_bootvar). vm_compute. reflexivity. }
  exact (@set_bootvar_then_show small_config small_config_ok
           name_foo value_baz [] closed_world _ _ no_script_cooperative
           closed_world_serials Hv R false [] (snd sample_set_bootvar)
           no_script_cooperative eq_refl).
Defined.

(** set_bootvar of [1=baz], a name that is refused, on the device the first
    session left: it exits with 1, and the load that follows finds the other
    slot current with the next serial number and the variables of before. *)
Lemma set_bootvar_refused_rewrites_witness :
  fst (fst sample_refused_set) = 1 /\
  current (ctx_of after_refused_find) = 1 - current (ctx_of second_find) /\
  sernum (curinfo (ctx_of after_refused_find))
  = (sernum (curinfo (ctx_of second_find)) + 1) mod 256 /\
  var_strings (ctx_of after_refused_find) = var_strings (ctx_of second_find).
Proof.
  assert (Hn : ~ name_ok (strz [49])).
  { unfold name_ok. intros (_ & H & _). vm_compute in H. discriminate H. }
  assert (Hq : Some value_baz = None -> ~ In 61 (strz [49]))
    by (intros E; discriminate E).
  assert (Hf : @fits small_config (ctx_of second_find))
    by (apply Z.leb_le; vm_compute; reflexivity).
  assert (R2 : after_refused_find
               = (0, Some (ctx_of after_refused_find),
                  snd (fst after_refused_find), snd after_refused_find)).
  { apply run4_some; vm_compute; [reflexivity|discriminate]. }
  pose proof (@set_bootvar_refused_rewrites small_config small_config_ok
                [49] (Some value_baz) [] closed_world _ _ _
                no_script_cooperative closed_world_serials Hn Hq
                (run3_eta sample_refused_set)
                true [] closed_world _ _ _ no_script_cooperative eq_refl
                second_find_runs Hf
                true [] (snd sample_refused_set) 0 _ _ _ no_script_cooperative
                eq_refl R2) as H.
  destruct H as (A & _ & B & C & _ & _ & D).
  split; [exact A|]. split; [exact B|]. split; [exact C|exact D].
Defined.

(** boot_check_status on the device the first session left, whose boot state
    is (0, 0): it exits with 0 and leaves the state (1, 0) and the variables
    as they were. *)
Lemma boot_check_status_protocol_witness :
  fst (fst sample_check_status) = 0 /\
  boot_state (ctx_of after_check_find) = (1, 0) /\
  var_strings (ctx_of after_check_find) = var_strings (ctx_of second_find).
Proof.
  assert (R : sample_check_status
              = (0, snd (fst sample_check_status), snd sample_check_status)).
  { apply (run3 sample_check_status). vm_compute. reflexivity. }
  assert (Hrc : 0 <> 1) by discriminate.
  assert (R2 : after_check_find
               = (0, Some (ctx_of after_check_find),
                  snd (fst after_check_find), snd after_check_find)).
  { apply run4_some; vm_compute; [reflexivity|discriminate]. }
  assert (E1 : bootinfo_is_in_progress (ctx_of second_find) = 0)
    by (vm_compute; reflexivity).
  assert (E2 : bootinfo_failed_boot_count (ctx_of second_find) = 0)
    by (vm_compute; reflexivity).
  pose proof (@boot_check_status_protocol small_config small_config_ok
                [] closed_world 0 _ _ no_script_cooperative closed_world_serials
                R Hrc
                true [] closed_world _ _ _ _ no_script_cooperative eq_refl
                second_find_runs
                true [] (snd sample_check_status) 0 _ _ _ no_script_cooperative
                eq_refl R2) as H.
  cbv zeta in H. rewrite E1, E2 in H.
  destruct H as (_ & _ & A & B).
  split; [vm_compute; reflexivity|]. split; [exact A|exact B].
Defined.

(** boot_successful on the device the first session left: it prints the
    count 0 and leaves the state (0, 0) and the variables as they were. *)
Lemma boot_successful_resets_witness :
  snd (fst (fst sample_successful))
  = Some (bootinfo_failed_boot_count (ctx_of second_find)) /\
  boot_state (ctx_of after_successful_find) = (0, 0) /\
  var_strings (ctx_of after_successful_find) = var_strings (ctx_of second_find).
Proof.
  assert (R : sample_successful
              = (0, snd (fst (fst sample_successful)), snd (fst sample_successful),
                 snd sample_successful)).
  { apply (run4 sample_successful). vm_compute. reflexivity. }
  assert (R2 : after_successful_find
               = (0, Some (ctx_of after_successful_find),
                  snd (fst after_successful_find), snd after_successful_find)).
  { apply run4_some; vm_compute; [reflexivity|discriminate]. }
  pose proof (@boot_successful_resets small_config small_config_ok
                [] closed_world _ _ _ no_script_cooperative closed_world_serials R
                true [] closed_world _ _ _ _ no_script_cooperative eq_refl
                second_find_runs
                true [] (snd sample_successful) 0 _ _ _ no_script_cooperative
                eq_refl R2) as H.
  destruct H as (A & _ & B & C).
  split; [exact A|]. split; [exact B|exact C].
Defined.

(** boot_devinfo_init with force on the device the first session left, which
    holds [foo=bar] and [_k=1]: slot 1 is zero-filled, and the load that
    follows finds slot 0 with serial number 1 and the variable [_k] alone. *)
Lemma boot_devinfo_init_initializes_witness :
  @dev_slot small_config (snd sample_force_init) 1
  = zeros (@INFOBUF_SIZE small_config) /\
  current (ctx_of after_force_find) = 0 /\
  sernum (curinfo (ctx_of after_force_find)) = 1 /\
  boot_state (ctx_of after_force_find) = (0, 0) /\
  var_strings (ctx_of after_force_find)
  = filter underscore (var_strings (ctx_of second_find)).
Proof.
  assert (R : sample_force_init
              = (0, snd (fst sample_force_init), snd sample_force_init)).
  { apply (run3 sample_force_init). vm_compute. reflexivity. }
  assert (R2 : after_force_find
               = (0, Some (ctx_of after_force_find),
                  snd (fst after_force_find), snd after_force_find)).
  { apply run4_some; vm_compute; [reflexivity|discriminate]. }
  pose proof (@boot_devinfo_init_initializes small_config small_config_ok
                true [] closed_world _ _ no_script_cooperative
                (or_introl eq_refl) R) as H.
  destruct H as (A & H).
  pose proof (H true [] closed_world _ _ _ _ no_script_cooperative eq_refl
                second_find_runs
                true [] (snd sample_force_init) 0 _ _ _ no_script_cooperative
                eq_refl R2) as H1.
  destruct H1 as (_ & B & C & D & E).
  split; [exact A|]. split; [exact B|]. split; [exact C|].
  split; [exact D|exact E].
Defined.

(** boot_devinfo_init without force on the device the first session left:
    it exits with 0 and writes nothing. *)
Lemma boot_devinfo_init_keeps_store_witness :
  fst (fst sample_init) = 0 /\
  w_dev (snd sample_init) = w_dev closed_world /\
  w_trace (snd sample_init) = w_trace closed_world.
Proof.
  assert (Hv : @slot_valid small_config (@dev_slot small_config closed_world 0)
               || @slot_valid small_config (@dev_slot small_config closed_world 1)
               = true) by (vm_compute; reflexivity).
  exact (@boot_devinfo_init_keeps_store small_config small_config_ok
           [] closed_world _ _ _ no_script_cooperative Hv (run3_eta sample_init)).
Defined.


(** The device the first session left, read-only by its sysfs switch.  A
    write-mode open that loads the store makes it writeable and
    bootinfo_close makes it read-only again; after a forced initialization
    bootinfo_close leaves it writeable. *)
Lemma close_after_init_leaves_writeable_witness :
  w_ro switch_world = Some true /\
  w_ro (snd switch_open) = Some false /\
  w_ro (bootinfo_close (ctx_of switch_open) (snd switch_open)) = Some true /\
  w_ro (snd switch_force_open) = Some false /\
  w_ro (bootinfo_close (ctx_of switch_force_open) (snd switch_force_open))
  = Some false.
Proof.
  assert (Hl : 6 <= zlen (strz (@BOOTINFO_STORAGE_DEVICE small_config)) <= 32)
    by (split; apply Z.leb_le; vm_compute; reflexivity).
  assert (Hr : w_ro switch_world = Some true) by (vm_compute; reflexivity).
  assert (R1 : switch_open
               = (0, Some (ctx_of switch_open), snd (fst switch_open),
                  snd switch_open)).
  { apply run4_some; vm_compute; [reflexivity|discriminate]. }
  assert (R2 : switch_force_open
               = (0, Some (ctx_of switch_force_open), snd (fst switch_force_open),
                  snd switch_force_open)).
  { apply run4_some; vm_compute; [reflexivity|discriminate]. }
  assert (N1 : ~ (Z.land 0 BOOTINFO_O_FORCE_INIT <> 0 \/
                  fst (fst (fst (@find_bootinfo small_config false
                                   (snd (respond [])) switch_world))) <> 0)).
  { intros [E|E]; apply E; vm_compute; reflexivity. }
  assert (A4 : Z.land BOOTINFO_O_FORCE_INIT BOOTINFO_O_FORCE_INIT <> 0)
    by (vm_compute; discriminate).
  pose proof (@close_after_init_leaves_writeable small_config small_config_ok
                0 [] switch_world _ _ _ true eq_refl Hl Hr R1) as H1.
  pose proof (@close_after_init_leaves_writeable small_config small_config_ok
                BOOTINFO_O_FORCE_INIT [] switch_world _ _ _ true eq_refl Hl Hr R2)
    as H2.
  cbv zeta in H1, H2.
  destruct H1 as (B1 & B2 & _). destruct H2 as (C1 & _ & C2).
  split; [exact Hr|]. split; [exact B1|]. split; [exact (proj1 (B2 N1))|].
  split; [exact C1|exact (proj1 (C2 (or_introl A4)))].
Defined.

